(* ===== verification/_CoqProject ===== *)
-Q . S2P
Prelude.v
Float64.v
GoLib.v
FloatRound.v
Csv.v
Fmt.v
Phase.v
Database.v
JobStore.v
Tables.v
Chaos.v
Lifecycle.v
Qasm.v
Views.v
Filter.v
Policies.v
Fronts.v
Scheduler.v
FairShare.v
Auth.v
Admission.v
Api.v
ApiProps.v
Prog.v
Dispatch.v
DispatchProps.v
Progress.v
Registry.v
Operator.v
Evidence.v
Leader.v
Adapter.v
AdapterProps.v
Delivery.v
Conformance.v
FakeConforms.v
Probe.v
StatusPage.v
Daemon.v
LoadTest.v
Gate.v
Bench.v
BenchProps.v
Runner.v
Login.v
Cli.v
Boot.v
DeepCopy.v
OperatorMain.v
Gateway.v
LoadGen.v
Certify.v
