(* ===== verification/Prelude.v ===== *)
(** * Rabi: a verified model of the quantum control plane

    Rabi accepts quantum jobs over gRPC, stores them in Postgres, places each
    on a device of a fleet of adapters, runs it there and bills its usage.
    This library models the Go code of the control plane (src/internal), of
    its Kubernetes operator (src/operator) and of the adapter certification
    suite (src/conformance), with the daemon and the client (src/cmd), as
    executable functions, and proves what makes it correct.

    ** The program and the files that model it

    - Phases of a job, src/internal/job/phase.go: [Phase].  The transition
      table and its checks, on strings as in the source and the database.
    - The store, src/internal/store: [Database] (rows and tables as a value),
      [JobStore] (jobs.go, tasks.go) and [Tables] (sessions, tenancy, tokens,
      audit, accounting, shadow, game days).  A method is a function from the
      database to its result and the next database; what it does in one
      transaction or statement is one atomic step.
    - The chaos checks, src/internal/chaos/invariants.go: [Chaos].
    - [Lifecycle]: the step relation [store_step] of all state-changing
      statements, in any order and from any number of clients, its reachable
      databases and their invariant.
    - The scheduler, src/internal/scheduler: [Qasm] (circuit profiles),
      [Views] (documents and targets as scheduler values), [Filter]
      (feasibility), [Policies] (scores), [Fronts] (the non-dominated sort),
      [Scheduler] (the pipeline, the six policies, relaxed floors).
    - Fair share between projects, src/internal/dispatch/fairshare.go:
      [FairShare].
    - Authentication, authorization and audit, src/internal/auth and
      src/internal/api/auth.go: [Auth].  Admission of documents,
      src/internal/job/validate.go: [Admission].  The RPC handlers,
      src/internal/api/{jobs,services,admin}.go: [Api], their properties
      [ApiProps].
    - The dispatcher, src/internal/dispatch: [Prog] (goroutines as trees of
      commands, their steps and the judgements [always] and [obeys] about
      all their executions), [Dispatch] (dispatcher.go, sessions.go,
      conflict.go, one program per method, and the process that interleaves
      them), [DispatchProps]; [Progress]: that it gets somewhere.
    - Leader election, src/internal/ha/leader.go: [Leader], against advisory
      locks as an interface (the class [AdvisoryLocks] and its laws).
    - The fleet registry, src/internal/registry/registry.go and [entryToView]
      of the dispatcher: [Registry].
    - The Kubernetes operator, src/operator/controller: [Operator]; its
      process, src/operator/main.go: [OperatorMain]; the deep copies of its
      resources, src/operator/api: [DeepCopy], over an explicit heap.
    - Numbers about a run: cycle percentiles (dispatch/metrics.go,
      loadtest/stats.go), cost records (accounting/normalize.go), the shadow
      report (shadow/report.go), the benchmark gate's comparison
      (benchgate/gate.go) and the probes' fidelity (probe/probe.go,
      [analyze]): [Evidence].
    - The gate as a command (benchgate/gate.go, cmd/rabi-bench-gate/main.go)
      and the cost export read back: [Gate], over encoding/csv in [Csv].
    - The daemon's configuration (cmd/rabid/main.go and auth.go, the group
      mapping of OIDC roles, store/redact.go), the invariant sweep of
      cmd/rabi-chaos and the report of cmd/rabi-shadow: [Daemon].
    - The load tests, src/internal/loadtest (harness.go, storm.go, soak.go)
      and cmd/rabi-load: what they submit, count and conclude: [LoadTest];
      their goroutines, the stack they build and tear down, and the two
      commands: [LoadGen].
    - Probes, the status page and the metrics endpoint (probe/probe.go,
      status/status.go, api/metrics.go): [Probe], over the store and the table
      of probe results.  The page itself (status/template.go,
      api/status_handler.go): [StatusPage].
    - The in-memory adapter, src/internal/adaptertest/fake.go: [Adapter] (RPCs,
      task goroutines and time as a step relation), [AdapterProps]; the
      dispatcher's processes and the adapter together: [Delivery].
    - The certification suite, src/conformance: [Conformance] (the categories
      as programs of calls to any [Service], the recorder, the report) and
      [FakeConforms] (the suite run against the in-memory adapter).
    - The benchmark runner, src/bench/runner/main.go: [Bench] (the workload and
      the discrete-event simulation), [BenchProps]; its main: [Runner].
    - The client, src/cmd/rabi: [Login] (login.go and [dial] of main.go: the
      stored credentials, their refresh, the credential of a command) and
      [Cli] (every other command, against [Api] behind [Auth]'s interceptor).
    - Starting and stopping, src/internal/store/store.go, the notification
      wait of store/tasks.go, src/internal/api/server.go and main of
      src/cmd/rabid: [Boot], with the trace of what was opened and closed.
    - The REST gateway, src/gen/go/tangle/api/v1alpha1/jobs.pb.gw.go and
      src/api-config.yaml: [Gateway], against grpc-gateway's multiplexer as an
      interface (the class [ServeMux] and its laws).
    - The certification command, src/cmd/rabi-conformance/main.go: [Certify].
    - [Fmt]: what fmt and text/tabwriter do to the values the client prints
      and scans.  [Float64], [FloatRound] and [GoLib]: Go's float64, bounds on the rounding
      of its sums, and the parts of its standard
      library that the code calls (strings, strconv, base64, time, JSON
      values).  This file: results, sorting, scanning for a maximum, tactics.

    The parts meet at the database.  [Api]'s handlers and [Dispatch]'s
    programs call the functions of [JobStore] and [Tables]; every such call is
    a [store_step], so what [Lifecycle] proves of reachable databases holds
    whatever the API, any number of dispatchers, the adapters and crashes do.
    [Operator] calls [Api] through a network that loses requests and replies;
    [Registry] supplies the fleet that [Scheduler] and [Dispatch] read.

    ** What is shown

    - Lifecycle: event chains are gapless, jobs are never lost, a charge or a
      success is never duplicated, terminal phases are final, a job is bound
      at most once; and when an event may follow a terminal one.
    - Dispatcher: the process, however it interleaves and wherever it stops,
      only takes store steps and has one executor per job; a bind respects the
      job's capabilities, selectors, session and floors; an executor leaves its
      job in a terminal phase unless the process is stopping or the task
      succeeded with a usage amount that JSON cannot hold, and what becomes of
      the job then; a finished task is billed once; a job that cannot start
      fails.  The loop of [Run] begins at most one cycle more than it bound
      jobs between two waits, and runs one in every round in which the leader
      gate is open; an executor whose adapter answers ends.
      With the adapter: a job
      runs at most once on its device, whatever crashes and takes over, and
      what a takeover can lose nevertheless.
    - API: what an accepted submission and a refused one leave; project
      isolation; complete paging and watching; cancelling; audit of every
      call; soundness of tokens; admission as a specification.
    - REST: a request runs the method of the one rule of api-config.yaml that
      applies to it, with the same credential and the same answer; only a POST
      that its credential's role and project authorize changes more than the
      last use of the token presented and the records added to the audit log.
    - Scheduler and fair share: feasibility as a declarative predicate, best
      score, independence of the fleet's order, a complete audit of
      rejections, policies only narrow, relaxed floors, round robin, the
      non-dominated sort, fair ordering.
    - Fleet and operator: well-formed views that route back to their adapter;
      the operator creates no second job and deletion stops the job, with the
      failures under which it does not; its process starts its parts in order
      and never its manager without a token and its kinds in the scheme; a copy
      of its resources is equal to them and shares no memory with them.
    - Leader election: at most one live leader that has not begun to resign,
      the window in which a resigning one believes to lead beside its
      successor, failover to the first standby that polls, and when nobody can
      lead again.
    - Adapter and certification: the adapter's tables stay consistent, tasks
      only move forward and finish in bounded time, resubmitting a key returns
      the same task; the suite passes the adapter in every interleaving in
      which no goroutine writes a status while a reply reads it, detects its
      two broken variants, and can fail when one does; what the idempotency
      verdict means for any adapter.
    - Probes and status: a probe can only run on its own target, a harvest
      records exactly the finished probes it can, each once, and when it stops
      doing so; what the status page's verdict means, and that no text it
      shows can change its markup.
    - Benchmark: the simulation ends whatever the policy does, with a panic
      when there is no job and only then; every reported
      execution is a feasible placement of its job, targets run one job at a
      time, and floors break only when the calibration moved on in the queue;
      the command leaves one schedule per policy and seed.
    - Evidence: the percentiles are those of the last cycles; the cost export
      is a function of the set of ledger rows, and reading it back gives the
      records that were written; the gate's exit code says exactly whether an
      unexplained regression is there, and what it cannot see.
    - Operations: the sweep finds nothing in a reachable database, and what it
      would miss; a role from OIDC groups has a group that grants it; a
      redacted connection string does not depend on the password.
    - Client: which credential a command presents; a login needs the state it
      generated and lasts; a submission that exits with 0 printed the job that
      is now in the database, or for a dry run the job that was admitted, on
      behalf of the credential presented; the cost export is the ledger that
      this credential may see, priced; what
      [quota set] stores; what the live view counts; columns line up.
    - Starting: opening the store ends and leaks no pool or handle on any way
      out; the daemon's parts start in one order and it serves only behind an
      authenticator; a certificate's signature is of the report's bytes, and
      the exit code is the verdict.
    - Load tests: which jobs of a seeded workload can be placed, and when the
      storm's and the soak's verdicts are a pass; however the goroutines
      interleave, the seeding ends and, without an error, left every job in
      the store, and the probing ends after exactly the probes asked for.

    ** Bounds and fuel

    Loops over data are structural or run on a fuel that is shown to be
    enough: [fronts_total] (n + 1 rounds for n targets), [fair_loop] (one round
    per pending job, none of which can fail), the regular-expression matcher
    (a star matches at most as often as the text has characters).  [follow], [run_cycles] and [Run] take a number
    of rounds because they run until the process stops; running out of rounds
    is the process stopping there, and the theorems about them hold for every
    number of rounds and at every step; the pauses and waits between rounds are
    commands of their programs.  The benchmark's event
    loop runs on a fuel that [simulate_total] shows to exist: a round takes an
    arrival or moves a retry time up, and the sum of what is left, counted in
    units of 2^-1074 seconds, decreases.  The suite's wait for a task runs for
    [await_rounds], one more than the timeout divided by the pause of a round,
    and reads at most as many messages from a watch as it is given rounds;
    [fake_certification] shows that neither runs out.  The store's ping loop
    has [ping_fuel], 61 pings, a second apart, for its minute
    ([pinged_total]).  Machine integers are [Z] with their
    wrap-around written out where the code's arithmetic can reach it; times are
    nanoseconds since year 1 on [Z].

    ** What is not modelled

    Failures of the database connection after it was opened (a call that fails
    leaves the database as it was), among them the refusal of a document with a
    NUL character, which JSON can hold and Postgres cannot, and the SQL of the migrations, whose result
    is the schema of [Database]; reads that another goroutine's write tears,
    outside the two replies of [Adapter] that can; logging, timeouts (the deadlines of a command
    and of a certification run among them) and the length of back-off pauses; net/http and
    gRPC themselves; the clock, the latencies and the runtime's measurements
    of a load run (arguments of [LoadTest] and [LoadGen]); cobra's flag
    parsing; controller-runtime and the event wiring it asks for; generated messages and stubs, the Python adapters and the console.  Arguments stand for
    SHA-256, math.Exp, random draws, the URL, YAML, JSON, JSON Schema, protobuf, OIDC, ed25519
    and gRPC libraries and the texts of their errors.  Floats follow IEEE 754 without
    fused operations, as on amd64; [strings] functions treat ASCII white
    space only. *)

From stdpp Require Export base decidable list gmap strings fin_maps relations.
From Stdlib Require Export Ascii ZArith Lia Bool Sorted.

#[global] Open Scope string_scope.
#[global] Open Scope list_scope.
#[global] Open Scope bool_scope.
#[global] Open Scope Z_scope.

(** ** Results: Go's [(value, error)] pairs *)

Inductive result (E A : Type) : Type :=
| Ok (a : A)
| Err (e : E).
Arguments Ok {E A} a.
Arguments Err {E A} e.

Definition rbind {E A B} (r : result E A) (k : A -> result E B) : result E B :=
  match r with Ok a => k a | Err e => Err e end.

Definition is_ok {E A} (r : result E A) : bool :=
  match r with Ok _ => true | Err _ => false end.

Declare Scope rabi_scope.
Delimit Scope rabi_scope with rabi.
Notation "'let?' x := r 'in' k" := (rbind r (fun x => k))
  (at level 10, x pattern, r at level 100, k at level 200) : rabi_scope.
Notation "'guard?' b 'else' e 'in' k" := (if b then k else Err e)
  (at level 10, b at level 100, e at level 100, k at level 200) : rabi_scope.
#[global] Open Scope rabi_scope.

(** ** Proof automation *)

(** [dm] splits one [match]/[if] of the goal or of a hypothesis, keeping the
    equation; [crush] iterates it with the usual closers. *)
Ltac dm :=
  match goal with
  | |- context [match ?x with _ => _ end] => destruct x eqn:?
  | H : context [match ?x with _ => _ end] |- _ => destruct x eqn:?
  end.

Ltac invc H := inversion H; subst; clear H.

Ltac crush := repeat (simplify_eq/=; try done; dm).

(** Turn the boolean tests of the code into propositions. *)
Ltac to_prop :=
  repeat match goal with
  | H : _ && _ = true |- _ => apply andb_true_iff in H as [? ?]
  | H : _ || _ = false |- _ => apply orb_false_iff in H as [? ?]
  | H : negb _ = true |- _ => apply negb_true_iff in H
  | H : negb _ = false |- _ => apply negb_false_iff in H
  | H : String.eqb _ _ = true |- _ => apply String.eqb_eq in H
  | H : String.eqb _ _ = false |- _ => apply String.eqb_neq in H
  | H : Z.ltb _ _ = true |- _ => apply Z.ltb_lt in H
  | H : Z.ltb _ _ = false |- _ => apply Z.ltb_ge in H
  | H : Z.leb _ _ = true |- _ => apply Z.leb_le in H
  | H : Z.leb _ _ = false |- _ => apply Z.leb_gt in H
  | H : Z.eqb _ _ = true |- _ => apply Z.eqb_eq in H
  | H : Z.eqb _ _ = false |- _ => apply Z.eqb_neq in H
  | H : bool_decide _ = true |- _ => apply bool_decide_eq_true_1 in H
  | H : bool_decide _ = false |- _ => apply bool_decide_eq_false_1 in H
  end.

Create HintDb rabi discriminated.

(** ** Sorting, as Go's [sort] package uses it

    [sort.Slice], [sort.Strings] and [sort.Float64s] all take a strict
    "less" test.  The model is insertion sort, which is what pdqsort runs on
    slices of at most twelve elements; the lemmas below show that the result
    is a sorted permutation, and that it is the only one when no two elements
    are equivalent, so there the choice of algorithm cannot be observed. *)
Section Sorting.
Context {A : Type} (less : A -> A -> bool).

Fixpoint insert_by (x : A) (l : list A) : list A :=
  match l with
  | [] => [x]
  | y :: l' => if less x y then x :: l else y :: insert_by x l'
  end.

Fixpoint sort_acc (acc l : list A) : list A :=
  match l with [] => acc | x :: l' => sort_acc (insert_by x acc) l' end.

Definition sort_by (l : list A) : list A := sort_acc [] l.

Lemma insert_by_perm x l : insert_by x l ≡ₚ x :: l.
Proof.
  induction l as [|y l IH]; [done|]; simpl. destruct (less x y); [done|].
  rewrite IH. apply perm_swap.
Qed.

Lemma sort_acc_perm acc l : sort_acc acc l ≡ₚ acc ++ l.
Proof.
  revert acc. induction l as [|x l IH]; intros acc; simpl; [by rewrite app_nil_r|].
  rewrite IH, insert_by_perm. simpl. by rewrite Permutation_middle.
Qed.

Lemma sort_by_perm l : sort_by l ≡ₚ l.
Proof. apply sort_acc_perm. Qed.

Lemma sort_by_length l : length (sort_by l) = length l.
Proof. by rewrite sort_by_perm. Qed.

Lemma elem_of_sort_by x l : x ∈ sort_by l <-> x ∈ l.
Proof. by rewrite sort_by_perm. Qed.

Lemma sort_by_nil_inv l : sort_by l = [] -> l = [].
Proof. intros H. apply Permutation_nil. rewrite <- H. apply sort_by_perm. Qed.

Definition not_after (a b : A) : Prop := less b a = false.

Hypothesis less_asym : forall a b, less a b = true -> less b a = false.
Hypothesis not_after_trans : forall a b c, not_after a b -> not_after b c -> not_after a c.

Lemma insert_by_sorted x l :
  StronglySorted not_after l -> StronglySorted not_after (insert_by x l).
Proof.
  induction 1 as [|y l Hs IH Hf]; simpl; [repeat constructor|].
  destruct (less x y) eqn:E.
  - assert (not_after x y) by (by apply less_asym).
    constructor; [by constructor|]. constructor; [done|].
    eapply Forall_impl; [exact Hf|]. eauto.
  - constructor; [done|]. rewrite insert_by_perm. by constructor.
Qed.

Lemma sort_by_sorted l : StronglySorted not_after (sort_by l).
Proof.
  unfold sort_by. assert (H : StronglySorted not_after []) by constructor.
  revert H. generalize (@nil A). induction l as [|x l IH]; intros acc H; simpl; [done|].
  apply IH, insert_by_sorted, H.
Qed.

(** Two sorted permutations agree once incomparable elements are equal. *)
Lemma sorted_perm_unique l1 l2 :
  (forall a b, a ∈ l1 -> b ∈ l1 -> less a b = false -> less b a = false -> a = b) ->
  StronglySorted not_after l1 -> StronglySorted not_after l2 -> l1 ≡ₚ l2 -> l1 = l2.
Proof.
  intros Hx H1. revert l2 Hx.
  induction H1 as [|a l1 H1 IH F1]; intros l2 Hx H2 Hp;
    [symmetry; by apply Permutation_nil|].
  destruct H2 as [|b l2 H2 F2]; [by apply Permutation_nil_r in Hp|].
  assert (a = b) as ->.
  { rewrite Forall_forall in F1, F2.
    assert (Hb : b ∈ a :: l1) by (rewrite Hp; left).
    assert (Ha : a ∈ b :: l2) by (rewrite <- Hp; left).
    apply elem_of_cons in Hb as [->|Hb]; [done|].
    apply elem_of_cons in Ha as [->|Ha]; [done|].
    apply Hx; [left | by right | by apply F2 | by apply F1]. }
  f_equal. apply IH; [|done|by eapply Permutation_cons_inv].
  intros x y ? ?. apply Hx; by right.
Qed.

(** Hence every implementation of the sort returns the list of the model. *)
Lemma sort_by_unique l out :
  (forall a b, a ∈ l -> b ∈ l -> less a b = false -> less b a = false -> a = b) ->
  StronglySorted not_after out -> out ≡ₚ l -> out = sort_by l.
Proof.
  intros Hx Hs Hp. symmetry. apply sorted_perm_unique; [|apply sort_by_sorted|done|].
  - intros a b. rewrite !elem_of_sort_by. apply Hx.
  - by rewrite sort_by_perm.
Qed.
End Sorting.

(** The first element of a sorted list is not after any other. *)
Lemma sorted_head_le {A} (less : A -> A -> bool) x l y :
  StronglySorted (not_after less) (x :: l) -> (forall a, less a a = false) ->
  y ∈ x :: l -> less y x = false.
Proof.
  intros Hs Hr [->|Hy]%elem_of_cons; [apply Hr|].
  inversion Hs as [|? ? _ Hf]; subst. rewrite Forall_forall in Hf. by apply Hf.
Qed.

(** ** Scanning for the best element

    [scan_best gt l] is the loop
    [for i, t := range l { if best == nil || score(t) > score(best) { best = t } }]. *)
Section ScanBest.
Context {A : Type} (gt : A -> A -> bool).

Definition scan_step (best : option A) (x : A) : option A :=
  match best with
  | None => Some x
  | Some b => if gt x b then Some x else Some b
  end.

Definition scan_best (l : list A) : option A := fold_left scan_step l None.

Lemma scan_from_some l b : exists c, fold_left scan_step l (Some b) = Some c /\ c ∈ b :: l.
Proof.
  revert b. induction l as [|x l IH]; intros b; simpl; [exists b; split; [done|left]|].
  destruct (gt x b).
  - destruct (IH x) as (c & -> & Hc). exists c. split; [done|]. by right.
  - destruct (IH b) as (c & -> & Hc). exists c. split; [done|].
    apply elem_of_cons in Hc as [->|Hc]; [left|by right; right].
Qed.

Lemma scan_best_elem l b : scan_best l = Some b -> b ∈ l.
Proof.
  destruct l as [|x l]; [done|]. unfold scan_best. simpl.
  destruct (scan_from_some l x) as (c & -> & Hc). by intros [= ->].
Qed.

Lemma scan_best_none l : scan_best l = None <-> l = [].
Proof.
  destruct l as [|x l]; [done|]. unfold scan_best. simpl.
  destruct (scan_from_some l x) as (c & -> & _). done.
Qed.

Hypothesis gt_irrefl : forall a, gt a a = false.
Hypothesis gt_trans : forall a b c, gt a b = true -> gt b c = true -> gt a c = true.
Hypothesis gt_neg_trans : forall a b c, gt a b = false -> gt b c = false -> gt a c = false.

Lemma scan_from_max l b c :
  fold_left scan_step l (Some b) = Some c -> forall x, x ∈ b :: l -> gt x c = false.
Proof.
  revert b. induction l as [|y l IH]; intros b; simpl.
  { intros [= ->] x ->%list_elem_of_singleton. apply gt_irrefl. }
  destruct (gt y b) eqn:E; intros Hc x [->|Hx]%elem_of_cons.
  - assert (H : gt y c = false) by (eapply IH; [done|left]).
    destruct (gt b c) eqn:Eb; [|done].
    rewrite (gt_trans _ _ _ E Eb) in H. done.
  - by eapply IH.
  - eapply IH; [done|left].
  - apply elem_of_cons in Hx as [->|Hx].
    + eapply gt_neg_trans; [exact E|]. eapply IH; [done|left].
    + eapply IH; [done|by right].
Qed.

(** The scan returns a maximum: nothing in the list beats it. *)
Lemma scan_best_max l b x : scan_best l = Some b -> x ∈ l -> gt x b = false.
Proof.
  destruct l as [|y l]; [by intros ? ?%elem_of_nil|]. unfold scan_best. simpl.
  intros Hb Hx. by eapply scan_from_max.
Qed.

(** ... and the first such element: everything before it is strictly worse. *)
Lemma scan_best_first l b :
  scan_best l = Some b ->
  exists l1 l2, l = l1 ++ b :: l2 /\ forall x, x ∈ l1 -> gt b x = true.
Proof.
  revert b. induction l as [|y l IH] using rev_ind; intros b; [done|].
  unfold scan_best in *. rewrite fold_left_app. simpl.
  destruct (fold_left scan_step l None) as [a|] eqn:E; simpl.
  - destruct (IH a eq_refl) as (l1 & l2 & -> & Hlt).
    destruct (gt y a) eqn:G; intros [= <-].
    + exists (l1 ++ a :: l2), []. split; [by rewrite <- app_assoc|].
      intros x Hx. destruct (gt y x) eqn:Gx; [done|].
      assert (gt x a = false) by (eapply (scan_best_max (l1 ++ a :: l2)); eauto).
      rewrite (gt_neg_trans y x a) in G; done.
    + exists l1, (l2 ++ [y]). split; [by rewrite <- app_assoc|done].
  - apply (scan_best_none l) in E as ->. intros [= <-].
    exists [], []. split; [done|]. by intros x ?%elem_of_nil.
Qed.
End ScanBest.

(** ** Reachability *)

(** A property of the initial state that every step preserves holds of every
    reachable state. *)
Lemma rtc_invariant {A} (R : A -> A -> Prop) (P : A -> Prop) x y :
  P x -> (forall a b, R a b -> P a -> P b) -> rtc R x y -> P y.
Proof. intros Hx Hs H. revert Hx. induction H; eauto. Qed.

#[export] Hint Resolve sort_by_perm : rabi.
