(* ===== verification/Float64.v ===== *)
(** * IEEE 754 binary64

    Go's [float64], as the Standard Library's executable [spec_float] at
    precision 53: arithmetic rounds to nearest even, overflows to infinities
    and produces NaN exactly as the hardware does, and every comparison with a
    NaN is false.  The file gives the operations the control plane uses
    (arithmetic, comparison, [sort.Float64s], conversions, [math.Pow] with an
    integral exponent, [%.4f]/[%.4g] formatting) and the order lemmas on which
    the scheduling theorems rest. *)

From S2P Require Import Prelude.
From Stdlib Require Export SpecFloat.
From Stdlib Require Import DecimalString DecimalPos.

Abbreviation float64 := spec_float.

Definition fadd : float64 -> float64 -> float64 := SFadd 53 1024.
Definition fsub : float64 -> float64 -> float64 := SFsub 53 1024.
Definition fmul : float64 -> float64 -> float64 := SFmul 53 1024.
Definition fdiv : float64 -> float64 -> float64 := SFdiv 53 1024.
Definition fopp : float64 -> float64 := SFopp.
Definition fabs : float64 -> float64 := SFabs.
Definition flt : float64 -> float64 -> bool := SFltb.
Definition fle : float64 -> float64 -> bool := SFleb.
Definition fgt (a b : float64) : bool := SFltb b a.
Definition fge (a b : float64) : bool := SFleb b a.
Definition feq : float64 -> float64 -> bool := SFeqb.

(** [float64(n)] for an integer, and the decimal literal [n/d]. *)
Definition f_of_Z (z : Z) : float64 := binary_normalize 53 1024 z 0 false.
Definition f_lit (n d : Z) : float64 := fdiv (f_of_Z n) (f_of_Z d).
Definition f0 : float64 := S754_zero false.
Definition f1 : float64 := f_of_Z 1.

Definition is_nan (x : float64) : bool := match x with S754_nan => true | _ => false end.

#[global] Instance float64_eq_dec : EqDecision float64.
Proof. solve_decision. Defined.

(** [math.Min]/[math.Max]: NaN is contagious and -0 < +0; an infinity of the
    favoured sign wins even over NaN. *)
Definition math_min (x y : float64) : float64 :=
  match x, y with
  | S754_infinity true, _ | _, S754_infinity true => S754_infinity true
  | S754_nan, _ | _, S754_nan => S754_nan
  | S754_zero sx, S754_zero _ => if sx then x else y
  | _, _ => if flt x y then x else y
  end.

Definition math_max (x y : float64) : float64 :=
  match x, y with
  | S754_infinity false, _ | _, S754_infinity false => S754_infinity false
  | S754_nan, _ | _, S754_nan => S754_nan
  | S754_zero sx, S754_zero _ => if sx then y else x
  | _, _ => if fgt x y then x else y
  end.

(** [int64(x)]: truncation towards zero; NaN and out-of-range values give the
    amd64 "integer indefinite" value. *)
Definition int64_min : Z := - 2 ^ 63.
Definition int64_max : Z := 2 ^ 63 - 1.

Definition f_trunc (x : float64) : Z :=
  match x with
  | S754_finite s m e =>
      cond_Zopp s (if 0 <=? e then Z.pos m * 2 ^ e else Z.pos m / 2 ^ (- e))
  | _ => 0
  end.

Definition f_to_int64 (x : float64) : Z :=
  match x with
  | S754_finite _ _ _ | S754_zero _ =>
      let z := f_trunc x in
      if (int64_min <=? z) && (z <=? int64_max) then z else int64_min
  | _ => int64_min
  end.

(** The unsigned conversions [uint32(x)] and [uint64(x)] on the non-negative
    numbers the admission schema lets through keep the low bits of the
    truncated value. *)
Definition f_to_uint (w : Z) (x : float64) : Z := f_trunc x mod 2 ^ w.

(** [math.Pow(x, float64(n))] for an [int] exponent [n >= 1], following the
    portable implementation: special cases first, then square-and-multiply on
    the fraction of [x] with the exponent kept apart. *)
Fixpoint pow_loop (fuel : nat) (i : Z) (x1 : float64) (xe : Z) (a1 : float64) (ae : Z)
  : float64 * Z :=
  match fuel with
  | O => (a1, ae)
  | S fuel' =>
      if i =? 0 then (a1, ae)
      else if (xe <? -4096) || (4096 <? xe) then (a1, ae + xe)
      else
        let a1' := if Z.odd i then fmul a1 x1 else a1 in
        let ae' := if Z.odd i then ae + xe else ae in
        let x2 := fmul x1 x1 in
        let small := flt x2 (f_lit 1 2) in
        pow_loop fuel' (Z.shiftr i 1) (if small then fadd x2 x2 else x2)
                 (if small then 2 * xe - 1 else 2 * xe) a1' ae'
  end.

Definition math_pow_int (x : float64) (n : Z) : float64 :=
  if (n =? 0) || feq x f1 then f1
  else if n =? 1 then x
  else match x with
  | S754_nan => S754_nan
  | S754_zero s => if Z.odd n then S754_zero s else f0
  | S754_infinity s => if s && Z.odd n then S754_infinity true else S754_infinity false
  | S754_finite _ _ _ =>
      let '(fr, ex) := SFfrexp 53 1024 x in
      let '(a1, ae) := pow_loop 64 n fr ex f1 0 in
      SFldexp 53 1024 a1 ae
  end.

(** ** Order *)

(** A lexicographic key that [SFcompare] compares. *)
Definition fkey (x : float64) : Z * Z * Z :=
  match x with
  | S754_infinity true => (-2, 0, 0)
  | S754_finite true m e => (-1, - e, - Z.pos m)
  | S754_zero _ => (0, 0, 0)
  | S754_finite false m e => (1, e, Z.pos m)
  | S754_infinity false => (2, 0, 0)
  | S754_nan => (3, 0, 0)
  end.

Definition key_lt (a b : Z * Z * Z) : Prop :=
  let '(x, y, z) := a in
  let '(x', y', z') := b in
  x < x' \/ (x = x' /\ (y < y' \/ (y = y' /\ z < z'))).

Lemma flt_key x y :
  flt x y = true <-> is_nan x = false /\ is_nan y = false /\ key_lt (fkey x) (fkey y).
Proof.
  unfold flt, SFltb, key_lt.
  destruct x as [sx|sx| |sx mx ex], y as [sy|sy| |sy my ey];
    try destruct sx; try destruct sy; simpl;
    try (split; [done|intros (? & ? & H); lia || done]);
    try (split; [intros _; repeat split; lia|done]);
    destruct (Z.compare_spec ex ey) as [->|?|?];
    try change (Pos.compare_cont Eq mx my) with (Pos.compare mx my);
    try destruct (Pos.compare_spec mx my) as [->|?|?]; simpl;
    (split; [intros; first [done | repeat split; lia]|intros (? & ? & ?); first [done | lia]]).
Qed.

Lemma fgt_flt x y : fgt x y = flt y x.
Proof. done. Qed.

Lemma flt_irrefl x : flt x x = false.
Proof.
  apply not_true_iff_false. rewrite flt_key. intros (_ & _ & H).
  destruct (fkey x) as [[a b] c]. simpl in H. lia.
Qed.

Lemma flt_trans x y z : flt x y = true -> flt y z = true -> flt x z = true.
Proof.
  rewrite !flt_key. intros (? & ? & H) (? & ? & H'). split_and!; try done.
  destruct (fkey x) as [[? ?] ?], (fkey y) as [[? ?] ?], (fkey z) as [[? ?] ?].
  simpl in *. lia.
Qed.

Lemma flt_asym x y : flt x y = true -> flt y x = false.
Proof.
  intros H. apply not_true_iff_false. intros H'.
  pose proof (flt_trans _ _ _ H H') as Hx. by rewrite flt_irrefl in Hx.
Qed.

Lemma flt_false_key x y :
  is_nan x = false -> is_nan y = false ->
  flt x y = false <-> ~ key_lt (fkey x) (fkey y).
Proof. intros. rewrite <- not_true_iff_false, flt_key. tauto. Qed.

(** On numbers, "not less" is transitive; this is what NaN breaks. *)
Lemma flt_neg_trans x y z :
  is_nan x = false -> is_nan y = false -> is_nan z = false ->
  flt x y = false -> flt y z = false -> flt x z = false.
Proof.
  intros Hx Hy Hz. rewrite !flt_false_key by done.
  destruct (fkey x) as [[? ?] ?], (fkey y) as [[? ?] ?], (fkey z) as [[? ?] ?].
  simpl. lia.
Qed.

Lemma fle_nlt x y : is_nan x = false -> is_nan y = false -> fle x y = negb (flt y x).
Proof.
  unfold fle, flt, SFleb, SFltb.
  destruct x as [sx|sx| |sx mx ex], y as [sy|sy| |sy my ey]; try done; intros _ _;
    try destruct sx; try destruct sy; simpl; try done;
    rewrite (Z.compare_antisym ex ey); destruct (Z.compare ex ey); simpl; try done;
    change (Pos.compare_cont Eq mx my) with (Pos.compare mx my);
    change (Pos.compare_cont Eq my mx) with (Pos.compare my mx);
    rewrite (Pos.compare_antisym mx my); by destruct (Pos.compare mx my).
Qed.

(** ** [sort.Float64s]: NaNs first, then ascending *)

Definition float_less (x y : float64) : bool := flt x y || (is_nan x && negb (is_nan y)).
Definition sort_float64s (l : list float64) : list float64 := sort_by float_less l.

Lemma flt_nan_l x y : is_nan x = true -> flt x y = false.
Proof. by destruct x. Qed.
Lemma flt_nan_r x y : is_nan y = true -> flt x y = false.
Proof. by destruct y, x. Qed.

Lemma float_less_irrefl x : float_less x x = false.
Proof. unfold float_less. rewrite flt_irrefl. by destruct (is_nan x). Qed.

Lemma float_less_asym x y : float_less x y = true -> float_less y x = false.
Proof.
  unfold float_less. destruct (is_nan x) eqn:Ex, (is_nan y) eqn:Ey; simpl;
    rewrite ?(flt_nan_l x), ?(flt_nan_r _ x), ?(flt_nan_l y), ?(flt_nan_r _ y) by done;
    simpl; try done.
  rewrite !orb_false_r. apply flt_asym.
Qed.

Lemma float_less_neg_trans x y z :
  not_after float_less x y -> not_after float_less y z -> not_after float_less x z.
Proof.
  unfold not_after, float_less. intros H1 H2. to_prop.
  destruct (is_nan x) eqn:Ex, (is_nan y) eqn:Ey, (is_nan z) eqn:Ez; simpl in *; try done;
    rewrite ?(flt_nan_l x), ?(flt_nan_r _ x), ?(flt_nan_l z), ?(flt_nan_r _ z) by done;
    try done.
  rewrite orb_false_r. by apply (flt_neg_trans z y x).
Qed.

Lemma sort_float64s_sorted l : StronglySorted (not_after float_less) (sort_float64s l).
Proof. apply sort_by_sorted; [apply float_less_asym|apply float_less_neg_trans]. Qed.

Lemma sort_float64s_perm l : sort_float64s l ≡ₚ l.
Proof. apply sort_by_perm. Qed.

(** Two distinct floats are incomparable only when both are zeros. *)
Lemma float_less_incomparable x y :
  float_less x y = false -> float_less y x = false ->
  x = y \/ (exists s s', x = S754_zero s /\ y = S754_zero s').
Proof.
  unfold float_less. intros [H1 Hx]%orb_false_iff [H2 Hy]%orb_false_iff.
  destruct (is_nan x) eqn:Ex, (is_nan y) eqn:Ey; simpl in *; try done.
  { destruct x, y; try done. by left. }
  rewrite flt_false_key in H1, H2 by done.
  destruct x as [[]|[]| |[] mx ex], y as [[]|[]| |[] my ey];
    simpl in *; try done; try lia; eauto 6; try by left.
  - left. f_equal; lia.
  - left. f_equal; lia.
Qed.

(** ** Formatting *)

Definition nat_digits (z : Z) : string := NilEmpty.string_of_uint (N.to_uint (Z.to_N z)).
(** [strconv.Itoa] / [%d]. *)
Definition itoa (z : Z) : string :=
  if z <? 0 then "-" +:+ nat_digits (- z) else if z =? 0 then "0" else nat_digits z.

Fixpoint rep0 (n : nat) : string := match n with O => "" | S n' => String "0"%char (rep0 n') end.

(** [num/den] rounded to the nearest integer, ties to even. *)
Definition div_half_even (num den : Z) : Z :=
  let q := num / den in
  let r := num mod den in
  if (2 * r <? den) then q
  else if (den <? 2 * r) then q + 1
  else if Z.even q then q else q + 1.

(** [|x|] as an exact fraction. *)
Definition frac_of (m : positive) (e : Z) : Z * Z :=
  if 0 <=? e then (Z.pos m * 2 ^ e, 1) else (Z.pos m, 2 ^ (- e)).

Definition split_at (n : nat) (s : string) : string * string :=
  (String.substring 0 n s, String.substring n (String.length s - n) s).

(** [digits] with the decimal point [dp] places from the left and [prec]
    fractional digits, as [strconv]'s [%f] writer prints them. *)
Definition fixed_of_scaled (q : Z) (prec : nat) : string :=
  let ds := nat_digits q in
  let ds := rep0 (S prec - String.length ds) +:+ ds in
  let '(ip, fp) := split_at (String.length ds - prec) ds in
  match prec with O => ip | _ => ip +:+ "." +:+ fp end.

Definition fmt_f (prec : nat) (x : float64) : string :=
  match x with
  | S754_nan => "NaN"
  | S754_infinity s => if s then "-Inf" else "+Inf"
  | S754_zero s => (if s then "-" else "") +:+ fixed_of_scaled 0 prec
  | S754_finite s m e =>
      let '(num, den) := frac_of m e in
      (if s then "-" else "") +:+ fixed_of_scaled (div_half_even (num * 10 ^ Z.of_nat prec) den) prec
  end.

(** [floor (log10 (num/den))]. *)
Fixpoint log10_up (fuel : nat) (num den : Z) : Z :=
  match fuel with
  | O => 0
  | S f => if 10 * den <=? num then 1 + log10_up f num (10 * den) else 0
  end.
Fixpoint log10_down (fuel : nat) (num den : Z) : Z :=
  match fuel with
  | O => 0
  | S f => if num <? den then -1 + log10_down f (10 * num) den else 0
  end.
Definition log10_floor (num den : Z) : Z :=
  if den <=? num then log10_up 400 num den else log10_down 400 num den.

Fixpoint strip_zeros (fuel : nat) (q : Z) : Z :=
  match fuel with
  | O => q
  | S f => if (q mod 10 =? 0) && negb (q =? 0) then strip_zeros f (q / 10) else q
  end.

(** The [nd] significant digits [ds] of a number with the decimal point after
    [dp] of them, in [%f] layout without trailing zeros. *)
Definition layout_f (ds : string) (dp : Z) : string :=
  let nd := Z.of_nat (String.length ds) in
  if dp <=? 0 then "0." +:+ rep0 (Z.to_nat (- dp)) +:+ ds
  else if nd <=? dp then ds +:+ rep0 (Z.to_nat (dp - nd))
  else let '(ip, fp) := split_at (Z.to_nat dp) ds in ip +:+ "." +:+ fp.

Definition layout_e (ds : string) (exp : Z) : string :=
  let '(ip, fp) := split_at 1 ds in
  let ex := nat_digits (Z.abs exp) in
  ip +:+ (if String.eqb fp "" then "" else "." +:+ fp) +:+ "e"
     +:+ (if exp <? 0 then "-" else "+") +:+ rep0 (2 - String.length ex) +:+ ex.

(** [%.Ng] for [N >= 1]. *)
Definition fmt_g (prec : nat) (x : float64) : string :=
  match x with
  | S754_nan => "NaN"
  | S754_infinity s => if s then "-Inf" else "+Inf"
  | S754_zero s => if s then "-0" else "0"
  | S754_finite s m e =>
      let '(num, den) := frac_of m e in
      let x10 := log10_floor num den in
      let k := Z.of_nat prec - 1 - x10 in
      let q := if 0 <=? k then div_half_even (num * 10 ^ k) den
               else div_half_even num (den * 10 ^ (- k)) in
      let '(q, x10) := if q =? 10 ^ Z.of_nat prec then (q / 10, x10 + 1) else (q, x10) in
      let ds := nat_digits (strip_zeros prec q) in
      let nd := Z.of_nat (String.length ds) in
      let dp := x10 + 1 in
      let eprec := if (nd <? Z.of_nat prec) && (dp <=? nd) then nd else Z.of_nat prec in
      (if s then "-" else "") +:+
      (if (x10 <? -4) || (eprec <=? x10) then layout_e ds x10 else layout_f ds dp)
  end.

Example fmt_examples :
  (fmt_f 4 (f_lit 58 100), fmt_f 4 (fopp (f_lit 1 3)), fmt_g 4 (f_lit 71 10000),
   fmt_g 4 (f_lit 6 1000), fmt_g 4 (f_lit 1 100000), fmt_g 4 (f_of_Z 123456), fmt_f 0 (f_of_Z 1500))
  = ("0.5800", "-0.3333", "0.0071", "0.006", "1e-05", "1.235e+05", "1500").
Proof. vm_compute. reflexivity. Qed.

Example pow_examples :
  fmt_f 4 (math_pow_int (f_lit 9 10) 3) = "0.7290" /\ math_pow_int (f_of_Z 2) 10 = f_of_Z 1024.
Proof. vm_compute. done. Qed.
