(* ===== verification/GoLib.v ===== *)
(** * The parts of Go's standard library the control plane calls

    Byte strings and the [strings] functions, [strconv], [encoding/base64],
    [time] instants and durations, and the values of [map[string]any]
    documents that [encoding/json] produces. *)

From Stdlib Require Import DecimalN DecimalString.
From S2P Require Import Prelude Float64.

(** ** Strings *)

Definition code (c : ascii) : Z := Z.of_N (N_of_ascii c).
Definition has_prefix (s p : string) : bool := String.prefix p s.

Fixpoint srev_app (s acc : string) : string :=
  match s with "" => acc | String c s' => srev_app s' (String c acc) end.
Definition srev (s : string) : string := srev_app s "".
Definition has_suffix (s p : string) : bool := String.prefix (srev p) (srev s).

Fixpoint drop (n : nat) (s : string) : string :=
  match n, s with
  | O, _ => s
  | _, "" => ""
  | S n', String _ s' => drop n' s'
  end.

(** [strings.CutPrefix] *)
Definition cut_prefix (s p : string) : option string :=
  if has_prefix s p then Some (drop (String.length p) s) else None.

Lemma append_cons c a b : String c a +:+ b = String c (a +:+ b).
Proof. done. Qed.

Lemma prefix_append p x : String.prefix p (p +:+ x) = true.
Proof.
  induction p as [|c p IH]; [by destruct x|]. rewrite append_cons. simpl.
  by destruct (ascii_dec c c).
Qed.

Lemma drop_append p x : drop (String.length p) (p +:+ x) = x.
Proof. induction p as [|c p IH]; [by destruct x|]. by rewrite append_cons. Qed.

Lemma append_inj p a b : p +:+ a = p +:+ b -> a = b.
Proof. induction p as [|c p IH]; [done|]. rewrite !append_cons. intros [= E]. by apply IH. Qed.

Lemma append_assoc a b c : (a +:+ b) +:+ c = a +:+ (b +:+ c).
Proof. induction a as [|x a IH]; [done|]. by rewrite !append_cons, IH. Qed.

Lemma append_nil_r a : a +:+ "" = a.
Proof. induction a as [|x a IH]; [done|]. by rewrite append_cons, IH. Qed.

Lemma concat_cons x l : String.concat "" (x :: l) = x +:+ String.concat "" l.
Proof. destruct l; [by rewrite append_nil_r|done]. Qed.

Lemma cut_prefix_append p x : cut_prefix (p +:+ x) p = Some x.
Proof. unfold cut_prefix, has_prefix. by rewrite prefix_append, drop_append. Qed.

(** [strings.TrimSuffix] *)
Definition trim_suffix (s p : string) : string :=
  if has_suffix s p then String.substring 0 (String.length s - String.length p) s else s.

(** [strings.Cut] at the first occurrence of a one-byte separator. *)
Fixpoint cut (s : string) (sep : ascii) : option (string * string) :=
  match s with
  | "" => None
  | String c s' =>
      if Ascii.eqb c sep then Some ("", s')
      else match cut s' sep with
           | Some (a, b) => Some (String c a, b)
           | None => None
           end
  end.

Lemma cut_append s sep rest : cut s sep = None -> cut (s +:+ String sep rest) sep = Some (s, rest).
Proof.
  induction s as [|c s IH]; [intros _; change (cut (String sep rest) sep = Some ("", rest)); simpl;
    by rewrite Ascii.eqb_refl|].
  rewrite append_cons. simpl. destruct (Ascii.eqb c sep); [done|]. intros H.
  destruct (cut s sep) as [[a b]|]; [done|]. by rewrite IH.
Qed.

(** [strings.Split] on a one-byte separator. *)
Fixpoint split (s : string) (sep : ascii) : list string :=
  match s with
  | "" => [""]
  | String c s' =>
      if Ascii.eqb c sep then "" :: split s' sep
      else match split s' sep with
           | w :: ws => String c w :: ws
           | [] => [String c ""]
           end
  end.

Definition is_space (c : ascii) : bool :=
  let n := code c in ((9 <=? n) && (n <=? 13)) || (n =? 32).

Fixpoint trim_left (s : string) : string :=
  match s with
  | "" => ""
  | String c s' => if is_space c then trim_left s' else s
  end.
(** [strings.TrimSpace] on ASCII text. *)
Definition trim_space (s : string) : string := srev (trim_left (srev (trim_left s))).

(** [strings.Fields]. *)
Fixpoint fields_acc (s cur : string) : list string :=
  let flush := if String.eqb cur "" then [] else [srev cur] in
  match s with
  | "" => flush
  | String c s' => if is_space c then flush ++ fields_acc s' "" else fields_acc s' (String c cur)
  end.
Definition fields (s : string) : list string := fields_acc s "".

Definition join (l : list string) (sep : string) : string := String.concat sep l.

(** The text before the first ["//"], if there is one. *)
Fixpoint before_comment (s : string) : option string :=
  if has_prefix s "//" then Some ""
  else match s with
       | "" => None
       | String c s' => match before_comment s' with
                        | Some r => Some (String c r)
                        | None => None
                        end
       end.

Definition str_in (x : string) (l : list string) : bool := existsb (String.eqb x) l.

Lemma str_in_elem x l : str_in x l = true <-> x ∈ l.
Proof.
  unfold str_in. rewrite existsb_exists. setoid_rewrite String.eqb_eq.
  rewrite list_elem_of_In. split; [by intros (y & ? & ->)|eauto].
Qed.

(** Go's [<] on strings: byte-wise lexicographic. *)
Definition str_lt (a b : string) : bool := String.ltb a b.
Definition sort_strings (l : list string) : list string := sort_by str_lt l.

Lemma str_compare_trans a b c :
  String.compare a b = Lt -> String.compare b c = Lt -> String.compare a c = Lt.
Proof.
  revert b c. induction a as [|x a IH]; intros [|y b] [|z c]; simpl; try done.
  unfold Ascii.compare.
  destruct (N.compare_spec (N_of_ascii x) (N_of_ascii y)) as [E|?|?],
           (N.compare_spec (N_of_ascii y) (N_of_ascii z)) as [E'|?|?],
           (N.compare_spec (N_of_ascii x) (N_of_ascii z)) as [E''|?|?];
    try done; try lia. apply IH.
Qed.

Lemma str_lt_spec a b : str_lt a b = true <-> String.compare a b = Lt.
Proof. unfold str_lt, String.ltb. by destruct (String.compare a b). Qed.

Lemma str_lt_irrefl a : str_lt a a = false.
Proof.
  apply not_true_iff_false. rewrite str_lt_spec.
  induction a as [|x a IH]; simpl; [done|]. unfold Ascii.compare. by rewrite N.compare_refl.
Qed.

Lemma str_lt_trans a b c : str_lt a b = true -> str_lt b c = true -> str_lt a c = true.
Proof. rewrite !str_lt_spec. apply str_compare_trans. Qed.

Lemma str_lt_asym a b : str_lt a b = true -> str_lt b a = false.
Proof.
  intros H. apply not_true_iff_false. intros H'.
  pose proof (str_lt_trans _ _ _ H H') as Hx. by rewrite str_lt_irrefl in Hx.
Qed.

Lemma str_lt_total a b : str_lt a b = false -> str_lt b a = false -> a = b.
Proof.
  unfold str_lt, String.ltb. rewrite (String.compare_antisym b a).
  destruct (String.compare a b) eqn:E; try done. intros _ _. by apply String.compare_eq_iff.
Qed.

Lemma str_lt_neg_trans a b c :
  not_after str_lt a b -> not_after str_lt b c -> not_after str_lt a c.
Proof.
  unfold not_after. intros H1 H2. apply not_true_iff_false. intros H.
  destruct (str_lt a b) eqn:E.
  - by rewrite (str_lt_trans _ _ _ H E) in H2.
  - rewrite (str_lt_total _ _ E H1) in H. congruence.
Qed.

(** ** Numbers *)

Definition digit (c : ascii) : option Z :=
  let n := code c in if (48 <=? n) && (n <=? 57) then Some (n - 48) else None.

Fixpoint digits_acc (s : string) (acc : Z) : option Z :=
  match s with
  | "" => Some acc
  | String c s' => match digit c with Some d => digits_acc s' (10 * acc + d) | None => None end
  end.
Definition parse_uint (s : string) : option Z := match s with "" => None | _ => digits_acc s 0 end.

(** [strconv.Atoi] on a 64-bit platform: optional sign, digits, range check. *)
Definition atoi (s : string) : option Z :=
  let in_range z := if (int64_min <=? z) && (z <=? int64_max) then Some z else None in
  match s with
  | String c s' =>
      if Ascii.eqb c "-"%char then match parse_uint s' with Some z => in_range (- z) | None => None end
      else if Ascii.eqb c "+"%char then match parse_uint s' with Some z => in_range z | None => None end
      else match parse_uint s with Some z => in_range z | None => None end
  | "" => None
  end.

(** *** Printing and parsing are inverse *)

Fixpoint uint_value (u : Decimal.uint) (acc : Z) : Z :=
  match u with
  | Decimal.Nil => acc
  | Decimal.D0 u => uint_value u (10 * acc)
  | Decimal.D1 u => uint_value u (10 * acc + 1)
  | Decimal.D2 u => uint_value u (10 * acc + 2)
  | Decimal.D3 u => uint_value u (10 * acc + 3)
  | Decimal.D4 u => uint_value u (10 * acc + 4)
  | Decimal.D5 u => uint_value u (10 * acc + 5)
  | Decimal.D6 u => uint_value u (10 * acc + 6)
  | Decimal.D7 u => uint_value u (10 * acc + 7)
  | Decimal.D8 u => uint_value u (10 * acc + 8)
  | Decimal.D9 u => uint_value u (10 * acc + 9)
  end.

Lemma digits_acc_uint u acc : digits_acc (NilEmpty.string_of_uint u) acc = Some (uint_value u acc).
Proof.
  revert acc. induction u as [|u IH|u IH|u IH|u IH|u IH|u IH|u IH|u IH|u IH|u IH]; intros acc; [done|..];
    cbn [NilEmpty.string_of_uint digits_acc uint_value];
    match goal with |- context [digit ?c] => let r := eval vm_compute in (digit c) in
      change (digit c) with r end; cbv iota beta; rewrite IH; do 2 f_equal; lia.
Qed.

Lemma uint_value_pos u p : uint_value u (Z.pos p) = Z.pos (Pos.of_uint_acc u p).
Proof.
  revert p. induction u; intros p; cbn [uint_value Pos.of_uint_acc]; [done|..];
    match goal with IH : forall p, _ = _ |- _ => rewrite <- IH end; f_equal; lia.
Qed.

Lemma uint_value_0 u : uint_value u 0 = Z.of_N (Pos.of_uint u).
Proof.
  induction u; cbn [uint_value Pos.of_uint]; try done;
    try (match goal with |- uint_value _ (10 * 0 + ?k) = _ =>
           change (10 * 0 + k) with k end; by rewrite uint_value_pos).
Qed.

Lemma parse_nat_digits z : 0 < z -> parse_uint (nat_digits z) = Some z.
Proof.
  intros Hz. unfold parse_uint, nat_digits.
  assert (H : digits_acc (NilEmpty.string_of_uint (N.to_uint (Z.to_N z))) 0 = Some z).
  { rewrite digits_acc_uint, uint_value_0. f_equal.
    change (Pos.of_uint (N.to_uint (Z.to_N z))) with (N.of_uint (N.to_uint (Z.to_N z))).
    rewrite DecimalN.Unsigned.of_to. lia. }
  destruct (NilEmpty.string_of_uint _); [|done]. simpl in H. injection H as H. lia.
Qed.

Lemma itoa_cases z :
  0 <= z -> (z = 0 /\ itoa z = "0") \/ (0 < z /\ itoa z = nat_digits z).
Proof.
  intros H. unfold itoa. destruct (Z.ltb_spec z 0); [lia|].
  destruct (Z.eqb_spec z 0); [left|right]; split; (done || lia).
Qed.

Lemma atoi_digits s z :
  parse_uint s = Some z -> 0 <= z <= int64_max -> atoi s = Some z.
Proof.
  intros H Hz. assert (R : (int64_min <=? z) && (z <=? int64_max) = true).
  { apply andb_true_iff. rewrite !Z.leb_le. unfold int64_min. lia. }
  unfold atoi. destruct s as [|c s]; [done|].
  destruct (Ascii.eqb_spec c "-"%char) as [->|]; [by simpl in H|].
  destruct (Ascii.eqb_spec c "+"%char) as [->|]; [by simpl in H|]. by rewrite H, R.
Qed.

(** [strconv.Atoi(strconv.Itoa(z))] gives [z] back. *)
Lemma atoi_itoa z : 0 <= z <= int64_max -> atoi (itoa z) = Some z.
Proof.
  intros Hz. destruct (itoa_cases z) as [[-> ->]|[Hp ->]]; [lia|done|].
  apply atoi_digits; [by apply parse_nat_digits|lia].
Qed.

Lemma itoa_nonempty z : 0 <= z -> itoa z <> "".
Proof.
  intros Hz. destruct (itoa_cases z Hz) as [[-> ->]|[Hp ->]]; [done|].
  intros E. pose proof (parse_nat_digits z Hp) as H. by rewrite E in H.
Qed.

(** Two's-complement wrap-around of a signed 64-bit result. *)
Definition wrap64 (z : Z) : Z := (z + 2 ^ 63) mod 2 ^ 64 - 2 ^ 63.

Lemma wrap64_id z : int64_min <= z <= int64_max -> wrap64 z = z.
Proof. unfold wrap64, int64_min, int64_max. intros. rewrite Z.mod_small; lia. Qed.

(** ** Time

    An instant is the number of nanoseconds since Go's zero time (January 1 of
    year 1, UTC), so the zero value of [time.Time] is [0] and [IsZero] is a
    comparison with it.  A [time.Duration] is a number of nanoseconds. *)
Definition time_zero : Z := 0.
Definition is_zero (t : Z) : bool := t =? 0.
Definition second : Z := 10 ^ 9.
Definition minute : Z := 60 * second.
Definition hour : Z := 60 * minute.

(** [t.Sub(u)] saturates at the range of [Duration]. *)
Definition time_sub (t u : Z) : Z := Z.max int64_min (Z.min int64_max (t - u)).

(** [d.Truncate(m)]: towards zero, to a multiple of [m]. *)
Definition dur_truncate (d m : Z) : Z := if m <=? 0 then d else d - Z.rem d m.

(** The digits of [v] scaled by [10^prec], without trailing fractional zeros. *)
Definition frac_digits (v : Z) (prec : nat) : string :=
  let scale := 10 ^ Z.of_nat prec in
  let ip := v / scale in
  let fp := v mod scale in
  itoa ip +:+
  (if fp =? 0 then ""
   else let ds := nat_digits fp in
        "." +:+ srev (let r := srev (rep0 (prec - String.length ds) +:+ ds) in
                      (fix strip s := match s with
                                      | String c s' => if Ascii.eqb c "0"%char then strip s' else s
                                      | "" => "" end) r)).

(** [Duration.String()]. *)
Definition dur_string (d : Z) : string :=
  if d =? 0 then "0s"
  else
    let u := Z.abs d in
    let sign := if d <? 0 then "-" else "" in
    sign +:+
    (if u <? second then
       (if u <? 1000 then itoa u +:+ "ns"
        else if u <? 10 ^ 6 then frac_digits u 3 +:+ String (ascii_of_nat 194) (String (ascii_of_nat 181) "s")
        else frac_digits u 6 +:+ "ms")
     else
       let secs := frac_digits (u mod minute) 9 +:+ "s" in
       let m := u / minute in
       if m =? 0 then secs
       else
         let mins := itoa (m mod 60) +:+ "m" +:+ secs in
         if m / 60 =? 0 then mins else itoa (m / 60) +:+ "h" +:+ mins).

Example dur_string_examples :
  (dur_string (6 * hour), dur_string (90 * minute), dur_string 1500000000, dur_string 250000000)
  = ("6h0m0s", "1h30m0s", "1.5s", "250ms").
Proof. vm_compute. reflexivity. Qed.

(** *** [time.Parse(time.RFC3339, s)]

    The strict grammar [YYYY-MM-DDThh:mm:ss[.fraction](Z|±hh:mm)]. *)
Definition is_leap (y : Z) : bool :=
  (y mod 4 =? 0) && (negb (y mod 100 =? 0) || (y mod 400 =? 0)).
Definition days_in (m y : Z) : Z :=
  if m =? 2 then (if is_leap y then 29 else 28)
  else if (m =? 4) || (m =? 6) || (m =? 9) || (m =? 11) then 30 else 31.
(** Days from January 1 of year 1 to January 1 of year [y]. *)
Definition days_before_year (y : Z) : Z :=
  let p := y - 1 in 365 * p + p / 4 - p / 100 + p / 400.
Definition days_before_month (m y : Z) : Z :=
  fold_left (fun acc k => if Z.of_nat k <? m then acc + days_in (Z.of_nat k) y else acc)
            (seq 1 12) 0.
Definition date_utc (y mo d h mi s ns : Z) : Z :=
  ((days_before_year y + days_before_month mo y + (d - 1)) * 86400 + h * 3600 + mi * 60 + s)
  * second + ns.

Definition uint_at (s : string) (pos len : nat) (lo hi : Z) : option Z :=
  match parse_uint (String.substring pos len s) with
  | Some z => if (lo <=? z) && (z <=? hi) then Some z else None
  | None => None
  end.
Definition byte_at (s : string) (pos : nat) (c : ascii) : bool :=
  match String.get pos s with Some d => Ascii.eqb c d | None => false end.

Fixpoint take_digits (s : string) : string * string :=
  match s with
  | String c s' => match digit c with
                   | Some _ => let '(a, b) := take_digits s' in (String c a, b)
                   | None => ("", s)
                   end
  | "" => ("", "")
  end.

Definition parse_fraction (s : string) : Z * string :=
  match s with
  | String c s' =>
      if Ascii.eqb c "."%char then
        let '(ds, rest) := take_digits s' in
        match ds with
        | "" => (0, s)
        | _ => let ds9 := String.substring 0 9 (ds +:+ rep0 9) in
               (default 0 (parse_uint ds9), rest)
        end
      else (0, s)
  | "" => (0, s)
  end.

(** The zone suffix, as an offset in seconds. *)
Definition parse_zone (s : string) : option Z :=
  if String.eqb s "Z" then Some 0
  else if negb (Nat.eqb (String.length s) 6) then None
  else match uint_at s 1 2 0 23, uint_at s 4 2 0 59 with
       | Some hr, Some mm =>
           let off := (hr * 60 + mm) * 60 in
           if negb (byte_at s 3 ":"%char) then None
           else if byte_at s 0 "-"%char then Some (- off)
           else if byte_at s 0 "+"%char then Some off else None
       | _, _ => None
       end.

Definition parse_rfc3339 (s : string) : option Z :=
  if Nat.ltb (String.length s) 19 then None
  else match uint_at s 0 4 0 9999, uint_at s 5 2 1 12 with
  | Some y, Some mo =>
      match uint_at s 8 2 1 (days_in mo y), uint_at s 11 2 0 23,
            uint_at s 14 2 0 59, uint_at s 17 2 0 59 with
      | Some d, Some h, Some mi, Some sec =>
          if byte_at s 4 "-"%char && byte_at s 7 "-"%char && byte_at s 10 "T"%char
             && byte_at s 13 ":"%char && byte_at s 16 ":"%char then
            let '(ns, rest) := parse_fraction (drop 19 s) in
            match parse_zone rest with
            | Some off => Some (date_utc y mo d h mi sec ns - off * second)
            | None => None
            end
          else None
      | _, _, _, _ => None
      end
  | _, _ => None
  end.

(** *** [time.ParseDuration] *)
Definition unit_value (u : string) : option Z :=
  if String.eqb u "ns" then Some 1
  else if String.eqb u "us" || String.eqb u (String (ascii_of_nat 194) (String (ascii_of_nat 181) "s"))
          || String.eqb u (String (ascii_of_nat 206) (String (ascii_of_nat 188) "s")) then Some 1000
  else if String.eqb u "ms" then Some (10 ^ 6)
  else if String.eqb u "s" then Some second
  else if String.eqb u "m" then Some minute
  else if String.eqb u "h" then Some hour
  else None.

Fixpoint take_unit (s : string) : string * string :=
  match s with
  | String c s' =>
      if Ascii.eqb c "."%char then ("", s)
      else match digit c with
           | Some _ => ("", s)
           | None => let '(a, b) := take_unit s' in (String c a, b)
           end
  | "" => ("", "")
  end.

Fixpoint dur_terms (fuel : nat) (s : string) (acc : Z) : option Z :=
  match fuel with
  | O => None
  | S fuel' =>
      match s with
      | "" => Some acc
      | _ =>
          let '(ip, s1) := take_digits s in
          let '(fp, s2) :=
            match s1 with
            | String c s1' => if Ascii.eqb c "."%char then take_digits s1' else ("", s1)
            | "" => ("", "")
            end in
          if String.eqb ip "" && String.eqb fp "" then None
          else
            let '(u, s3) := take_unit s2 in
            match unit_value u with
            | None => None
            | Some unit =>
                let v := default 0 (parse_uint ip) in
                let f := default 0 (parse_uint fp) in
                let extra :=
                  if f =? 0 then 0
                  else f_trunc (fmul (f_of_Z f)
                                  (fdiv (f_of_Z unit) (f_of_Z (10 ^ Z.of_nat (String.length fp))))) in
                let acc' := acc + v * unit + extra in
                if 2 ^ 63 <? acc' then None else dur_terms fuel' s3 acc'
            end
      end
  end.

Definition parse_duration (s : string) : option Z :=
  let '(neg, body) :=
    match s with
    | String c s' => if Ascii.eqb c "-"%char then (true, s')
                     else if Ascii.eqb c "+"%char then (false, s') else (false, s)
    | "" => (false, s)
    end in
  if String.eqb body "0" then Some 0
  else if String.eqb body "" then None
  else match dur_terms (S (String.length body)) body 0 with
       | None => None
       | Some d => if neg then Some (- d) else if int64_max <? d then None else Some d
       end.

Example parse_time_examples :
  parse_duration "6h" = Some (6 * hour) /\ parse_duration "1h30m" = Some (90 * minute) /\
  parse_duration "1.5s" = Some 1500000000 /\ parse_duration "6" = None /\
  parse_rfc3339 "0001-01-01T00:00:00Z" = Some time_zero /\
  parse_rfc3339 "1970-01-01T09:00:00+09:00" = Some (62135596800 * second) /\
  parse_rfc3339 "2026-02-29T00:00:00Z" = None.
Proof. vm_compute. repeat split. Qed.

(** *** [base64.StdEncoding.DecodeString] *)
Definition b64_value (c : ascii) : option Z :=
  let n := code c in
  if (65 <=? n) && (n <=? 90) then Some (n - 65)
  else if (97 <=? n) && (n <=? 122) then Some (n - 71)
  else if (48 <=? n) && (n <=? 57) then Some (n + 4)
  else if n =? 43 then Some 62 else if n =? 47 then Some 63 else None.

Definition byte_of (z : Z) : ascii := ascii_of_N (Z.to_N (z mod 256)).

Fixpoint drop_newlines (s : string) : string :=
  match s with
  | "" => ""
  | String c s' => let n := code c in
                   if (n =? 10) || (n =? 13) then drop_newlines s' else String c (drop_newlines s')
  end.

Fixpoint b64_quads (s : string) : option string :=
  match s with
  | "" => Some ""
  | String a (String b (String c (String d rest))) =>
      match b64_value a, b64_value b with
      | Some va, Some vb =>
          let x := byte_of (va * 4 + vb / 16) in
          if Ascii.eqb c "="%char then
            (if Ascii.eqb d "="%char && String.eqb rest "" then Some (String x "") else None)
          else match b64_value c with
          | None => None
          | Some vc =>
              let y := byte_of (vb * 16 + vc / 4) in
              if Ascii.eqb d "="%char then
                (if String.eqb rest "" then Some (String x (String y "")) else None)
              else match b64_value d, b64_quads rest with
              | Some vd, Some tl => Some (String x (String y (String (byte_of (vc * 64 + vd)) tl)))
              | _, _ => None
              end
          end
      | _, _ => None
      end
  | _ => None
  end.
Definition base64_decode (s : string) : option string := b64_quads (drop_newlines s).

Example base64_example : base64_decode "aGVsbG8=" = Some "hello".
Proof. vm_compute. reflexivity. Qed.

(** ** Documents: [map[string]any] as [encoding/json] decodes it *)

Inductive any : Type :=
| JNull
| JBool (b : bool)
| JNum (x : float64)
| JStr (s : string)
| JArr (l : list any)
| JObj (m : gmap string any).

Abbreviation doc := (gmap string any).

(** The two-valued type assertions [v.(T)]; a missing key reads as [nil],
    which no assertion accepts. *)
Definition as_obj (v : option any) : option doc :=
  match v with Some (JObj m) => Some m | _ => None end.
Definition as_str (v : option any) : option string :=
  match v with Some (JStr s) => Some s | _ => None end.
Definition as_num (v : option any) : option float64 :=
  match v with Some (JNum x) => Some x | _ => None end.
Definition as_arr (v : option any) : option (list any) :=
  match v with Some (JArr l) => Some l | _ => None end.
Definition as_bool (v : option any) : option bool :=
  match v with Some (JBool b) => Some b | _ => None end.

(** [m, _ := v.(map[string]any)]: a failed assertion leaves a nil map, which
    reads like an empty one; likewise [""], [nil] and [false]. *)
Definition obj_or_nil (v : option any) : doc := default ∅ (as_obj v).
Definition str_or_empty (v : option any) : string := default "" (as_str v).
Definition arr_or_nil (v : option any) : list any := default [] (as_arr v).

Definition mkdoc (l : list (string * any)) : doc := list_to_map l.

Definition jobj (l : list (string * any)) : any := JObj (mkdoc l).

(** Whether [json.Marshal] accepts a value: JSON has no text for a NaN or an
    infinity, and the whole call fails on one. *)
Definition f_finite (x : float64) : bool :=
  match x with S754_nan | S754_infinity _ => false | S754_zero _ | S754_finite _ _ _ => true end.

Fixpoint marshals (v : any) : bool :=
  match v with
  | JNum x => f_finite x
  | JArr l => forallb marshals l
  | JObj m => map_fold (fun _ x b => marshals x && b) true m
  | JNull | JBool _ | JStr _ => true
  end.

Definition doc_marshals (m : doc) : bool := marshals (JObj m).

(** A nil map is not marshalled, or is [null]. *)
Definition opt_marshals (m : option doc) : bool :=
  match m with Some m => doc_marshals m | None => true end.

Lemma doc_marshals_spec m : doc_marshals m = true <-> forall k v, m !! k = Some v -> marshals v = true.
Proof.
  unfold doc_marshals. cbn [marshals].
  induction m as [|k v m Hk Hf IH] using map_first_key_ind.
  - rewrite map_fold_empty. split; [intros _ k v H; by rewrite lookup_empty in H|done].
  - rewrite map_fold_insert_first_key by done. rewrite andb_true_iff, IH. split.
    + intros [H1 H2] k' v' [[<- <-]|[? ?]]%lookup_insert_Some; eauto.
    + intros H. split; [apply (H k), lookup_insert_eq|]. intros k' v' E. apply (H k').
      rewrite lookup_insert_ne; [done|congruence].
Qed.

Lemma doc_marshals_insert k v m :
  doc_marshals m = true -> marshals v = true -> doc_marshals (<[k := v]> m) = true.
Proof. rewrite !doc_marshals_spec. intros H Hv k' v' [[_ <-]|[_ E]]%lookup_insert_Some; eauto. Qed.

Lemma doc_marshals_mkdoc l : forallb (fun kv => marshals kv.2) l = true -> doc_marshals (mkdoc l) = true.
Proof.
  unfold mkdoc. induction l as [|[k v] l IH]; [done|]. cbn [forallb snd list_to_map foldr fst].
  intros [Hv H]%andb_true_iff. by apply doc_marshals_insert; [apply IH|].
Qed.

Lemma marshals_snoc l v :
  forallb marshals l = true -> marshals v = true -> marshals (JArr (l ++ [v])) = true.
Proof. intros Hl Hv. cbn [marshals]. rewrite forallb_app, Hl. cbn. by rewrite Hv. Qed.

(** The array under a key, or the empty one. *)
Lemma arr_or_nil_marshals m k : doc_marshals m = true -> forallb marshals (arr_or_nil (m !! k)) = true.
Proof.
  rewrite doc_marshals_spec. intros H. destruct (m !! k) as [[]|] eqn:E; try done. exact (H _ _ E).
Qed.

(** ** [%q] and [time.RFC3339] *)

Definition hex_digit (n : Z) : ascii :=
  default "0"%char (String.get (Z.to_nat n) "0123456789abcdef").

(** [hex.EncodeToString]. *)
Fixpoint hex (s : string) : string :=
  match s with
  | "" => ""
  | String c s' => String (hex_digit (code c / 16)) (String (hex_digit (code c mod 16)) (hex s'))
  end.

Definition dquote : ascii := "034".
Definition backslash : ascii := "092".

(** [strconv.Quote]; bytes above 0x7e other than DEL are copied, which is what
    Go does for the bytes of a printable UTF-8 character. *)
Fixpoint quote_body (s : string) : string :=
  match s with
  | "" => ""
  | String c s' =>
      let n := code c in
      let esc (x : ascii) := String backslash (String x (quote_body s')) in
      if Ascii.eqb c dquote || Ascii.eqb c backslash then esc c
      else if n =? 7 then esc "a"%char else if n =? 8 then esc "b"%char else if n =? 12 then esc "f"%char
      else if n =? 10 then esc "n"%char else if n =? 13 then esc "r"%char else if n =? 9 then esc "t"%char
      else if n =? 11 then esc "v"%char
      else if (n <? 32) || (n =? 127) then
        String backslash (String "x"%char (String (hex_digit (n / 16))
          (String (hex_digit (n mod 16)) (quote_body s'))))
      else String c (quote_body s')
  end.

Definition quote (s : string) : string := String dquote (quote_body s +:+ String dquote "").

Definition pad (n : nat) (s : string) : string := rep0 (n - String.length s) +:+ s.

(** The year and the day of the year of a day count since 0001-01-01. *)
Definition year_of (days : Z) : Z :=
  let guess := days / 366 + 1 in
  (fix up (fuel : nat) (y : Z) : Z :=
     match fuel with
     | O => y
     | S fuel' => if days_before_year (y + 1) <=? days then up fuel' (y + 1) else y
     end) 32%nat guess.

Definition month_of (yday y : Z) : Z :=
  (fix up (fuel : nat) (m : Z) : Z :=
     match fuel with
     | O => m
     | S fuel' => if (m <? 12) && (days_before_month (m + 1) y <=? yday) then up fuel' (m + 1) else m
     end) 12%nat 1.

(** [t.UTC().Format(time.RFC3339)] for years up to 9999. *)
Definition fmt_rfc3339 (t : Z) : string :=
  let secs := t / second in
  let days := secs / 86400 in
  let sod := secs mod 86400 in
  let y := year_of days in
  let yday := days - days_before_year y in
  let m := month_of yday y in
  let d := yday - days_before_month m y + 1 in
  pad 4 (itoa y) +:+ "-" +:+ pad 2 (itoa m) +:+ "-" +:+ pad 2 (itoa d) +:+ "T"
    +:+ pad 2 (itoa (sod / 3600)) +:+ ":" +:+ pad 2 (itoa (sod / 60 mod 60)) +:+ ":"
    +:+ pad 2 (itoa (sod mod 60)) +:+ "Z".

Example fmt_rfc3339_examples :
  fmt_rfc3339 (date_utc 2026 2 28 23 59 58 7) = "2026-02-28T23:59:58Z" /\
  fmt_rfc3339 (date_utc 2000 2 29 0 0 0 0) = "2000-02-29T00:00:00Z" /\
  fmt_rfc3339 (date_utc 9999 12 31 1 2 3 0) = "9999-12-31T01:02:03Z" /\
  fmt_rfc3339 0 = "0001-01-01T00:00:00Z" /\
  hex "rabi" = "72616269" /\
  quote "a\b" = String dquote ("a\\b" +:+ String dquote "").
Proof. vm_compute. split_and!; reflexivity. Qed.
