(* ===== verification/FloatRound.v ===== *)
(** * Rounding of additions

    Why adding a duration to a time never moves it back: on valid nonnegative
    floats, the sum rounds to a value that is at least the exact sum cut to 53
    bits.  Values are compared as integers, in units of 2^-1074. *)

From S2P Require Import Prelude Float64.

(** [fval x] is the value of a nonnegative finite float, times 2^1074. *)
Definition fval (x : float64) : Z :=
  match x with S754_finite false m e => Z.pos m * 2 ^ (e + 1074) | _ => 0 end.

(** Nonnegative numbers in canonical form, infinity included. *)
Definition nonneg_float (x : float64) : bool :=
  match x with
  | S754_zero false | S754_infinity false => true
  | S754_finite false m e => bounded 53 1024 m e
  | _ => false
  end.

Definition finite_float (x : float64) : bool :=
  match x with S754_zero _ | S754_finite _ _ _ => true | _ => false end.

(** ** Digits *)

Lemma digits2_log2 p : Z.pos (digits2_pos p) = Z.log2 (Z.pos p) + 1.
Proof.
  induction p as [p IH|p IH|]; simpl digits2_pos; [| |done]; rewrite Pos2Z.inj_succ, IH.
  - change (Z.pos p~1) with (2 * Z.pos p + 1). rewrite Z.log2_succ_double; lia.
  - change (Z.pos p~0) with (2 * Z.pos p). rewrite Z.log2_double; lia.
Qed.

Lemma fexp_max e : fexp 53 1024 e = Z.max (e - 53) (-1074).
Proof. unfold fexp, emin. f_equal. Qed.

Lemma bounded_spec m e :
  bounded 53 1024 m e = true <->
  Z.max (Z.log2 (Z.pos m) + 1 + e - 53) (-1074) = e /\ e <= 971.
Proof.
  unfold bounded, canonical_mantissa. rewrite andb_true_iff, Z.eqb_eq, Z.leb_le, fexp_max, digits2_log2. lia.
Qed.

(** ** Shifting right *)

Lemma shr_1_m mrs : 0 <= shr_m mrs -> shr_m (shr_1 mrs) = shr_m mrs / 2.
Proof.
  destruct mrs as [m r s]. cbn [shr_m]. intros H. destruct m as [|p|p]; [done| |lia].
  rewrite <- Z.div2_div. by destruct p.
Qed.

Lemma div_pow2_twice m a b : 0 <= a -> 0 <= b -> m / 2 ^ a / 2 ^ b = m / 2 ^ (a + b).
Proof. intros. rewrite Z.div_div by lia. by rewrite Z.pow_add_r. Qed.

Lemma iter_shr_m p mrs : 0 <= shr_m mrs -> shr_m (iter_pos shr_1 p mrs) = shr_m mrs / 2 ^ Z.pos p.
Proof.
  revert mrs. induction p as [p IH|p IH|]; intros mrs H; cbn [iter_pos].
  - assert (H1 : 0 <= shr_m (shr_1 mrs)) by (rewrite shr_1_m by done; by apply Z.div_pos).
    assert (H2 : 0 <= shr_m (iter_pos shr_1 p (shr_1 mrs))) by (rewrite IH by done; apply Z.div_pos; lia).
    rewrite IH, IH, shr_1_m by done. change 2 with (2 ^ 1) at 1. rewrite !div_pow2_twice by lia. f_equal. f_equal. lia.
  - assert (H2 : 0 <= shr_m (iter_pos shr_1 p mrs)) by (rewrite IH by done; apply Z.div_pos; lia).
    rewrite IH, IH by done. rewrite div_pow2_twice by lia. f_equal. f_equal. lia.
  - by rewrite shr_1_m.
Qed.

Lemma shr_m_shr mrs e n : 0 <= shr_m mrs -> 0 <= n ->
  shr_m (shr mrs e n).1 = shr_m mrs / 2 ^ n /\ (shr mrs e n).2 = e + n.
Proof.
  intros H Hn. unfold shr. destruct n as [|p|p]; cbn [fst snd]; [by rewrite Z.div_1_r, Z.add_0_r| |lia]. by rewrite iter_shr_m.
Qed.

(** A half rounds to one of its neighbours. *)
Lemma round_nearest_cases m l : round_nearest_even m l = m \/ round_nearest_even m l = m + 1.
Proof. destruct l as [|[]]; simpl; auto. by destruct (Z.even m); auto. Qed.

Lemma log2_div m n : 0 < m -> 0 <= n <= Z.log2 m -> Z.log2 (m / 2 ^ n) = Z.log2 m - n.
Proof. intros. rewrite <- Z.shiftr_div_pow2 by lia. rewrite Z.log2_shiftr by lia. lia. Qed.

(** ** Rounding a positive number *)

Lemma iter_xO m d : Z.pos (Pos.iter xO m d) = Z.pos m * 2 ^ Z.pos d.
Proof.
  revert m. induction d as [|d IH] using Pos.peano_ind; intros m; [change (Z.pos (Pos.iter xO m 1)) with (2 * Z.pos m); lia|].
  rewrite Pos.iter_succ, (Pos2Z.inj_xO (Pos.iter xO m d)), IH.
  rewrite Pos2Z.inj_succ, Z.pow_succ_r by lia. lia.
Qed.

Lemma shl_align_spec m e f :
  let '(mz, ez) := shl_align m e f in ez = Z.min e f /\ Z.pos mz = Z.pos m * 2 ^ (e - ez).
Proof.
  unfold shl_align. destruct (f - e) as [|d|d] eqn:E.
  - split; [lia|]. rewrite Z.sub_diag. lia.
  - split; [lia|]. rewrite Z.sub_diag. lia.
  - split; [lia|]. rewrite iter_xO. f_equal. f_equal. lia.
Qed.

Lemma binary_round_aux_ge mz ez :
  -1074 <= ez <= Z.max (Z.log2 (Z.pos mz) + 1 + ez - 53) (-1074) ->
  let f := Z.max (Z.log2 (Z.pos mz) + 1 + ez - 53) (-1074) in
  let r := binary_round_aux 53 1024 false (Z.pos mz) ez loc_Exact in
  nonneg_float r = true /\ (finite_float r = true -> Z.pos mz / 2 ^ (f - ez) * 2 ^ (f + 1074) <= fval r).
Proof.
  intros Hez f. unfold binary_round_aux, shr_fexp. cbn [shr_record_of_loc Zdigits2]. rewrite fexp_max, digits2_log2.
  fold f. pose proof (Z.log2_nonneg (Z.pos mz)) as L0.
  destruct (shr _ ez (f - ez)) as [mrs e'] eqn:E1.
  destruct (shr_m_shr (Build_shr_record (Z.pos mz) false false) ez (f - ez)) as [Em Ee]; [done|lia|].
  rewrite E1 in Em, Ee. cbn [fst snd shr_m] in Em, Ee. replace (ez + (f - ez)) with f in Ee by lia. subst e'.
  set (q := Z.pos mz / 2 ^ (f - ez)) in *.
  assert (Hn : 0 <= f - ez <= Z.log2 (Z.pos mz)) by lia.
  assert (Lq : Z.log2 q = Z.log2 (Z.pos mz) - (f - ez)) by (apply log2_div; lia).
  assert (Q1 : 0 < q) by (apply Z.div_str_pos; split; [lia|]; apply Z.log2_le_pow2; lia).
  assert (Q2 : q < 2 ^ 53) by (apply Z.log2_lt_pow2; lia).
  set (q' := round_nearest_even (shr_m mrs) (loc_of_shr_record mrs)).
  assert (Q' : q' = q \/ q' = q + 1) by (unfold q'; rewrite Em; apply round_nearest_cases).
  clearbody q'. destruct q' as [|p|p]; [lia| |lia]. cbn [shr_record_of_loc Zdigits2]. rewrite fexp_max, digits2_log2.
  destruct (Z.eq_dec (Z.pos p) (2 ^ 53)) as [Ep|Np].
  - assert (Lp : Z.log2 (Z.pos p) = 53) by (rewrite Ep; by vm_compute). rewrite Lp.
    assert (F : f = Z.log2 (Z.pos mz) + 1 + ez - 53).
    { assert (q = 2 ^ 53 - 1) as Eq by lia. assert (Z.log2 q = 52) by (rewrite Eq; by vm_compute). lia. }
    replace (Z.max (53 + 1 + f - 53) (-1074) - f) with 1 by lia. cbn [shr iter_pos].
    rewrite shr_1_m by done. cbn [shr_m]. rewrite Ep. change (2 ^ 53 / 2) with (Z.pos (2 ^ 52)). cbv iota.
    destruct (Z.leb_spec (f + 1) (1024 - 53)) as [Hl|Hl]; [|by split].
    split; [simpl; apply bounded_spec; change (Z.log2 (Z.pos (2 ^ 52))) with 52; lia|]. intros _. unfold fval.
    replace (f + 1 + 1074) with (Z.succ (f + 1074)) by lia. rewrite Z.pow_succ_r by lia.
    change (Z.pos (2 ^ 52)) with (2 ^ 52). replace (2 ^ 52 * (2 * 2 ^ (f + 1074))) with (2 ^ 53 * 2 ^ (f + 1074)) by lia.
    apply Z.mul_le_mono_nonneg_r; lia.
  - assert (P2 : Z.pos p < 2 ^ 53) by lia. assert (Lp : Z.log2 (Z.pos p) <= 52) by (apply Z.log2_lt_pow2 in P2; lia).
    assert (Lqp : Z.log2 q <= Z.log2 (Z.pos p)) by (apply Z.log2_le_mono; lia).
    replace (Z.max (Z.log2 (Z.pos p) + 1 + f - 53) (-1074) - f) with 0 by lia. cbn [shr shr_m].
    destruct (Z.leb_spec f (1024 - 53)) as [Hl|Hl]; [|by split].
    split; [simpl; apply bounded_spec; lia|]. intros _. unfold fval. apply Z.mul_le_mono_nonneg_r; lia.
Qed.

Lemma binary_round_ge m e :
  -1074 <= e ->
  let x := Z.pos m * 2 ^ (e + 1074) in
  let k := Z.max 0 (Z.log2 x - 52) in
  let r := binary_round 53 1024 false m e in
  nonneg_float r = true /\ (finite_float r = true -> x / 2 ^ k * 2 ^ k <= fval r).
Proof.
  intros He x k r. unfold r, binary_round. rewrite fexp_max, digits2_log2.
  pose proof (shl_align_spec m e (Z.max (Z.log2 (Z.pos m) + 1 + e - 53) (-1074))) as S.
  destruct (shl_align _ _ _) as [mz ez]. destruct S as [Ez Em].
  assert (Lz : Z.log2 (Z.pos mz) = Z.log2 (Z.pos m) + (e - ez)) by (rewrite Em, Z.log2_mul_pow2; lia).
  assert (Lx : Z.log2 x = Z.log2 (Z.pos m) + (e + 1074)) by (unfold x; rewrite Z.log2_mul_pow2; lia).
  destruct (binary_round_aux_ge mz ez) as [V G]; [lia|]. split; [done|]. intros Fin. specialize (G Fin).
  set (f := Z.max (Z.log2 (Z.pos mz) + 1 + ez - 53) (-1074)) in *.
  assert (K : k = f + 1074) by (unfold k; rewrite Lx; lia). rewrite K.
  assert (X : x = Z.pos mz * 2 ^ (ez + 1074)).
  { unfold x. rewrite Em, <- Z.mul_assoc, <- Z.pow_add_r by lia. f_equal. f_equal. lia. }
  assert (Fz : 0 <= f - ez) by (unfold f; lia). assert (E0 : 0 <= ez + 1074) by lia.
  assert (P : 2 ^ (f + 1074) = 2 ^ (f - ez) * 2 ^ (ez + 1074)) by (rewrite <- Z.pow_add_r by done; f_equal; lia).
  assert (D : x / 2 ^ (f + 1074) = Z.pos mz / 2 ^ (f - ez)).
  { rewrite X, P. apply Z.div_mul_cancel_r; apply Z.pow_nonzero; lia. }
  by rewrite D.
Qed.

(** ** Comparing and adding *)

Lemma nonneg_not_nan x : nonneg_float x = true -> is_nan x = false.
Proof. by destruct x. Qed.

Lemma nonneg_bounds m e : bounded 53 1024 m e = true -> -1074 <= e /\ Z.pos m < 2 ^ 53 /\ (e = -1074 \/ 2 ^ 52 <= Z.pos m).
Proof.
  intros H%bounded_spec. split; [lia|]. split; [apply Z.log2_lt_pow2; lia|].
  destruct (Z.eq_dec e (-1074)); [by left|right]. apply Z.log2_le_pow2; lia.
Qed.

(** On valid numbers the comparison is that of the values. *)
Lemma flt_fval x y :
  nonneg_float x = true -> nonneg_float y = true -> finite_float x = true -> finite_float y = true ->
  flt x y = true <-> fval x < fval y.
Proof.
  intros Nx Ny Fx Fy. rewrite flt_key. destruct x as [[]|[]| |[] mx ex], y as [[]|[]| |[] my ey]; try done; simpl in *.
  - split; [intros (_ & _ & L); lia|lia].
  - pose proof (Z.pow_pos_nonneg 2 (ey + 1074)). apply nonneg_bounds in Ny. split; [intros _; lia|intros _; split_and!; [done|done|lia]].
  - pose proof (Z.pow_pos_nonneg 2 (ex + 1074)). apply nonneg_bounds in Nx. split; [intros (_ & _ & L); lia|intros L; nia].
  - apply nonneg_bounds in Nx as (X1 & X2 & X3), Ny as (Y1 & Y2 & Y3).
    assert (C : forall m m' e e', -1074 <= e < e' -> Z.pos m < 2 ^ 53 -> 2 ^ 52 <= Z.pos m' ->
      Z.pos m * 2 ^ (e + 1074) < Z.pos m' * 2 ^ (e' + 1074)).
    { intros m m' e e' He Hm Hm'. apply Z.lt_le_trans with (2 ^ 52 * 2 ^ (e' + 1074)).
      - remember (e + 1074) as a eqn:Ea. replace (e' + 1074) with (Z.succ a + (e' - e - 1)) by lia.
        rewrite Z.pow_add_r, Z.pow_succ_r by lia.
        pose proof (Z.pow_pos_nonneg 2 a). pose proof (Z.pow_pos_nonneg 2 (e' - e - 1)). nia.
      - apply Z.mul_le_mono_nonneg_r; lia. }
    destruct (Z.lt_trichotomy ex ey) as [L|[->|L]].
    + split; [intros _; apply C; [lia|done|]; destruct Y3; [lia|done]|intros _; split_and!; [done|done|lia]].
    + pose proof (Z.pow_pos_nonneg 2 (ey + 1074)). split; [intros (_ & _ & H'); nia|intros H'; split_and!; [done|done|right; nia]].
    + split; [intros (_ & _ & L'); lia|]. intros L'. assert (Z.pos my * 2 ^ (ey + 1074) < Z.pos mx * 2 ^ (ex + 1074)); [|lia].
      apply C; [lia|done|]. destruct X3; [lia|done].
Qed.

Lemma cut_le x k : 0 <= k -> x / 2 ^ k * 2 ^ k <= x.
Proof. intros. rewrite Z.mul_comm. apply Z.mul_div_le. by apply Z.pow_pos_nonneg. Qed.

Lemma shl_align_fst m e f : f <= e -> Z.pos (shl_align m e f).1 = Z.pos m * 2 ^ (e - f).
Proof.
  intros H. pose proof (shl_align_spec m e f) as S. destruct (shl_align m e f) as [mz ez]. destruct S as [-> E].
  simpl. rewrite E. f_equal. f_equal. lia.
Qed.

(** The sum is at least the exact sum cut to 53 bits. *)
Lemma fadd_ge x y :
  nonneg_float x = true -> nonneg_float y = true -> finite_float x = true -> finite_float y = true ->
  let s := fval x + fval y in let k := Z.max 0 (Z.log2 s - 52) in
  nonneg_float (fadd x y) = true /\ (finite_float (fadd x y) = true -> s / 2 ^ k * 2 ^ k <= fval (fadd x y)).
Proof.
  intros Nx Ny Fx Fy s k. assert (K : 0 <= k) by lia.
  destruct x as [[]|[]| |[] mx ex], y as [[]|[]| |[] my ey]; try done.
  - split; [exact Ny|]. intros _. by apply cut_le.
  - split; [exact Nx|]. intros _. unfold s. rewrite Z.add_0_r. by apply cut_le.
  - apply nonneg_bounds in Nx as (X1 & _), Ny as (Y1 & _). unfold fadd, SFadd. cbv zeta. cbn [cond_Zopp].
    set (ez := Z.min ex ey). pose proof (shl_align_fst mx ex ez ltac:(lia)) as Ax. pose proof (shl_align_fst my ey ez ltac:(lia)) as Ay.
    destruct (shl_align mx ex ez) as [a ?], (shl_align my ey ez) as [b ?]. cbn [fst] in *.
    change (Z.pos a + Z.pos b) with (Z.pos (a + b)). cbn [binary_normalize].
    assert (S : s = Z.pos (a + b) * 2 ^ (ez + 1074)).
    { unfold s. cbn [fval]. rewrite Pos2Z.inj_add, Ax, Ay, Z.mul_add_distr_r, <- !Z.mul_assoc, <- !Z.pow_add_r by lia.
      f_equal; f_equal; f_equal; lia. }
    unfold k. rewrite S. apply binary_round_ge. lia.
Qed.

Lemma fval_nonneg x : 0 <= fval x.
Proof. destruct x as [[]|[]| |[] m e]; simpl; lia. Qed.

Lemma cut_ge x s :
  nonneg_float x = true -> finite_float x = true -> fval x <= s ->
  let k := Z.max 0 (Z.log2 s - 52) in fval x <= s / 2 ^ k * 2 ^ k.
Proof.
  intros Nx Fx Hs k. destruct x as [[]|[]| |[] m e]; try done.
  - cbn [fval] in *. apply Z.mul_nonneg_nonneg; [apply Z.div_pos; [done|]|]; try apply Z.lt_le_incl; apply Z.pow_pos_nonneg; lia.
  - apply nonneg_bounds in Nx as (X1 & X2 & _). cbn [fval] in *.
    destruct (Z.le_gt_cases k (e + 1074)) as [L|L].
    + replace (2 ^ (e + 1074)) with (2 ^ (e + 1074 - k) * 2 ^ k) in * by (rewrite <- Z.pow_add_r by lia; f_equal; lia).
      rewrite Z.mul_assoc in *. apply Z.mul_le_mono_nonneg_r; [lia|]. apply Z.div_le_lower_bound; lia.
    + assert (Ek : k = Z.log2 s - 52) by lia. transitivity (2 ^ 52 * 2 ^ k).
      * replace k with (Z.succ (e + 1074) + (k - (e + 1074) - 1)) by lia. remember (e + 1074) as a.
        rewrite Z.pow_add_r, Z.pow_succ_r by lia. pose proof (Z.pow_pos_nonneg 2 a). pose proof (Z.pow_pos_nonneg 2 (k - a - 1)). nia.
      * apply Z.mul_le_mono_nonneg_r; [lia|]. apply Z.div_le_lower_bound; [lia|]. rewrite <- Z.pow_add_r by lia.
        replace (k + 52) with (Z.log2 s) by lia. apply Z.log2_spec. destruct (Z.le_gt_cases s 0); [|done].
        rewrite Z.log2_nonpos in Ek by done. lia.
Qed.

(** Adding never goes back. *)
Lemma fadd_not_back x y :
  nonneg_float x = true -> nonneg_float y = true -> finite_float x = true -> finite_float y = true ->
  nonneg_float (fadd x y) = true /\ flt (fadd x y) x = false.
Proof.
  intros Nx Ny Fx Fy. destruct (fadd_ge x y Nx Ny Fx Fy) as [V G]. split; [done|].
  destruct (finite_float (fadd x y)) eqn:Fr; [|by destruct (fadd x y) as [|[]| |], x].
  apply not_true_iff_false. rewrite flt_fval by done. apply Z.nlt_ge. specialize (G eq_refl). cbv zeta in G.
  etrans; [|exact G]. apply cut_ge; [done|done|]. assert (0 <= fval y); [|lia].
  apply fval_nonneg.
Qed.

(** And it moves forward, by a number that is not lost in the rounding. *)
Lemma fadd_forward x y :
  nonneg_float x = true -> nonneg_float y = true -> finite_float x = true -> finite_float y = true ->
  fval x < 2 ^ (53 + 1074) -> 2 * 2 ^ 1074 <= fval y < 2 ^ (53 + 1074) -> flt x (fadd x y) = true.
Proof.
  intros Nx Ny Fx Fy Hx Hy. destruct (fadd_ge x y Nx Ny Fx Fy) as [V G].
  destruct (finite_float (fadd x y)) eqn:Fr; [|by destruct (fadd x y) as [|[]| |], x as [[]|[]| |[]]].
  rewrite flt_fval by done. specialize (G eq_refl). cbv zeta in G. eapply Z.lt_le_trans; [|exact G].
  set (s := fval x + fval y). set (k := Z.max 0 (Z.log2 s - 52)).
  assert (S : s < 2 ^ (54 + 1074)).
  { unfold s. replace (54 + 1074) with (Z.succ (53 + 1074)) by lia. rewrite Z.pow_succ_r by lia. lia. }
  assert (K : k <= 1075). { assert (0 < s) by (pose proof (fval_nonneg x); lia).
    apply Z.log2_lt_pow2 in S; lia. }
  assert (P : 2 ^ k <= 2 * 2 ^ 1074).
  { change (2 * 2 ^ 1074) with (2 ^ 1075). apply Z.pow_le_mono_r; lia. }
  pose proof (Z.div_mod s (2 ^ k)) as D. pose proof (Z.mod_pos_bound s (2 ^ k)) as B.
  assert (0 < 2 ^ k) by (apply Z.pow_pos_nonneg; lia). unfold s in *. lia.
Qed.

(** ** The order, infinity included *)

Lemma nonneg_finite_or x : nonneg_float x = true -> finite_float x = true \/ x = S754_infinity false.
Proof. destruct x as [[]|[]| |[] m e]; auto. Qed.

Lemma fadd_up x y :
  nonneg_float x = true -> nonneg_float y = true -> finite_float y = true ->
  nonneg_float (fadd x y) = true /\ flt (fadd x y) x = false.
Proof.
  intros Nx Ny Fy. destruct (nonneg_finite_or x Nx) as [Fx| ->]; [by apply fadd_not_back|]. by destruct y.
Qed.

Lemma math_max_cases x y :
  nonneg_float x = true -> nonneg_float y = true -> math_max x y = if fgt x y then x else y.
Proof. destruct x as [[]|[]| |[] mx ex], y as [[]|[]| |[] my ey]; done. Qed.

Lemma math_max_up x y :
  nonneg_float x = true -> nonneg_float y = true ->
  nonneg_float (math_max x y) = true /\ flt (math_max x y) x = false /\ flt (math_max x y) y = false.
Proof.
  intros Nx Ny. rewrite math_max_cases by done. rewrite fgt_flt. destruct (flt y x) eqn:E.
  - split; [done|]. split; [apply flt_irrefl|by apply flt_asym].
  - split; [done|]. split; [done|apply flt_irrefl].
Qed.

Lemma nonneg_le_trans x y z :
  nonneg_float x = true -> nonneg_float y = true -> nonneg_float z = true ->
  flt x y = false -> flt y z = false -> flt x z = false.
Proof. intros. apply (flt_neg_trans x y z); auto using nonneg_not_nan. Qed.

(** Not after a finite time: finite, and of a smaller value. *)
Lemma not_after_finite x h :
  nonneg_float x = true -> nonneg_float h = true -> finite_float h = true -> flt h x = false ->
  finite_float x = true /\ fval x <= fval h.
Proof.
  intros Nx Nh Fh H. destruct (nonneg_finite_or x Nx) as [Fx| ->]; [|by destruct h as [|[]| |[]]].
  split; [done|]. apply Z.nlt_ge. intros L. apply (flt_fval h x) in L; congruence.
Qed.
