(* ===== verification/Csv.v ===== *)
(** * Reading CSV files and numbers

    The parts of Go's standard library that read the benchmark's summary:
    encoding/csv's Reader with its default settings, and
    strconv.ParseFloat(s, 64). *)

From S2P Require Import Prelude Float64 GoLib.

(** ** encoding/csv *)

Inductive csv_error := ErrBareQuote | ErrQuote | ErrFieldCount.

(** [\r\n] becomes [\n], and a [\r] at the very end is dropped. *)
Fixpoint norm_newlines (s : string) : string :=
  match s with
  | EmptyString => EmptyString
  | String a r =>
      if Ascii.eqb a "013" then
        match r with
        | EmptyString => EmptyString
        | String b _ => if Ascii.eqb b "010" then norm_newlines r else String a (norm_newlines r)
        end
      else String a (norm_newlines r)
  end.

(** Where the reader is in a record; [acc] is the field so far. *)
Inductive csv_state := FieldStart | Unquoted (acc : string) | Quoted (acc : string) | QuoteSeen (acc : string).

Definition snoc (acc : string) (c : ascii) : string := acc +:+ String c "".

(** The end of a record of [row]'s fields; [n] is FieldsPerRecord, which the
    first record sets. *)
Definition end_row (n : option nat) (row : list string) (k : option nat -> result csv_error (list (list string)))
  : result csv_error (list (list string)) :=
  match n with
  | Some m => if Nat.eqb (length row) m then let? rest := k n in Ok (row :: rest) else Err ErrFieldCount
  | None => let? rest := k (Some (length row)) in Ok (row :: rest)
  end.

Fixpoint csv_scan (s : string) (st : csv_state) (row : list string) (n : option nat)
  : result csv_error (list (list string)) :=
  match s with
  | EmptyString =>
      match st with
      | FieldStart => match row with [] => Ok [] | _ => end_row n (row ++ [""]) (fun _ => Ok []) end
      | Unquoted acc | QuoteSeen acc => end_row n (row ++ [acc]) (fun _ => Ok [])
      | Quoted _ => Err ErrQuote
      end
  | String c s =>
      match st with
      | FieldStart =>
          if Ascii.eqb c dquote then csv_scan s (Quoted "") row n
          else if Ascii.eqb c "," then csv_scan s FieldStart (row ++ [""]) n
          else if Ascii.eqb c "010" then
            match row with
            | [] => csv_scan s FieldStart [] n
            | _ => end_row n (row ++ [""]) (csv_scan s FieldStart [])
            end
          else csv_scan s (Unquoted (String c "")) row n
      | Unquoted acc =>
          if Ascii.eqb c dquote then Err ErrBareQuote
          else if Ascii.eqb c "," then csv_scan s FieldStart (row ++ [acc]) n
          else if Ascii.eqb c "010" then end_row n (row ++ [acc]) (csv_scan s FieldStart [])
          else csv_scan s (Unquoted (snoc acc c)) row n
      | Quoted acc =>
          if Ascii.eqb c dquote then csv_scan s (QuoteSeen acc) row n else csv_scan s (Quoted (snoc acc c)) row n
      | QuoteSeen acc =>
          if Ascii.eqb c dquote then csv_scan s (Quoted (snoc acc c)) row n
          else if Ascii.eqb c "," then csv_scan s FieldStart (row ++ [acc]) n
          else if Ascii.eqb c "010" then end_row n (row ++ [acc]) (csv_scan s FieldStart [])
          else Err ErrQuote
      end
  end.

Definition ReadAll (s : string) : result csv_error (list (list string)) := csv_scan (norm_newlines s) FieldStart [] None.

(** ** strconv.ParseFloat *)

Definition lower (c : ascii) : ascii :=
  if (65 <=? code c) && (code c <=? 90) then ascii_of_N (Z.to_N (code c + 32)) else c.

Fixpoint lower_string (s : string) : string :=
  match s with EmptyString => EmptyString | String c s => String (lower c) (lower_string s) end.

Definition hex_value (c : ascii) : option Z :=
  match digit c with
  | Some d => Some d
  | None => let l := code (lower c) in if (97 <=? l) && (l <=? 102) then Some (l - 87) else None
  end.

Record mantissa := mkMantissa { mant : Z; frac : Z; sawdigits : bool; after : string }.

(** Digits with at most one dot, underscores skipped. *)
Fixpoint read_mantissa (base : Z) (s : string) (m fr : Z) (dot digits : bool) : mantissa :=
  match s with
  | EmptyString => mkMantissa m fr digits s
  | String c r =>
      if Ascii.eqb c "_" then read_mantissa base r m fr dot digits
      else if Ascii.eqb c "." then
        if dot then mkMantissa m fr digits s else read_mantissa base r m fr true digits
      else match (if base =? 16 then hex_value c else digit c) with
           | Some d => read_mantissa base r (m * base + d) (if dot then fr + 1 else fr) dot true
           | None => mkMantissa m fr digits s
           end
  end.

(** The digits of an exponent, which stops growing at 10000. *)
Fixpoint read_exponent (s : string) (e : Z) : Z * string :=
  match s with
  | EmptyString => (e, s)
  | String c r =>
      if Ascii.eqb c "_" then read_exponent r e
      else match digit c with
           | Some d => read_exponent r (if e <? 10000 then e * 10 + d else e)
           | None => (e, s)
           end
  end.

(** An optional exponent after [exp_char]; [None] is a malformed one. *)
Definition read_exp (exp_char : ascii) (required : bool) (s : string) : option (Z * string) :=
  match s with
  | String c r =>
      if Ascii.eqb (lower c) exp_char then
        let '(sign, r) := match r with
                          | String d r' => if Ascii.eqb d "+" then (1, r') else if Ascii.eqb d "-" then (-1, r') else (1, r)
                          | EmptyString => (1, r)
                          end in
        match r with
        | String d _ => match digit d with
                        | Some _ => let '(e, rest) := read_exponent r 0 in Some (sign * e, rest)
                        | None => None
                        end
        | EmptyString => None
        end
      else if required then None else Some (0, s)
  | EmptyString => if required then None else Some (0, s)
  end.

Fixpoint contains_char (c : ascii) (s : string) : bool :=
  match s with EmptyString => false | String d r => Ascii.eqb c d || contains_char c r end.

(** underscoreOK after the sign and the base prefix: [saw] is the last
    character seen, ["0"] for a digit, ["_"], or ["!"] for anything else. *)
Fixpoint underscore_ok (hex : bool) (s : string) (saw : ascii) : bool :=
  match s with
  | EmptyString => negb (Ascii.eqb saw "_")
  | String c r =>
      if match (if hex then hex_value c else digit c) with Some _ => true | None => false end then underscore_ok hex r "0"
      else if Ascii.eqb c "_" then Ascii.eqb saw "0" && underscore_ok hex r "_"
      else if Ascii.eqb saw "_" then false else underscore_ok hex r "!"
  end.

(** The float nearest to [± m * 10^e], ties to even. *)
Definition round_decimal (neg : bool) (m e : Z) : float64 :=
  if m =? 0 then S754_zero neg
  else let sgn z := if neg then - z else z in
  if 0 <=? e then binary_normalize 53 1024 (sgn (m * 10 ^ e)) 0 neg
  else let s := 1200 + 4 * (- e) in
       let '(q, r) := Z.div_eucl (m * 2 ^ s) (10 ^ (- e)) in
       binary_normalize 53 1024 (sgn (2 * q + (if r =? 0 then 0 else 1))) (- (s + 1)) neg.

Definition round_binary (neg : bool) (m e : Z) : float64 :=
  if m =? 0 then S754_zero neg else binary_normalize 53 1024 (if neg then - m else m) e neg.

Definition special_float (neg : bool) (signed : bool) (s : string) : option float64 :=
  let l := lower_string s in
  if String.eqb l "inf" || String.eqb l "infinity" then Some (S754_infinity neg)
  else if String.eqb l "nan" && negb signed then Some S754_nan
  else None.

(** [None] is ErrSyntax; with ErrRange the value is an infinity. *)
Definition ParseFloat (s : string) : option float64 :=
  let '(signed, neg, u) := match s with
                           | String c r => if Ascii.eqb c "-" then (true, true, r) else if Ascii.eqb c "+" then (true, false, r)
                                           else (false, false, s)
                           | EmptyString => (false, false, s)
                           end in
  match special_float neg signed u with
  | Some x => Some x
  | None =>
      let hex := match u with String z (String x (String _ _)) => Ascii.eqb z "0" && Ascii.eqb (lower x) "x" | _ => false end in
      let body := if hex then drop 2 u else u in
      let mt := read_mantissa (if hex then 16 else 10) body 0 0 false false in
      if negb mt.(sawdigits) then None
      else match read_exp (if hex then "p" else "e") hex mt.(after) with
           | Some (e, "") =>
               if contains_char "_" u && negb (underscore_ok hex body (if hex then "0" else "^")) then None
               else Some (if hex then round_binary neg mt.(mant) (e - 4 * mt.(frac)) else round_decimal neg mt.(mant) (e - mt.(frac)))
           | _ => None
           end
  end.

Example ParseFloat_examples :
  ParseFloat "0.407417" = Some (f_lit 407417 1000000) /\ ParseFloat "-12.5e1" = Some (f_of_Z (-125)) /\
  ParseFloat "" = None /\ ParseFloat "nan" = Some S754_nan /\ ParseFloat "1e" = None /\
  ParseFloat "1e400" = Some (S754_infinity false) /\ ParseFloat "0x1p-2" = Some (f_lit 1 4) /\ ParseFloat "1_0" = Some (f_of_Z 10) /\
  ParseFloat "5e-324" = Some (S754_finite false 1 (-1074)) /\ ParseFloat "2e-324" = Some f0.
Proof. by vm_compute. Qed.

(** ** Plain fields read back *)

Definition plain_char (c : ascii) : bool :=
  negb (Ascii.eqb c dquote || Ascii.eqb c "," || Ascii.eqb c "010" || Ascii.eqb c "013").

Fixpoint plain (s : string) : bool :=
  match s with EmptyString => true | String c r => plain_char c && plain r end.

Lemma snoc_app acc c r : snoc acc c +:+ r = acc +:+ String c r.
Proof. unfold snoc. by rewrite append_assoc. Qed.

Lemma plain_char_false c :
  plain_char c = true ->
  Ascii.eqb c dquote = false /\ Ascii.eqb c "," = false /\ Ascii.eqb c "010" = false /\ Ascii.eqb c "013" = false.
Proof. unfold plain_char. intros H. to_prop. tauto. Qed.

Lemma csv_unquoted f s acc row n :
  plain f = true -> csv_scan (f +:+ s) (Unquoted acc) row n = csv_scan s (Unquoted (acc +:+ f)) row n.
Proof.
  revert acc. induction f as [|c f IH]; intros acc H; [by rewrite append_nil_r|].
  cbn [plain] in H. apply andb_true_iff in H as [Hc Hf]. apply plain_char_false in Hc as (E1 & E2 & E3 & _).
  rewrite append_cons. cbn [csv_scan]. rewrite E1, E2, E3, IH by done. by rewrite snoc_app.
Qed.

(** A plain field, up to the comma or the end of the line. *)
Lemma csv_field_comma f s row n :
  plain f = true -> csv_scan (f +:+ String "," s) FieldStart row n = csv_scan s FieldStart (row ++ [f]) n.
Proof.
  destruct f as [|c f]; intros H; [done|]. cbn [plain] in H. apply andb_true_iff in H as [Hc Hf].
  apply plain_char_false in Hc as (E1 & E2 & E3 & _). rewrite append_cons. cbn [csv_scan]. rewrite E1, E2, E3.
  by rewrite csv_unquoted.
Qed.

Lemma csv_field_end f s row n :
  plain f = true -> f <> "" \/ row <> [] ->
  csv_scan (f +:+ String "010" s) FieldStart row n = end_row n (row ++ [f]) (csv_scan s FieldStart []).
Proof.
  destruct f as [|c f]; intros H Hne.
  - destruct row; [by destruct Hne|done].
  - cbn [plain] in H. apply andb_true_iff in H as [Hc Hf].
    apply plain_char_false in Hc as (E1 & E2 & E3 & _). rewrite append_cons. cbn [csv_scan]. rewrite E1, E2, E3.
    by rewrite csv_unquoted.
Qed.

Lemma join_cons f g l sep : join (f :: g :: l) sep = f +:+ sep +:+ join (g :: l) sep.
Proof. done. Qed.

Lemma csv_fields f l s row n :
  Forall (fun x => plain x = true) (f :: l) -> f <> "" \/ l <> [] \/ row <> [] ->
  csv_scan (join (f :: l) "," +:+ String "010" s) FieldStart row n = end_row n (row ++ f :: l) (csv_scan s FieldStart []).
Proof.
  revert f row. induction l as [|g l IH]; intros f row H Hne.
  - apply Forall_cons in H as [Hf _]. apply csv_field_end; [done|]. destruct Hne as [|[|]]; auto; done.
  - apply Forall_cons in H as [Hf H]. rewrite join_cons, append_assoc.
    change ("," +:+ join (g :: l) ",") with (String "," (join (g :: l) ",")).
    rewrite append_cons, csv_field_comma by done. rewrite IH; [by rewrite <- app_assoc|done|right; right; by destruct row].
Qed.

(** *** Whole files *)

Definition csv_text (rows : list (list string)) : string :=
  foldr (fun row rest => join row "," +:+ String "010" rest) "" rows.

(** Rows of plain fields, all of one length; a row of one empty field would be
    an empty line, which the reader skips. *)
Definition row_ok (n : nat) (row : list string) : Prop :=
  length row = n /\ row <> [] /\ row <> [""] /\ Forall (fun x => plain x = true) row.

Lemma csv_scan_text rows n :
  Forall (row_ok n) rows -> csv_scan (csv_text rows) FieldStart [] (Some n) = Ok rows.
Proof.
  induction rows as [|row rows IH]; intros H; [done|]. apply Forall_cons in H as [(Hl & Hn & Hne & Hp) H].
  cbn [csv_text foldr]. fold (csv_text rows). destruct row as [|f l]; [done|].
  rewrite csv_fields; [|done|destruct l; [left; congruence|right; left; done]].
  unfold end_row. cbn [app]. rewrite Hl, Nat.eqb_refl, IH by done. done.
Qed.

Fixpoint no_cr (s : string) : bool :=
  match s with EmptyString => true | String c r => negb (Ascii.eqb c "013") && no_cr r end.

Lemma norm_no_cr s : no_cr s = true -> norm_newlines s = s.
Proof.
  induction s as [|c s IH]; [done|]. cbn [no_cr norm_newlines]. intros H. apply andb_true_iff in H as [Hc Hs].
  apply negb_true_iff in Hc. rewrite Hc. by rewrite IH.
Qed.

Lemma no_cr_app a b : no_cr (a +:+ b) = no_cr a && no_cr b.
Proof. induction a as [|c a IH]; [done|]. rewrite append_cons. cbn [no_cr]. by rewrite IH, andb_assoc. Qed.

Lemma plain_no_cr s : plain s = true -> no_cr s = true.
Proof.
  induction s as [|c s IH]; [done|]. cbn [plain no_cr]. intros H. apply andb_true_iff in H as [Hc Hs].
  apply plain_char_false in Hc as (_ & _ & _ & E). by rewrite E, IH.
Qed.

Lemma join_no_cr l : Forall (fun x => plain x = true) l -> no_cr (join l ",") = true.
Proof.
  induction l as [|f l IH]; [done|]. intros [Hf H]%Forall_cons. destruct l as [|g l]; [by apply plain_no_cr|].
  rewrite join_cons, !no_cr_app, plain_no_cr, IH by done. done.
Qed.

Lemma csv_text_no_cr n rows : Forall (row_ok n) rows -> no_cr (csv_text rows) = true.
Proof.
  induction rows as [|row rows IH]; [done|]. intros [(_ & _ & _ & Hp) H]%Forall_cons. cbn [csv_text foldr].
  rewrite no_cr_app, join_no_cr by done. cbn [no_cr andb]. by apply IH.
Qed.

Lemma ReadAll_text n row rows : Forall (row_ok n) (row :: rows) -> ReadAll (csv_text (row :: rows)) = Ok (row :: rows).
Proof.
  intros H. unfold ReadAll. rewrite norm_no_cr by (by eapply csv_text_no_cr).
  apply Forall_cons in H as [(Hl & Hn & Hne & Hp) H]. cbn [csv_text foldr]. fold (csv_text rows). destruct row as [|f l]; [done|].
  rewrite csv_fields; [|done|destruct l; [left; congruence|right; left; done]].
  unfold end_row. cbn [app]. rewrite Hl, csv_scan_text by done. done.
Qed.

(** Every record the reader returns has as many fields as the first. *)
Lemma end_row_lengths n row k out :
  (forall m out', k (Some m) = Ok out' -> Forall (fun r => length r = m) out') ->
  end_row n row k = Ok out -> exists m, (forall m', n = Some m' -> m = m') /\ Forall (fun r => length r = m) out.
Proof.
  intros H1. unfold end_row. destruct n as [m|].
  - destruct (Nat.eqb_spec (length row) m) as [E|]; [|done]. destruct (k (Some m)) as [rest|] eqn:K; [|done]. intros [= <-].
    exists m. split; [by intros ? [= <-]|]. constructor; [done|]. by apply H1.
  - destruct (k (Some (length row))) as [rest|] eqn:K; [|done]. intros [= <-].
    exists (length row). split; [done|]. constructor; [done|]. by apply H1.
Qed.

Lemma csv_scan_lengths s st row n out :
  csv_scan s st row n = Ok out -> exists m, (forall m', n = Some m' -> m = m') /\ Forall (fun r => length r = m) out.
Proof.
  revert st row n out. induction s as [|c s IH]; intros st row n out; cbn [csv_scan].
  - assert (Z : forall k row, k = (fun _ : option nat => Ok (E := csv_error) []) -> end_row n row k = Ok out ->
      exists m, (forall m', n = Some m' -> m = m') /\ Forall (fun r => length r = m) out).
    { intros k r ->. apply end_row_lengths. by intros m out' [= <-]. }
    destruct st; [|by apply Z|done|by apply Z]. destruct row; [|by apply Z].
    intros [= <-]. exists (default 0%nat n). split; [by intros m' ->|constructor].
  - assert (K : forall m out', csv_scan s FieldStart [] (Some m) = Ok out' -> Forall (fun r => length r = m) out').
    { intros m out' H. destruct (IH _ _ _ _ H) as (m' & E & F). by rewrite <- (E m eq_refl). }
    destruct st; repeat case_match; try done; first [by apply IH|by apply end_row_lengths].
Qed.

Lemma ReadAll_lengths s header rows :
  ReadAll s = Ok (header :: rows) -> Forall (fun r => length r = length header) rows.
Proof.
  intros H. apply csv_scan_lengths in H as (m & _ & F). apply Forall_cons in F as [<- F]. done.
Qed.
