(* ===== verification/Fmt.v ===== *)
(** * fmt and text/tabwriter, as the commands print and scan

    The runes of a byte string, the shortest decimal that reads back as a
    float64 ([%g] and [%v]), [%v] of a document's values, [Sscanf] with [%g],
    and the column alignment of [text/tabwriter] with the settings the tables
    of src/cmd/rabi use. *)

From S2P Require Import Prelude Float64 GoLib Csv.

(** ** Runes *)

(** What may follow a first byte: how many more bytes, and the range of the
    next one (package unicode/utf8). *)
Definition rune_class (n : Z) : option (nat * Z * Z) :=
  if (194 <=? n) && (n <=? 223) then Some (1%nat, 128, 191)
  else if n =? 224 then Some (2%nat, 160, 191)
  else if n =? 237 then Some (2%nat, 128, 159)
  else if (225 <=? n) && (n <=? 239) then Some (2%nat, 128, 191)
  else if n =? 240 then Some (3%nat, 144, 191)
  else if (241 <=? n) && (n <=? 243) then Some (3%nat, 128, 191)
  else if n =? 244 then Some (3%nat, 128, 143)
  else None.

Definition byte_within (lo hi : Z) (c : ascii) : bool := (lo <=? code c) && (code c <=? hi).

Fixpoint continues (k : nat) (s : string) : bool :=
  match k, s with
  | O, _ => true
  | S k', String c r => byte_within 128 191 c && continues k' r
  | _, _ => false
  end.

(** The width in bytes of the first rune; an invalid byte is a rune of one. *)
Definition rune_len (s : string) : nat :=
  match s with
  | "" => 0
  | String c r =>
      match rune_class (code c) with
      | Some (k, lo, hi) =>
          match r with
          | String b r' => if byte_within lo hi b && continues (pred k) r' then S k else 1
          | "" => 1
          end
      | None => 1
      end
  end.

(** The first [n] runes, as [%.Ns] prints them. *)
Fixpoint rune_prefix_len (n : nat) (s : string) : nat :=
  match n with
  | O => O
  | S n' => match s with "" => O | _ => let k := rune_len s in (k + rune_prefix_len n' (drop k s))%nat end
  end.
Definition rune_prefix (n : nat) (s : string) : string := String.substring 0 (rune_prefix_len n s) s.

(** [utf8.RuneCount]; a rune takes at least a byte. *)
Fixpoint rune_count_fuel (fuel : nat) (s : string) : nat :=
  match fuel, s with
  | S f, String _ _ => S (rune_count_fuel f (drop (rune_len s) s))
  | _, _ => O
  end.
Definition rune_count (s : string) : nat := rune_count_fuel (String.length s) s.

(** ** [%g] and [%v] of a float64: the shortest decimal *)

(** Of the two [n]-digit decimals around [num/den], the nearest that reads
    back as [x], a tie going to the even one; [k] is their scale. *)
Definition shortest_at (x : float64) (num den k : Z) : option Z :=
  let '(a, b) := if 0 <=? k then (num * 10 ^ k, den) else (num, den * 10 ^ (- k)) in
  let lo := a / b in
  let r := a mod b in
  let reads q := bool_decide (round_decimal false q (- k) = x) in
  let up := (b <? 2 * r) || ((b =? 2 * r) && Z.odd lo) in
  let '(near, far) := if up then (lo + 1, lo) else (lo, lo + 1) in
  if reads near then Some near else if reads far then Some far else None.

(** The fewest digits that suffice; seventeen always do. *)
Fixpoint shortest_from (fuel : nat) (n : Z) (x : float64) (num den x10 : Z) : Z * Z :=
  let k := n - 1 - x10 in
  match fuel, shortest_at x num den k with
  | _, Some q => (q, k)
  | O, None => (div_half_even (num * 10 ^ Z.max 0 k) (den * 10 ^ Z.max 0 (- k)), k)
  | S f, None => shortest_from f (n + 1) x num den x10
  end.

(** [strconv.FormatFloat(x, 'g', -1, 64)], [%g] and [%v]. *)
Definition format_g (x : float64) : string :=
  match x with
  | S754_nan => "NaN"
  | S754_infinity s => if s then "-Inf" else "+Inf"
  | S754_zero s => if s then "-0" else "0"
  | S754_finite s m e =>
      let '(num, den) := frac_of m e in
      let '(q, k) := shortest_from 16 1 (S754_finite false m e) num den (log10_floor num den) in
      let ds := nat_digits (strip_zeros 20 q) in
      let dp := Z.of_nat (String.length (nat_digits q)) - k in
      (if s then "-" else "") +:+
      (if (dp - 1 <? -4) || (6 <=? dp - 1) then layout_e ds (dp - 1) else layout_f ds dp)
  end.

Example format_g_examples :
  format_g (f_lit 1 10) = "0.1" /\ format_g (f_of_Z 4000) = "4000" /\ format_g (f_of_Z 1234567) = "1.234567e+06" /\
  format_g (f_lit 2 3) = "0.6666666666666666" /\ format_g (S754_finite false 1 (-1074)) = "5e-324" /\
  format_g (f_of_Z 100000) = "100000" /\ format_g (f_of_Z 1000000) = "1e+06" /\ format_g (f_lit 1 10000) = "0.0001" /\
  format_g (f_lit 1 100000) = "1e-05" /\ format_g (fadd (f_lit 1 10) (f_lit 2 10)) = "0.30000000000000004" /\
  format_g (f_of_Z 9007199254740993) = "9.007199254740992e+15" /\ format_g f0 = "0".
Proof. vm_compute. split_and!; reflexivity. Qed.

(** ** [%v] of a document's value *)

Definition kv_less (a b : string * string) : bool := str_lt a.1 b.1.

(** A map prints with sorted keys. *)
Fixpoint fmt_v (v : any) : string :=
  match v with
  | JNull => "<nil>"
  | JBool b => if b then "true" else "false"
  | JNum x => format_g x
  | JStr s => s
  | JArr l => "[" +:+ join (fmt_v <$> l) " " +:+ "]"
  | JObj m =>
      "map[" +:+ join ((fun kv => kv.1 +:+ ":" +:+ kv.2)
                        <$> sort_by kv_less (map_fold (fun k x acc => (k, fmt_v x) :: acc) [] m)) " " +:+ "]"
  end.

Example fmt_v_examples :
  fmt_v (JStr "bell") = "bell" /\ fmt_v (JNum (f_of_Z 5)) = "5" /\
  fmt_v (JArr [JNull; JBool true; jobj [("b", JNum f1); ("a", JStr "x")]]) = "[<nil> true map[a:x b:1]]".
Proof. vm_compute. split_and!; reflexivity. Qed.

(** ** [fmt.Sscanf(text, "%g", &x)] *)

(** A scanner's state: the token so far and the rest of the text. *)
Abbreviation scanner := (string * string)%type.

(** [accept]: take one character of [ok]. *)
Definition accept (ok : string) (s : scanner) : bool * scanner :=
  match s.2 with
  | String c rest => if contains_char c ok then (true, (snoc s.1 c, rest)) else (false, s)
  | "" => (false, s)
  end.

Fixpoint accept_all (fuel : nat) (ok : string) (s : scanner) : scanner :=
  match fuel with
  | O => s
  | S f => let '(more, s') := accept ok s in if more then accept_all f ok s' else s'
  end.
Definition accept_run (ok : string) (s : scanner) : scanner := accept_all (String.length s.2) ok s.

(** [accept(a) && accept(b) && accept(c)]: what was taken stays taken. *)
Fixpoint accept_each (oks : list string) (s : scanner) : bool * scanner :=
  match oks with
  | [] => (true, s)
  | ok :: rest => let '(more, s') := accept ok s in if more then accept_each rest s' else (false, s')
  end.

Definition floatToken (text : string) : string :=
  let '(nan, s) := accept_each ["nN"; "aA"; "nN"] ("", text) in
  if nan then s.1 else
  let s := (accept "+-" s).2 in
  let '(inf, s) := accept_each ["iI"; "nN"; "fF"] s in
  if inf then s.1 else
  let '(hex, s) := accept_each ["0"; "xX"] s in
  let digits := (if hex then "0123456789aAbBcCdDeEfF" else "0123456789") +:+ "_" in
  let exp := if hex then "pP" else "eEpP" in
  let s := accept_run digits s in
  let '(dot, s) := accept "." s in
  let s := if dot then accept_run digits s else s in
  let '(e, s) := accept exp s in
  (if e then accept_run "0123456789_" (accept "+-" s).2 else s).1.

(** [strconv.ParseFloat] with its error: a number too large is ErrRange. *)
Definition parse_float_strict (s : string) : option float64 :=
  match ParseFloat s with
  | Some (S754_infinity b) =>
      let l := lower_string s in
      if contains_char "n" l then Some (S754_infinity b) else None
  | r => r
  end.

(** [math.Ldexp]. *)
Definition ldexp (x : float64) (k : Z) : float64 :=
  match x with S754_finite s m e => round_binary s (Z.pos m) (e + k) | _ => x end.

Definition convertFloat (token : string) : option float64 :=
  match cut token "p"%char with
  | Some (f, e) =>
      if contains_char "x" (lower_string token) then parse_float_strict token
      else match parse_float_strict f, atoi e with Some x, Some k => Some (ldexp x k) | _, _ => None end
  | None => parse_float_strict token
  end.

(** Leading blanks are skipped, a line break is an error. *)
Fixpoint scan_start (s : string) : option string :=
  match s with
  | "" => None
  | String c r => if Ascii.eqb c "010" then None else if is_space c then scan_start r else Some s
  end.

(** The value scanned, or [None] for an error.  What follows the number is
    left unread, and is no error. *)
Definition sscanf_g (text : string) : option float64 :=
  match scan_start text with Some s => convertFloat (floatToken s) | None => None end.

Example sscanf_g_examples :
  sscanf_g "1000" = Some (f_of_Z 1000) /\ sscanf_g " 1.5e3" = Some (f_of_Z 1500) /\ sscanf_g "1,000" = Some f1 /\
  sscanf_g "10k" = Some (f_of_Z 10) /\ sscanf_g "NaN" = Some S754_nan /\ sscanf_g "Inf" = Some (S754_infinity false) /\
  sscanf_g "shots" = None /\ sscanf_g "" = None /\ sscanf_g "1e999" = None /\ sscanf_g "1.5p2" = Some (f_of_Z 6) /\
  sscanf_g "0x1p4" = Some (f_of_Z 16) /\ sscanf_g "-5" = Some (f_of_Z (-5)) /\ sscanf_g "1e" = None.
Proof. vm_compute. split_and!; reflexivity. Qed.

(** ** text/tabwriter: NewWriter(w, 2, 4, 2, ' ', 0) *)

Definition minwidth : nat := 2.
Definition padding : nat := 2.

(** The cells of the text's lines.  A tab or vertical tab ends a cell, a line
    break the cell and its line; what is left at the end is a last cell, if it
    is not empty.  A form feed ends a page: no column continues across it. *)
Fixpoint cells (s cur : string) (line : list string) (page : list (list string)) : list (list (list string)) :=
  match s with
  | "" => [page ++ [if String.eqb cur "" then line else line ++ [cur]]]
  | String c r =>
      if Ascii.eqb c "009" || Ascii.eqb c "011" then cells r "" (line ++ [cur]) page
      else if Ascii.eqb c "010" then cells r "" [] (page ++ [line ++ [cur]])
      else if Ascii.eqb c "012" then (page ++ [line ++ [cur]; []]) :: cells r "" [] []
      else cells r (snoc cur c) line page
  end.

Fixpoint spaces (n : nat) : string := match n with O => "" | S n' => String " " (spaces n') end.

(** [writeLines] for one line: the cells that lie in a column are padded. *)
Fixpoint write_line (widths : list nat) (line : list string) : string :=
  match line, widths with
  | [], _ => ""
  | c :: line', w :: widths' => c +:+ spaces (w - rune_count c) +:+ write_line widths' line'
  | c :: line', [] => c +:+ write_line [] line'
  end.

Definition in_column (column : nat) (line : list string) : bool := Nat.ltb (S column) (length line).

Fixpoint span {A} (f : A -> bool) (l : list A) : list A * list A :=
  match l with
  | [] => ([], [])
  | x :: l' => if f x then let '(a, b) := span f l' in (x :: a, b) else ([], l)
  end.

Definition column_width (column : nat) (block : list (list string)) : nat :=
  fold_left (fun w line => Nat.max w (rune_count (default "" (line !! column)) + padding)%nat) block minwidth.

(** [format]: the lines in which the next column has a cell form blocks, each
    laid out with the width of its widest cell. *)
Fixpoint format (fuel : nat) (widths : list nat) (lines : list (list string)) : list string :=
  match fuel, lines with
  | _, [] => []
  | O, _ => write_line widths <$> lines
  | S f, line :: rest =>
      if in_column (length widths) line then
        let '(block, rest') := span (in_column (length widths)) lines in
        format f (widths ++ [column_width (length widths) block]) block ++ format f widths rest'
      else write_line widths line :: format f widths rest
  end.

(** Every step takes a line, or a cell of every line of a block. *)
Definition layout_fuel (column : nat) (lines : list (list string)) : nat :=
  foldr (fun line n => (S (length line - column) + n)%nat) 0%nat lines.

Definition newline : string := String "010"%char "".

Definition tabwriter (text : string) : string :=
  String.concat "" ((fun page => join (format (layout_fuel 0 page) [] page) newline) <$> cells text "" [] []).

Example tabwriter_examples :
  tabwriter ("ID" +:+ String "009" "NAME" +:+ newline +:+ "j-1" +:+ String "009" "bell" +:+ newline) =
    "ID   NAME" +:+ newline +:+ "j-1  bell" +:+ newline /\
  rune_count "ab…·" = 4%nat /\ rune_prefix 2 "…xy" = "…x".
Proof. vm_compute. split_and!; reflexivity. Qed.

(** ** Tables *)

Definition tab : string := String "009"%char "".

(** A row as the commands print it, and a table of them. *)
Definition row_text (row : list string) : string := join row tab +:+ newline.
Definition table (rows : list (list string)) : string := tabwriter (String.concat "" (row_text <$> rows)).

Definition cell_char (c : ascii) : bool :=
  negb (Ascii.eqb c "009" || Ascii.eqb c "010" || Ascii.eqb c "011" || Ascii.eqb c "012").

Fixpoint cell_ok (s : string) : bool :=
  match s with "" => true | String c r => cell_char c && cell_ok r end.

Definition rectangular (n : nat) (rows : list (list string)) : Prop :=
  Forall (fun r => length r = n /\ Forall (fun c => cell_ok c = true) r) rows.

Lemma snoc_append a c s : snoc a c +:+ s = a +:+ String c s.
Proof. unfold snoc. by rewrite append_assoc. Qed.

(** A cell's text goes to the current cell. *)
Lemma cells_text t s cur line page :
  cell_ok t = true -> cells (t +:+ s) cur line page = cells s (cur +:+ t) line page.
Proof.
  revert cur. induction t as [|c t IH]; intros cur H; [by rewrite append_nil_r|].
  cbn [cell_ok] in H. to_prop. rewrite append_cons. cbn [cells]. unfold cell_char in *. to_prop.
  repeat match goal with E : Ascii.eqb c _ = false |- _ => rewrite E; clear E end. cbn [orb].
  rewrite IH by done. unfold snoc. by rewrite append_assoc.
Qed.

Lemma cells_row row s line page :
  row <> [] -> Forall (fun c => cell_ok c = true) row ->
  cells (row_text row +:+ s) "" line page = cells s "" [] (page ++ [line ++ row]).
Proof.
  revert line. induction row as [|c row IH]; intros line; [done|]. intros _ [Hc H]%Forall_cons. unfold row_text, join.
  destruct row as [|c' row]; [cbn [String.concat]|change (String.concat tab (c :: c' :: row)) with (c +:+ tab +:+ String.concat tab (c' :: row))].
  - rewrite append_assoc, cells_text by done. done.
  - rewrite !append_assoc, cells_text by done. change (tab +:+ ?x) with (String "009" x). cbn [cells].
    change (Ascii.eqb "009" "009" || Ascii.eqb "009" "011") with true. cbn iota.
    specialize (IH (line ++ [c])). unfold row_text, join in IH. rewrite append_assoc in IH.
    change ("" +:+ c) with c. rewrite IH by done. by rewrite <- app_assoc.
Qed.

Lemma cells_table rows page n :
  (0 < n)%nat -> rectangular n rows ->
  cells (String.concat "" (row_text <$> rows)) "" [] page = [page ++ rows ++ [[]]].
Proof.
  intros Hn H. revert page. induction H as [|r rows [Hl Hr] H IH]; intros page; [done|].
  rewrite fmap_cons, concat_cons, cells_row; [|by destruct r; simpl in Hl; [lia|]|done].
  rewrite IH. by rewrite <- app_assoc.
Qed.

(** ** Layout *)

Lemma format_flat fuel widths lines :
  Forall (fun l => in_column (length widths) l = false) lines ->
  format fuel widths lines = write_line widths <$> lines.
Proof.
  intros H. revert fuel. induction H as [|l lines Hl H IH]; intros [|f]; [done..|]. cbn [format].
  by rewrite Hl, IH.
Qed.

Lemma span_all {A} (f : A -> bool) l rest :
  Forall (fun x => f x = true) l -> match rest with [] => True | x :: _ => f x = false end -> span f (l ++ rest) = (l, rest).
Proof.
  intros H Hr. induction H as [|x l Hx H IH]; cbn [app span].
  - destruct rest as [|x rest]; [done|]. cbn [span]. by rewrite Hr.
  - by rewrite Hx, IH.
Qed.

Lemma in_column_lt k l : in_column k l = true <-> (S k < length l)%nat.
Proof. apply Nat.ltb_lt. Qed.

Lemma layout_fuel_app k a b : layout_fuel k (a ++ b) = (layout_fuel k a + layout_fuel k b)%nat.
Proof.
  induction a as [|l a IH]; [done|]. cbn [app].
  change (layout_fuel k (l :: ?x)) with (S (length l - k) + layout_fuel k x)%nat. rewrite IH. lia.
Qed.

Lemma layout_fuel_step k rows :
  Forall (fun l => (k < length l)%nat) rows -> layout_fuel k rows = (length rows + layout_fuel (S k) rows)%nat.
Proof.
  induction 1 as [|l rows Hl H IH]; [done|].
  change (layout_fuel ?j (l :: rows)) with (S (length l - j) + layout_fuel j rows)%nat. cbn [length]. rewrite IH. lia.
Qed.

(** The widths of the columns from [k] on, of which the last cell has none. *)
Definition widths_from (k n : nat) (rows : list (list string)) : list nat :=
  (fun j => column_width j rows) <$> seq k (pred n - k).

Lemma widths_from_step k n rows :
  (S k < n)%nat -> widths_from k n rows = column_width k rows :: widths_from (S k) n rows.
Proof.
  intros H. unfold widths_from. replace (pred n - k)%nat with (S (pred n - S k)) by lia. done.
Qed.

Lemma format_block f widths rows rest n :
  rows <> [] -> rectangular n rows -> (S (length widths) < n)%nat -> match rest with [] => True | l :: _ => l = [] end ->
  format (S f) widths (rows ++ rest) =
  format f (widths ++ [column_width (length widths) rows]) rows ++ format f widths rest.
Proof.
  intros Hne H Hk Hr. destruct rows as [|r rows]; [done|].
  assert (A : Forall (fun l => in_column (length widths) l = true) (r :: rows)).
  { eapply Forall_impl; [exact H|]. intros l [Hl _]. apply in_column_lt. lia. }
  assert (E : in_column (length widths) r = true) by by inversion A.
  assert (S : span (in_column (length widths)) ((r :: rows) ++ rest) = (r :: rows, rest)).
  { apply span_all; [done|]. destruct rest as [|l rest]; [done|]. by subst l. }
  cbn [format app]. cbn [app] in S. by rewrite E, S.
Qed.

Lemma format_nil f widths : format f widths [] = [].
Proof. by destruct f. Qed.

Lemma format_rectangular rows n fuel widths :
  rows <> [] -> rectangular n rows -> (length widths < n)%nat -> (layout_fuel (length widths) rows <= fuel)%nat ->
  format fuel widths rows = write_line (widths ++ widths_from (length widths) n rows) <$> rows.
Proof.
  intros Hne H. remember (n - length widths)%nat as m eqn:Em. revert fuel widths Em.
  induction m as [|m IH]; intros fuel widths Em Hk Hf; [lia|].
  destruct (decide (S (length widths) < n)%nat) as [Hlt|Hge].
  - assert (L : Forall (fun l : list string => (length widths < length l)%nat) rows).
    { eapply Forall_impl; [exact H|]. intros l [Hl _]. lia. }
    rewrite layout_fuel_step in Hf by done.
    assert (0 < length rows)%nat by (destruct rows; [done|simpl; lia]).
    destruct fuel as [|f]; [lia|]. pose proof (format_block f widths rows [] n Hne H Hlt I) as B.
    rewrite !app_nil_r in B. rewrite B, format_nil, app_nil_r.
    assert (E : length (widths ++ [column_width (length widths) rows]) = S (length widths)) by (rewrite length_app; simpl; lia).
    rewrite IH; rewrite ?E; [|lia..]. rewrite (widths_from_step (length widths)) by done. by rewrite <- app_assoc.
  - rewrite format_flat.
    + unfold widths_from. replace (pred n - length widths)%nat with 0%nat by lia. by rewrite app_nil_r.
    + eapply Forall_impl; [exact H|]. intros l [Hl _]. apply Nat.ltb_ge. lia.
Qed.

(** The width of a column: two more than its widest cell. *)
Lemma column_width_spec j rows :
  (forall r, r ∈ rows -> (rune_count (default "" (r !! j)) + padding <= column_width j rows)%nat) /\
  (rows <> [] -> exists r, r ∈ rows /\ column_width j rows = (rune_count (default "" (r !! j)) + padding)%nat).
Proof.
  unfold column_width. assert (G : forall w, (minwidth <= w)%nat ->
    let out := fold_left (fun w line => Nat.max w (rune_count (default "" (line !! j)) + padding)) rows w in
    (w <= out)%nat /\ (forall r, r ∈ rows -> (rune_count (default "" (r !! j)) + padding <= out)%nat) /\
    (out = w \/ exists r, r ∈ rows /\ out = (rune_count (default "" (r !! j)) + padding)%nat)).
  { induction rows as [|r rows IH]; intros w Hw; [split_and!; [done|by intros ? ?%elem_of_nil|by left]|]. cbn [fold_left].
    set (c := (rune_count (default "" (r !! j)) + padding)%nat). destruct (IH (Nat.max w c) ltac:(lia)) as (H1 & H2 & H3).
    split_and!; [lia| |].
    - intros r' [->|Hr]%elem_of_cons; [fold c; lia|by apply H2].
    - destruct H3 as [->|(r' & Hr & ->)]; [|right; exists r'; split; [by right|done]].
      destruct (Nat.max_spec w c) as [[_ ->]|[_ ->]]; [right; exists r; split; [left|done]|by left]. }
  destruct (G minwidth ltac:(done)) as (_ & H2 & H3). split; [done|]. intros Hne.
  destruct H3 as [E|H3]; [|done]. destruct rows as [|r rows]; [done|]. exists r. split; [left|].
  specialize (H2 r ltac:(left)). rewrite E in *. unfold minwidth, padding in *. lia.
Qed.

(** The tables line up: for rows of the same number of cells, none with a
    tab or a line break, every line is its row, with each cell but the last
    filled with blanks to the width of its column, which is two more than the
    column's widest cell, in characters. *)
Theorem table_aligned rows n :
  rows <> [] -> (0 < n)%nat -> rectangular n rows ->
  exists widths, length widths = pred n /\
    (forall j w, widths !! j = Some w ->
       (forall r, r ∈ rows -> (rune_count (default "" (r !! j)) + 2 <= w)%nat) /\
       exists r, r ∈ rows /\ w = (rune_count (default "" (r !! j)) + 2)%nat) /\
    table rows = String.concat "" ((fun r => write_line widths r +:+ newline) <$> rows).
Proof.
  intros Hne Hn H. exists (widths_from 0 n rows). split_and!.
  - unfold widths_from. rewrite length_fmap, length_seq. lia.
  - intros j w Hw. unfold widths_from in Hw. apply list_lookup_fmap_Some in Hw as (i & -> & Hi).
    apply lookup_seq in Hi as [-> _]. destruct (column_width_spec (0 + j) rows) as [H1 H2]. split; [exact H1|exact (H2 Hne)].
  - unfold table, tabwriter. rewrite (cells_table _ _ n) by done. cbn [app fmap list_fmap String.concat].
    assert (E : format (layout_fuel 0 (rows ++ [[]])) [] (rows ++ [[]]) = (write_line (widths_from 0 n rows) <$> rows) ++ [""]).
    { assert (F : layout_fuel 0 (rows ++ [[]]) = S (layout_fuel 0 rows)).
      { rewrite layout_fuel_app. simpl. lia. }
      rewrite F. destruct (decide (1 < n)%nat) as [H1|H1].
      - rewrite (format_block _ [] rows [[]] n) by done. rewrite (format_rectangular rows n); [|done..|].
        + rewrite format_flat by (by repeat constructor). rewrite (widths_from_step 0 n) by lia. done.
        + cbn [length]. rewrite (layout_fuel_step 0); [simpl; lia|]. eapply Forall_impl; [exact H|]. intros l [Hl _]. lia.
      - rewrite format_flat.
        + unfold widths_from. replace (pred n - 0)%nat with 0%nat by lia. by rewrite fmap_app.
        + apply Forall_app. split; [|by repeat constructor]. eapply Forall_impl; [exact H|]. intros l [Hl _]. apply Nat.ltb_ge. simpl. lia. }
    rewrite E. clear. generalize (widths_from 0 n rows) as ws. intros ws.
    induction rows as [|r rows IH]; [done|]. cbn [fmap list_fmap app]. rewrite concat_cons, <- IH. unfold join.
    rewrite append_assoc. by destruct rows.
Qed.
