(* ===== verification/Phase.v ===== *)
(** * The job lifecycle state machine — src/internal/job/phase.go

    A phase is a string, as in the source and in the database column; the
    table [transitions] is the single source of truth for legal changes. *)

From S2P Require Import Prelude.

Abbreviation Phase := string (only parsing).

Definition Pending : Phase := "PENDING".
Definition Scheduled : Phase := "SCHEDULED".
Definition Submitted : Phase := "SUBMITTED".
Definition Running : Phase := "RUNNING".
Definition Succeeded : Phase := "SUCCEEDED".
Definition Failed : Phase := "FAILED".
Definition Cancelled : Phase := "CANCELLED".

Definition Phases : list Phase :=
  [Pending; Scheduled; Submitted; Running; Succeeded; Failed; Cancelled].

Definition transitions : gmap Phase (gmap Phase bool) :=
  list_to_map
    [ (Pending, list_to_map [(Scheduled, true); (Failed, true); (Cancelled, true)]);
      (Scheduled, list_to_map [(Submitted, true); (Pending, true); (Failed, true); (Cancelled, true)]);
      (Submitted, list_to_map [(Running, true); (Pending, true); (Failed, true); (Cancelled, true)]);
      (Running, list_to_map [(Succeeded, true); (Failed, true); (Cancelled, true)]);
      (Succeeded, ∅); (Failed, ∅); (Cancelled, ∅) ].

Definition Valid (p : Phase) : bool :=
  match transitions !! p with Some _ => true | None => false end.

Definition Terminal (p : Phase) : bool :=
  match transitions !! p with
  | Some next => Nat.eqb (size next) 0
  | None => false
  end.

(** Indexing a missing outer key yields a nil map, and a nil map reads false. *)
Definition CanTransition (from to : Phase) : bool :=
  match transitions !! from with
  | Some next => default false (next !! to)
  | None => false
  end.

Inductive phase_error :=
| UnknownPhase (p : Phase)
| TerminalState (p : Phase)
| IllegalTransition (from to : Phase).

Definition Transition (from to : Phase) : result phase_error unit :=
  guard? Valid from else UnknownPhase from in
  guard? Valid to else UnknownPhase to in
  guard? negb (Terminal from) else TerminalState from in
  guard? CanTransition from to else IllegalTransition from to in
  Ok tt.

(** ** Facts about the table *)

Lemma Valid_cases p :
  Valid p = true ->
  p = Pending \/ p = Scheduled \/ p = Submitted \/ p = Running \/
  p = Succeeded \/ p = Failed \/ p = Cancelled.
Proof.
  unfold Valid. destruct (transitions !! p) as [next|] eqn:E; [intros _|done].
  unfold transitions in E. cbn [list_to_map fold_right] in E.
  repeat (rewrite lookup_insert_Some in E; destruct E as [[<- _]|[_ E]]; [tauto|]).
  by rewrite lookup_empty in E.
Qed.

(** The phases of the map are exactly the seven constants. *)
Lemma Valid_iff p : Valid p = true <-> p ∈ Phases.
Proof.
  split.
  - intros H%Valid_cases. unfold Phases. rewrite !elem_of_cons. tauto.
  - unfold Phases. rewrite !elem_of_cons, elem_of_nil.
    intros H; repeat (destruct H as [->|H]; [vm_compute; reflexivity|]). done.
Qed.

Ltac edge_cases H :=
  rewrite ?elem_of_cons, ?elem_of_nil in H;
  repeat match type of H with
  | _ \/ _ => destruct H as [H|H]
  | _ /\ (_ \/ _) => let E := fresh "E" in destruct H as [E H]
  end; simplify_eq; try done.
Ltac phase_cases H := apply Valid_cases in H; destruct_or! H; subst.
(** Close a goal by evaluating the table, or by a hypothesis it refutes. *)
Ltac phase_eval :=
  solve [ vm_compute; reflexivity
        | match goal with H : _ = _ |- _ => vm_compute in H; discriminate H end ].

#[global] Opaque transitions.

Lemma Terminal_Valid p : Terminal p = true -> Valid p = true.
Proof. unfold Terminal, Valid. by destruct (transitions !! p). Qed.

Lemma CanTransition_Valid from to : CanTransition from to = true -> Valid from = true.
Proof. unfold CanTransition, Valid. by destruct (transitions !! from). Qed.

Lemma Terminal_cases p : Terminal p = true <-> p = Succeeded \/ p = Failed \/ p = Cancelled.
Proof.
  split.
  - intros H. pose proof (Terminal_Valid _ H) as V. phase_cases V; auto; phase_eval.
  - intros [->|[->| ->]]; phase_eval.
Qed.

Lemma Transition_ok_CanTransition from to :
  Transition from to = Ok tt <->
  Valid from = true /\ Valid to = true /\ Terminal from = false /\ CanTransition from to = true.
Proof.
  unfold Transition. destruct (Valid from), (Valid to), (Terminal from), (CanTransition from to);
    simpl; split; try done; intros (? & ? & ? & ?); done.
Qed.

(** The legal edges, one by one (the lifecycle diagram). *)
Lemma Transition_edges from to :
  Transition from to = Ok tt <->
  (from = Pending /\ to ∈ [Scheduled; Failed; Cancelled]) \/
  (from = Scheduled /\ to ∈ [Submitted; Pending; Failed; Cancelled]) \/
  (from = Submitted /\ to ∈ [Running; Pending; Failed; Cancelled]) \/
  (from = Running /\ to ∈ [Succeeded; Failed; Cancelled]).
Proof.
  split.
  - rewrite Transition_ok_CanTransition. intros (V & W & T & C).
    phase_cases V; phase_cases W; try phase_eval; rewrite !elem_of_cons; tauto.
  - rewrite !elem_of_cons, !elem_of_nil. intros H.
    destruct_or! H; destruct H as [-> H]; destruct_or! H; subst; try done; phase_eval.
Qed.

(** ** Paths *)

(** One legal lifecycle step, and the phases a job can ever be in. *)
Definition phase_step (p q : Phase) : Prop := Transition p q = Ok tt.

Definition rank (p : Phase) : Z :=
  if String.eqb p Pending then 0 else if String.eqb p Scheduled then 1
  else if String.eqb p Submitted then 2 else if String.eqb p Running then 3 else 4.

(** Paths are judged on the list of phases they visit. *)
Fixpoint legal_path (p : Phase) (l : list Phase) : bool :=
  match l with
  | [] => true
  | q :: l' => is_ok (Transition p q) && legal_path q l'
  end.

Lemma last_cons_default {A} (l : list A) (q p : A) : List.last (q :: l) p = List.last l q.
Proof. revert q p. induction l as [|x l IH]; intros q p; [done|].
  change (List.last (x :: l) p = List.last (x :: l) q). by rewrite !IH.
Qed.

Lemma legal_path_app p l1 l2 :
  legal_path p (l1 ++ l2) = legal_path p l1 && legal_path (List.last l1 p) l2.
Proof.
  revert p. induction l1 as [|q l1 IH]; intros p; [done|].
  cbn [legal_path app]. by rewrite IH, andb_assoc, last_cons_default.
Qed.

Lemma is_ok_Transition p q : is_ok (Transition p q) = true <-> Transition p q = Ok tt.
Proof. destruct (Transition p q) as [[]|]; done. Qed.

Lemma phase_step_rank p q :
  phase_step p q -> rank p < 4 /\ (rank q = 4 \/ rank q = rank p + 1 \/ (rank q = 0 /\ rank p < 3)).
Proof.
  unfold phase_step. intros H%Transition_edges. edge_cases H; subst; vm_compute; auto.
Qed.

(** What the last phase of a legal path from PENDING says about the path. *)
Lemma legal_path_visits l :
  legal_path Pending l = true ->
  (List.last l Pending = Scheduled -> Scheduled ∈ l) /\
  (List.last l Pending = Submitted -> Scheduled ∈ l /\ Submitted ∈ l) /\
  (List.last l Pending = Running -> Scheduled ∈ l /\ Submitted ∈ l /\ Running ∈ l).
Proof.
  induction l as [|q l IH] using rev_ind; [done|].
  rewrite legal_path_app. intros [H1 H2]%andb_true_iff.
  cbn [legal_path] in H2. rewrite andb_true_r in H2.
  apply is_ok_Transition, Transition_edges in H2.
  rewrite List.last_last. destruct (IH H1) as (I1 & I2 & I3). clear IH H1.
  rewrite !elem_of_app, !list_elem_of_singleton.
  split_and!; intros ->; edge_cases H2; tauto.
Qed.

(** ** Properties *)

(** [Transition] accepts exactly the edges of the lifecycle diagram of
    the spec: PENDING can be scheduled, failed or cancelled; SCHEDULED and
    SUBMITTED advance, return to PENDING, fail or are cancelled; RUNNING only
    reaches a terminal phase; and terminal phases accept nothing, whatever the
    strings passed. *)
Lemma Transition_spec from to :
  (Transition from to = Ok tt <->
   (from = Pending /\ to ∈ [Scheduled; Failed; Cancelled]) \/
   (from = Scheduled /\ to ∈ [Submitted; Pending; Failed; Cancelled]) \/
   (from = Submitted /\ to ∈ [Running; Pending; Failed; Cancelled]) \/
   (from = Running /\ to ∈ [Succeeded; Failed; Cancelled])) /\
  (Transition from to = Err (TerminalState from) <->
   Valid to = true /\ (from = Succeeded \/ from = Failed \/ from = Cancelled)).
Proof.
  split; [apply Transition_edges|]. rewrite <- Terminal_cases.
  unfold Transition. pose proof (Terminal_Valid from) as TV.
  destruct (Valid from) eqn:V, (Valid to) eqn:W, (Terminal from) eqn:T;
    simpl; try (destruct (CanTransition from to)); split; intros H; try done;
    try (by destruct H); specialize (TV eq_refl); congruence.
Qed.

(** Along any legal path, a job that reaches SUCCEEDED from PENDING has
    passed through SCHEDULED, SUBMITTED and RUNNING: no phase is skipped. *)
Lemma succeeded_visits_all (l : list Phase) :
  legal_path Pending l = true -> Succeeded ∈ l ->
  Scheduled ∈ l /\ Submitted ∈ l /\ Running ∈ l.
Proof.
  intros Hp (l1 & l2 & ->)%list_elem_of_split.
  rewrite legal_path_app in Hp. apply andb_true_iff in Hp as [H1 H2].
  cbn [legal_path] in H2. apply andb_true_iff in H2 as [H2 _].
  apply is_ok_Transition, Transition_edges in H2.
  destruct (legal_path_visits l1 H1) as (_ & _ & V). rewrite !elem_of_app.
  edge_cases H2; tauto.
Qed.

Lemma succeeded_visits_all_witness :
  Running ∈ [Scheduled; Pending; Scheduled; Submitted; Running; Succeeded].
Proof.
  apply (succeeded_visits_all [Scheduled; Pending; Scheduled; Submitted; Running; Succeeded]).
  - vm_compute; reflexivity.
  - rewrite !elem_of_cons. auto 10.
Defined.

(** Once RUNNING, a job is never returned to the queue: along any legal
    path every phase after RUNNING is terminal and it is the last one. *)
Lemma running_only_terminates (l : list Phase) :
  legal_path Running l = true -> l = [] \/ exists p, l = [p] /\ Terminal p = true.
Proof.
  destruct l as [|p l]; [by left|]. cbn [legal_path]. intros [H1 H2]%andb_true_iff. right.
  apply is_ok_Transition, Transition_edges in H1.
  assert (T : Terminal p = true) by (apply Terminal_cases; edge_cases H1; tauto).
  exists p. split; [|done]. f_equal. destruct l as [|q l]; [done|].
  cbn [legal_path] in H2. apply andb_true_iff in H2 as [H2 _].
  apply is_ok_Transition, Transition_ok_CanTransition in H2.
  destruct H2 as (_ & _ & H2 & _). congruence.
Qed.

Lemma running_only_terminates_witness :
  [Failed] = [] \/ exists p, [Failed] = [p] /\ Terminal p = true.
Proof. apply (running_only_terminates [Failed]). vm_compute. reflexivity. Defined.
