(* ===== verification/Database.v ===== *)
(** * The Postgres tables — src/internal/store

    The records the store package reads and writes, and the database as a
    value: one finite map per table with a primary key, one list per
    append-only table, and the identity counters.  The last field collects the
    [pg_notify] payloads, in commit order. *)

From S2P Require Import Prelude Float64 GoLib Phase.

(** A stored QuantumJob with control-plane bookkeeping. *)
Record JobRecord := mkJobRecord {
  JobID : string; Tenant : string; Name : string; JPhase : Phase;
  Doc : doc; Status : doc; CreatedAt : Z; UpdatedAt : Z }.

(** One entry of a job's transition history. *)
Record JobEvent := mkJobEvent {
  Seq : Z; EvJobID : string; EvPhase : Phase; EvStatus : doc; EvCreatedAt : Z }.

(** One adapter submission owned by a job.  [AdapterTaskID] is the nullable
    column read through [COALESCE(adapter_task_id, '')]. *)
Record TaskRecord := mkTaskRecord {
  TaskID : string; TJobID : string; TTarget : string; AdapterTaskID : option string;
  TState : string; TError : option doc; TResult : option doc;
  TCreatedAt : Z; TUpdatedAt : Z }.

(** One immutable usage row, in ledger order. *)
Record LedgerEntry := mkLedgerEntry {
  LID : Z; LJobID : string; LTaskID : string; LTenant : string; LTarget : string;
  LUnit : string; LAmount : float64; LRecordedAt : Z }.

Record SessionRecord := mkSessionRecord {
  SessionID : string; STenant : string; STarget : string; AdapterSessionID : string;
  OpenedByJob : string; ExpiresAt : option Z; ClosedAt : option Z; SCreatedAt : Z }.

Record ProjectRecord := mkProjectRecord {
  PTenant : string; POrg : string; PName : string; PWeight : Z;
  PCreatedAt : Z; ArchivedAt : option Z }.

Record TokenRecord := mkTokenRecord {
  TokID : string; TokName : string; TokProject : string; TokRole : string;
  TokenHash : string; CreatedBy : string; TokCreatedAt : Z;
  LastUsedAt : option Z; RevokedAt : option Z }.

(** One audited authorization decision. *)
Record AuditEntry := mkAuditEntry {
  PrincipalTypeName : string; ASubject : string; PrincipalName : string; ARole : string;
  AMethod : string; ADecision : string; AReason : string }.

Record UsageMismatch := mkUsageMismatch {
  MJobID : string; MUnit : string; MStatus : float64; MLedger : float64 }.

Record ReconciliationRun := mkReconciliationRun {
  RChecked : Z; RMismatches : list UsageMismatch; RAt : Z }.

(** One candidate-policy decision, recorded but never executed. *)
Record ShadowPlacement := mkShadowPlacement {
  SPAt : Z; SPJobID : string; SPTenant : string; SPPolicy : string; SPActivePolicy : string;
  SPActiveTarget : string; SPShadowTarget : string; SPAgreed : bool;
  SPActiveESP : option float64; SPShadowESP : option float64;
  SPActiveWait : option float64; SPShadowWait : option float64 }.

Record GameDay := mkGameDay {
  GStartedAt : Z; GFinishedAt : Z; GScenario : string; GTarget : string;
  InvariantsGreen : bool; Violations : Z; Operator : string; Note : string }.

Record db := mkDB {
  jobs : gmap string JobRecord;
  job_events : list JobEvent;
  next_seq : Z;
  tasks : gmap string TaskRecord;
  usage_ledger : list LedgerEntry;
  next_ledger : Z;
  sessions : gmap string SessionRecord;
  projects : gmap string ProjectRecord;
  project_quotas : gmap (string * string) float64;
  api_tokens : gmap string TokenRecord;
  audit_log : list AuditEntry;
  reconciliation_runs : list ReconciliationRun;
  shadow_placements : list ShadowPlacement;
  game_days : list GameDay;
  notifications : list string }.

Definition empty_db : db :=
  mkDB ∅ [] 1 ∅ [] 1 ∅ ∅ ∅ ∅ [] [] [] [] [].

(** Table updates. *)
Definition set_jobs (d : db) (x : gmap string JobRecord) : db :=
  mkDB x (d.(job_events)) (d.(next_seq)) (d.(tasks)) (d.(usage_ledger)) (d.(next_ledger)) (d.(sessions)) (d.(projects)) (d.(project_quotas)) (d.(api_tokens)) (d.(audit_log)) (d.(reconciliation_runs)) (d.(shadow_placements)) (d.(game_days)) (d.(notifications)).
Definition set_job_events (d : db) (x : list JobEvent) : db :=
  mkDB (d.(jobs)) x (d.(next_seq)) (d.(tasks)) (d.(usage_ledger)) (d.(next_ledger)) (d.(sessions)) (d.(projects)) (d.(project_quotas)) (d.(api_tokens)) (d.(audit_log)) (d.(reconciliation_runs)) (d.(shadow_placements)) (d.(game_days)) (d.(notifications)).
Definition set_next_seq (d : db) (x : Z) : db :=
  mkDB (d.(jobs)) (d.(job_events)) x (d.(tasks)) (d.(usage_ledger)) (d.(next_ledger)) (d.(sessions)) (d.(projects)) (d.(project_quotas)) (d.(api_tokens)) (d.(audit_log)) (d.(reconciliation_runs)) (d.(shadow_placements)) (d.(game_days)) (d.(notifications)).
Definition set_tasks (d : db) (x : gmap string TaskRecord) : db :=
  mkDB (d.(jobs)) (d.(job_events)) (d.(next_seq)) x (d.(usage_ledger)) (d.(next_ledger)) (d.(sessions)) (d.(projects)) (d.(project_quotas)) (d.(api_tokens)) (d.(audit_log)) (d.(reconciliation_runs)) (d.(shadow_placements)) (d.(game_days)) (d.(notifications)).
Definition set_usage_ledger (d : db) (x : list LedgerEntry) : db :=
  mkDB (d.(jobs)) (d.(job_events)) (d.(next_seq)) (d.(tasks)) x (d.(next_ledger)) (d.(sessions)) (d.(projects)) (d.(project_quotas)) (d.(api_tokens)) (d.(audit_log)) (d.(reconciliation_runs)) (d.(shadow_placements)) (d.(game_days)) (d.(notifications)).
Definition set_next_ledger (d : db) (x : Z) : db :=
  mkDB (d.(jobs)) (d.(job_events)) (d.(next_seq)) (d.(tasks)) (d.(usage_ledger)) x (d.(sessions)) (d.(projects)) (d.(project_quotas)) (d.(api_tokens)) (d.(audit_log)) (d.(reconciliation_runs)) (d.(shadow_placements)) (d.(game_days)) (d.(notifications)).
Definition set_sessions (d : db) (x : gmap string SessionRecord) : db :=
  mkDB (d.(jobs)) (d.(job_events)) (d.(next_seq)) (d.(tasks)) (d.(usage_ledger)) (d.(next_ledger)) x (d.(projects)) (d.(project_quotas)) (d.(api_tokens)) (d.(audit_log)) (d.(reconciliation_runs)) (d.(shadow_placements)) (d.(game_days)) (d.(notifications)).
Definition set_projects (d : db) (x : gmap string ProjectRecord) : db :=
  mkDB (d.(jobs)) (d.(job_events)) (d.(next_seq)) (d.(tasks)) (d.(usage_ledger)) (d.(next_ledger)) (d.(sessions)) x (d.(project_quotas)) (d.(api_tokens)) (d.(audit_log)) (d.(reconciliation_runs)) (d.(shadow_placements)) (d.(game_days)) (d.(notifications)).
Definition set_project_quotas (d : db) (x : gmap (string * string) float64) : db :=
  mkDB (d.(jobs)) (d.(job_events)) (d.(next_seq)) (d.(tasks)) (d.(usage_ledger)) (d.(next_ledger)) (d.(sessions)) (d.(projects)) x (d.(api_tokens)) (d.(audit_log)) (d.(reconciliation_runs)) (d.(shadow_placements)) (d.(game_days)) (d.(notifications)).
Definition set_api_tokens (d : db) (x : gmap string TokenRecord) : db :=
  mkDB (d.(jobs)) (d.(job_events)) (d.(next_seq)) (d.(tasks)) (d.(usage_ledger)) (d.(next_ledger)) (d.(sessions)) (d.(projects)) (d.(project_quotas)) x (d.(audit_log)) (d.(reconciliation_runs)) (d.(shadow_placements)) (d.(game_days)) (d.(notifications)).
Definition set_audit_log (d : db) (x : list AuditEntry) : db :=
  mkDB (d.(jobs)) (d.(job_events)) (d.(next_seq)) (d.(tasks)) (d.(usage_ledger)) (d.(next_ledger)) (d.(sessions)) (d.(projects)) (d.(project_quotas)) (d.(api_tokens)) x (d.(reconciliation_runs)) (d.(shadow_placements)) (d.(game_days)) (d.(notifications)).
Definition set_reconciliation_runs (d : db) (x : list ReconciliationRun) : db :=
  mkDB (d.(jobs)) (d.(job_events)) (d.(next_seq)) (d.(tasks)) (d.(usage_ledger)) (d.(next_ledger)) (d.(sessions)) (d.(projects)) (d.(project_quotas)) (d.(api_tokens)) (d.(audit_log)) x (d.(shadow_placements)) (d.(game_days)) (d.(notifications)).
Definition set_shadow_placements (d : db) (x : list ShadowPlacement) : db :=
  mkDB (d.(jobs)) (d.(job_events)) (d.(next_seq)) (d.(tasks)) (d.(usage_ledger)) (d.(next_ledger)) (d.(sessions)) (d.(projects)) (d.(project_quotas)) (d.(api_tokens)) (d.(audit_log)) (d.(reconciliation_runs)) x (d.(game_days)) (d.(notifications)).
Definition set_game_days (d : db) (x : list GameDay) : db :=
  mkDB (d.(jobs)) (d.(job_events)) (d.(next_seq)) (d.(tasks)) (d.(usage_ledger)) (d.(next_ledger)) (d.(sessions)) (d.(projects)) (d.(project_quotas)) (d.(api_tokens)) (d.(audit_log)) (d.(reconciliation_runs)) (d.(shadow_placements)) x (d.(notifications)).
Definition set_notifications (d : db) (x : list string) : db :=
  mkDB (d.(jobs)) (d.(job_events)) (d.(next_seq)) (d.(tasks)) (d.(usage_ledger)) (d.(next_ledger)) (d.(sessions)) (d.(projects)) (d.(project_quotas)) (d.(api_tokens)) (d.(audit_log)) (d.(reconciliation_runs)) (d.(shadow_placements)) (d.(game_days)) x.

(** Why a store call fails. *)
Inductive store_err :=
| ErrNotFound
| ErrPhase (e : phase_error)
| ErrJobNotPending (id : string) (p : Phase)
| ErrDuplicateKey (table key : string)
| ErrForeignKey (table key : string)
| ErrCheckViolation (column : string)
| ErrQuotaExceeded (unit : string) (limit committed requested : float64)
| ErrProjectNotFound
| ErrEmptyTenant
| ErrSessionNotFound
| ErrTokenNotFound
| ErrRefusedTable (table : string)
| ErrMarshal (what : string).

Definition phase_message (e : phase_error) : string :=
  match e with
  | UnknownPhase p => "unknown phase " +:+ quote p
  | TerminalState p => "job is " +:+ p +:+ ", a terminal state: no further transitions"
  | IllegalTransition a b => "illegal transition " +:+ a +:+ " → " +:+ b
  end.

(** [err.Error()] of a store error; constraint violations carry the database
    driver's text in the program, and a value JSON has no text for is named
    after the last colon. *)
Definition store_message (e : store_err) : string :=
  match e with
  | ErrNotFound => "job not found"
  | ErrPhase e => phase_message e
  | ErrJobNotPending id p => "store: job " +:+ id +:+ " is " +:+ p +:+ ", not PENDING"
  | ErrDuplicateKey t k => "duplicate key in " +:+ t +:+ ": " +:+ k
  | ErrForeignKey t k => "foreign key violation in " +:+ t +:+ ": " +:+ k
  | ErrCheckViolation c => "check violation on " +:+ c
  | ErrQuotaExceeded u limit c r =>
      "quota exceeded for unit " +:+ quote u +:+ ": limit " +:+ fmt_f 0 limit +:+ ", committed "
        +:+ fmt_f 0 c +:+ ", requested " +:+ fmt_f 0 r
  | ErrProjectNotFound => "project not found"
  | ErrEmptyTenant => "empty tenant"
  | ErrSessionNotFound => "session not found"
  | ErrTokenNotFound => "token not found"
  | ErrRefusedTable t => "store: refusing to count unknown table " +:+ quote t
  | ErrMarshal w => w +:+ ": json: unsupported value"
  end.

Abbreviation sres A := (result store_err A).

(** A store call: the outcome and the database it leaves. *)
Abbreviation call A := (sres A * db)%type.

(** [defer tx.Rollback] around a transaction body: an error leaves the database
    as it was found. *)
Definition in_tx {A} (d : db) (body : sres (A * db)) : call A :=
  match body with
  | Ok (a, d') => (Ok a, d')
  | Err e => (Err e, d)
  end.

Lemma in_tx_err {A} d (body : sres (A * db)) e d' :
  in_tx d body = (Err e, d') -> d' = d /\ body = Err e.
Proof. unfold in_tx. destruct body as [[a d'']|e']; naive_solver. Qed.

Lemma in_tx_ok {A} d (body : sres (A * db)) a d' :
  in_tx d body = (Ok a, d') -> body = Ok (a, d').
Proof. unfold in_tx. destruct body as [[a' d'']|e']; naive_solver. Qed.
