(* ===== verification/JobStore.v ===== *)
(** * Jobs and tasks — src/internal/store/jobs.go, src/internal/store/tasks.go

    One definition per store method.  A method that opens a transaction is one
    atomic step ([in_tx]); [now] is the transaction timestamp of [now()].
    A document that [json.Marshal] refuses is an error of the method that would
    write it.  Errors of the connection itself, and documents Postgres refuses
    (a NUL character in a text), are not values of the model: such a call leaves
    the database unchanged. *)

From S2P Require Import Prelude Float64 GoLib Phase Database.

(** ** Writing events *)

(** [INSERT INTO job_events (job_id, phase, status)]. *)
Definition append_event (d : db) (now : Z) (id : string) (p : Phase) (st : doc) : db :=
  set_next_seq
    (set_job_events d (d.(job_events) ++ [mkJobEvent d.(next_seq) id p st now]))
    (d.(next_seq) + 1).

(** The row after an [UPDATE jobs SET phase, status, updated_at]. *)
Definition with_phase (rec : JobRecord) (p : Phase) (st : doc) (now : Z) : JobRecord :=
  mkJobRecord rec.(JobID) rec.(Tenant) rec.(Name) p rec.(Doc) st rec.(CreatedAt) now.

Definition put_job (d : db) (id : string) (rec : JobRecord) : db :=
  set_jobs d (<[id := rec]> d.(jobs)).

(** ** jobs.go *)

(** [insertJobTx]: the job row, its first event and the dispatcher wakeup. *)
Definition insertJobTx (now : Z) (rec : JobRecord) (d : db) : sres (JobRecord * db) :=
  guard? doc_marshals rec.(Doc) else ErrMarshal "store: marshal job doc" in
  guard? doc_marshals rec.(Status) else ErrMarshal "store: marshal job status" in
  match d.(jobs) !! rec.(JobID) with
  | Some _ => Err (ErrDuplicateKey "jobs" rec.(JobID))
  | None =>
      let rec' := mkJobRecord rec.(JobID) rec.(Tenant) rec.(Name) rec.(JPhase)
                              rec.(Doc) rec.(Status) now now in
      let d1 := put_job d rec.(JobID) rec' in
      let d2 := append_event d1 now rec.(JobID) rec.(JPhase) rec.(Status) in
      Ok (rec', set_notifications d2 (d2.(notifications) ++ [rec.(JobID)]))
  end.

Definition InsertJob (d : db) (now : Z) (rec : JobRecord) : call JobRecord :=
  in_tx d (insertJobTx now rec d).

(** [scanJob] of a [WHERE job_id = $1] query. *)
Definition scanJob (d : db) (id : string) : sres JobRecord :=
  match d.(jobs) !! id with Some rec => Ok rec | None => Err ErrNotFound end.

Definition GetJob (d : db) (id : string) : sres JobRecord := scanJob d id.

(** [ORDER BY created_at DESC, job_id LIMIT $3 OFFSET $4]. *)
Definition newest_first (a b : JobRecord) : bool :=
  (b.(CreatedAt) <? a.(CreatedAt))
  || ((a.(CreatedAt) =? b.(CreatedAt)) && str_lt a.(JobID) b.(JobID)).

Definition all_jobs (d : db) : list JobRecord := snd <$> map_to_list d.(jobs).

Definition list_filter (tenant phase : string) (rec : JobRecord) : bool :=
  (String.eqb tenant "" || String.eqb rec.(Tenant) tenant)
  && (String.eqb phase "" || String.eqb rec.(JPhase) phase).

Definition ListJobs (d : db) (tenant phase : string) (limit offset : nat) : list JobRecord :=
  take limit (skipn offset
    (sort_by newest_first (List.filter (list_filter tenant phase) (all_jobs d)))).

(** [TransitionJob]: the only way a phase changes after admission. *)
Definition TransitionJob (d : db) (now : Z) (id : string) (to : Phase)
    (mutate : option (doc -> doc)) : call JobRecord :=
  in_tx d (
    let? rec := scanJob d id in
    match Transition rec.(JPhase) to with
    | Err e => Err (ErrPhase e)
    | Ok _ =>
        let status := match mutate with Some f => f rec.(Status) | None => rec.(Status) end in
        let status := <["phase" := JStr to]> status in
        guard? doc_marshals status else ErrMarshal "store: marshal status" in
        let rec' := with_phase rec to status now in
        Ok (rec', append_event (put_job d id rec') now id to status)
    end).

(** Go's [==] on two [any] values holding scalars. *)
Definition iface_eq (a b : option any) : bool :=
  match a, b with
  | None, None | Some JNull, Some JNull | None, Some JNull | Some JNull, None => true
  | Some (JBool x), Some (JBool y) => Bool.eqb x y
  | Some (JNum x), Some (JNum y) => feq x y
  | Some (JStr x), Some (JStr y) => String.eqb x y
  | _, _ => false
  end.

(** The loop of [SetJobCondition] over [status.conditions]: replace the first
    condition of the same type, or append; [None] when nothing changes. *)
Fixpoint replace_condition (cond : doc) (l : list any) : option (list any) :=
  match l with
  | [] => Some [JObj cond]
  | c :: l' =>
      match c with
      | JObj m =>
          if iface_eq (m !! "type") (Some (JStr (str_or_empty (cond !! "type")))) then
            if iface_eq (m !! "status") (cond !! "status")
               && iface_eq (m !! "message") (cond !! "message")
            then None
            else Some (JObj cond :: l')
          else cons c <$> replace_condition cond l'
      | _ => cons c <$> replace_condition cond l'
      end
  end.

(** [SetJobCondition]: no phase change, and no look at the phase either. *)
Definition SetJobCondition (d : db) (now : Z) (id : string) (cond : doc) : call bool :=
  in_tx d (
    let? rec := scanJob d id in
    match replace_condition cond (arr_or_nil (rec.(Status) !! "conditions")) with
    | None => Ok (false, d)
    | Some conditions =>
        let status := <["conditions" := JArr conditions]> rec.(Status) in
        guard? doc_marshals status else ErrMarshal "store: marshal condition status" in
        let rec' := with_phase rec rec.(JPhase) status now in
        Ok (true, append_event (put_job d id rec') now id rec.(JPhase) status)
    end).

Definition by_seq (a b : JobEvent) : bool := a.(Seq) <? b.(Seq).

(** [WHERE job_id = $1 AND seq > $2 ORDER BY seq]. *)
Definition JobEventsSince (d : db) (id : string) (after : Z) : list JobEvent :=
  sort_by by_seq
    (List.filter (fun ev => String.eqb ev.(EvJobID) id && (after <? ev.(Seq))) d.(job_events)).

Definition CountRows (d : db) (table : string) : sres Z :=
  if String.eqb table "jobs" then Ok (Z.of_nat (size d.(jobs)))
  else if String.eqb table "job_events" then Ok (Z.of_nat (length d.(job_events)))
  else Err (ErrRefusedTable table).

(** ** tasks.go *)

(** [BindJob]: [locked] is whether another transaction holds the job's row, in
    which case [FOR UPDATE SKIP LOCKED] returns no row. *)
Definition bound_status (st : doc) (taskID target : string) (placement : doc) : doc :=
  <["tasks" := JArr [jobj [("id", JStr taskID); ("target", JStr target); ("state", JStr "QUEUED")]]]>
  (<["placement" := JObj placement]>
  (<["boundTarget" := JStr target]>
  (<["phase" := JStr Scheduled]> st))).

Definition new_task (taskID id target : string) (now : Z) : TaskRecord :=
  mkTaskRecord taskID id target None "QUEUED" None None now now.

Definition BindJob (d : db) (now : Z) (locked : bool) (id taskID target : string)
    (placement : doc) : call JobRecord :=
  in_tx d (
    if locked then Err ErrNotFound else
    let? rec := scanJob d id in
    guard? String.eqb rec.(JPhase) Pending else ErrJobNotPending id rec.(JPhase) in
    match Transition rec.(JPhase) Scheduled with
    | Err e => Err (ErrPhase e)
    | Ok _ =>
        let status := bound_status rec.(Status) taskID target placement in
        guard? doc_marshals status else ErrMarshal "store: marshal bound status" in
        let rec' := with_phase rec Scheduled status now in
        let d1 := append_event (put_job d id rec') now id Scheduled status in
        match d1.(tasks) !! taskID with
        | Some _ => Err (ErrDuplicateKey "tasks" taskID)
        | None => Ok (rec', set_tasks d1 (<[taskID := new_task taskID id target now]> d1.(tasks)))
        end
    end).

Definition oldest_first (a b : JobRecord) : bool := a.(CreatedAt) <? b.(CreatedAt).

Definition PendingJobs (d : db) (limit : nat) : list JobRecord :=
  take limit (sort_by oldest_first
    (List.filter (fun r => String.eqb r.(JPhase) Pending) (all_jobs d))).

Definition all_tasks (d : db) : list TaskRecord := snd <$> map_to_list d.(tasks).

Definition in_flight (p : Phase) : bool := str_in p ["SCHEDULED"; "SUBMITTED"; "RUNNING"].

Definition ActiveTasks (d : db) : list TaskRecord :=
  List.filter (fun t => match d.(jobs) !! t.(TJobID) with
                   | Some r => in_flight r.(JPhase)
                   | None => false
                   end) (all_tasks d).

Definition newest_task (a b : TaskRecord) : bool := b.(TCreatedAt) <? a.(TCreatedAt).

Definition TaskForJob (d : db) (id : string) : sres TaskRecord :=
  match sort_by newest_task (List.filter (fun t => String.eqb t.(TJobID) id) (all_tasks d)) with
  | t :: _ => Ok t
  | [] => Err ErrNotFound
  end.

(** [COALESCE] of a new value over the stored one. *)
Definition coalesce {A} (new old : option A) : option A :=
  match new with Some _ => new | None => old end.

Definition UpdateTask (d : db) (now : Z) (taskID adapterTaskID state : string)
    (errDetail result : option doc) : call unit :=
  if negb (opt_marshals errDetail) then (Err (ErrMarshal "store: marshal task error"), d)
  else if negb (opt_marshals result) then (Err (ErrMarshal "store: marshal task result"), d)
  else match d.(tasks) !! taskID with
  | None => (Err ErrNotFound, d)
  | Some t =>
      let adapter := if String.eqb adapterTaskID "" then t.(AdapterTaskID) else Some adapterTaskID in
      let t' := mkTaskRecord t.(TaskID) t.(TJobID) t.(TTarget) adapter state
                  (coalesce errDetail t.(TError)) (coalesce result t.(TResult))
                  t.(TCreatedAt) now in
      (Ok tt, set_tasks d (<[taskID := t']> d.(tasks)))
  end.

(** One iteration of [RecordUsage]: [ON CONFLICT (task_id, unit) DO NOTHING].
    The identity column advances even when the row is not inserted. *)
Definition same_charge (taskID unit : string) (e : LedgerEntry) : bool :=
  String.eqb e.(LTaskID) taskID && String.eqb e.(LUnit) unit.

Definition record_one (now : Z) (jobID taskID tenant target : string) (d : db)
    (ua : string * float64) : db :=
  let '(unit, amount) := ua in
  let d' := set_next_ledger d (d.(next_ledger) + 1) in
  if existsb (same_charge taskID unit) d.(usage_ledger) then d'
  else set_usage_ledger d' (d.(usage_ledger) ++
         [mkLedgerEntry d.(next_ledger) jobID taskID tenant target unit amount now]).

(** [RecordUsage]: [usage] in the order the map iteration produced it. *)
Definition RecordUsage (d : db) (now : Z) (jobID taskID tenant target : string)
    (usage : list (string * float64)) : db :=
  fold_left (record_one now jobID taskID tenant target) usage d.

Definition UsageCountForTask (d : db) (taskID : string) : nat :=
  length (List.filter (fun e => String.eqb e.(LTaskID) taskID) d.(usage_ledger)).

Definition NotifyJobs (d : db) : db := set_notifications d (d.(notifications) ++ [""]).

(** SQL's [SUM], with [COALESCE(..., 0)]. *)
Definition sum_float (l : list float64) : float64 :=
  match l with [] => f0 | x :: l' => fold_left fadd l' x end.

Record UsageTotal := mkUsageTotal { UTarget : string; UUnit : string; UAmount : float64 }.

Definition nullableTime (t : Z) : option Z := if is_zero t then None else Some t.

Definition in_window (from to : option Z) (t : Z) : bool :=
  match from with Some f => f <=? t | None => true end
  && match to with Some u => t <? u | None => true end.

Definition group_less (a b : string * string) : bool :=
  str_lt a.1 b.1 || (String.eqb a.1 b.1 && str_lt a.2 b.2).

(** [TenantUsage]: [GROUP BY target, unit ORDER BY target, unit]. *)
Definition TenantUsage (d : db) (tenant : string) (from to : Z) : list UsageTotal :=
  let rows := List.filter (fun e => String.eqb e.(LTenant) tenant
                && in_window (nullableTime from) (nullableTime to) e.(LRecordedAt)) d.(usage_ledger) in
  let groups := sort_by group_less (remove_dups ((fun e => (e.(LTarget), e.(LUnit))) <$> rows)) in
  (fun g => mkUsageTotal g.1 g.2
     (sum_float (LAmount <$> List.filter (fun e => bool_decide ((e.(LTarget), e.(LUnit)) = g)) rows)))
  <$> groups.
