(* ===== verification/Tables.v ===== *)
(** * Sessions, tenancy, tokens, audit, accounting and evidence tables

    src/internal/store/sessions.go, tenancy.go, auth.go, accounting.go,
    shadow.go and game_days.go: one definition per method. *)

From S2P Require Import Prelude Float64 GoLib Phase Database JobStore.

(** ** sessions.go *)

(** [SessionRecord.Live]. *)
Definition Live (s : SessionRecord) (now : Z) : bool :=
  match s.(ClosedAt) with
  | Some _ => false
  | None => match s.(ExpiresAt) with None => true | Some e => now <? e end
  end.

Definition InsertSession (d : db) (now : Z) (s : SessionRecord) : call unit :=
  match d.(sessions) !! s.(SessionID) with
  | Some _ => (Err (ErrDuplicateKey "sessions" s.(SessionID)), d)
  | None =>
      let s' := mkSessionRecord s.(SessionID) s.(STenant) s.(STarget) s.(AdapterSessionID)
                  s.(OpenedByJob) s.(ExpiresAt) s.(ClosedAt) now in
      (Ok tt, set_sessions d (<[s.(SessionID) := s']> d.(sessions)))
  end.

Definition GetSession (d : db) (id : string) : sres SessionRecord :=
  match d.(sessions) !! id with Some s => Ok s | None => Err ErrSessionNotFound end.

Definition close_row (now : Z) (s : SessionRecord) : SessionRecord :=
  mkSessionRecord s.(SessionID) s.(STenant) s.(STarget) s.(AdapterSessionID) s.(OpenedByJob)
    s.(ExpiresAt) (coalesce s.(ClosedAt) (Some now)) s.(SCreatedAt).

(** [CloseSession]: [closed_at = COALESCE(closed_at, now())]. *)
Definition CloseSession (d : db) (now : Z) (id : string) : db :=
  set_sessions d (alter (close_row now) id d.(sessions)).

(** ** tenancy.go *)

Definition splitTenant (tenant : string) : string * string :=
  match cut tenant "/"%char with
  | Some (org, name) => (org, name)
  | None => (tenant, "default")
  end.

Definition GetProject (d : db) (tenant : string) : sres ProjectRecord :=
  match d.(projects) !! tenant with Some p => Ok p | None => Err ErrProjectNotFound end.

(** [EnsureProject]: [INSERT ... ON CONFLICT (tenant) DO NOTHING], then read. *)
Definition EnsureProject (d : db) (now : Z) (tenant : string) : call ProjectRecord :=
  if String.eqb tenant "" then (Err ErrEmptyTenant, d)
  else
    let '(org, name) := splitTenant tenant in
    let d' := match d.(projects) !! tenant with
              | Some _ => d
              | None => set_projects d
                          (<[tenant := mkProjectRecord tenant org name 1 now None]> d.(projects))
              end in
    (GetProject d' tenant, d').

Definition by_tenant (a b : ProjectRecord) : bool := str_lt a.(PTenant) b.(PTenant).

Definition ListProjects (d : db) (includeArchived : bool) : list ProjectRecord :=
  sort_by by_tenant
    (List.filter (fun p => includeArchived || match p.(ArchivedAt) with None => true | _ => false end)
                 (snd <$> map_to_list d.(projects))).

(** [ArchiveProject]: reports whether the row exists. *)
Definition ArchiveProject (d : db) (now : Z) (tenant : string) : bool * db :=
  match d.(projects) !! tenant with
  | None => (false, d)
  | Some p =>
      let p' := mkProjectRecord p.(PTenant) p.(POrg) p.(PName) p.(PWeight) p.(PCreatedAt)
                  (coalesce p.(ArchivedAt) (Some now)) in
      (true, set_projects d (<[tenant := p']> d.(projects)))
  end.

(** [SetProjectWeight], with the table's [CHECK (weight >= 1)]. *)
Definition SetProjectWeight (d : db) (tenant : string) (weight : Z) : call unit :=
  match d.(projects) !! tenant with
  | None => (Err ErrProjectNotFound, d)
  | Some p =>
      if weight <? 1 then (Err (ErrCheckViolation "weight"), d)
      else
        let p' := mkProjectRecord p.(PTenant) p.(POrg) p.(PName) weight p.(PCreatedAt)
                    p.(ArchivedAt) in
        (Ok tt, set_projects d (<[tenant := p']> d.(projects)))
  end.

(** [ProjectWeights]: weight 1 for tenants without a row. *)
Definition ProjectWeights (d : db) (tenants : list string) : gmap string Z :=
  list_to_map ((fun t => (t, match d.(projects) !! t with
                             | Some p => p.(PWeight)
                             | None => 1
                             end)) <$> tenants).

(** [SetQuota]: a negative limit removes the quota. *)
Definition SetQuota (d : db) (tenant u : string) (limit : float64) : call unit :=
  if flt limit f0 then
    (Ok tt, set_project_quotas d (delete (tenant, u) d.(project_quotas)))
  else match d.(projects) !! tenant with
  | None => (Err (ErrForeignKey "project_quotas" tenant), d)
  | Some _ =>
      (Ok tt, set_project_quotas d (<[(tenant, u) := limit]> d.(project_quotas)))
  end.

Record QuotaRecord := mkQuotaRecord { QTenant : string; QUnit : string; QLimit : float64 }.

Definition quota_less (a b : QuotaRecord) : bool :=
  group_less (a.(QTenant), a.(QUnit)) (b.(QTenant), b.(QUnit)).

Definition ListQuotas (d : db) (tenant : string) : list QuotaRecord :=
  sort_by quota_less
    (List.filter (fun q => String.eqb tenant "" || String.eqb q.(QTenant) tenant)
      ((fun kv => mkQuotaRecord kv.1.1 kv.1.2 kv.2) <$> map_to_list d.(project_quotas))).

(** The SQL function [declared_cost(doc, unit)] of migration 00005: the
    document's gate-model shots, or 0; [#>>] yields NULL on a missing path. *)
Definition declared_cost (dc : doc) (unit : string) : float64 :=
  if String.eqb unit "shots" then
    let spec := obj_or_nil (dc !! "spec") in
    let workload := obj_or_nil (spec !! "workload") in
    let gm := obj_or_nil (workload !! "gateModel") in
    default f0 (as_num (gm !! "shots"))
  else f0.

(** Committed usage of one unit: the ledger plus the declared demand of
    non-terminal jobs. *)
Definition not_terminal_sql (p : Phase) : bool :=
  negb (str_in p ["SUCCEEDED"; "FAILED"; "CANCELLED"]).

Definition ledger_total (d : db) (tenant unit : string) : float64 :=
  sum_float (LAmount <$> List.filter (fun e => String.eqb e.(LTenant) tenant
                                               && String.eqb e.(LUnit) unit) d.(usage_ledger)).

Definition reserved_total (d : db) (tenant unit : string) : float64 :=
  sum_float ((fun r => declared_cost r.(Doc) unit) <$>
             List.filter (fun r => String.eqb r.(Tenant) tenant && not_terminal_sql r.(JPhase))
                         (all_jobs d)).

Definition committed (d : db) (tenant unit : string) : float64 :=
  fadd (ledger_total d tenant unit) (reserved_total d tenant unit).

(** The quota loop, over [costs] in iteration order; the first overrun wins. *)
Fixpoint check_quotas (d : db) (tenant : string) (costs : list (string * float64)) : sres unit :=
  match costs with
  | [] => Ok tt
  | (unit, requested) :: rest =>
      match d.(project_quotas) !! (tenant, unit) with
      | None => check_quotas d tenant rest
      | Some limit =>
          let c := committed d tenant unit in
          if fgt (fadd c requested) limit
          then Err (ErrQuotaExceeded unit limit c requested)
          else check_quotas d tenant rest
      end
  end.

(** [InsertJobWithQuota]: check and insert in one transaction.  The quota row
    is locked from the check to the commit, so the two read one state. *)
Definition InsertJobWithQuota (d : db) (now : Z) (rec : JobRecord)
    (costs : list (string * float64)) : call JobRecord :=
  in_tx d (let? _ := check_quotas d rec.(Tenant) costs in insertJobTx now rec d).

(** ** auth.go *)

(** [CHECK (role IN ('viewer','member','operator','admin'))]. *)
Definition role_names : list string := ["viewer"; "member"; "operator"; "admin"].

Definition InsertToken (d : db) (now : Z) (t : TokenRecord) : call unit :=
  if negb (str_in t.(TokRole) role_names) then (Err (ErrCheckViolation "role"), d)
  else match d.(api_tokens) !! t.(TokID) with
  | Some _ => (Err (ErrDuplicateKey "api_tokens" t.(TokID)), d)
  | None =>
      let t' := mkTokenRecord t.(TokID) t.(TokName) t.(TokProject) t.(TokRole) t.(TokenHash)
                  t.(CreatedBy) now None None in
      (Ok tt, set_api_tokens d (<[t.(TokID) := t']> d.(api_tokens)))
  end.

Definition GetToken (d : db) (id : string) : sres TokenRecord :=
  match d.(api_tokens) !! id with Some t => Ok t | None => Err ErrTokenNotFound end.

Definition newest_token (a b : TokenRecord) : bool := b.(TokCreatedAt) <? a.(TokCreatedAt).

(** [ListTokens] never selects the hash column. *)
Definition clear_hash (t : TokenRecord) : TokenRecord :=
  mkTokenRecord t.(TokID) t.(TokName) t.(TokProject) t.(TokRole) "" t.(CreatedBy)
    t.(TokCreatedAt) t.(LastUsedAt) t.(RevokedAt).

Definition ListTokens (d : db) (project : string) : list TokenRecord :=
  clear_hash <$> sort_by newest_token
    (List.filter (fun t => String.eqb project "" || String.eqb t.(TokProject) project)
                 (snd <$> map_to_list d.(api_tokens))).

Definition RevokeToken (d : db) (now : Z) (id : string) : bool * db :=
  match d.(api_tokens) !! id with
  | None => (false, d)
  | Some t =>
      let t' := mkTokenRecord t.(TokID) t.(TokName) t.(TokProject) t.(TokRole) t.(TokenHash)
                  t.(CreatedBy) t.(TokCreatedAt) t.(LastUsedAt)
                  (coalesce t.(RevokedAt) (Some now)) in
      (true, set_api_tokens d (<[id := t']> d.(api_tokens)))
  end.

Definition touch_row (now : Z) (t : TokenRecord) : TokenRecord :=
  mkTokenRecord t.(TokID) t.(TokName) t.(TokProject) t.(TokRole) t.(TokenHash)
    t.(CreatedBy) t.(TokCreatedAt) (Some now) t.(RevokedAt).

Definition TouchToken (d : db) (now : Z) (id : string) : db :=
  set_api_tokens d (alter (touch_row now) id d.(api_tokens)).

(** [RecordAudit], with the [CHECK (decision IN ('allow','deny'))]. *)
Definition RecordAudit (d : db) (e : AuditEntry) : call unit :=
  if str_in e.(ADecision) ["allow"; "deny"]
  then (Ok tt, set_audit_log d (d.(audit_log) ++ [e]))
  else (Err (ErrCheckViolation "decision"), d).

Definition AuditEntries (d : db) (decision : string) (limit : nat) : list AuditEntry :=
  take limit (List.filter (fun e => String.eqb decision "" || String.eqb e.(ADecision) decision)
                          (rev d.(audit_log))).

(** ** accounting.go *)

Definition by_lid (a b : LedgerEntry) : bool := a.(LID) <? b.(LID).

Definition LedgerEntries (d : db) (tenant : string) : list LedgerEntry :=
  sort_by by_lid
    (List.filter (fun e => String.eqb tenant "" || String.eqb e.(LTenant) tenant) d.(usage_ledger)).

(** [jsonb_to_recordset(status->'usage') AS u(unit text, amount double precision)]:
    one row per element.  The control plane writes both fields of every element
    ([usageToStatus]); a row with a NULL field is skipped here. *)
Definition usage_rows (st : doc) : list (option string * option float64) :=
  (fun v => match v with
            | JObj m => (as_str (m !! "unit"), as_num (m !! "amount"))
            | _ => (None, None)
            end) <$> arr_or_nil (st !! "usage").

Definition job_unit_total (d : db) (id unit : string) : float64 :=
  sum_float (LAmount <$> List.filter (fun e => String.eqb e.(LJobID) id && String.eqb e.(LUnit) unit)
                                     d.(usage_ledger)).

(** [u.amount IS DISTINCT FROM COALESCE(l.total, 0)]; Postgres equates NaNs. *)
Definition pg_float_eq (x y : float64) : bool := feq x y || (is_nan x && is_nan y).

Definition job_mismatches (d : db) (r : JobRecord) : list UsageMismatch :=
  flat_map (fun ua =>
    match ua with
    | (Some unit, Some amount) =>
        let total := job_unit_total d r.(JobID) unit in
        if pg_float_eq amount total then [] else [mkUsageMismatch r.(JobID) unit amount total]
    | _ => []
    end) (usage_rows r.(Status)).

Definition mismatch_less (a b : UsageMismatch) : bool :=
  group_less (a.(MJobID), a.(MUnit)) (b.(MJobID), b.(MUnit)).

(** The run is recorded with its mismatches as JSON. *)
Definition mismatch_marshals (m : UsageMismatch) : bool := f_finite m.(MStatus) && f_finite m.(MLedger).

Definition ReconcileUsage (d : db) (now : Z) : call (Z * list UsageMismatch) :=
  let done := List.filter (fun r => String.eqb r.(JPhase) Succeeded) (all_jobs d) in
  let checked := Z.of_nat (length done) in
  let mismatches := sort_by mismatch_less (flat_map (job_mismatches d) done) in
  if negb (forallb mismatch_marshals mismatches) then (Err (ErrMarshal "marshal mismatches"), d)
  else (Ok (checked, mismatches),
   set_reconciliation_runs d
     (d.(reconciliation_runs) ++ [mkReconciliationRun checked mismatches now])).

(** [LastReconciliation]: [ORDER BY id DESC LIMIT 1]. *)
Definition LastReconciliation (d : db) : option (Z * Z * Z) :=
  match last d.(reconciliation_runs) with
  | Some r => Some (r.(RChecked), Z.of_nat (length r.(RMismatches)), r.(RAt))
  | None => None
  end.

(** ** shadow.go *)

Definition stamp_shadow (now : Z) (p : ShadowPlacement) : ShadowPlacement :=
  mkShadowPlacement now p.(SPJobID) p.(SPTenant) p.(SPPolicy) p.(SPActivePolicy)
    p.(SPActiveTarget) p.(SPShadowTarget) p.(SPAgreed) p.(SPActiveESP) p.(SPShadowESP)
    p.(SPActiveWait) p.(SPShadowWait).

Definition RecordShadowPlacement (d : db) (now : Z) (p : ShadowPlacement) : db :=
  set_shadow_placements d (d.(shadow_placements) ++ [stamp_shadow now p]).

Definition newest_shadow (a b : ShadowPlacement) : bool := b.(SPAt) <? a.(SPAt).

Definition ShadowPlacementsSince (d : db) (policy : string) (since : Z) : list ShadowPlacement :=
  sort_by newest_shadow
    (List.filter (fun p => String.eqb p.(SPPolicy) policy && (since <=? p.(SPAt)))
                 d.(shadow_placements)).

Definition ShadowPolicies (d : db) : list string :=
  sort_strings (remove_dups (SPPolicy <$> d.(shadow_placements))).

(** ** game_days.go *)

Definition RecordGameDay (d : db) (g : GameDay) : db :=
  set_game_days d (d.(game_days) ++ [g]).

Definition latest_day (a b : GameDay) : bool := b.(GStartedAt) <? a.(GStartedAt).

Definition LastGameDay (d : db) : option GameDay := head (sort_by latest_day d.(game_days)).

(** ** Direct statements of src/internal/dispatch/sessions.go *)

(** [stampSessionID]: [jsonb_set(status, '{sessionId}', ...)], no event. *)
Definition stamp_session_sql (d : db) (now : Z) (id sessionID : string) : db :=
  set_jobs d (alter (fun r => with_phase r r.(JPhase)
                       (<["sessionId" := JStr sessionID]> r.(Status)) now) id d.(jobs)).

(** [sweepExpiredSessions]: close live rows whose expiry has passed. *)
Definition sweep_row (now : Z) (s : SessionRecord) : SessionRecord :=
  match s.(ClosedAt), s.(ExpiresAt) with
  | None, Some e => if e <? now then close_row now s else s
  | _, _ => s
  end.

Definition sweepExpiredSessions (d : db) (now : Z) : db :=
  set_sessions d (sweep_row now <$> d.(sessions)).
