(* ===== verification/Chaos.v ===== *)
(** * The invariant checks — src/internal/chaos/invariants.go

    The five checks the chaos harness runs on the store after every injected
    fault, as executable functions of the database. *)

From S2P Require Import Prelude Float64 GoLib Phase Database JobStore Tables.

Record Violation := mkViolation { Invariant : string; VJobID : string; Detail : string }.

(** 1. Every accepted job is queryable and in a known phase. *)
Definition noJobLost (d : db) (accepted : list string) : list Violation :=
  flat_map (fun id =>
    match GetJob d id with
    | Err _ => [mkViolation "no-job-lost" id "not queryable: job not found"]
    | Ok rec => if Valid rec.(JPhase) then []
                else [mkViolation "no-job-lost" id ("unknown phase " +:+ rec.(JPhase))]
    end) accepted.

(** 2. [GROUP BY task_id, unit HAVING count( * ) > 1], then at most one
    SUCCEEDED task per accepted job. *)
Definition charge (e : LedgerEntry) : string * string := (e.(LTaskID), e.(LUnit)).

Definition charge_count (d : db) (k : string * string) : nat :=
  length (List.filter (fun e => bool_decide (charge e = k)) d.(usage_ledger)).

Definition succeeded_tasks (d : db) (id : string) : nat :=
  length (List.filter (fun t => String.eqb t.(TJobID) id && String.eqb t.(TState) "SUCCEEDED")
                      (all_tasks d)).

Definition noDuplicateExecution (d : db) (accepted : list string) : list Violation :=
  flat_map (fun k =>
    if Nat.ltb 1 (charge_count d k)
    then [mkViolation "no-duplicate-exec" ""
            ("task " +:+ k.1 +:+ " unit " +:+ k.2 +:+ " billed "
               +:+ itoa (Z.of_nat (charge_count d k)) +:+ " times")]
    else []) (remove_dups (charge <$> d.(usage_ledger)))
  ++ flat_map (fun id =>
    if Nat.ltb 1 (succeeded_tasks d id)
    then [mkViolation "no-duplicate-exec" id
            (itoa (Z.of_nat (succeeded_tasks d id)) +:+ " SUCCEEDED tasks")]
    else []) accepted.

(** 3. Once terminal, no later event: report the first terminal event that is
    not the last. *)
Fixpoint terminal_scan (id : string) (events : list JobEvent) : list Violation :=
  match events with
  | [] => []
  | e :: rest =>
      if Terminal e.(EvPhase) && negb (bool_decide (rest = [])) then
        [mkViolation "terminal-immutable" id
           ("terminal " +:+ e.(EvPhase) +:+ " at seq " +:+ itoa e.(Seq) +:+ ", but "
              +:+ itoa (Z.of_nat (length rest)) +:+ " later event(s) follow")]
      else terminal_scan id rest
  end.

#[export] Instance any_list_nil_dec (l : list JobEvent) : Decision (l = []).
Proof. destruct l; [left|right]; done. Defined.

Definition terminalImmutable (d : db) (accepted : list string) : list Violation :=
  flat_map (fun id => terminal_scan id (sort_by by_seq (JobEventsSince d id 0))) accepted.

(** 4. Recorded shots never exceed the declared shots (float slack only). *)
Definition used_shots (d : db) (id : string) : float64 := job_unit_total d id "shots".

Definition usageWithinCaps (d : db) (accepted : list string) (declared : gmap string float64)
  : list Violation :=
  flat_map (fun id =>
    let cap := default f0 (declared !! id) in
    if fle cap f0 then []
    else if fgt (used_shots d id) (fmul cap (f_lit 10000001 10000000)) then
      [mkViolation "usage-within-caps" id
         ("recorded " +:+ fmt_f 0 (used_shots d id) +:+ " shots > declared " +:+ fmt_f 0 cap)]
    else []) accepted.

(** 5. Each event chain starts at PENDING and every change is permitted. *)
Fixpoint gapless_scan (id : string) (prev : Phase) (events : list JobEvent) : list Violation :=
  match events with
  | [] => []
  | e :: rest =>
      (if String.eqb prev e.(EvPhase) then []
       else match Transition prev e.(EvPhase) with
            | Ok _ => []
            | Err _ => [mkViolation "audit-gapless" id
                          ("illegal/reordered transition " +:+ prev +:+ "→" +:+ e.(EvPhase)
                             +:+ " at seq " +:+ itoa e.(Seq))]
            end)
      ++ gapless_scan id e.(EvPhase) rest
  end.

Definition auditGapless (d : db) (accepted : list string) : list Violation :=
  flat_map (fun id =>
    match sort_by by_seq (JobEventsSince d id 0) with
    | [] => []
    | e :: rest =>
        (if String.eqb e.(EvPhase) Pending then []
         else [mkViolation "audit-gapless" id ("first event is " +:+ e.(EvPhase) +:+ ", not PENDING")])
        ++ gapless_scan id e.(EvPhase) rest
    end) accepted.

Definition CheckAll (d : db) (accepted : list string) (declared : gmap string float64)
  : list Violation :=
  noJobLost d accepted ++ noDuplicateExecution d accepted ++ terminalImmutable d accepted
  ++ usageWithinCaps d accepted declared ++ auditGapless d accepted.
