(* ===== verification/Lifecycle.v ===== *)
(** * Every reachable database is consistent

    The state-changing statements of the control plane as a step relation on
    databases ([store_step]), each committing atomically, in any order and
    from any number of concurrent callers; the invariant they preserve; and the
    consequences for the checks of [Chaos]. *)

From S2P Require Import Prelude Float64 GoLib Phase Database JobStore Tables Chaos.

(** ** Histories *)

Definition events_of (d : db) (id : string) : list JobEvent :=
  List.filter (fun ev => String.eqb ev.(EvJobID) id) d.(job_events).

Definition history (d : db) (id : string) : list Phase := EvPhase <$> events_of d id.

(** A chain of phases in which every change is a legal transition; repeating
    a phase records a condition change. *)
Fixpoint chain_ok (p : Phase) (l : list Phase) : bool :=
  match l with
  | [] => true
  | q :: l' => (String.eqb p q || is_ok (Transition p q)) && chain_ok q l'
  end.

Lemma chain_ok_snoc p l q :
  chain_ok p (l ++ [q]) =
  chain_ok p l && (String.eqb (List.last l p) q || is_ok (Transition (List.last l p) q)).
Proof.
  revert p. induction l as [|x l IH]; intros p; cbn [chain_ok app].
  - by rewrite andb_true_r.
  - by rewrite IH, andb_assoc, last_cons_default.
Qed.

(** From a terminal phase a chain can only repeat it. *)
Lemma chain_ok_terminal p l :
  Terminal p = true -> chain_ok p l = true -> Forall (eq p) l.
Proof.
  intros T. induction l as [|q l IH]; intros H; constructor; cbn [chain_ok] in H;
    apply andb_true_iff in H as [H1 H2]; apply orb_true_iff in H1 as [H1|H1].
  - by apply String.eqb_eq in H1.
  - apply is_ok_Transition, Transition_ok_CanTransition in H1. destruct H1 as (_&_&H1&_). congruence.
  - apply String.eqb_eq in H1. subst. auto.
  - apply is_ok_Transition, Transition_ok_CanTransition in H1. destruct H1 as (_&_&H1&_). congruence.
Qed.

(** ** The invariant *)

Definition job_history_ok (d : db) (id : string) : Prop :=
  match d.(jobs) !! id with
  | None => history d id = []
  | Some r =>
      r.(JobID) = id /\ Valid r.(JPhase) = true /\
      exists l, history d id = Pending :: l /\ chain_ok Pending l = true
                /\ List.last l Pending = r.(JPhase)
  end.

Definition seq_lt (a b : JobEvent) : Prop := a.(Seq) < b.(Seq).

Record Inv (d : db) : Prop := mkInv {
  inv_history : forall id, job_history_ok d id;
  inv_sorted : StronglySorted seq_lt d.(job_events);
  inv_seq : Forall (fun e => 0 < e.(Seq) < d.(next_seq)) d.(job_events);
  inv_next : 0 < d.(next_seq);
  inv_task_key : forall t x, d.(tasks) !! t = Some x -> x.(TaskID) = t;
  inv_task_job : forall t x, d.(tasks) !! t = Some x ->
    exists r, d.(jobs) !! x.(TJobID) = Some r /\ r.(JPhase) <> Pending;
  inv_task_one : forall t1 t2 x1 x2, d.(tasks) !! t1 = Some x1 -> d.(tasks) !! t2 = Some x2 ->
    x1.(TJobID) = x2.(TJobID) -> t1 = t2;
  inv_charges : NoDup (charge <$> d.(usage_ledger)) }.

(** ** The steps

    Transitions to PENDING and SCHEDULED never appear: the code binds through
    [BindJob] and has no caller that returns a job to the queue. *)
Definition transition_targets : list Phase := [Submitted; Running; Succeeded; Failed; Cancelled].

Inductive store_step (d : db) : db -> Prop :=
| step_insert now rec :
    rec.(JPhase) = Pending -> store_step d (InsertJob d now rec).2
| step_insert_quota now rec costs :
    rec.(JPhase) = Pending -> store_step d (InsertJobWithQuota d now rec costs).2
| step_transition now id to mutate :
    to ∈ transition_targets -> store_step d (TransitionJob d now id to mutate).2
| step_condition now id cond : store_step d (SetJobCondition d now id cond).2
| step_bind now locked id taskID target placement :
    store_step d (BindJob d now locked id taskID target placement).2
| step_update_task now taskID adapter state err res :
    store_step d (UpdateTask d now taskID adapter state err res).2
| step_usage now jobID taskID tenant target ua :
    store_step d (record_one now jobID taskID tenant target d ua)
| step_stamp now id sid : store_step d (stamp_session_sql d now id sid)
| step_notify : store_step d (NotifyJobs d)
| step_session now s : store_step d (InsertSession d now s).2
| step_close_session now id : store_step d (CloseSession d now id)
| step_sweep now : store_step d (sweepExpiredSessions d now)
| step_project now t : store_step d (EnsureProject d now t).2
| step_archive now t : store_step d (ArchiveProject d now t).2
| step_weight t w : store_step d (SetProjectWeight d t w).2
| step_quota t u l : store_step d (SetQuota d t u l).2
| step_token now t : store_step d (InsertToken d now t).2
| step_revoke now id : store_step d (RevokeToken d now id).2
| step_touch now id : store_step d (TouchToken d now id)
| step_audit e : store_step d (RecordAudit d e).2
| step_reconcile now : store_step d (ReconcileUsage d now).2
| step_shadow now p : store_step d (RecordShadowPlacement d now p)
| step_game_day g : store_step d (RecordGameDay d g).

(** The databases any interleaving of the control plane's transactions can
    produce from a freshly migrated one. *)
Definition reachable (d : db) : Prop := rtc store_step empty_db d.

(** ** Preservation *)

(** Steps that leave the job, event, task and ledger tables alone. *)
Definition same_core (d d' : db) : Prop :=
  d'.(jobs) = d.(jobs) /\ d'.(job_events) = d.(job_events) /\ d'.(next_seq) = d.(next_seq)
  /\ d'.(tasks) = d.(tasks) /\ d'.(usage_ledger) = d.(usage_ledger).

Lemma Inv_same_core d d' : same_core d d' -> Inv d -> Inv d'.
Proof.
  intros (E1 & E2 & E3 & E4 & E5) []. destruct d, d'. simpl in *. subst. by constructor.
Qed.

Lemma history_append d now id p st id' :
  history (append_event d now id p st) id' =
  if decide (id = id') then history d id' ++ [p] else history d id'.
Proof.
  unfold history, events_of, append_event. simpl. rewrite List.filter_app, fmap_app. simpl.
  case_decide as E; subst.
  - by rewrite String.eqb_refl.
  - rewrite (proj2 (String.eqb_neq id id')) by done. simpl. by rewrite app_nil_r.
Qed.

Lemma StronglySorted_snoc {A} (R : A -> A -> Prop) l x :
  StronglySorted R l -> Forall (fun y => R y x) l -> StronglySorted R (l ++ [x]).
Proof.
  induction 1 as [|y l Hs IH Hf]; intros H; simpl; [repeat constructor|].
  inversion H; subst. constructor; [auto|].
  apply Forall_app. split; [done|by constructor].
Qed.

Lemma events_append_sorted d now id p st :
  Inv d ->
  StronglySorted seq_lt (append_event d now id p st).(job_events) /\
  Forall (fun e => 0 < e.(Seq) < d.(next_seq) + 1) (append_event d now id p st).(job_events).
Proof.
  intros I. pose proof (inv_seq d I) as Hs. pose proof (inv_next d I). split; simpl.
  - apply StronglySorted_snoc; [apply I|]. eapply Forall_impl; [exact Hs|].
    unfold seq_lt. simpl. lia.
  - apply Forall_app. split; [|repeat constructor; simpl; lia].
    eapply Forall_impl; [exact Hs|]. simpl. lia.
Qed.

(** Writing the row of [id] together with an event of the same phase keeps all
    histories in order, provided the phase is reached legally. *)
Definition legal_entry (d : db) (id : string) (p : Phase) : Prop :=
  match d.(jobs) !! id with
  | None => p = Pending
  | Some r => r.(JPhase) = p \/ Transition r.(JPhase) p = Ok tt
  end.

Lemma Inv_write d now id rec p st :
  Inv d -> rec.(JobID) = id -> rec.(JPhase) = p -> Valid p = true -> legal_entry d id p ->
  (forall t x, d.(tasks) !! t = Some x -> x.(TJobID) = id -> p <> Pending) ->
  Inv (append_event (put_job d id rec) now id p st).
Proof.
  intros I Hid Hp Hv Hl Ht.
  assert (Es : job_events (append_event (put_job d id rec) now id p st)
               = job_events (append_event d now id p st)) by done.
  destruct (events_append_sorted d now id p st I) as [S1 S2].
  constructor; simpl in *; try done.
  - intros id'. unfold job_history_ok. rewrite history_append.
    assert (H0 : forall i, history (put_job d id rec) i = history d i) by done.
    rewrite H0. simpl. pose proof (inv_history d I id') as Hh. unfold job_history_ok in Hh.
    case_decide as E; [subst id'|].
    + rewrite lookup_insert_eq. unfold legal_entry in Hl.
      destruct (d.(jobs) !! id) as [r|] eqn:Er.
      * destruct Hh as (_ & Hvr & l & -> & Hc & Hlast).
        split_and!; [done|by rewrite Hp|]. exists (l ++ [p]).
        rewrite chain_ok_snoc, Hc, Hlast, List.last_last. split_and!; [done| |done].
        simpl. apply orb_true_iff. destruct Hl as [->|Hl]; [left; apply String.eqb_refl|right].
        by rewrite Hl.
      * rewrite Hh. split_and!; [done|by rewrite Hp|]. exists []. subst p.
        rewrite Hl in *. done.
    + by rewrite lookup_insert_ne by done.
  - pose proof (inv_next d I). lia.
  - apply I.
  - intros t x Hx. destruct (inv_task_job d I t x Hx) as (r & Hr & Hne).
    destruct (decide (x.(TJobID) = id)) as [E|E].
    + exists rec. rewrite E, lookup_insert_eq. split; [done|]. rewrite Hp. eauto.
    + exists r. rewrite lookup_insert_ne by done. done.
  - intros t1 t2 x1 x2. apply (inv_task_one d I).
  - apply I.
Qed.

Lemma job_of_inv d id r : Inv d -> d.(jobs) !! id = Some r -> r.(JobID) = id /\ Valid r.(JPhase) = true.
Proof.
  intros I E. pose proof (inv_history d I id) as H. unfold job_history_ok in H. rewrite E in H.
  by destruct H as (? & ? & _).
Qed.

Lemma Valid_Pending : Valid Pending = true.
Proof. phase_eval. Qed.

Lemma Terminal_Pending : Terminal Pending = false.
Proof. phase_eval. Qed.

(** What an insert that succeeds did. *)
Definition inserted (now : Z) (rec : JobRecord) : JobRecord :=
  mkJobRecord rec.(JobID) rec.(Tenant) rec.(Name) rec.(JPhase) rec.(Doc) rec.(Status) now now.

Definition insertion (d : db) (now : Z) (rec : JobRecord) : db :=
  let d' := append_event (put_job d rec.(JobID) (inserted now rec)) now rec.(JobID) rec.(JPhase) rec.(Status) in
  set_notifications d' (d'.(notifications) ++ [rec.(JobID)]).

Lemma insertJobTx_ok d now rec rec' d' :
  insertJobTx now rec d = Ok (rec', d') ->
  doc_marshals rec.(Doc) = true /\ doc_marshals rec.(Status) = true /\ d.(jobs) !! rec.(JobID) = None /\
  rec' = inserted now rec /\ d' = insertion d now rec.
Proof.
  unfold insertJobTx. destruct (doc_marshals rec.(Doc)); [|done]. destruct (doc_marshals rec.(Status)); [|done].
  destruct (d.(jobs) !! rec.(JobID)); [done|]. by intros [= <- <-].
Qed.

Lemma Inv_insertTx d now rec rec' d' :
  Inv d -> rec.(JPhase) = Pending -> insertJobTx now rec d = Ok (rec', d') -> Inv d'.
Proof.
  intros I Hp (_ & _ & E & -> & ->)%insertJobTx_ok. eapply (Inv_same_core (append_event (put_job d rec.(JobID) _) now rec.(JobID) rec.(JPhase) rec.(Status)));
    [by repeat split|].
  apply Inv_write; simpl; try done.
  - by rewrite Hp, Valid_Pending.
  - unfold legal_entry. by rewrite E.
  - intros t x Hx Hj. destruct (inv_task_job d I t x Hx) as (r & Hr & _). congruence.
Qed.

Lemma Inv_transition d now id to mutate :
  Inv d -> to <> Pending -> Inv (TransitionJob d now id to mutate).2.
Proof.
  intros I Hto. unfold TransitionJob, scanJob, in_tx. destruct (d.(jobs) !! id) as [r|] eqn:E; [|done].
  simpl. destruct (Transition r.(JPhase) to) as [[]|] eqn:T; [|done]. cbv zeta. destruct (doc_marshals _); [|done]. simpl.
  destruct (job_of_inv d id r I E) as [? ?].
  apply Inv_write; simpl; try done.
  - apply Transition_ok_CanTransition in T. tauto.
  - unfold legal_entry. rewrite E. by right.
Qed.

Lemma Inv_condition d now id cond : Inv d -> Inv (SetJobCondition d now id cond).2.
Proof.
  intros I. unfold SetJobCondition, scanJob, in_tx. destruct (d.(jobs) !! id) as [r|] eqn:E; [|done].
  simpl. destruct (replace_condition _ _); [|done]. cbv zeta. destruct (doc_marshals _); [|done]. simpl.
  destruct (job_of_inv d id r I E) as [? ?].
  apply Inv_write; simpl; try done.
  - unfold legal_entry. rewrite E. by left.
  - intros t x Hx Hj. destruct (inv_task_job d I t x Hx) as (r' & Hr & Hne). congruence.
Qed.

(** [BindJob] creates the first and only task of a job that had none. *)
Lemma Inv_bind d now locked id taskID target placement :
  Inv d -> Inv (BindJob d now locked id taskID target placement).2.
Proof.
  intros I. unfold BindJob, scanJob, in_tx. destruct locked; [done|].
  destruct (d.(jobs) !! id) as [r|] eqn:E; [|done]. simpl.
  destruct (String.eqb_spec r.(JPhase) Pending) as [Hp|]; [|done].
  destruct (Transition r.(JPhase) Scheduled) as [[]|] eqn:T; [|done]. cbv zeta. destruct (doc_marshals _); [|done]. simpl.
  destruct (d.(tasks) !! taskID) as [|] eqn:Et; [done|]. simpl.
  destruct (job_of_inv d id r I E) as [? ?].
  set (st := bound_status _ _ _ _). set (rec := with_phase _ _ _ _).
  assert (J : Inv (append_event (put_job d id rec) now id Scheduled st)).
  { apply Inv_write; simpl; try done. unfold legal_entry. rewrite E. by right. }
  assert (Hno : forall t x, d.(tasks) !! t = Some x -> x.(TJobID) <> id).
  { intros t x Hx Hj. destruct (inv_task_job d I t x Hx) as (r' & Hr & Hne). congruence. }
  destruct J as [J1 J2 J3 J4 J5 J6 J7 J8]. constructor; try done; simpl in *.
  - intros t x [[<- <-]|[? Hx]]%lookup_insert_Some; [done|by apply J5].
  - intros t x [[<- <-]|[? Hx]]%lookup_insert_Some; [|by apply (J6 t)].
    exists rec. simpl. by rewrite lookup_insert_eq.
  - intros t1 t2 x1 x2 [[<- <-]|[? G1]]%lookup_insert_Some [[<- <-]|[? G2]]%lookup_insert_Some Hj;
      simpl in Hj; try done; try (by eapply J7);
      exfalso; [by apply (Hno t2 x2)|by apply (Hno t1 x1)].
Qed.

Lemma Inv_update_task d now taskID adapter state err res :
  Inv d -> Inv (UpdateTask d now taskID adapter state err res).2.
Proof.
  intros I. unfold UpdateTask. do 2 (destruct (negb _); [done|]). destruct (d.(tasks) !! taskID) as [t|] eqn:E; [|done].
  destruct I as [I1 I2 I3 I4 I5 I6 I7 I8]. constructor; try done; simpl.
  - intros t' x [[<- <-]|[? Hx]]%lookup_insert_Some; simpl; [by apply I5|by apply I5].
  - intros t' x [[<- <-]|[? Hx]]%lookup_insert_Some; simpl; eauto.
  - intros t1 t2 x1 x2 [[<- <-]|[? H1]]%lookup_insert_Some [[<- <-]|[? H2]]%lookup_insert_Some;
      simpl; eauto.
Qed.

Lemma same_charge_spec taskID unit e : same_charge taskID unit e = true <-> charge e = (taskID, unit).
Proof.
  unfold same_charge, charge. rewrite andb_true_iff, !String.eqb_eq.
  split; [by intros [-> ->]|by intros [= -> ->]].
Qed.

Lemma record_one_charges now jobID taskID tenant target d ua :
  NoDup (charge <$> d.(usage_ledger)) ->
  NoDup (charge <$> (record_one now jobID taskID tenant target d ua).(usage_ledger)).
Proof.
  intros N. destruct ua as [unit amount]. unfold record_one.
  destruct (existsb _ _) eqn:E; simpl; [done|].
  rewrite fmap_app. apply NoDup_app. split_and!; [done| |by apply NoDup_singleton].
  intros k [e [-> He]]%list_elem_of_fmap Hk. simpl in Hk. apply list_elem_of_singleton in Hk.
  apply not_true_iff_false in E. apply E, existsb_exists. exists e.
  split; [by apply list_elem_of_In|by apply same_charge_spec].
Qed.

Lemma Inv_stamp d now id sid : Inv d -> Inv (stamp_session_sql d now id sid).
Proof.
  intros I. destruct I as [I1 I2 I3 I4 I5 I6 I7 I8]. constructor; try done; simpl.
  - intros id'. specialize (I1 id'). unfold job_history_ok in *. simpl. rewrite lookup_alter.
    case_decide; [subst|done]. by destruct (d.(jobs) !! id').
  - intros t x Hx. destruct (I6 t x Hx) as (r & Hr & Hne). rewrite lookup_alter.
    case_decide; [subst id; rewrite Hr|by eauto]. eexists. split; [reflexivity|exact Hne].
Qed.

Lemma Inv_empty : Inv empty_db.
Proof. constructor; simpl; try done; try constructor. Qed.

(** Discharge [same_core] for a method on another table. *)
Ltac solve_same_core :=
  unfold InsertSession, EnsureProject, ArchiveProject, SetProjectWeight, SetQuota, InsertToken,
    RevokeToken, RecordAudit, ReconcileUsage;
  repeat case_match; by repeat split.

Lemma Inv_step d d' : store_step d d' -> Inv d -> Inv d'.
Proof.
  destruct 1 as [now rec Hp|now rec costs Hp|now id to mutate Hto| | | |now jobID taskID tenant target ua
    | | | | | | | | | | | | | | | | ]; intros I;
    try (eapply Inv_same_core; [|exact I]; solve_same_core).
  - unfold InsertJob, in_tx. destruct (insertJobTx now rec d) as [[rec' d']|] eqn:E; [|done].
    by eapply Inv_insertTx.
  - unfold InsertJobWithQuota, in_tx. destruct (check_quotas _ _ _); [|done]. simpl.
    destruct (insertJobTx now rec d) as [[rec' d']|] eqn:E; [|done]. by eapply Inv_insertTx.
  - apply Inv_transition; [done|]. intros ->. unfold transition_targets in Hto.
    rewrite !elem_of_cons, elem_of_nil in Hto. by destruct_or! Hto.
  - by apply Inv_condition.
  - by apply Inv_bind.
  - by apply Inv_update_task.
  - pose proof (record_one_charges now jobID taskID tenant target d ua (inv_charges d I)) as N.
    destruct ua as [unit amount]. unfold record_one in *. destruct I.
    destruct (existsb _ _); by constructor.
  - by apply Inv_stamp.
Qed.

Lemma reachable_Inv d : reachable d -> Inv d.
Proof. apply rtc_invariant; [apply Inv_empty|apply Inv_step]. Qed.

(** ** What is stored can be written again

    Every stored status is one that [json.Marshal] accepted, so it fails on a
    later status only for what the caller added to it. *)
Definition statuses_marshal (d : db) : Prop := map_Forall (fun _ r => doc_marshals r.(Status) = true) d.(jobs).

Lemma statuses_put d now id rec p st :
  doc_marshals rec.(Status) = true -> statuses_marshal d ->
  statuses_marshal (append_event (put_job d id rec) now id p st).
Proof. intros H Hd. by apply map_Forall_insert_2. Qed.

Lemma statuses_insertTx d now rec rec' d' :
  insertJobTx now rec d = Ok (rec', d') -> statuses_marshal d -> statuses_marshal d'.
Proof. intros (_ & H & _ & _ & ->)%insertJobTx_ok Hd. by apply map_Forall_insert_2. Qed.

Lemma statuses_step d d' : store_step d d' -> statuses_marshal d -> statuses_marshal d'.
Proof.
  destruct 1 as [now rec Hp|now rec costs Hp|now i to mutate Hto|now i cond|now locked i taskID target placement
    |now taskID adapter state err res|now jobID taskID tenant target [u a]|now i sid
    | | | | | | | | | | | | | | |]; intros H;
    try (unfold statuses_marshal, InsertSession, EnsureProject, ArchiveProject, SetProjectWeight, SetQuota,
           InsertToken, RevokeToken, RecordAudit, ReconcileUsage, UpdateTask, record_one in *;
         by repeat case_match).
  - unfold InsertJob, in_tx. destruct (insertJobTx now rec d) as [[rec' d']|] eqn:E; [|done].
    by eapply statuses_insertTx.
  - unfold InsertJobWithQuota, in_tx. destruct (check_quotas _ _ _); [|done]. cbn [rbind].
    destruct (insertJobTx now rec d) as [[rec' d']|] eqn:E; [|done]. by eapply statuses_insertTx.
  - unfold TransitionJob, scanJob, in_tx. destruct (d.(jobs) !! i) as [r|]; [|done]. simpl.
    destruct (Transition _ _); [|done]. cbv zeta. destruct (doc_marshals _) eqn:M; [|done]. by apply statuses_put.
  - unfold SetJobCondition, scanJob, in_tx. destruct (d.(jobs) !! i) as [r|]; [|done]. simpl.
    destruct (replace_condition _ _); [|done]. cbv zeta. destruct (doc_marshals _) eqn:M; [|done]. by apply statuses_put.
  - unfold BindJob, scanJob, in_tx. destruct locked; [done|]. destruct (d.(jobs) !! i) as [r|]; [|done]. simpl.
    destruct (String.eqb _ _); [|done]. destruct (Transition _ _); [|done]. cbv zeta.
    destruct (doc_marshals _) eqn:M; [|done]. simpl. destruct (d.(tasks) !! taskID); [done|]. by apply statuses_put.
  - unfold stamp_session_sql, statuses_marshal. simpl. intros k r. rewrite lookup_alter.
    case_decide; [subst|apply H]. destruct (d.(jobs) !! k) as [r0|] eqn:E; [|done]. intros [= <-]. simpl.
    apply doc_marshals_insert; [exact (H _ _ E)|done].
Qed.

Lemma statuses_run d d' : rtc store_step d d' -> statuses_marshal d -> statuses_marshal d'.
Proof. induction 1; eauto using statuses_step. Qed.

Lemma reachable_statuses d : reachable d -> statuses_marshal d.
Proof. intros R. apply (statuses_run _ _ R). apply map_Forall_empty. Qed.

(** ** Reading the history back *)

Lemma by_seq_asym a b : by_seq a b = true -> by_seq b a = false.
Proof. unfold by_seq. intros. to_prop. apply Z.ltb_ge. lia. Qed.

Lemma by_seq_neg_trans a b c :
  not_after by_seq a b -> not_after by_seq b c -> not_after by_seq a c.
Proof. unfold not_after, by_seq. intros. to_prop. apply Z.ltb_ge. lia. Qed.

Lemma seq_sorted_filter (f : JobEvent -> bool) l :
  StronglySorted seq_lt l -> StronglySorted seq_lt (List.filter f l).
Proof.
  induction 1 as [|x l Hs IH Hf]; simpl; [constructor|]. destruct (f x); [|done].
  constructor; [done|]. rewrite Forall_forall in *. intros y Hy. apply Hf.
  rewrite list_elem_of_In in *. apply List.filter_In in Hy. tauto.
Qed.

Lemma seq_sorted_inj l a b :
  StronglySorted seq_lt l -> a ∈ l -> b ∈ l -> a.(Seq) = b.(Seq) -> a = b.
Proof.
  induction 1 as [|x l Hs IH Hf]; [by intros ?%elem_of_nil|].
  rewrite Forall_forall in Hf. unfold seq_lt in Hf.
  intros [->|Ha]%elem_of_cons [->|Hb]%elem_of_cons E; auto.
  - specialize (Hf _ Hb). lia.
  - specialize (Hf _ Ha). lia.
Qed.

(** On events already in sequence order the [ORDER BY] is the identity. *)
Lemma sort_by_seq_id l : StronglySorted seq_lt l -> sort_by by_seq l = l.
Proof.
  intros Hs. symmetry.
  apply sort_by_unique; [apply by_seq_asym|apply by_seq_neg_trans| | |done].
  - intros a b Ha Hb H1 H2. apply (seq_sorted_inj l); auto. unfold by_seq in *. to_prop. lia.
  - induction Hs as [|x l Hs IH Hf]; constructor; [done|].
    eapply Forall_impl; [exact Hf|]. unfold not_after, by_seq, seq_lt. intros y Hy.
    apply Z.ltb_ge. lia.
Qed.

Lemma JobEventsSince_spec d id after :
  Inv d ->
  JobEventsSince d id after =
  List.filter (fun ev => String.eqb ev.(EvJobID) id && (after <? ev.(Seq))) d.(job_events).
Proof. intros I. apply sort_by_seq_id, seq_sorted_filter, I. Qed.

Lemma JobEventsSince_0 d id : Inv d -> JobEventsSince d id 0 = events_of d id.
Proof.
  intros I. rewrite JobEventsSince_spec by done. unfold events_of.
  pose proof (inv_seq d I) as H. induction H as [|e l He Hl IH]; [done|]. simpl.
  rewrite IH. replace (0 <? e.(Seq)) with true by (symmetry; apply Z.ltb_lt; lia).
  by rewrite andb_true_r.
Qed.

Lemma chaos_events d id :
  Inv d -> sort_by by_seq (JobEventsSince d id 0) = events_of d id.
Proof.
  intros I. rewrite JobEventsSince_0 by done. apply sort_by_seq_id, seq_sorted_filter, I.
Qed.

(** ** How one job evolves *)

(** Identity, tenant, name, document and admission time never change; the
    phase stays or moves along a legal edge that does not lead to PENDING. *)
Definition evolves (r r' : JobRecord) : Prop :=
  r'.(JobID) = r.(JobID) /\ r'.(Tenant) = r.(Tenant) /\ r'.(Name) = r.(Name) /\
  r'.(Doc) = r.(Doc) /\ r'.(CreatedAt) = r.(CreatedAt) /\
  (r'.(JPhase) = r.(JPhase) \/
   (Transition r.(JPhase) r'.(JPhase) = Ok tt /\ r'.(JPhase) <> Pending)).

Lemma evolves_refl r : evolves r r.
Proof. unfold evolves. split_and!; auto. Qed.

Lemma lookup_put_evolves (m : gmap string JobRecord) i id r0 r1 r :
  m !! i = Some r0 -> evolves r0 r1 -> m !! id = Some r ->
  exists r', <[i := r1]> m !! id = Some r' /\ evolves r r'.
Proof.
  intros H0 He H. destruct (decide (i = id)) as [->|Hne].
  - exists r1. rewrite lookup_insert_eq. split; [done|]. congruence.
  - exists r. rewrite lookup_insert_ne by done. split; [done|apply evolves_refl].
Qed.

Lemma insertTx_evolves d now rec rec' d' id r :
  insertJobTx now rec d = Ok (rec', d') -> d.(jobs) !! id = Some r -> d'.(jobs) !! id = Some r.
Proof.
  intros (_ & _ & E & _ & ->)%insertJobTx_ok H. simpl. rewrite lookup_insert_ne; [done|congruence].
Qed.

Lemma step_evolves d d' id r :
  store_step d d' -> d.(jobs) !! id = Some r ->
  exists r', d'.(jobs) !! id = Some r' /\ evolves r r'.
Proof.
  assert (Same : forall d', d'.(jobs) = d.(jobs) -> d.(jobs) !! id = Some r ->
    exists r', d'.(jobs) !! id = Some r' /\ evolves r r').
  { intros d1 -> H. exists r. split; [done|apply evolves_refl]. }
  destruct 1 as [now rec Hp|now rec costs Hp|now i to mutate Hto|now i cond|now locked i taskID target placement
    |now taskID adapter state err res|now jobID taskID tenant target [u a]|now i sid
    | | | | | | | | | | | | | | |]; intros H;
    try (apply Same; [|done];
         unfold InsertSession, EnsureProject, ArchiveProject, SetProjectWeight, SetQuota, InsertToken,
           RevokeToken, RecordAudit, ReconcileUsage, UpdateTask, record_one; by repeat case_match).
  - unfold InsertJob, in_tx. destruct (insertJobTx now rec d) as [[rec' d']|] eqn:E; [|by apply Same].
    exists r. split; [by eapply insertTx_evolves|apply evolves_refl].
  - unfold InsertJobWithQuota, in_tx. destruct (check_quotas _ _ _); [|by apply Same]. simpl.
    destruct (insertJobTx now rec d) as [[rec' d']|] eqn:E; [|by apply Same].
    exists r. split; [by eapply insertTx_evolves|apply evolves_refl].
  - unfold TransitionJob, scanJob, in_tx. destruct (d.(jobs) !! i) as [r0|] eqn:E0; [|by apply Same].
    simpl. destruct (Transition r0.(JPhase) to) as [[]|] eqn:T; [|by apply Same].
    cbv zeta. destruct (doc_marshals _); [|by apply Same]. simpl.
    eapply lookup_put_evolves; [exact E0| |exact H]. unfold evolves. split_and!; try done. right.
    split; [exact T|]. intros E. simpl in E. subst to. unfold transition_targets in Hto.
    rewrite !elem_of_cons, elem_of_nil in Hto. by destruct_or! Hto.
  - unfold SetJobCondition, scanJob, in_tx. destruct (d.(jobs) !! i) as [r0|] eqn:E0; [|by apply Same].
    simpl. destruct (replace_condition _ _); [|by apply Same].
    cbv zeta. destruct (doc_marshals _); [|by apply Same]. simpl.
    eapply lookup_put_evolves; [exact E0| |exact H]. unfold evolves. split_and!; auto.
  - unfold BindJob, scanJob, in_tx. destruct locked; [by apply Same|].
    destruct (d.(jobs) !! i) as [r0|] eqn:E0; [|by apply Same]. simpl.
    destruct (String.eqb r0.(JPhase) Pending); [|by apply Same].
    destruct (Transition r0.(JPhase) Scheduled) as [[]|] eqn:T; [|by apply Same].
    cbv zeta. destruct (doc_marshals _); [|by apply Same]. simpl.
    destruct (d.(tasks) !! taskID); [by apply Same|]. simpl.
    eapply lookup_put_evolves; [exact E0| |exact H]. unfold evolves. split_and!; try done. by right.
  - unfold stamp_session_sql. simpl. rewrite lookup_alter. case_decide; [subst; rewrite H|].
    + eexists. split; [reflexivity|]. unfold evolves. split_and!; auto.
    + exists r. split; [done|apply evolves_refl].
Qed.

(** Along a run the phase walks a legal path that never re-enters PENDING. *)
Lemma run_job d d' id r :
  rtc store_step d d' -> d.(jobs) !! id = Some r ->
  exists r', d'.(jobs) !! id = Some r' /\ r'.(JobID) = r.(JobID) /\ r'.(Tenant) = r.(Tenant) /\
    r'.(Doc) = r.(Doc) /\
    (r.(JPhase) <> Pending -> r'.(JPhase) <> Pending) /\
    (Terminal r.(JPhase) = true -> r'.(JPhase) = r.(JPhase)).
Proof.
  intros Hr. revert r. induction Hr as [d|d d1 d2 Hs Hr IH]; intros r H; [by exists r|].
  destruct (step_evolves _ _ _ _ Hs H) as (r1 & H1 & E1 & E2 & _ & E4 & _ & E5).
  destruct (IH r1 H1) as (r2 & H2 & F1 & F2 & F3 & F4 & F5).
  exists r2. rewrite F1, F2, F3, E1, E2, E4. split_and!; try done.
  - intros Hne. apply F4. destruct E5 as [->|[_ ?]]; done.
  - intros HT. destruct E5 as [E5|[E5 _]].
    + rewrite F5; congruence.
    + apply Transition_ok_CanTransition in E5. destruct E5 as (_ & _ & ? & _). congruence.
Qed.

(** ** What the harness checks, for every reachable database *)

Lemma flat_map_nil {A B} (f : A -> list B) l : (forall x, x ∈ l -> f x = []) -> flat_map f l = [].
Proof.
  induction l as [|x l IH]; intros H; [done|]. simpl.
  rewrite H by left. simpl. apply IH. intros y Hy. apply H. by right.
Qed.

Lemma gapless_scan_ok id p l :
  chain_ok p (EvPhase <$> l) = true -> gapless_scan id p l = [].
Proof.
  revert p. induction l as [|e l IH]; intros p; [done|].
  rewrite fmap_cons. cbn [chain_ok gapless_scan]. intros [H1 H2]%andb_true_iff.
  rewrite (IH _ H2), app_nil_r. destruct (String.eqb p (EvPhase e)); [done|]. simpl in H1.
  by destruct (Transition p (EvPhase e)).
Qed.

Lemma inv_audit_gapless d ids : Inv d -> auditGapless d ids = [].
Proof.
  intros I. apply flat_map_nil. intros id _. rewrite chaos_events by done.
  pose proof (inv_history d I id) as H. unfold job_history_ok, history in H.
  destruct (d.(jobs) !! id) as [r|].
  - destruct H as (_ & _ & l & H & Hc & _). destruct (events_of d id) as [|e es]; [done|].
    rewrite fmap_cons in H. injection H as H1 H2. rewrite H1, String.eqb_refl. simpl.
    apply gapless_scan_ok. by rewrite H2.
  - by apply fmap_nil_inv in H as ->.
Qed.

(** (C1) In every database that any interleaving of the store's transactions
    can produce, the harness's fifth check is clean: the recorded event chain
    of every job starts at PENDING and each phase change in it is a
    transition the state machine permits. *)
Theorem reachable_audit_gapless d ids : reachable d -> auditGapless d ids = [].
Proof. intros H%reachable_Inv. by apply inv_audit_gapless. Qed.

(** (C2) No job is lost: once a job is in the table, whatever runs afterwards,
    [GetJob] finds it with its identifier, tenant and document unchanged, and
    the harness's first check is clean for it. *)
Theorem accepted_never_lost d d' id r :
  reachable d -> d.(jobs) !! id = Some r -> rtc store_step d d' ->
  noJobLost d' [id] = [] /\
  exists r', GetJob d' id = Ok r' /\ r'.(JobID) = id /\ r'.(Tenant) = r.(Tenant)
             /\ r'.(Doc) = r.(Doc).
Proof.
  intros Hd Hj Hr. destruct (run_job _ _ _ _ Hr Hj) as (r' & H' & E1 & E2 & E3 & _).
  assert (I : Inv d') by (apply reachable_Inv; unfold reachable in *; by etrans).
  destruct (job_of_inv _ _ _ I H') as [K V].
  assert (G : GetJob d' id = Ok r') by (unfold GetJob, scanJob; by rewrite H').
  split; [|by exists r']. unfold noJobLost. simpl. by rewrite G, V.
Qed.

Lemma filter_charge_le l k :
  NoDup (charge <$> l) ->
  (length (List.filter (fun e => bool_decide (charge e = k)) l) <= 1)%nat.
Proof.
  induction l as [|e l IH]; [simpl; lia|]. rewrite fmap_cons. intros [Hn Hd]%NoDup_cons. simpl.
  case_bool_decide as E; [|by apply IH]. simpl.
  replace (List.filter _ l) with (@nil LedgerEntry); [simpl; lia|]. symmetry.
  destruct (List.filter (fun e0 => bool_decide (charge e0 = k)) l) as [|x xs] eqn:F; [done|].
  exfalso. apply Hn. rewrite E. assert (Hx : In x (x :: xs)) by (by left).
  rewrite <- F in Hx. apply List.filter_In in Hx as [Hx Hk]. to_prop. subst k.
  rewrite <- Hk. apply list_elem_of_fmap. exists x. split; [done|by apply list_elem_of_In].
Qed.

(** At most one task row belongs to a job. *)
Lemma tasks_of_job_le (m : gmap string TaskRecord) id (f : TaskRecord -> bool) :
  (forall t1 t2 x1 x2, m !! t1 = Some x1 -> m !! t2 = Some x2 -> x1.(TJobID) = x2.(TJobID) -> t1 = t2) ->
  (forall x, f x = true -> x.(TJobID) = id) ->
  (length (List.filter f (snd <$> map_to_list m)) <= 1)%nat.
Proof.
  intros H1 Hf. pose proof (NoDup_fst_map_to_list m) as N.
  assert (L : forall t x, (t, x) ∈ map_to_list m -> m !! t = Some x) by (intros; by apply elem_of_map_to_list).
  revert N L. generalize (map_to_list m). induction l as [|[t x] l IH]; intros N L; [simpl; lia|].
  simpl in *. apply NoDup_cons in N as [Hn N].
  assert (IH' := IH N (fun t' x' H => L t' x' (list_elem_of_further _ _ _ H))).
  destruct (f x) eqn:Ex; [|done]. simpl.
  destruct (List.filter f (list_fmap _ _ snd l)) as [|y ys] eqn:F; [simpl; lia|]. exfalso.
  assert (Hy : In y (y :: ys)) by (by left). rewrite <- F in Hy.
  apply List.filter_In in Hy as [Hy Hfy]. apply list_elem_of_In in Hy.
  apply list_elem_of_fmap in Hy as ([t' y'] & -> & Hy). simpl in *.
  assert (t = t') as <-.
  { eapply (H1 t t' x y'); [apply L; left|apply L; by right|]. by rewrite (Hf x Ex), (Hf y' Hfy). }
  apply Hn, list_elem_of_fmap. by exists (t, y').
Qed.

Lemma inv_no_duplicate d ids : Inv d -> noDuplicateExecution d ids = [].
Proof.
  intros I. unfold noDuplicateExecution. rewrite !flat_map_nil; [done| |].
  - intros id _. destruct (Nat.ltb_spec 1 (succeeded_tasks d id)) as [H|]; [|done]. exfalso.
    unfold succeeded_tasks, all_tasks in H.
    enough (length (List.filter (fun t => String.eqb t.(TJobID) id && String.eqb t.(TState) "SUCCEEDED")
       (snd <$> map_to_list d.(tasks))) <= 1)%nat by lia.
    apply (tasks_of_job_le _ id); [apply I|]. intros x Hx. by to_prop.
  - intros k _. destruct (Nat.ltb_spec 1 (charge_count d k)) as [H|]; [|done]. exfalso.
    pose proof (filter_charge_le _ k (inv_charges d I)). unfold charge_count in H. lia.
Qed.

(** (C3) Exactly-once effects: in every reachable database no [(task, unit)]
    is charged twice, and no job has two succeeded tasks, so the harness's
    second check is clean for any set of accepted jobs. *)
Theorem reachable_no_duplicate_execution d ids : reachable d -> noDuplicateExecution d ids = [].
Proof. intros H%reachable_Inv. by apply inv_no_duplicate. Qed.

(** A terminal phase is final: from a database in which a job is
    SUCCEEDED, FAILED or CANCELLED every later database shows that job in the
    same phase. *)
Lemma terminal_phase_final d d' id r :
  d.(jobs) !! id = Some r -> Terminal r.(JPhase) = true -> rtc store_step d d' ->
  exists r', GetJob d' id = Ok r' /\ r'.(JPhase) = r.(JPhase).
Proof.
  intros Hj HT Hr. destruct (run_job _ _ _ _ Hr Hj) as (r' & H' & _ & _ & _ & _ & F).
  exists r'. unfold GetJob, scanJob. rewrite H'. auto.
Qed.

Lemma BindJob_ok d now locked id taskID target placement r d' :
  BindJob d now locked id taskID target placement = (Ok r, d') ->
  locked = false /\ (exists r0, d.(jobs) !! id = Some r0 /\ r0.(JPhase) = Pending) /\
  d'.(jobs) !! id = Some r /\ r.(JPhase) = Scheduled /\
  d'.(tasks) !! taskID = Some (new_task taskID id target now).
Proof.
  intros H%in_tx_ok. destruct locked; [done|]. unfold scanJob in H.
  destruct (d.(jobs) !! id) as [r0|] eqn:E; [|done]. simpl in H.
  destruct (String.eqb_spec r0.(JPhase) Pending) as [Hp|]; [|done].
  destruct (Transition _ _); [|done]. cbv zeta in H. destruct (doc_marshals _); [|done]. simpl in H. destruct (d.(tasks) !! taskID); [done|].
  injection H as <- <-. simpl. rewrite !lookup_insert_eq. split_and!; eauto.
Qed.

(** (C4) A job is bound at most once: after one [BindJob] of a job committed,
    every later [BindJob] of the same job, by any replica and for any target,
    fails and changes nothing. *)
Theorem bind_at_most_once d now locked id t target pl r d1 d2 now2 locked2 t2 target2 pl2 :
  BindJob d now locked id t target pl = (Ok r, d1) -> rtc store_step d1 d2 ->
  exists e, BindJob d2 now2 locked2 id t2 target2 pl2 = (Err e, d2).
Proof.
  intros (_ & _ & Hj & Hp & _)%BindJob_ok Hr.
  destruct (run_job _ _ _ _ Hr Hj) as (r' & H' & _ & _ & _ & F & _).
  destruct (BindJob d2 now2 locked2 id t2 target2 pl2) as [[r2|e] d3] eqn:B.
  - exfalso. apply BindJob_ok in B as (_ & (r0 & H0 & P0) & _). rewrite H' in H0.
    injection H0 as <-. apply F; [by rewrite Hp|done].
  - exists e. by apply in_tx_err in B as [-> _].
Qed.

(** ** When later events may follow a terminal one *)

(** A [SetJobCondition] that lands on a job already finished. *)
Definition late_condition (d d' : db) : Prop :=
  exists now id cond r, d.(jobs) !! id = Some r /\ Terminal r.(JPhase) = true
    /\ d' = (SetJobCondition d now id cond).2.

(** The steps of a run in which no condition is set on a finished job. *)
Definition guarded_step (d d' : db) : Prop := store_step d d' /\ (~ late_condition d d' \/ d' = d).

(** The last event of a job is its only terminal one, if it has one. *)
Definition sealed (d : db) : Prop :=
  forall id l p m, history d id = l ++ p :: m -> Terminal p = true -> m = [].

Lemma insertTx_events d now rec rec' d' id :
  insertJobTx now rec d = Ok (rec', d') ->
  history d' id = history d id \/
  (exists p, history d' id = history d id ++ [p] /\
     forall r, d.(jobs) !! id = Some r -> Terminal r.(JPhase) = true -> late_condition d d').
Proof.
  intros (_ & _ & E & _ & ->)%insertJobTx_ok.
  pose proof (history_append d now rec.(JobID) rec.(JPhase) rec.(Status) id) as H.
  case_decide; [subst; right|by left].
  exists rec.(JPhase). split; [exact H|]. congruence.
Qed.

Lemma step_events d d' id :
  store_step d d' ->
  history d' id = history d id \/
  (exists p, history d' id = history d id ++ [p] /\
     forall r, d.(jobs) !! id = Some r -> Terminal r.(JPhase) = true -> late_condition d d').
Proof.
  destruct 1 as [now rec Hp|now rec costs Hp|now i to mutate Hto|now i cond|now locked i taskID target placement
    |now taskID adapter state err res|now jobID taskID tenant target [u a]|now i sid
    | | | | | | | | | | | | | | |];
    try (left; unfold InsertSession, EnsureProject, ArchiveProject, SetProjectWeight, SetQuota,
           InsertToken, RevokeToken, RecordAudit, ReconcileUsage, UpdateTask, record_one; by repeat case_match).
  - unfold InsertJob, in_tx. destruct (insertJobTx now rec d) as [[rec' d']|] eqn:E; [|by left].
    by eapply insertTx_events.
  - unfold InsertJobWithQuota, in_tx. destruct (check_quotas _ _ _); [|by left]. cbn [rbind].
    destruct (insertJobTx now rec d) as [[rec' d']|] eqn:E; [|by left]. by eapply insertTx_events.
  - unfold TransitionJob, scanJob, in_tx. destruct (d.(jobs) !! i) as [r0|] eqn:E0; [|by left]. simpl.
    destruct (Transition r0.(JPhase) to) as [[]|] eqn:T; [|by left]. cbv zeta. destruct (doc_marshals _); [|by left]. cbn [snd].
    rewrite history_append. case_decide; [subst|by left]. right. eexists. split; [done|].
    intros r Hr HT. rewrite E0 in Hr. injection Hr as <-.
    apply Transition_ok_CanTransition in T. destruct T as (_ & _ & T & _). congruence.
  - destruct (SetJobCondition d now i cond) as [o d1] eqn:S. simpl.
    assert (S' := S). unfold SetJobCondition, scanJob, in_tx in S.
    destruct (d.(jobs) !! i) as [r0|] eqn:E0; simpl in S; [|left; by injection S as _ <-].
    destruct (replace_condition _ _); simpl in S; [|left; by injection S as _ <-].
    cbv zeta in S. destruct (doc_marshals _); simpl in S; [|left; by injection S as _ <-].
    injection S as _ <-. rewrite history_append. case_decide; [subst|by left].
    right. eexists. split; [done|]. intros r Hr HT. exists now, id, cond, r.
    by rewrite S'.
  - unfold BindJob, scanJob, in_tx. destruct locked; [by left|].
    destruct (d.(jobs) !! i) as [r0|] eqn:E0; [|by left]. simpl.
    destruct (String.eqb_spec r0.(JPhase) Pending) as [Hp|]; [|by left].
    destruct (Transition r0.(JPhase) Scheduled) as [[]|] eqn:T; [|by left]. cbv zeta. destruct (doc_marshals _); [|by left]. simpl.
    destruct (d.(tasks) !! taskID); [by left|]. cbn [snd].
    pose proof (history_append d now i Scheduled (bound_status r0.(Status) taskID target placement) id) as H.
    case_decide; [subst; right|by left]. exists Scheduled. split; [exact H|].
    intros r Hr HT. rewrite E0 in Hr. injection Hr as <-. by rewrite Hp, Terminal_Pending in HT.
Qed.

Lemma sealed_step d d' : Inv d -> sealed d -> guarded_step d d' -> sealed d'.
Proof.
  intros I S [Hs [Hl| ->]]; [|done]. intros id l p m.
  destruct (step_events _ _ id Hs) as [->|(q & Hq & Hlate)]; [apply S|]. rewrite Hq. intros E HT.
  destruct m as [|x m _] using rev_ind; [done|]. exfalso.
  replace (l ++ p :: m ++ [x]) with ((l ++ p :: m) ++ [x]) in E by (by rewrite <- app_assoc).
  apply app_inj_2 in E as [E _]; [|done].
  assert (m = []) as -> by (eapply S; eauto).
  pose proof (inv_history d I id) as H. unfold job_history_ok in H. rewrite E in H.
  destruct (d.(jobs) !! id) as [r|] eqn:Er; [|by destruct l].
  destruct H as (_ & _ & l' & Hl' & _ & Hlast).
  apply Hl, (Hlate r eq_refl). rewrite <- Hlast.
  replace (List.last l' Pending) with (List.last (Pending :: l') Pending) by (by destruct l').
  by rewrite <- Hl', List.last_last.
Qed.

Lemma terminal_scan_sealed id es :
  (forall l p m, EvPhase <$> es = l ++ p :: m -> Terminal p = true -> m = []) ->
  terminal_scan id es = [].
Proof.
  induction es as [|e es IH]; intros H; [done|]. simpl.
  destruct (Terminal e.(EvPhase)) eqn:T; simpl.
  - assert (N : EvPhase <$> es = []) by (by apply (H [] e.(EvPhase))).
    by apply fmap_nil_inv in N as ->.
  - apply IH. intros l p m E. apply (H (e.(EvPhase) :: l) p m). rewrite fmap_cons, E. done.
Qed.

(** A terminal event is the last event of its job, in every run in which
    no condition is written to a job that has already finished: the harness's
    third check is clean.  The condition is needed, see
    [late_condition_breaks_terminal_immutable]. *)
Lemma guarded_terminal_immutable d ids :
  rtc guarded_step empty_db d -> terminalImmutable d ids = [].
Proof.
  intros H. assert (Inv d /\ sealed d) as [I S].
  { revert H. apply (rtc_invariant guarded_step (fun d => Inv d /\ sealed d)).
    - split; [apply Inv_empty|]. intros id l p m E. by destruct l.
    - intros a b Hs [Ia Sa]. split; [eapply Inv_step; [apply Hs|done]|by eapply sealed_step]. }
  apply flat_map_nil. intros id _. rewrite chaos_events by done.
  apply terminal_scan_sealed. apply S.
Qed.

(** ** A concrete run

    One job is admitted and bound by one replica; a second job is admitted and
    cancelled while a scheduling cycle that read it as PENDING is still about
    to record why it was not placed. *)
Definition demo_job (id : string) : JobRecord :=
  mkJobRecord id "acme/chem" "bell" Pending (mkdoc [("spec", JStr "bell")])
              (mkdoc [("phase", JStr Pending)]) 0 0.

Definition demo_pending : db := (InsertJob empty_db 10 (demo_job "j1")).2.
Definition demo_bound : db :=
  (BindJob demo_pending 20 false "j1" "t1" "sim-a" (mkdoc [("policy", JStr "fifo")])).2.
Definition demo_cancelled : db := (TransitionJob demo_pending 20 "j1" Cancelled None).2.
Definition demo_condition : doc :=
  mkdoc [("type", JStr "Scheduled"); ("status", JStr "False"); ("message", JStr "no target")].
Definition demo_late : db := (SetJobCondition demo_cancelled 30 "j1" demo_condition).2.

Lemma demo_pending_step : store_step empty_db demo_pending.
Proof. by apply step_insert. Qed.

Lemma demo_bound_step : store_step demo_pending demo_bound.
Proof. apply step_bind. Qed.

Lemma demo_cancelled_step : store_step demo_pending demo_cancelled.
Proof. apply step_transition. unfold transition_targets. set_solver. Qed.

Lemma demo_late_step : store_step demo_cancelled demo_late.
Proof. apply step_condition. Qed.

Lemma demo_pending_reachable : reachable demo_pending.
Proof. apply rtc_once, demo_pending_step. Qed.

Lemma demo_bound_reachable : reachable demo_bound.
Proof. eapply rtc_r; [apply demo_pending_reachable|apply demo_bound_step]. Qed.

(** The third check is not an invariant of the store: a job that is
    cancelled and then receives a condition, which the store accepts without
    looking at the phase, has an event after its terminal one, and the check
    reports it. *)
Lemma late_condition_breaks_terminal_immutable :
  reachable demo_late /\
  history demo_late "j1" = [Pending; Cancelled; Cancelled] /\
  terminalImmutable demo_late ["j1"] =
    [mkViolation "terminal-immutable" "j1"
       "terminal CANCELLED at seq 2, but 1 later event(s) follow"].
Proof.
  split; [|split; vm_compute; reflexivity].
  eapply rtc_r; [|apply demo_late_step].
  eapply rtc_r; [apply demo_pending_reachable|apply demo_cancelled_step].
Qed.

Lemma reachable_audit_gapless_witness :
  reachable demo_bound /\ auditGapless demo_bound ["j1"] = [].
Proof.
  split; [apply demo_bound_reachable|].
  apply (reachable_audit_gapless demo_bound ["j1"]), demo_bound_reachable.
Defined.

Lemma accepted_never_lost_witness :
  noJobLost demo_bound ["j1"] = [] /\
  exists r', GetJob demo_bound "j1" = Ok r' /\ r'.(JobID) = "j1" /\ r'.(Tenant) = "acme/chem"
             /\ r'.(Doc) = mkdoc [("spec", JStr "bell")].
Proof.
  apply (accepted_never_lost demo_pending demo_bound "j1"
           (mkJobRecord "j1" "acme/chem" "bell" Pending (mkdoc [("spec", JStr "bell")])
              (mkdoc [("phase", JStr Pending)]) 10 10)).
  - apply demo_pending_reachable.
  - vm_compute. reflexivity.
  - apply rtc_once, demo_bound_step.
Defined.

Lemma reachable_no_duplicate_execution_witness :
  reachable demo_bound /\ noDuplicateExecution demo_bound ["j1"; "j2"] = [].
Proof.
  split; [apply demo_bound_reachable|].
  apply (reachable_no_duplicate_execution demo_bound ["j1"; "j2"]), demo_bound_reachable.
Defined.

Lemma terminal_phase_final_witness :
  exists r', GetJob demo_late "j1" = Ok r' /\ r'.(JPhase) = Cancelled.
Proof.
  apply (terminal_phase_final demo_cancelled demo_late "j1"
           (mkJobRecord "j1" "acme/chem" "bell" Cancelled (mkdoc [("spec", JStr "bell")])
              (mkdoc [("phase", JStr Cancelled)]) 10 20)).
  - vm_compute. reflexivity.
  - vm_compute. reflexivity.
  - apply rtc_once, demo_late_step.
Defined.

Lemma bind_at_most_once_witness :
  exists e, BindJob demo_bound 30 false "j1" "t2" "sim-b" (mkdoc []) = (Err e, demo_bound).
Proof.
  refine (bind_at_most_once demo_pending 20 false "j1" "t1" "sim-a"
            (mkdoc [("policy", JStr "fifo")]) _ demo_bound demo_bound 30 false "t2" "sim-b" (mkdoc []) _ _).
  - vm_compute. reflexivity.
  - apply rtc_refl.
Defined.

Lemma guarded_terminal_immutable_witness : terminalImmutable demo_bound ["j1"] = [].
Proof.
  apply (guarded_terminal_immutable demo_bound ["j1"]).
  apply rtc_l with demo_pending; [|apply rtc_once]; split.
  - apply demo_pending_step.
  - left. intros (now & id & cond & r & H & _). vm_compute in H. discriminate H.
  - apply demo_bound_step.
  - left. intros (now & id & cond & r & H & T & _).
    assert (demo_pending.(jobs) = {["j1" := mkJobRecord "j1" "acme/chem" "bell" Pending
      (mkdoc [("spec", JStr "bell")]) (mkdoc [("phase", JStr Pending)]) 10 10]}) as E
      by (vm_compute; reflexivity).
    rewrite E in H. apply lookup_singleton_Some in H as [_ <-].
    vm_compute in T. discriminate T.
Defined.
