(* ===== verification/Qasm.v ===== *)
(** * Profiling a circuit — src/internal/scheduler/qasm.go

    The lexical scan of a flat OpenQASM program: the four regular expressions
    as terms of a small expression language with a backtracking matcher
    (leftmost-first, with captures, as Go's [regexp] reports them), and the
    line loop of [ProfileQASM].  Programs are byte strings. *)

From S2P Require Import Prelude Float64 GoLib.

(** ** Regular expressions *)

Inductive regex :=
| Eps
| Chr (f : ascii -> bool)
| Cat (a b : regex)
| Alt (a b : regex)
| Star (a : regex)
| Cap (n : nat) (a : regex).

Abbreviation captures := (gmap nat string).

(** The first [n] bytes of [s]. *)
Definition sub0 (n : nat) (s : string) : string := String.substring 0 n s.

(** [rx r s caps k]: match a prefix of [s], then continue with the rest.
    Repetition is greedy and each round must consume something. *)
Fixpoint rx (r : regex) (s : string) (caps : captures)
    (k : string -> captures -> option captures) : option captures :=
  match r with
  | Eps => k s caps
  | Chr f => match s with
             | String c s' => if f c then k s' caps else None
             | "" => None
             end
  | Cat a b => rx a s caps (fun s' caps' => rx b s' caps' k)
  | Alt a b => match rx a s caps k with Some m => Some m | None => rx b s caps k end
  | Star a =>
      (fix star (n : nat) (s : string) (caps : captures) : option captures :=
         match n with
         | O => k s caps
         | S n' =>
             match rx a s caps (fun s' caps' =>
                     if Nat.ltb (String.length s') (String.length s) then star n' s' caps' else None) with
             | Some m => Some m
             | None => k s caps
             end
         end) (String.length s) s caps
  | Cap n a =>
      rx a s caps (fun s' caps' =>
        k s' (<[n := sub0 (String.length s - String.length s') s]> caps'))
  end.

(** [FindStringSubmatch] of an expression anchored at the start. *)
Definition find_submatch (r : regex) (s : string) : option captures :=
  rx r s ∅ (fun _ caps => Some caps).

(** [m[n]]: the empty string when the group took no part in the match. *)
Definition group (m : captures) (n : nat) : string := default "" (m !! n).

Definition lit (c : ascii) : regex := Chr (Ascii.eqb c).
Fixpoint word (s : string) : regex :=
  match s with "" => Eps | String c s' => Cat (lit c) (word s') end.
Definition opt (r : regex) : regex := Alt r Eps.
Definition plus (r : regex) : regex := Cat r (Star r).
Fixpoint cat (l : list regex) : regex :=
  match l with [] => Eps | [r] => r | r :: l' => Cat r (cat l') end.

Definition between (lo hi c : ascii) : bool := (code lo <=? code c) && (code c <=? code hi).
Definition digit_c : regex := Chr (between "0" "9").
Definition word_char (c : ascii) : bool :=
  between "0" "9" c || between "a" "z" c || between "A" "Z" c || Ascii.eqb "_" c.
Definition word_c : regex := Chr word_char.
(** [\s] is [[\t\n\f\r ]]. *)
Definition space_c : regex :=
  Chr (fun c => (code c =? 9) || (code c =? 10) || (code c =? 12) || (code c =? 13) || (code c =? 32)).

(** The declaration of a register: qubit[n] or qreg name[n]. *)
Definition qubitDeclRe : regex :=
  cat [Star space_c;
       Alt (cat [word "qubit["; Cap 1 (plus digit_c); lit "]"])
           (cat [word "qreg"; plus space_c; plus word_c; lit "["; Cap 2 (plus digit_c); lit "]"])].

(** A gate call: name, optional parenthesised parameters, operands, semicolon. *)
Definition gateCallRe : regex :=
  cat [Star space_c;
       Cap 1 (cat [Chr (fun c => between "a" "z" c || Ascii.eqb "_" c); Star word_c]);
       Star space_c;
       opt (cat [lit "("; Star (Chr (fun c => negb (Ascii.eqb ")" c))); lit ")"]);
       plus space_c;
       Cap 2 (plus (Chr (fun c => negb (code c =? 10))));
       lit ";"].

(** OpenQASM 2: measure q[0] -> c[0]  or  measure q -> c. *)
Definition measure2Re : regex :=
  cat [Star space_c; word "measure"; plus space_c; Cap 1 (plus word_c);
       opt (Cap 2 (cat [lit "["; Cap 3 (plus digit_c); lit "]"]));
       Star space_c; word "->"].

(** OpenQASM 3: c = measure q  or  c[0] = measure q[0]. *)
Definition measure3Re : regex :=
  cat [Star space_c; plus word_c;
       opt (Cap 1 (cat [lit "["; plus digit_c; lit "]"]));
       Star space_c; lit "="; Star space_c; word "measure"; plus space_c;
       Cap 2 (plus word_c);
       opt (Cap 3 (cat [lit "["; Cap 4 (plus digit_c); lit "]"]))].

(** ** The profile *)

Record CircuitProfile := mkProfile {
  PQubits : Z; OneQubitGates : Z; TwoQubitGates : Z; MeasuredQubits : Z }.

Definition oneQubitGates : list string :=
  ["id"; "x"; "y"; "z"; "h"; "s"; "sdg"; "t"; "tdg"; "sx"; "sxdg"; "rx"; "ry"; "rz"; "p"; "u";
   "u1"; "u2"; "u3"; "reset"].

Definition twoQubitGates : list string :=
  ["cx"; "cy"; "cz"; "ch"; "cp"; "swap"; "crx"; "cry"; "crz"; "cu"; "cu1"; "cu3"; "rxx"; "ryy";
   "rzz"; "rzx"; "ecr"; "iswap"; "dcx"; "csx"].

(** Decompositions into the one- and two-qubit basis. *)
Definition threeQubitDecomp (name : string) : option (Z * Z) :=
  if String.eqb name "ccx" then Some (9, 6)
  else if String.eqb name "ccz" then Some (9, 6)
  else if String.eqb name "cswap" then Some (11, 8)
  else None.

Inductive profile_error :=
| UnsupportedStatement (line : Z) (name : string)
| CannotProfile (line : Z) (text : string).

Record scan := mkScan { profile : CircuitProfile; registers : gmap string Z }.

Definition scan0 : scan := mkScan (mkProfile 0 0 0 0) ∅.

Definition add_gates (s : scan) (one two : Z) : scan :=
  let p := s.(profile) in
  mkScan (mkProfile p.(PQubits) (p.(OneQubitGates) + one) (p.(TwoQubitGates) + two) p.(MeasuredQubits))
         s.(registers).

Definition add_measured (s : scan) (n : Z) : scan :=
  let p := s.(profile) in
  mkScan (mkProfile p.(PQubits) p.(OneQubitGates) p.(TwoQubitGates) (wrap64 (p.(MeasuredQubits) + n)))
         s.(registers).

(** [n, _ := strconv.Atoi(size)] on a run of digits: out of range yields the
    largest int. *)
Definition atoi_clamped (s : string) : Z :=
  match parse_uint s with Some n => Z.min n int64_max | None => 0 end.

Definition first_of (l : list string) : string := default "" (head l).

Definition add_register (s : scan) (line size : string) : scan :=
  let n := atoi_clamped size in
  let name := default "" (List.last (Some <$> fields (trim_suffix line ";")) None) in
  let name := first_of (split name "[") in
  let p := s.(profile) in
  mkScan (mkProfile (wrap64 (p.(PQubits) + n)) p.(OneQubitGates) p.(TwoQubitGates) p.(MeasuredQubits))
         (<[name := n]> s.(registers)).

Definition register_size (s : scan) (name : string) : Z := default 0 (s.(registers) !! name).

Definition skipped (line : string) : bool :=
  has_prefix line "OPENQASM" || has_prefix line "include" || has_prefix line "bit"
  || has_prefix line "creg" || has_prefix line "barrier".

(** The gate statement: a name of one of the three tables. *)
Definition gate_statement (lineNo : Z) (s : scan) (name : string) : result profile_error scan :=
  if str_in name oneQubitGates then Ok (add_gates s 1 0)
  else if str_in name twoQubitGates then Ok (add_gates s 0 1)
  else match threeQubitDecomp name with
       | Some (oneQ, twoQ) => Ok (add_gates s oneQ twoQ)
       | None => Err (UnsupportedStatement (lineNo + 1) name)
       end.

(** One round of the loop, on a line without comment and outer blanks. *)
Definition statement (lineNo : Z) (s : scan) (line : string) : result profile_error scan :=
  if String.eqb line "" then Ok s
  else if skipped line then Ok s
  else match find_submatch qubitDeclRe line with
  | Some m => Ok (add_register s line (if String.eqb (group m 1) "" then group m 2 else group m 1))
  | None =>
  match find_submatch measure2Re line with
  | Some m => Ok (add_measured s (if String.eqb (group m 2) "" then register_size s (group m 1) else 1))
  | None =>
  match find_submatch measure3Re line with
  | Some m => Ok (add_measured s (if String.eqb (group m 3) "" then register_size s (group m 2) else 1))
  | None =>
  match find_submatch gateCallRe line with
  | Some m => gate_statement lineNo s (group m 1)
  | None => Err (CannotProfile (lineNo + 1) line)
  end end end end.

Definition clean_line (raw : string) : string :=
  let line := trim_space raw in
  match before_comment line with
  | Some l => trim_space l
  | None => line
  end.

Fixpoint scan_lines (lineNo : Z) (s : scan) (lines : list string) : result profile_error scan :=
  match lines with
  | [] => Ok s
  | raw :: rest =>
      let? s' := statement lineNo s (clean_line raw) in
      scan_lines (lineNo + 1) s' rest
  end.

Definition newline : ascii := "010".

Definition ProfileQASM (src : string) : result profile_error CircuitProfile :=
  let? s := scan_lines 0 scan0 (split src newline) in
  let p := s.(profile) in
  Ok (if p.(PQubits) <? p.(MeasuredQubits)
      then mkProfile p.(PQubits) p.(OneQubitGates) p.(TwoQubitGates) p.(PQubits)
      else p).

(** ** The scan on concrete programs *)

Definition lines (l : list string) : string := join l (String newline "").

Example profile_bell_qasm3 :
  ProfileQASM (lines ["OPENQASM 3.0;"; "include 'stdgates.inc';"; "qubit[2] q;"; "bit[2] c;";
                      "  h q[0]; // superpose"; "cx q[0], q[1];"; "c = measure q;"])
  = Ok (mkProfile 2 1 1 2).
Proof. vm_compute. reflexivity. Qed.

Example profile_qasm2 :
  ProfileQASM (lines ["OPENQASM 2.0;"; "qreg q[3];"; "creg c[3];"; "rx(0.5 * 3.14) q[0];";
                      "ccx q[0],q[1],q[2];"; "measure q[0] -> c[0];"; "measure q -> c;"])
  = Ok (mkProfile 3 10 6 3).
Proof. vm_compute. reflexivity. Qed.

Example profile_control_flow :
  ProfileQASM (lines ["qubit[1] q;"; "if (c == 1) { x q[0]; }"])
  = Err (UnsupportedStatement 2 "if").
Proof. vm_compute. reflexivity. Qed.

(** ** Bounds *)

(** Gate counts grow by at most one decomposition per line. *)
Definition gates_within (n : Z) (s s' : scan) : Prop :=
  0 <= s'.(profile).(OneQubitGates) - s.(profile).(OneQubitGates) <= 11 * n /\
  0 <= s'.(profile).(TwoQubitGates) - s.(profile).(TwoQubitGates) <= 8 * n.

Lemma gate_statement_within lineNo s name s' :
  gate_statement lineNo s name = Ok s' -> gates_within 1 s s'.
Proof.
  unfold gate_statement, threeQubitDecomp. intros H.
  repeat case_match; simplify_eq; unfold gates_within; simpl; lia.
Qed.

Lemma statement_within lineNo s line s' : statement lineNo s line = Ok s' -> gates_within 1 s s'.
Proof.
  unfold statement. intros H.
  repeat case_match; simplify_eq; try (unfold gates_within; simpl; lia).
  by eapply gate_statement_within.
Qed.

Lemma scan_lines_within ls lineNo s s' :
  scan_lines lineNo s ls = Ok s' -> gates_within (Z.of_nat (length ls)) s s'.
Proof.
  revert lineNo s. induction ls as [|raw ls IH]; intros lineNo s; simpl.
  - intros [= <-]. unfold gates_within. simpl. lia.
  - destruct (statement _ _ _) as [s1|] eqn:E; [|done]. simpl. intros H.
    apply statement_within in E. apply IH in H. unfold gates_within in *. lia.
Qed.

(** A profile never claims more measured qubits than the program
    declares, and its gate counts are non-negative and at most one
    three-qubit decomposition (11 and 8) per source line; so the counters
    cannot overflow on any program that fits in memory. *)
Lemma ProfileQASM_bounds src p :
  ProfileQASM src = Ok p ->
  p.(MeasuredQubits) <= p.(PQubits) /\
  0 <= p.(OneQubitGates) <= 11 * Z.of_nat (length (split src newline)) /\
  0 <= p.(TwoQubitGates) <= 8 * Z.of_nat (length (split src newline)).
Proof.
  unfold ProfileQASM. destruct (scan_lines _ _ _) as [s|] eqn:E; [|done]. simpl.
  apply scan_lines_within in E. unfold gates_within in E. simpl in E.
  destruct (Z.ltb_spec s.(profile).(PQubits) s.(profile).(MeasuredQubits)); intros [= <-]; simpl; lia.
Qed.

Lemma ProfileQASM_bounds_witness :
  exists p, ProfileQASM (lines ["qubit[2] q;"; "h q[0];"; "c = measure q;"; "c[0] = measure q[0];"]) = Ok p
    /\ p.(MeasuredQubits) <= p.(PQubits).
Proof.
  eexists. split; [vm_compute; reflexivity|].
  refine (proj1 (ProfileQASM_bounds
    (lines ["qubit[2] q;"; "h q[0];"; "c = measure q;"; "c[0] = measure q[0];"]) _ _)).
  vm_compute. reflexivity.
Defined.

