(* ===== verification/Views.v ===== *)
(** * What the scheduler sees — src/internal/scheduler/views.go

    Snapshots of the fleet targets, calibration aggregates, and the parsed
    view of a QuantumJob document. *)

From S2P Require Import Prelude Float64 GoLib Qasm.

(** ** Targets *)

Record Metric := mkMetric { MName : string; MValue : float64; MQubits : list Z }.

Record Window := mkWindow { WStart : Z; WEnd : Z }.

Record TargetView := mkTargetView {
  TName : string; Modality : string; TTechnology : string; TQubits : Z; Formats : list string;
  MaxShots : Z; Billing : list string; Online : bool; Cloud : bool;
  SnapshotID : string; MeasuredAt : Z; Metrics : list Metric; QueueDepth : Z;
  WaitSeconds : float64; Maintenance : list Window; Nominal2QError : float64 }.

(** [aggregateValues]: the best, worst or (lower) median of the values. *)
Definition aggregateValues (values : list float64) (aggregate : string) : option float64 :=
  if bool_decide (length values = 0%nat) then None
  else let s := sort_float64s values in
       if String.eqb aggregate "worst" then s !! (length s - 1)%nat
       else if String.eqb aggregate "median" then s !! ((length s - 1) / 2)%nat
       else s !! 0%nat.

(** The loop that collects the values of the metrics with a matching name. *)
Definition metric_values (t : TargetView) (sel : string -> bool) : list float64 :=
  MValue <$> List.filter (fun m => sel m.(MName)) t.(Metrics).

Definition is_2q_error (name : string) : bool :=
  has_prefix name "gate.2q." && has_suffix name ".error".

Definition MetricAggregate (t : TargetView) (name aggregate : string) : option float64 :=
  aggregateValues (metric_values t (fun n => String.eqb n name)) aggregate.

Definition TwoQubitErrorAggregate (t : TargetView) (aggregate : string) : option float64 :=
  aggregateValues (metric_values t is_2q_error) aggregate.

Definition MinMetric (t : TargetView) (name : string) : option float64 :=
  MetricAggregate t name "best".

Definition MinTwoQubitError (t : TargetView) : option float64 := TwoQubitErrorAggregate t "best".

(** Windows are closed on the left and open on the right. *)
Definition InMaintenance (t : TargetView) (now : Z) : bool :=
  existsb (fun w => negb (now <? w.(WStart)) && (now <? w.(WEnd))) t.(Maintenance).

(** ** Jobs *)

Record JobView := mkJobView {
  JVID : string; JVTenant : string; Kind : string; Format : string; Shots : Z;
  JQubits : Z; Technology : list string; TwoQubitErrorMax : float64; ReadoutErrorMax : float64;
  CalibrationMaxAge : Z; Aggregate : string; OnConflict : string;
  Deadline : Z; BudgetUnits : list string; SessionJoin : string; SessionMaxDuration : Z;
  PreferOnPrem : bool; AllowCloudBurst : list string; DenyTargets : list string;
  RequireTargets : list string; Profile : option CircuitProfile }.

Definition HasQualityFloor (j : JobView) : bool :=
  fgt j.(TwoQubitErrorMax) f0 || fgt j.(ReadoutErrorMax) f0.

Definition stringList (v : option any) : list string :=
  omap (fun x => as_str (Some x)) (arr_or_nil v).

Inductive parse_error :=
| NoSpec
| BadCalibrationMaxAge (raw : string)
| BadMaxDuration (raw : string)
| BadDeadline (raw : string).

Definition payloadField (kind : string) : string :=
  if String.eqb kind "gate-model" then "gateModel"
  else if String.eqb kind "analog-hamiltonian" then "analogHamiltonian"
  else if String.eqb kind "annealing" then "annealing"
  else if String.eqb kind "pulse" then "pulse"
  else if String.eqb kind "logical" then "logical"
  else "".

(** The profile of an inline gate-model program; any failure leaves it nil. *)
Definition inline_profile (kind : string) (program : doc) : option CircuitProfile :=
  match as_str (program !! "inline") with
  | Some inline =>
      if String.eqb kind "gate-model" then
        match base64_decode inline with
        | Some raw => match ProfileQASM raw with Ok p => Some p | Err _ => None end
        | None => None
        end
      else None
  | None => None
  end.

(** Format, shots and profile of the workload payload. *)
Definition parse_payload (kind : string) (workload : doc) : string * Z * option CircuitProfile :=
  match as_obj (workload !! payloadField kind) with
  | None => ("", 0, None)
  | Some payload =>
      let shots := match as_num (payload !! "shots") with Some s => f_to_uint 64 s | None => 0 end in
      match as_obj (payload !! "program") with
      | None => ("", shots, None)
      | Some program => (str_or_empty (program !! "format"), shots, inline_profile kind program)
      end
  end.

(** A Go duration or the zero value when the field is absent. *)
Definition optional_duration (v : option any) (err : string -> parse_error) : result parse_error Z :=
  match as_str v with
  | None => Ok 0
  | Some raw => match parse_duration raw with Some d => Ok d | None => Err (err raw) end
  end.

(** [if s == "" { s = fallback }]. *)
Definition or_default (s fallback : string) : string := if String.eqb s "" then fallback else s.

(** [ParseJob].  Nested objects that are absent behave like empty ones. *)
Definition ParseJob (id tenant : string) (d : doc) : result parse_error JobView :=
  match as_obj (d !! "spec") with
  | None => Err NoSpec
  | Some spec =>
      let workload := obj_or_nil (spec !! "workload") in
      let kind := str_or_empty (workload !! "kind") in
      let '(format, shots, prof) := parse_payload kind workload in
      let req := obj_or_nil (spec !! "requirements") in
      let qubits := match as_num (req !! "qubits") with Some q => f_to_uint 32 q | None => 0 end in
      let gm := obj_or_nil (obj_or_nil (req !! "quality") !! "gateModel") in
      let? maxAge := optional_duration (gm !! "calibrationMaxAge") BadCalibrationMaxAge in
      let sess := obj_or_nil (spec !! "session") in
      let? maxDuration := optional_duration (sess !! "maxDuration") BadMaxDuration in
      let sched := obj_or_nil (spec !! "scheduling") in
      let? deadline :=
        match as_str (spec !! "deadline") with
        | None => Ok time_zero
        | Some raw => match parse_rfc3339 raw with Some t => Ok t | None => Err (BadDeadline raw) end
        end in
      let limits := obj_or_nil (obj_or_nil (spec !! "budget") !! "limits") in
      let sel := obj_or_nil (spec !! "backendSelector") in
      Ok (mkJobView id tenant kind format shots qubits
            (stringList (req !! "technology"))
            (default f0 (as_num (gm !! "twoQubitErrorMax")))
            (default f0 (as_num (gm !! "readoutErrorMax")))
            maxAge
            (or_default (str_or_empty (gm !! "aggregate")) "best")
            (or_default (str_or_empty (sched !! "onConflict")) "prefer-quality")
            deadline
            (sort_strings (fst <$> map_to_list limits))
            (str_or_empty (sess !! "join")) maxDuration
            (default false (as_bool (sel !! "preferOnPrem")))
            (stringList (sel !! "allowCloudBurst"))
            (stringList (sel !! "denyTargets"))
            (stringList (sel !! "requireTargets"))
            prof)
  end.

(** ** Aggregates *)

Lemma sorted_lookup_le {A} (R : A -> A -> Prop) l i j x y :
  StronglySorted R l -> (i < j)%nat -> l !! i = Some x -> l !! j = Some y -> R x y.
Proof.
  intros Hs. revert i j. induction Hs as [|a l Hs IH Hf]; intros i j Hij Hi Hj; [done|].
  destruct j as [|j]; [lia|]. destruct i as [|i]; simpl in *.
  - injection Hi as <-. rewrite Forall_forall in Hf. apply Hf. by eapply list_elem_of_lookup_2.
  - eapply (IH i j); eauto. lia.
Qed.

Lemma sort_float64s_lookup_le l i j x y :
  (i <= j)%nat -> sort_float64s l !! i = Some x -> sort_float64s l !! j = Some y ->
  float_less y x = false.
Proof.
  intros Hij Hi Hj. destruct (decide (i = j)) as [->|].
  - rewrite Hi in Hj. injection Hj as <-. apply float_less_irrefl.
  - eapply (sorted_lookup_le (not_after float_less)); [apply sort_float64s_sorted| |done|done]. lia.
Qed.

(** The aggregate is one of the values, and there is one iff there are values. *)
Lemma aggregateValues_some l agg : l <> [] -> exists v, aggregateValues l agg = Some v /\ v ∈ l.
Proof.
  intros Hl. unfold aggregateValues. rewrite bool_decide_eq_false_2 by (by destruct l).
  set (s := sort_float64s l). assert (Hn : (0 < length s)%nat).
  { unfold s, sort_float64s. rewrite sort_by_length. destruct l; [done|simpl; lia]. }
  assert (G : forall i, (i < length s)%nat -> exists v, s !! i = Some v /\ v ∈ l).
  { intros i Hi. destruct (lookup_lt_is_Some_2 s i Hi) as [v Hv]. exists v. split; [done|].
    rewrite <- (sort_float64s_perm l). by eapply list_elem_of_lookup_2. }
  repeat case_match; apply G; [lia| |lia].
  apply Nat.Div0.div_lt_upper_bound. lia.
Qed.

Lemma aggregateValues_none l agg : aggregateValues l agg = None <-> l = [].
Proof.
  split; [|by intros ->]. intros H. destruct l as [|x l]; [done|].
  destruct (aggregateValues_some (x :: l) agg) as (v & Hv & _); [done|]. congruence.
Qed.
