(* ===== verification/Filter.v ===== *)
(** * Feasibility — src/internal/scheduler/filter.go

    The requirement dimensions, in the order the code tests them, with the
    rejection reasons it prints.  The empty string means feasible. *)

From S2P Require Import Prelude Float64 GoLib Qasm Views.

Record Rejection := mkRejection { RTarget : string; RReason : string }.

(** [qualityFloors] against the current calibration snapshot. *)
Definition qualityFloors (j : JobView) (t : TargetView) (now : Z) : string :=
  let agg := or_default j.(Aggregate) "best" in
  let two_qubit :=
    if fgt j.(TwoQubitErrorMax) f0 then
      match TwoQubitErrorAggregate t agg with
      | None => "no two-qubit error metric in calibration snapshot"
      | Some v =>
          if fgt v j.(TwoQubitErrorMax)
          then agg +:+ " two-qubit error " +:+ fmt_g 4 v +:+ " exceeds floor "
                   +:+ fmt_g 4 j.(TwoQubitErrorMax)
          else ""
      end
    else "" in
  if negb (String.eqb two_qubit "") then two_qubit else
  let readout :=
    if fgt j.(ReadoutErrorMax) f0 then
      match MetricAggregate t "readout.error" agg with
      | None => "no readout error metric in calibration snapshot"
      | Some v =>
          if fgt v j.(ReadoutErrorMax)
          then agg +:+ " readout error " +:+ fmt_g 4 v +:+ " exceeds floor "
                   +:+ fmt_g 4 j.(ReadoutErrorMax)
          else ""
      end
    else "" in
  if negb (String.eqb readout "") then readout else
  if 0 <? j.(CalibrationMaxAge) then
    let age := time_sub now t.(MeasuredAt) in
    if is_zero t.(MeasuredAt) || (j.(CalibrationMaxAge) <? age)
    then "calibration age " +:+ dur_string (dur_truncate age minute)
           +:+ " exceeds calibrationMaxAge " +:+ dur_string j.(CalibrationMaxAge)
    else ""
  else "".

(** The loop over [BudgetUnits]: the first unit the target does not meter. *)
Definition unmetered (j : JobView) (t : TargetView) : option string :=
  List.find (fun u => negb (str_in u t.(Billing))) j.(BudgetUnits).

Definition nonempty {A} (l : list A) : bool := match l with [] => false | _ => true end.

Definition filterTarget (j : JobView) (t : TargetView) (now : Z) (quality : bool) : string :=
  if negb t.(Online) then "target not online"
  else if InMaintenance t now then "in maintenance window"
  else if negb (String.eqb t.(Modality) j.(Kind)) then
    "modality " +:+ t.(Modality) +:+ " does not match workload kind " +:+ j.(Kind)
  else if negb (String.eqb j.(Format) "") && negb (str_in j.(Format) t.(Formats)) then
    "program format " +:+ j.(Format) +:+ " not supported (offers: " +:+ join t.(Formats) ", " +:+ ")"
  else if (0 <? j.(JQubits)) && (t.(TQubits) <? j.(JQubits)) then
    "requires " +:+ itoa j.(JQubits) +:+ " qubits, target has " +:+ itoa t.(TQubits)
  else if (0 <? j.(Shots)) && (0 <? t.(MaxShots)) && (t.(MaxShots) <? j.(Shots)) then
    "requires " +:+ itoa j.(Shots) +:+ " shots, target caps at " +:+ itoa t.(MaxShots)
  else if nonempty j.(Technology) && negb (str_in t.(TTechnology) j.(Technology)) then
    "technology " +:+ t.(TTechnology) +:+ " not in required set [" +:+ join j.(Technology) ", " +:+ "]"
  else
    let reason := if quality then qualityFloors j t now else "" in
    if negb (String.eqb reason "") then reason
    else if str_in t.(TName) j.(DenyTargets) then "excluded by backendSelector.denyTargets"
    else if nonempty j.(RequireTargets) && negb (str_in t.(TName) j.(RequireTargets)) then
      "not in backendSelector.requireTargets"
    else if t.(Cloud) && negb (str_in t.(TName) j.(AllowCloudBurst)) then
      "cloud target not in backendSelector.allowCloudBurst"
    else match unmetered j t with
         | Some u => "budget limit unit " +:+ u +:+ " not metered by target (bills: "
                       +:+ join t.(Billing) ", " +:+ ")"
         | None => ""
         end.

Definition FilterTarget (j : JobView) (t : TargetView) (now : Z) : string :=
  filterTarget j t now true.

Definition FilterCapabilityOnly (j : JobView) (t : TargetView) (now : Z) : string :=
  filterTarget j t now false.

(** ** What feasibility means

    The declarative reading of the requirement dimensions. *)

Record capable (j : JobView) (t : TargetView) (now : Z) : Prop := mkCapable {
  cap_online : t.(Online) = true;
  cap_window : forall w, w ∈ t.(Maintenance) -> ~ (w.(WStart) <= now < w.(WEnd));
  cap_modality : t.(Modality) = j.(Kind);
  cap_format : j.(Format) = "" \/ j.(Format) ∈ t.(Formats);
  cap_qubits : j.(JQubits) <= 0 \/ j.(JQubits) <= t.(TQubits);
  cap_shots : j.(Shots) <= 0 \/ t.(MaxShots) <= 0 \/ j.(Shots) <= t.(MaxShots);
  cap_technology : j.(Technology) = [] \/ t.(TTechnology) ∈ j.(Technology) }.

Record selected (j : JobView) (t : TargetView) : Prop := mkSelected {
  sel_deny : t.(TName) ∉ j.(DenyTargets);
  sel_require : j.(RequireTargets) = [] \/ t.(TName) ∈ j.(RequireTargets);
  sel_cloud : t.(Cloud) = false \/ t.(TName) ∈ j.(AllowCloudBurst);
  sel_metered : forall u, u ∈ j.(BudgetUnits) -> u ∈ t.(Billing) }.

Record within_floors (j : JobView) (t : TargetView) (now : Z) : Prop := mkWithin {
  floor_2q : fgt j.(TwoQubitErrorMax) f0 = true ->
    exists v, TwoQubitErrorAggregate t (or_default j.(Aggregate) "best") = Some v
              /\ fgt v j.(TwoQubitErrorMax) = false;
  floor_readout : fgt j.(ReadoutErrorMax) f0 = true ->
    exists v, MetricAggregate t "readout.error" (or_default j.(Aggregate) "best") = Some v
              /\ fgt v j.(ReadoutErrorMax) = false;
  floor_age : 0 < j.(CalibrationMaxAge) ->
    t.(MeasuredAt) <> time_zero /\ time_sub now t.(MeasuredAt) <= j.(CalibrationMaxAge) }.

(** *** Each test of the code decides its clause *)

Lemma InMaintenance_spec t now :
  InMaintenance t now = false <-> forall w, w ∈ t.(Maintenance) -> ~ (w.(WStart) <= now < w.(WEnd)).
Proof.
  unfold InMaintenance. split.
  - intros H w Hw Hin. apply not_true_iff_false in H. apply H, existsb_exists. exists w.
    split; [by apply list_elem_of_In|]. apply andb_true_iff. rewrite negb_true_iff, Z.ltb_ge, Z.ltb_lt. lia.
  - intros H. apply not_true_iff_false. intros (w & Hw & Hb)%existsb_exists. to_prop.
    apply (H w); [by apply list_elem_of_In|lia].
Qed.

Lemma unmetered_spec j t :
  unmetered j t = None <-> forall u, u ∈ j.(BudgetUnits) -> u ∈ t.(Billing).
Proof.
  unfold unmetered. split.
  - intros H u Hu%list_elem_of_In. pose proof (List.find_none _ _ H u Hu) as E. simpl in E.
    to_prop. by apply str_in_elem.
  - intros H. destruct (List.find _ _) as [u|] eqn:E; [|done]. exfalso.
    apply List.find_some in E as [Hu E]. apply list_elem_of_In in Hu. to_prop.
    apply H, str_in_elem in Hu. congruence.
Qed.

Lemma str_in_false x l : str_in x l = false <-> x ∉ l.
Proof. rewrite <- not_true_iff_false, str_in_elem. done. Qed.

Lemma nonempty_false {A} (l : list A) : nonempty l = false <-> l = [].
Proof. by destruct l. Qed.

Lemma app_nonempty a c b : String.eqb (a +:+ String c b) "" = false.
Proof. by destruct a. Qed.

(** A guarded rejection lets the target through iff its test fails. *)
Lemma guard_empty (b : bool) c r k :
  (if b then String c r else k) = "" <-> b = false /\ k = "".
Proof. destruct b; split; [done|by intros []|done|by intros []]. Qed.

Lemma guard_reason (b : bool) r k :
  r <> "" -> (if b then r else k) = "" <-> b = false /\ k = "".
Proof. intros. destruct b; split; [done|by intros []|done|by intros []]. Qed.

Lemma andb_false_or (a b : bool) : a && b = false <-> a = false \/ b = false.
Proof. destruct a, b; simpl; intuition congruence. Qed.

Lemma string_guard x k : (if negb (String.eqb x "") then x else k) = "" <-> x = "" /\ k = "".
Proof.
  destruct (String.eqb_spec x ""); simpl; split; try done; try (by intros []).
Qed.

Lemma floor_clause (b : bool) (o : option float64) (lim : float64) (c : ascii) (no : string)
    (msg : float64 -> string) :
  (forall v, msg v <> "") ->
  (if b then match o with
             | None => String c no
             | Some v => if fgt v lim then msg v else ""
             end else "") = ""
  <-> (b = true -> exists v, o = Some v /\ fgt v lim = false).
Proof.
  intros Hm. destruct b; [|done]. destruct o as [v|].
  - destruct (fgt v lim) eqn:E; split; try done.
    + by intros ?%Hm.
    + intros (v' & [= ->] & H)%(fun f => f eq_refl). congruence.
    + intros _ _. by exists v.
  - split; [done|]. by intros (v & ? & _)%(fun f => f eq_refl).
Qed.

Lemma append_nonempty a c b : a +:+ String c b <> "".
Proof. by destruct a. Qed.

Lemma qualityFloors_spec j t now : qualityFloors j t now = "" <-> within_floors j t now.
Proof.
  unfold qualityFloors. rewrite !string_guard, !floor_clause by (intros; apply append_nonempty).
  split.
  - intros (H1 & H2 & H3). constructor; [done|done|]. intros Ha.
    destruct (Z.ltb_spec 0 j.(CalibrationMaxAge)); [|lia].
    apply (guard_empty _ _ _ "") in H3 as [H3 _]. unfold is_zero in H3. to_prop. split; [done|lia].
  - intros [H1 H2 H3]. split_and!; [done|done|].
    destruct (Z.ltb_spec 0 j.(CalibrationMaxAge)) as [Ha|]; [|done].
    apply (guard_empty _ _ _ ""). split; [|done]. destruct (H3 Ha) as [Hz Hle].
    apply orb_false_iff. unfold is_zero, time_zero in *. split; [by apply Z.eqb_neq|by apply Z.ltb_ge].
Qed.

Lemma capability_spec j t now :
  capable j t now <->
  negb t.(Online) = false /\ InMaintenance t now = false /\
  negb (String.eqb t.(Modality) j.(Kind)) = false /\
  negb (String.eqb j.(Format) "") && negb (str_in j.(Format) t.(Formats)) = false /\
  (0 <? j.(JQubits)) && (t.(TQubits) <? j.(JQubits)) = false /\
  (0 <? j.(Shots)) && (0 <? t.(MaxShots)) && (t.(MaxShots) <? j.(Shots)) = false /\
  nonempty j.(Technology) && negb (str_in t.(TTechnology) j.(Technology)) = false.
Proof.
  rewrite InMaintenance_spec, !andb_false_or, !negb_false_iff, !str_in_elem, !String.eqb_eq,
    !Z.ltb_ge, nonempty_false. split.
  - intros []. split_and!; tauto.
  - intros (?&?&?&?&?&?&?). constructor; tauto.
Qed.

Lemma selector_spec j t :
  selected j t <->
  str_in t.(TName) j.(DenyTargets) = false /\
  nonempty j.(RequireTargets) && negb (str_in t.(TName) j.(RequireTargets)) = false /\
  t.(Cloud) && negb (str_in t.(TName) j.(AllowCloudBurst)) = false /\
  unmetered j t = None.
Proof.
  rewrite unmetered_spec, !andb_false_or, !negb_false_iff, str_in_false, !str_in_elem, nonempty_false.
  split; [intros []; tauto|]. intros (?&?&?&?). by constructor.
Qed.

Lemma filterTarget_spec j t now quality :
  filterTarget j t now quality = "" <->
  capable j t now /\ (quality = true -> within_floors j t now) /\ selected j t.
Proof.
  unfold filterTarget. cbv zeta.
  rewrite capability_spec, selector_spec. do 7 rewrite guard_reason by (cbn; discriminate).
  assert (Q : (if quality then qualityFloors j t now else "") = ""
              <-> (quality = true -> within_floors j t now)).
  { destruct quality; [rewrite qualityFloors_spec; tauto|done]. }
  assert (U : match unmetered j t with
              | Some u => "budget limit unit " +:+ u +:+ " not metered by target (bills: "
                            +:+ join t.(Billing) ", " +:+ ")"
              | None => ""
              end = "" <-> unmetered j t = None) by (by destruct (unmetered j t)).
  rewrite string_guard, Q. do 3 rewrite guard_reason by (cbn; discriminate). rewrite U. tauto.
Qed.

(** (C20) [FilterTarget] accepts exactly the targets that satisfy every
    requirement dimension of the job: online and out of maintenance, matching
    modality, format, width, shots and technology, within the quality floors
    and the calibration age, and admitted by the backend selector with every
    budget unit metered. *)
Theorem FilterTarget_spec j t now :
  FilterTarget j t now = "" <-> capable j t now /\ within_floors j t now /\ selected j t.
Proof. unfold FilterTarget. rewrite filterTarget_spec. tauto. Qed.

(** The baseline filter is weaker by exactly the calibration-derived
    dimensions: it accepts a target iff capability and selector accept it. *)
Lemma FilterCapabilityOnly_spec j t now :
  (FilterCapabilityOnly j t now = "" <-> capable j t now /\ selected j t) /\
  (FilterTarget j t now = "" <-> FilterCapabilityOnly j t now = "" /\ within_floors j t now).
Proof. unfold FilterCapabilityOnly, FilterTarget. rewrite !filterTarget_spec. intuition done. Qed.

(** ** Aggregates tighten in order *)

Definition with_aggregate (j : JobView) (agg : string) : JobView :=
  mkJobView j.(JVID) j.(JVTenant) j.(Kind) j.(Format) j.(Shots) j.(JQubits) j.(Technology)
    j.(TwoQubitErrorMax) j.(ReadoutErrorMax) j.(CalibrationMaxAge) agg j.(OnConflict) j.(Deadline)
    j.(BudgetUnits) j.(SessionJoin) j.(SessionMaxDuration) j.(PreferOnPrem) j.(AllowCloudBurst)
    j.(DenyTargets) j.(RequireTargets) j.(Profile).

Definition no_nan_metrics (t : TargetView) : Prop :=
  forall m, m ∈ t.(Metrics) -> is_nan m.(MValue) = false.

(** Position of the aggregate in the sorted values. *)
Definition agg_index (agg : string) (n : nat) : nat :=
  if String.eqb agg "worst" then (n - 1)%nat
  else if String.eqb agg "median" then ((n - 1) / 2)%nat else 0%nat.

Lemma aggregateValues_index l agg :
  aggregateValues l agg = sort_float64s l !! agg_index agg (length (sort_float64s l)).
Proof.
  unfold aggregateValues, agg_index. destruct l as [|x l].
  - done.
  - rewrite bool_decide_eq_false_2 by done. by repeat case_match.
Qed.

(** A floor met under the later position is met under the earlier one. *)
Lemma aggregate_le l a b v lim :
  (forall x, x ∈ l -> is_nan x = false) -> is_nan lim = false ->
  (forall n, (agg_index a n <= agg_index b n)%nat) ->
  aggregateValues l b = Some v -> fgt v lim = false ->
  exists u, aggregateValues l a = Some u /\ fgt u lim = false.
Proof.
  intros Hn Hlim Hab Hb Hv.
  assert (l <> []) as Hl by (intros ->; done).
  destruct (aggregateValues_some l a Hl) as (u & Hu & Hul). exists u. split; [done|].
  destruct (aggregateValues_some l b Hl) as (v' & Hv' & Hvl). rewrite Hb in Hv'. injection Hv' as <-.
  rewrite aggregateValues_index in Hu, Hb.
  pose proof (sort_float64s_lookup_le l _ _ _ _ (Hab _) Hu Hb) as Hle.
  unfold float_less in Hle. to_prop. rewrite fgt_flt in *.
  eapply (flt_neg_trans lim v u); auto.
Qed.

Lemma metric_values_no_nan t sel x :
  no_nan_metrics t -> x ∈ metric_values t sel -> is_nan x = false.
Proof.
  intros H (m & -> & Hm)%list_elem_of_fmap. apply H.
  apply list_elem_of_In. apply list_elem_of_In in Hm. by apply List.filter_In in Hm as [? _].
Qed.

Lemma fgt_not_nan x y : fgt x y = true -> is_nan x = false.
Proof. destruct x; try done. by destruct y. Qed.

Lemma floors_le j t now a b :
  a <> "" -> b <> "" -> (forall n, (agg_index a n <= agg_index b n)%nat) -> no_nan_metrics t ->
  within_floors (with_aggregate j b) t now -> within_floors (with_aggregate j a) t now.
Proof.
  intros Ha Hb Hab Hn [H1 H2 H3].
  assert (D : forall s, s <> "" -> or_default s "best" = s)
    by (intros s Hs; unfold or_default; by destruct (String.eqb_spec s "")).
  constructor; simpl in *; [| |done]; intros Hf; rewrite D in * by done;
    [destruct (H1 Hf) as (v & Hv & Hle)|destruct (H2 Hf) as (v & Hv & Hle)];
    eapply aggregate_le; eauto using metric_values_no_nan, fgt_not_nan.
Qed.

Lemma agg_median_worst n : (agg_index "median" n <= agg_index "worst" n)%nat.
Proof. unfold agg_index. cbn -[Nat.div Nat.sub]. apply Nat.Div0.div_le_upper_bound. lia. Qed.

Lemma agg_best_median n : (agg_index "best" n <= agg_index "median" n)%nat.
Proof. unfold agg_index. simpl. lia. Qed.

Lemma filter_with_aggregate j t now a b :
  a <> "" -> b <> "" -> (forall n, (agg_index a n <= agg_index b n)%nat) -> no_nan_metrics t ->
  FilterTarget (with_aggregate j b) t now = "" -> FilterTarget (with_aggregate j a) t now = "".
Proof.
  unfold FilterTarget. rewrite !filterTarget_spec. intros Ha Hb Hab Hn (Hc & Hf & Hs).
  split_and!; [by destruct Hc|intros _; eapply floors_le; eauto|by destruct Hs].
Qed.

(** The floor aggregates tighten in the order best, median, worst: a
    target that is feasible under "worst" is feasible under "median", and one
    feasible under "median" is feasible under "best" (calibration values not
    NaN). *)
Lemma aggregates_tighten j t now :
  no_nan_metrics t ->
  (FilterTarget (with_aggregate j "worst") t now = "" ->
   FilterTarget (with_aggregate j "median") t now = "") /\
  (FilterTarget (with_aggregate j "median") t now = "" ->
   FilterTarget (with_aggregate j "best") t now = "").
Proof.
  intros Hn. split; apply filter_with_aggregate; auto using agg_median_worst, agg_best_median.
Qed.

Definition demo_target : TargetView :=
  mkTargetView "site-a/t1" "gate-model" "superconducting" 5 ["openqasm3"] 10000 ["shots"] true false
    "snap-1" (60 * hour)
    [mkMetric "gate.2q.cz.error" (f_lit 1 100) []; mkMetric "gate.2q.cz.error" (f_lit 3 100) [];
     mkMetric "gate.2q.cx.error" (f_lit 2 100) []]
    2 (f_of_Z 30) [] f0.

Definition demo_view : JobView :=
  mkJobView "j1" "acme/chem" "gate-model" "openqasm3" 1000 2 [] (f_lit 3 100) f0 0 "worst"
    "prefer-quality" 0 ["shots"] "" 0 false [] [] [] None.

Lemma aggregates_tighten_witness :
  FilterTarget (with_aggregate demo_view "worst") demo_target (61 * hour) = "" /\
  FilterTarget (with_aggregate demo_view "median") demo_target (61 * hour) = "".
Proof.
  split; [vm_compute; reflexivity|].
  refine (proj1 (aggregates_tighten demo_view demo_target (61 * hour) _) _).
  - intros m. cbn [Metrics demo_target]. rewrite !elem_of_cons, elem_of_nil. intros [->|[->|[->|[]]]]; vm_compute; reflexivity.
  - vm_compute. reflexivity.
Defined.

(** The median floor rejects what the best floor accepts, with the reason the
    code prints. *)
Example tightened_reason :
  FilterTarget (with_aggregate
    (mkJobView "j1" "acme/chem" "gate-model" "" 0 2 [] (f_lit 15 1000) f0 0 "" "" 0 [] "" 0 false [] [] [] None)
    "median") demo_target (61 * hour)
  = "median two-qubit error 0.02 exceeds floor 0.015".
Proof. vm_compute. reflexivity. Qed.
