(* ===== verification/Policies.v ===== *)
(** * Scoring — src/internal/scheduler/{esp,policies,absorbed}.go

    The estimated success probability and the scoring functions of the six
    policies, on float64 values.  [math.Exp] is an argument of the
    one policy that calls it: its kernel is assembly on the platforms the
    program ships for. *)

From S2P Require Import Prelude Float64 GoLib Qasm Views.

(** ** esp.go *)

Definition defaultOneQubitError : float64 := f_lit 1 100.
Definition defaultTwoQubitError : float64 := f_lit 5 100.
Definition defaultReadoutError : float64 := f_lit 5 100.

(** [metricValues] is the collection loop of the views. *)
Definition metricValues (t : TargetView) (sel : string -> bool) : list float64 := metric_values t sel.

Definition maxInt (a b : Z) : Z := if b <? a then a else b.

(** The loop of [meanBestK]: the [k] smallest, missing ones replaced. *)
Fixpoint sum_best (k : nat) (values : list float64) (fallback acc : float64) : float64 :=
  match k with
  | O => acc
  | S k' => match values with
            | v :: rest => sum_best k' rest fallback (fadd acc v)
            | [] => sum_best k' [] fallback (fadd acc fallback)
            end
  end.

Definition meanBestK (values : list float64) (k : Z) (fallback : float64) : float64 :=
  fdiv (sum_best (Z.to_nat k) (sort_float64s values) fallback f0) (f_of_Z k).

Fixpoint readout_product (k : nat) (ro : list float64) (esp : float64) : float64 :=
  match k with
  | O => esp
  | S k' => match ro with
            | r :: rest => readout_product k' rest (fmul esp (fsub f1 r))
            | [] => readout_product k' [] (fmul esp (fsub f1 defaultReadoutError))
            end
  end.

Definition ESP (p : CircuitProfile) (t : TargetView) : float64 :=
  let esp := f1 in
  let esp :=
    if 0 <? p.(OneQubitGates) then
      let e1 := meanBestK (metricValues t (fun n => String.eqb n "gate.1q.error"))
                          (maxInt p.(PQubits) 1) defaultOneQubitError in
      fmul esp (math_pow_int (fsub f1 e1) p.(OneQubitGates))
    else esp in
  let esp :=
    if 0 <? p.(TwoQubitGates) then
      let edges := maxInt (p.(PQubits) - 1) 1 in
      let e2 := meanBestK (metricValues t is_2q_error) edges defaultTwoQubitError in
      fmul esp (math_pow_int (fsub f1 e2) p.(TwoQubitGates))
    else esp in
  if 0 <? p.(MeasuredQubits) then
    readout_product (Z.to_nat p.(MeasuredQubits))
      (sort_float64s (metricValues t (fun n => String.eqb n "readout.error"))) esp
  else esp.

(** ** policies.go *)

(** A GHZ-like circuit over the required qubits when there is no profile. *)
Definition profileFor (j : JobView) : CircuitProfile :=
  match j.(Profile) with
  | Some p => p
  | None =>
      let width := if j.(JQubits) =? 0 then 2 else j.(JQubits) in
      mkProfile width width (width - 1) width
  end.

Definition PredictedESP (j : JobView) (t : TargetView) : float64 := ESP (profileFor j) t.

Definition staticBest_Score (t : TargetView) : float64 :=
  if fgt t.(Nominal2QError) f0 then fopp t.(Nominal2QError) else f_of_Z (-1).

(** [roundRobinPolicy.ScoreSet]: one at position [counter mod n], and the
    advanced counter (a uint64). *)
Definition roundRobin_ScoreSet (counter : Z) (feasible : list TargetView) : list float64 * Z :=
  let scores := replicate (length feasible) f0 in
  if bool_decide (length feasible = 0%nat) then (scores, counter)
  else
    let counter' := (counter + 1) mod 2 ^ 64 in
    let pick := ((counter' - 1) mod 2 ^ 64) mod Z.of_nat (length feasible) in
    (<[Z.to_nat pick := f1]> scores, counter').

Definition Weights (j : JobView) : float64 * float64 * float64 :=
  let deadline := negb (is_zero j.(Deadline)) in
  let floor := HasQualityFloor j in
  if deadline && floor then (f_lit 55 100, f_lit 35 100, f_lit 10 100)
  else if deadline then (f_lit 45 100, f_lit 45 100, f_lit 10 100)
  else if floor then (f_lit 75 100, f_lit 15 100, f_lit 10 100)
  else (f_lit 60 100, f_lit 25 100, f_lit 15 100).

Definition calibAware_Score (j : JobView) (t : TargetView) : float64 :=
  let '(wq, wt, _) := Weights j in
  let esp := ESP (profileFor j) t in
  let waitNorm := fdiv t.(WaitSeconds) (fadd t.(WaitSeconds) (f_of_Z 60)) in
  fsub (fmul wq esp) (fmul wt waitNorm).

(** ** absorbed.go *)

Definition dominates (f1 s1 f2 s2 : float64) : bool :=
  fge f1 f2 && fge s1 s2 && (fgt f1 f2 || fgt s1 s2).

(** Loop state of the sort: [dominatedCount], [front] and [next]. *)
Record peeling := mkPeeling { pl_counts : list Z; pl_fronts : list Z; upcoming : list nat }.

Section Fronts.
Context (f s : list float64).

(** [f[i]] and [s[i]]; the loops only use indices below [n]. *)
Definition at_ (l : list float64) (i : nat) : float64 := nth i l f0.

Definition dominates_ix (i k : nat) : bool :=
  dominates (at_ f i) (at_ s i) (at_ f k) (at_ s k).

(** [dominatesList[i]] and the initial [dominatedCount[i]]. *)
Definition dominatesList (i : nat) : list nat :=
  List.filter (fun k => negb (Nat.eqb k i) && dominates_ix i k) (seq 0 (length f)).

Definition dominatedCount (i : nat) : Z :=
  Z.of_nat (length (List.filter
    (fun k => negb (Nat.eqb k i) && negb (dominates_ix i k) && dominates_ix k i) (seq 0 (length f)))).

(** The body of the innermost loop, for one [k]. *)
Definition peel_one (rank : Z) (st : peeling) (k : nat) : peeling :=
  let c := nth k st.(pl_counts) 0 - 1 in
  let counts' := <[k := c]> st.(pl_counts) in
  if c =? 0 then mkPeeling counts' (<[k := rank + 1]> st.(pl_fronts)) (st.(upcoming) ++ [k])
  else mkPeeling counts' st.(pl_fronts) st.(upcoming).

(** [for _, i := range current { for _, k := range dominatesList[i] ... } }]. *)
Definition peel_round (rank : Z) (counts fronts : list Z) (current : list nat) : peeling :=
  fold_left (peel_one rank) (flat_map dominatesList current) (mkPeeling counts fronts []).

(** [for len(current) > 0]; [None] would mean the fuel ran out. *)
Fixpoint peel (fuel : nat) (rank : Z) (counts fronts : list Z) (current : list nat)
  : option (list Z) :=
  match current with
  | [] => Some fronts
  | _ :: _ =>
      match fuel with
      | O => None
      | S fuel' =>
          let st := peel_round rank counts fronts current in
          peel fuel' (rank + 1) st.(pl_counts) st.(pl_fronts) st.(upcoming)
      end
  end.

(** [length f + 1] rounds always suffice, see [fronts_total]. *)
Definition nonDominatedFronts : option (list Z) :=
  let n := length f in
  let counts := dominatedCount <$> seq 0 n in
  let current := List.filter (fun i => dominatedCount i =? 0) (seq 0 n) in
  peel (S n) 0 counts (replicate n 0) current.
End Fronts.

Definition normalize (xs : list float64) : list float64 :=
  match xs with
  | [] => []
  | x :: _ =>
      let lo := fold_left math_min xs x in
      let hi := fold_left math_max xs x in
      if feq hi lo then (fun _ => f1) <$> xs
      else (fun x => fdiv (fsub x lo) (fsub hi lo)) <$> xs
  end.

Definition pareto_ScoreSet (j : JobView) (feasible : list TargetView) : list float64 :=
  match feasible with
  | [] => []
  | _ =>
      let fid := (fun t => ESP (profileFor j) t) <$> feasible in
      let speed := (fun t => fopp t.(WaitSeconds)) <$> feasible in
      let front := default (replicate (length feasible) 0) (nonDominatedFronts fid speed) in
      let score (fr : Z) (x y : float64) :=
        fadd (fopp (f_of_Z fr)) (fdiv (fadd x y) (f_of_Z 4)) in
      zip_with (fun fr xy => score fr xy.1 xy.2) front (zip (normalize fid) (normalize speed))
  end.

Definition defaultCalibrationWindow : Z := 30 * minute.

Definition adaptiveDeferral_Score (math_exp : float64 -> float64) (j : JobView) (t : TargetView)
    (now : Z) : float64 :=
  let esp := ESP (profileFor j) t in
  let window := if 0 <? j.(CalibrationMaxAge) then j.(CalibrationMaxAge) else defaultCalibrationWindow in
  let fresh :=
    if is_zero t.(MeasuredAt) then f_lit 1 2
    else let age := time_sub now t.(MeasuredAt) in
         let age := if age <? 0 then 0 else age in
         math_exp (fdiv (fopp (f_of_Z age)) (f_of_Z window)) in
  fmul esp fresh.
