(* ===== verification/Fronts.v ===== *)
(** * The non-dominated sort is correct — [nonDominatedFronts] of absorbed.go

    The counting loop of pareto/v0 computes, in at most [n + 1] rounds, the
    NSGA-II front index of every point: 0 for the points nothing dominates,
    otherwise one more than the largest index among its dominators. *)

From S2P Require Import Prelude Float64 GoLib Qasm Views Policies.

(** ** Domination is a strict order, NaN included *)

Lemma fle_not_nan x y : fle x y = true -> is_nan x = false /\ is_nan y = false.
Proof. unfold fle, SFleb. by destruct x, y. Qed.

Lemma dominates_keys a b c d :
  dominates a b c d = true ->
  ~ key_lt (fkey a) (fkey c) /\ ~ key_lt (fkey b) (fkey d) /\
  (key_lt (fkey c) (fkey a) \/ key_lt (fkey d) (fkey b)) /\
  is_nan a = false /\ is_nan b = false /\ is_nan c = false /\ is_nan d = false.
Proof.
  unfold dominates, fge. fold fle. intros H. apply andb_true_iff in H as [[H1 H2]%andb_true_iff H3].
  destruct (fle_not_nan _ _ H1) as [Nc Na]. destruct (fle_not_nan _ _ H2) as [Nd Nb].
  change (fle c a = true) in H1. change (fle d b = true) in H2.
  rewrite fle_nlt in H1, H2 by done. to_prop. rewrite flt_false_key in H1, H2 by done.
  rewrite orb_true_iff, !fgt_flt, !flt_key in H3. tauto.
Qed.

Lemma dominates_intro a b c d :
  is_nan a = false -> is_nan b = false -> is_nan c = false -> is_nan d = false ->
  ~ key_lt (fkey a) (fkey c) -> ~ key_lt (fkey b) (fkey d) ->
  key_lt (fkey c) (fkey a) \/ key_lt (fkey d) (fkey b) -> dominates a b c d = true.
Proof.
  intros Na Nb Nc Nd H1 H2 H3. unfold dominates, fge.
  change (SFleb c a) with (fle c a). change (SFleb d b) with (fle d b).
  rewrite !fle_nlt by done. apply flt_false_key in H1, H2; try done. rewrite H1, H2. simpl.
  rewrite orb_true_iff, !fgt_flt, !flt_key. tauto.
Qed.

Lemma key_nlt_trans a b c : ~ key_lt a b -> ~ key_lt b c -> ~ key_lt a c.
Proof. destruct a as [[? ?] ?], b as [[? ?] ?], c as [[? ?] ?]. simpl. lia. Qed.

Lemma key_lt_nlt a b c : key_lt b a -> ~ key_lt b c -> key_lt c a.
Proof. destruct a as [[? ?] ?], b as [[? ?] ?], c as [[? ?] ?]. simpl. lia. Qed.

Section Order.
Context (f s : list float64).

Lemma dom_irrefl i : dominates_ix f s i i = false.
Proof.
  apply not_true_iff_false. unfold dominates_ix, dominates. intros H.
  apply andb_true_iff in H as [_ H]. by rewrite !fgt_flt, !flt_irrefl in H.
Qed.

Lemma dom_trans i j k :
  dominates_ix f s i j = true -> dominates_ix f s j k = true -> dominates_ix f s i k = true.
Proof.
  unfold dominates_ix. intros H1%dominates_keys H2%dominates_keys.
  destruct H1 as (A1 & A2 & A3 & ? & ? & ? & ?), H2 as (B1 & B2 & B3 & ? & ? & ? & ?).
  apply dominates_intro; try done; [by eapply key_nlt_trans|by eapply key_nlt_trans|].
  destruct A3 as [A3|A3]; [left|right]; by eapply key_lt_nlt.
Qed.

Lemma dom_asym i j : dominates_ix f s i j = true -> dominates_ix f s j i = false.
Proof.
  intros H. apply not_true_iff_false. intros H'.
  pose proof (dom_trans _ _ _ H H') as X. by rewrite dom_irrefl in X.
Qed.

(** Every non-empty set of points has one that no other of the set dominates. *)
Lemma minimal_exists (u : list nat) :
  u <> [] -> exists k, k ∈ u /\ forall i, i ∈ u -> dominates_ix f s i k = false.
Proof.
  induction u as [|x u IH]; [done|]. intros _. destruct u as [|y u].
  - exists x. split; [left|]. intros i ->%list_elem_of_singleton. apply dom_irrefl.
  - destruct IH as (m & Hm & Hmin); [done|]. destruct (dominates_ix f s x m) eqn:E.
    + exists x. split; [left|]. intros i [->|Hi]%elem_of_cons; [apply dom_irrefl|].
      apply not_true_iff_false. intros H. pose proof (dom_trans _ _ _ H E) as X.
      rewrite Hmin in X; done.
    + exists m. split; [by right|]. intros i [->|Hi]%elem_of_cons; auto.
Qed.
End Order.

(** ** Counting *)

Definition count_true (p : nat -> bool) (l : list nat) : Z := Z.of_nat (length (List.filter p l)).

Lemma count_true_ext p q l : (forall x, x ∈ l -> p x = q x) -> count_true p l = count_true q l.
Proof.
  intros H. unfold count_true. f_equal. f_equal. apply List.filter_ext_in.
  intros x Hx. apply H. by apply list_elem_of_In.
Qed.

Lemma count_true_split p q l :
  count_true p l = count_true (fun x => p x && q x) l + count_true (fun x => p x && negb (q x)) l.
Proof.
  unfold count_true. induction l as [|x l IH]; [done|]. simpl.
  destruct (p x), (q x); simpl; lia.
Qed.

Lemma count_true_zero p l : count_true p l = 0 <-> forall x, x ∈ l -> p x = false.
Proof.
  unfold count_true. induction l as [|x l IH]; simpl.
  - split; [by intros _ x ?%elem_of_nil|done].
  - destruct (p x) eqn:E; simpl.
    + split; [lia|]. intros H. rewrite H in E by left. done.
    + rewrite IH. split; [intros H y [->|Hy]%elem_of_cons; auto|]. intros H y Hy. apply H. by right.
Qed.

Lemma count_true_nonneg p l : 0 <= count_true p l.
Proof. unfold count_true. lia. Qed.

Definition mem (x : nat) (l : list nat) : bool := bool_decide (x ∈ l).

(** Counting members of a duplicate-free sublist. *)
Lemma count_true_sub p c l :
  NoDup c -> NoDup l -> (forall x, x ∈ c -> x ∈ l) ->
  count_true (fun x => p x && mem x c) l = count_true p c.
Proof.
  intros Nc Nl Hs. unfold count_true. f_equal. apply Permutation_length, NoDup_Permutation.
  - by apply NoDup_ListNoDup, List.NoDup_filter, NoDup_ListNoDup.
  - by apply NoDup_ListNoDup, List.NoDup_filter, NoDup_ListNoDup.
  - intros x. rewrite !list_elem_of_In, !List.filter_In, <- !list_elem_of_In, andb_true_iff.
    unfold mem. rewrite bool_decide_eq_true. split; [tauto|]. intros [? ?]. auto.
Qed.

(** ** One round of the loop *)

Definition occ (k : nat) (l : list nat) : Z := Z.of_nat (count_occ Nat.eq_dec l k).

Lemma occ_cons k x l : occ k (x :: l) = occ k l + (if Nat.eq_dec x k then 1 else 0).
Proof. unfold occ. simpl. destruct (Nat.eq_dec x k); lia. Qed.

Lemma occ_nonneg k l : 0 <= occ k l.
Proof. unfold occ. lia. Qed.

Definition zn (l : list Z) (k : nat) : Z := nth k l 0.

Lemma zn_insert l i k v :
  (i < length l)%nat -> zn (<[i := v]> l) k = if Nat.eq_dec i k then v else zn l k.
Proof.
  intros Hi. unfold zn. destruct (Nat.eq_dec i k) as [->|Hne].
  - rewrite !nth_lookup, list_lookup_insert_eq by done. done.
  - rewrite !nth_lookup, list_lookup_insert_ne by done. done.
Qed.

(** Whether processing the indices [l] brings counter [c] to zero. *)
Definition hits (c : Z) (k : nat) (l : list nat) : Prop := 1 <= c <= occ k l.

#[export] Instance hits_dec c k l : Decision (hits c k l).
Proof. unfold hits. apply _. Defined.

(** What one index does. *)
Lemma peel_one_spec rank st x :
  (x < length st.(pl_counts))%nat -> length st.(pl_fronts) = length st.(pl_counts) ->
  let st' := peel_one rank st x in
  length st'.(pl_counts) = length st.(pl_counts) /\
  length st'.(pl_fronts) = length st.(pl_counts) /\
  (forall k, zn st'.(pl_counts) k = zn st.(pl_counts) k - (if Nat.eq_dec x k then 1 else 0)) /\
  st'.(upcoming) = st.(upcoming) ++ (if zn st.(pl_counts) x =? 1 then [x] else []) /\
  (forall k, zn st'.(pl_fronts) k =
     if Nat.eq_dec x k then (if zn st.(pl_counts) x =? 1 then rank + 1 else zn st.(pl_fronts) k)
     else zn st.(pl_fronts) k).
Proof.
  intros Hx Hf. cbv zeta. unfold peel_one. fold (zn st.(pl_counts) x).
  replace (zn st.(pl_counts) x - 1 =? 0) with (zn st.(pl_counts) x =? 1)
    by (destruct (Z.eqb_spec (zn st.(pl_counts) x) 1), (Z.eqb_spec (zn st.(pl_counts) x - 1) 0); lia || done).
  destruct (zn st.(pl_counts) x =? 1); cbn [pl_counts pl_fronts upcoming]; rewrite ?app_nil_r, ?length_insert;
    split_and!; try done; intros k; try (rewrite zn_insert by lia); try done;
    destruct (Nat.eq_dec x k); subst; lia || done.
Qed.

Lemma peel_fold rank l st :
  (forall k, k ∈ l -> (k < length st.(pl_counts))%nat) ->
  length st.(pl_fronts) = length st.(pl_counts) ->
  let st' := fold_left (peel_one rank) l st in
  length st'.(pl_counts) = length st.(pl_counts) /\
  length st'.(pl_fronts) = length st.(pl_counts) /\
  (forall k, zn st'.(pl_counts) k = zn st.(pl_counts) k - occ k l) /\
  (forall k, k ∈ st'.(upcoming) <-> k ∈ st.(upcoming) \/ hits (zn st.(pl_counts) k) k l) /\
  (forall k, zn st'.(pl_fronts) k =
     if decide (hits (zn st.(pl_counts) k) k l) then rank + 1 else zn st.(pl_fronts) k) /\
  (NoDup st.(upcoming) -> (forall k, k ∈ st.(upcoming) -> zn st.(pl_counts) k <= 0) ->
   NoDup st'.(upcoming)).
Proof.
  revert st. induction l as [|x l IH]; intros st Hl Hf; simpl.
  { unfold hits, occ. simpl. split_and!; try done.
    - intros k. lia.
    - intros k. split; [by left|]. intros [?|?]; [done|lia].
    - intros k. by rewrite decide_False by lia. }
  assert (Hx : (x < length st.(pl_counts))%nat) by (apply Hl; left).
  destruct (peel_one_spec rank st x Hx Hf) as (L1 & L2 & C1 & U1 & F1).
  destruct (IH (peel_one rank st x)) as (E1 & E2 & E3 & E4 & E5 & E6).
  { intros k Hk. rewrite L1. apply Hl. by right. }
  { by rewrite L1. }
  clear IH. rewrite E1, E2, L1. pose proof occ_nonneg as ON. split_and!; try done.
  - intros k. rewrite E3, C1, occ_cons. lia.
  - intros k. rewrite E4, U1, C1. unfold hits. rewrite elem_of_app, occ_cons. specialize (ON k l).
    destruct (Z.eqb_spec (zn st.(pl_counts) x) 1) as [Ez|Ez];
      rewrite ?list_elem_of_singleton, ?elem_of_nil; destruct (Nat.eq_dec x k); subst;
      split; intros; destruct_or?; try lia; try (by left); try (by (left; left));
      try (left; right; done); try (by right; lia).
  - intros k. rewrite E5, F1. specialize (ON k l).
    destruct (decide (hits (zn (pl_counts (peel_one rank st x)) k) k l)) as [H1|H1],
      (decide (hits (zn (pl_counts st) k) k (x :: l))) as [H2|H2]; unfold hits in H1, H2;
      rewrite C1 in H1; rewrite occ_cons in H2; destruct (Nat.eq_dec x k); subst; try lia;
      destruct (Z.eqb_spec (zn st.(pl_counts) k) 1); lia || done.
  - intros N Hn. apply E6.
    + rewrite U1. destruct (Z.eqb_spec (zn st.(pl_counts) x) 1); [|by rewrite app_nil_r].
      apply NoDup_app. split_and!; [done| |by apply NoDup_singleton].
      intros k Hk ->%list_elem_of_singleton. specialize (Hn _ Hk). lia.
    + intros k. rewrite U1, C1. intros [Hk|Hk]%elem_of_app.
      * specialize (Hn _ Hk). destruct (Nat.eq_dec x k); lia.
      * destruct (Z.eqb_spec (zn st.(pl_counts) x) 1); [|by apply elem_of_nil in Hk].
        apply list_elem_of_singleton in Hk as ->. destruct (Nat.eq_dec x x); lia.
Qed.

(** ** The loop invariant *)

Section Peeling.
Context (f s : list float64).

Let n : nat := length f.
Let D : nat -> nat -> bool := dominates_ix f s.

(** Dominators of [k] outside [done]. *)
Definition open_dominators (done : list nat) (k : nat) : Z :=
  count_true (fun i => dominates_ix f s i k && negb (mem i done)) (seq 0 (length f)).

Record peel_inv (rank : Z) (counts fronts : list Z) (done current : list nat) : Prop := {
  pi_counts : length counts = n;
  pi_fronts : length fronts = n;
  pi_count : forall k, (k < n)%nat -> zn counts k = open_dominators done k;
  pi_nodup : NoDup (done ++ current);
  pi_range : forall k, k ∈ done ++ current -> (k < n)%nat;
  pi_zero : forall k, (k < n)%nat -> k ∈ done ++ current <-> zn counts k = 0;
  pi_done : forall k, k ∈ done -> 0 <= zn fronts k < rank;
  pi_current : forall k, k ∈ current -> zn fronts k = rank;
  pi_rank : 0 <= rank;
  pi_front : forall k, k ∈ done ++ current ->
    (forall i, (i < n)%nat -> D i k = true -> i ∈ done /\ zn fronts i < zn fronts k) /\
    (zn fronts k = 0 \/ exists i, (i < n)%nat /\ D i k = true /\ zn fronts i = zn fronts k - 1) }.

Lemma dominatesList_In i k : k ∈ dominatesList f s i <-> (k < n)%nat /\ D i k = true.
Proof.
  unfold dominatesList. rewrite list_elem_of_In, List.filter_In, in_seq, andb_true_iff, negb_true_iff.
  rewrite Nat.eqb_neq. unfold D, n. split; [intros; split; [lia|tauto]|]. intros [? H].
  split_and!; try lia; [|done]. intros ->. by rewrite dom_irrefl in H.
Qed.

Lemma dominatesList_NoDup i : NoDup (dominatesList f s i).
Proof. apply NoDup_ListNoDup, List.NoDup_filter, seq_NoDup. Qed.

Lemma count_occ_NoDup (l : list nat) k :
  NoDup l -> count_occ Nat.eq_dec l k = if mem k l then 1%nat else 0%nat.
Proof.
  intros N. unfold mem. case_bool_decide as H.
  - apply NoDup_ListNoDup in N. rewrite (NoDup_count_occ' Nat.eq_dec) in N. apply N. by apply list_elem_of_In.
  - apply count_occ_not_In. by rewrite <- list_elem_of_In.
Qed.

Lemma occ_round current k :
  (k < n)%nat -> occ k (flat_map (dominatesList f s) current) = count_true (fun i => D i k) current.
Proof.
  intros Hk. unfold occ, count_true. induction current as [|i c IH]; [done|].
  cbn [flat_map List.filter]. rewrite count_occ_app, (count_occ_NoDup _ _ (dominatesList_NoDup i)).
  unfold mem. destruct (D i k) eqn:E.
  - rewrite bool_decide_eq_true_2 by (by apply dominatesList_In). simpl. lia.
  - rewrite bool_decide_eq_false_2; [simpl; lia|]. rewrite dominatesList_In. intros [_ ?]. congruence.
Qed.

(** The counter after a round: the dominators not yet peeled off. *)
Lemma open_dominators_app done current k :
  NoDup (done ++ current) -> (forall x, x ∈ done ++ current -> (x < n)%nat) ->
  open_dominators done k - count_true (fun i => D i k) current = open_dominators (done ++ current) k.
Proof.
  intros N R. apply NoDup_app in N as (N1 & N2 & N3).
  unfold open_dominators. rewrite (count_true_split _ (fun i => mem i current)).
  rewrite (count_true_ext (fun x => (dominates_ix f s x k && negb (mem x done)) && mem x current)
    (fun x => dominates_ix f s x k && mem x current)).
  2: { intros x _. unfold mem. destruct (dominates_ix f s x k); [|done]. simpl.
       repeat case_bool_decide; try done. exfalso. eapply N2; eauto. }
  rewrite (count_true_sub (fun x => dominates_ix f s x k) current); [|done| |].
  2: { apply NoDup_ListNoDup, seq_NoDup. }
  2: { intros x Hx. apply list_elem_of_In, in_seq. unfold n in R. specialize (R x). rewrite elem_of_app in R.
       split; [lia|]. simpl. apply R. by right. }
  unfold D. rewrite (count_true_ext (fun x => (dominates_ix f s x k && negb (mem x done)) && negb (mem x current))
    (fun x => dominates_ix f s x k && negb (mem x (done ++ current)))); [lia|].
  intros x _. unfold mem. rewrite <- andb_assoc. f_equal.
  repeat case_bool_decide; try done; set_solver.
Qed.

Lemma open_zero done k :
  open_dominators done k = 0 <-> forall i, (i < n)%nat -> D i k = true -> i ∈ done.
Proof.
  unfold open_dominators. rewrite count_true_zero. unfold D, n, mem. split.
  - intros H i Hi HD. specialize (H i). rewrite list_elem_of_In, in_seq, HD in H. simpl in H.
    specialize (H ltac:(lia)). by case_bool_decide.
  - intros H i Hi%list_elem_of_In. rewrite in_seq in Hi.
    destruct (dominates_ix f s i k) eqn:E; [|done]. simpl. rewrite bool_decide_eq_true_2; [done|].
    apply H; [lia|done].
Qed.

Lemma current_dominator current k :
  count_true (fun i => D i k) current <> 0 -> exists i, i ∈ current /\ D i k = true.
Proof.
  intros Hc. destruct (List.existsb (fun i => D i k) current) eqn:Ex.
  - apply existsb_exists in Ex as (i & Hi & HD). exists i. by rewrite list_elem_of_In.
  - exfalso. apply Hc, count_true_zero. intros x Hx. apply not_true_iff_false. intros HD.
    apply not_true_iff_false in Ex. apply Ex, existsb_exists. exists x. by rewrite <- list_elem_of_In.
Qed.

(** What a round leaves, in terms of the peeled points. *)
Record round_left (rank : Z) (fronts : list Z) (done current : list nat) (st : peeling) : Prop := {
  rl_counts : length st.(pl_counts) = n;
  rl_fronts : length st.(pl_fronts) = n;
  rl_count : forall k, (k < n)%nat -> zn st.(pl_counts) k = open_dominators (done ++ current) k;
  rl_old : forall k, k ∈ done ++ current -> zn st.(pl_fronts) k = zn fronts k;
  rl_nodup : NoDup st.(upcoming);
  rl_new : forall k, k ∈ st.(upcoming) -> (k < n)%nat /\ k ∉ done ++ current /\
    zn st.(pl_counts) k = 0 /\ zn st.(pl_fronts) k = rank + 1 /\ exists i, i ∈ current /\ D i k = true;
  rl_all : forall k, (k < n)%nat -> zn st.(pl_counts) k = 0 -> k ∈ done ++ current \/ k ∈ st.(upcoming) }.

Lemma open_nonneg done k : 0 <= open_dominators done k.
Proof. apply count_true_nonneg. Qed.

Lemma peel_round_left rank counts fronts done current :
  peel_inv rank counts fronts done current ->
  round_left rank fronts done current (peel_round f s rank counts fronts current).
Proof.
  intros [H1 H2 H3 H4 H5 H6 H7 H8 H9 H10]. unfold peel_round.
  destruct (peel_fold rank (flat_map (dominatesList f s) current) (mkPeeling counts fronts []))
    as (E1 & E2 & E3 & E4 & E5 & E6); simpl in *; [|by rewrite H2|].
  { intros k Hk%list_elem_of_In. apply in_flat_map in Hk as (i & _ & Hk).
    apply list_elem_of_In, dominatesList_In in Hk. rewrite H1. tauto. }
  set (st := fold_left _ _ _) in *.
  assert (Cnt : forall k, (k < n)%nat -> zn st.(pl_counts) k = open_dominators (done ++ current) k).
  { intros k Hk. by rewrite E3, occ_round, H3, open_dominators_app by done. }
  constructor; [lia|lia|done| | | |].
  - intros k Hk. rewrite E5. rewrite decide_False; [done|]. unfold hits.
    pose proof (proj1 (H6 k (H5 k Hk)) Hk). lia.
  - apply E6; [constructor|by intros ? ?%elem_of_nil].
  - intros k Hu. pose proof Hu as Hh. rewrite E4 in Hh. destruct Hh as [?%elem_of_nil|Hh]; [done|].
    assert (Rng : (k < n)%nat).
    { destruct (decide (k < n)%nat); [done|]. unfold hits, zn in Hh. rewrite nth_overflow in Hh by lia. lia. }
    rewrite E5, decide_True by done. pose proof (Cnt k Rng) as C. pose proof (open_nonneg (done ++ current) k).
    unfold hits in Hh. rewrite E3 in C |- *. split_and!; [done|rewrite H6 by done; lia|lia|done|].
    apply current_dominator. rewrite <- occ_round by done. lia.
  - intros k Hk Hz. destruct (decide (k ∈ done ++ current)) as [|Hn]; [by left|]. right. apply E4. right. unfold hits.
    rewrite H6 in Hn by done. rewrite E3 in Hz. pose proof (occ_nonneg k (flat_map (dominatesList f s) current)).
    rewrite H3 in * by done. pose proof (open_nonneg done k). lia.
Qed.

Lemma peel_inv_round rank counts fronts done current :
  peel_inv rank counts fronts done current ->
  let st := peel_round f s rank counts fronts current in
  peel_inv (rank + 1) st.(pl_counts) st.(pl_fronts) (done ++ current) st.(upcoming).
Proof.
  intros I. destruct (peel_round_left _ _ _ _ _ I) as [L1 L2 Cnt Fr ND New All].
  destruct I as [H1 H2 H3 H4 H5 H6 H7 H8 H9 H10]. cbv zeta. set (st := peel_round _ _ _ _ _ _) in *.
  constructor; [done|done|done| | | | | |lia|].
  - apply NoDup_app. split_and!; [done| |done]. intros k Hk Hu. by destruct (New k Hu) as (_ & ? & _).
  - intros k [Hk|Hk]%elem_of_app; [auto|by apply New].
  - intros k Hk. rewrite elem_of_app. split; [|by apply All].
    intros [Hd|Hu]; [|by apply New]. rewrite Cnt, open_zero by done. intros i Hi HD.
    destruct (H10 k Hd) as [Hx _]. destruct (Hx i Hi HD). apply elem_of_app. by left.
  - intros k Hk. rewrite Fr by done. apply elem_of_app in Hk as [Hk|Hk]; [specialize (H7 k Hk); lia|].
    rewrite H8 by done. lia.
  - intros k Hk. by apply New.
  - intros k [Hk|Hk]%elem_of_app.
    + destruct (H10 k Hk) as [Ha Hb]. rewrite (Fr k Hk). split.
      * intros i Hi HD. destruct (Ha i Hi HD) as [Hd Hl]. rewrite elem_of_app. split; [by left|].
        rewrite Fr; [done|]. apply elem_of_app. by left.
      * destruct Hb as [|(i & Hi & HD & He)]; [by left|right]. exists i. split_and!; try done.
        rewrite Fr; [done|]. apply elem_of_app. left. by apply Ha.
    + destruct (New k Hk) as (Rk & Hn & Hz & Hf & i & Hi & HD). rewrite Hf. split.
      * intros x Hx HDx. rewrite Cnt, open_zero in Hz by auto. specialize (Hz x Hx HDx). split; [done|].
        rewrite Fr by done. apply elem_of_app in Hz as [Hz|Hz]; [specialize (H7 x Hz); lia|].
        rewrite (H8 x Hz). lia.
      * right. exists i. assert (i ∈ done ++ current) by (apply elem_of_app; by right).
        split_and!; [by apply H5|done|]. rewrite Fr, (H8 i Hi) by done. lia.
Qed.

(** The front indices are the ones domination dictates. *)
Definition layered (fr : list Z) : Prop :=
  length fr = length f /\
  forall k, (k < length f)%nat ->
    0 <= zn fr k /\
    (forall i, (i < length f)%nat -> dominates_ix f s i k = true -> zn fr i < zn fr k) /\
    (zn fr k = 0 \/ exists i, (i < length f)%nat /\ dominates_ix f s i k = true /\ zn fr i = zn fr k - 1).

Lemma peel_inv_final rank counts fronts done :
  peel_inv rank counts fronts done [] -> layered fronts.
Proof.
  intros [H1 H2 H3 H4 H5 H6 H7 H8 H9 H10]. rewrite app_nil_r in *.
  assert (All : forall k, (k < n)%nat -> k ∈ done).
  { set (open := List.filter (fun k => negb (mem k done)) (seq 0 n)).
    assert (O : forall k, k ∈ open <-> (k < n)%nat /\ k ∉ done).
    { intros k. unfold open, mem. rewrite list_elem_of_In, List.filter_In, in_seq, negb_true_iff,
        bool_decide_eq_false. split; intros [? ?]; split; (lia || done). }
    destruct (decide (open = [])) as [E|E].
    - intros k Hk. destruct (decide (k ∈ done)) as [|Hn]; [done|].
      pose proof (proj2 (O k) (conj Hk Hn)) as X. rewrite E in X. by apply elem_of_nil in X.
    - exfalso. destruct (minimal_exists f s open E) as (k & Hk & Hmin).
      apply O in Hk as [Hk Hn]. apply Hn, H6; [done|]. rewrite H3 by done. apply open_zero.
      intros i Hi HD. destruct (decide (i ∈ done)) as [|Hni]; [done|].
      unfold D in HD. rewrite Hmin in HD; [done|]. by apply O. }
  split; [done|]. intros k Hk. specialize (All k Hk). destruct (H10 k All) as [Ha Hb].
  split_and!; [specialize (H7 k All); lia| |done]. intros i Hi HD. by apply Ha.
Qed.

Lemma peel_total fuel rank counts fronts peeled current :
  peel_inv rank counts fronts peeled current -> (n < fuel + length peeled)%nat ->
  exists fr, peel f s fuel rank counts fronts current = Some fr /\ layered fr.
Proof.
  revert rank counts fronts peeled current.
  induction fuel as [|fuel IH]; intros rank counts fronts peeled current I Hf.
  all: destruct current as [|c cs]; [exists fronts; split; [done|by eapply peel_inv_final]|].
  - exfalso. destruct I as [_ _ _ N R _ _ _ _ _].
    enough (length (peeled ++ c :: cs) <= n)%nat by (rewrite length_app in *; simpl in *; lia).
    replace n with (length (seq 0 n)) by apply length_seq.
    apply submseteq_length, NoDup_submseteq; [done|].
    intros k Hk. apply list_elem_of_In, in_seq. specialize (R k Hk). lia.
  - cbn [peel]. apply (IH _ _ _ (peeled ++ c :: cs)); [by apply peel_inv_round|].
    rewrite length_app. simpl. lia.
Qed.

Lemma dominatedCount_open k : dominatedCount f s k = open_dominators [] k.
Proof.
  unfold dominatedCount, open_dominators. apply count_true_ext. intros i _. unfold mem.
  rewrite bool_decide_eq_false_2 by apply not_elem_of_nil. simpl. rewrite andb_true_r.
  destruct (dominates_ix f s i k) eqn:E; [|by rewrite andb_false_r].
  rewrite (dom_asym _ _ _ _ E). destruct (Nat.eqb_spec i k); [|done].
  subst. by rewrite dom_irrefl in E.
Qed.

Lemma zn_seq (g : nat -> Z) k : (k < n)%nat -> zn (g <$> seq 0 n) k = g k.
Proof. intros Hk. unfold zn. by rewrite nth_lookup, list_lookup_fmap, lookup_seq_lt by done. Qed.

Lemma initial_inv :
  peel_inv 0 (dominatedCount f s <$> seq 0 n) (replicate n 0) []
    (List.filter (fun i => dominatedCount f s i =? 0) (seq 0 n)).
Proof.
  assert (Z0 : forall k, zn (replicate n 0) k = 0).
  { intros k. unfold zn. rewrite nth_lookup. destruct (replicate n 0 !! k) eqn:E; [|done].
    by apply lookup_replicate in E as [-> _]. }
  assert (C : forall k, k ∈ List.filter (fun i => dominatedCount f s i =? 0) (seq 0 n) <->
                (k < n)%nat /\ dominatedCount f s k = 0).
  { intros k. rewrite list_elem_of_In, List.filter_In, in_seq, Z.eqb_eq. split; intros []; split; (lia || done). }
  constructor; simpl; try done.
  - by rewrite length_fmap, length_seq.
  - apply length_replicate.
  - intros k Hk. rewrite zn_seq by done. apply dominatedCount_open.
  - apply NoDup_ListNoDup, List.NoDup_filter, seq_NoDup.
  - intros k. rewrite C. tauto.
  - intros k Hk. rewrite zn_seq, C by done. tauto.
  - intros k ?%elem_of_nil. done.
  - intros k Hk. apply C in Hk as [Hk Hz]. rewrite dominatedCount_open, open_zero in Hz. split.
    + intros i Hi HD. specialize (Hz i Hi HD). by apply elem_of_nil in Hz.
    + left. apply Z0.
Qed.

Lemma fronts_total : exists fr, nonDominatedFronts f s = Some fr /\ layered fr.
Proof. apply (peel_total _ _ _ _ []); [apply initial_inv|simpl; lia]. Qed.
End Peeling.

(** (C26) The non-dominated sort always finishes (the loop needs at most one
    round more than there are points) and assigns every point the right front:
    a dominated point lies strictly behind each of its dominators, and a point
    behind the first front lies directly behind one of them.  So front 0 is
    exactly the set of points nothing dominates. *)
Theorem nonDominatedFronts_correct f s :
  exists fr, nonDominatedFronts f s = Some fr /\ layered f s fr /\
    forall k, (k < length f)%nat ->
      (zn fr k = 0 <-> forall i, (i < length f)%nat -> dominates_ix f s i k = false).
Proof.
  destruct (fronts_total f s) as (fr & E & L). exists fr. split_and!; [done|done|].
  destruct L as [_ L]. intros k Hk. destruct (L k Hk) as (L0 & L1 & L2). split.
  - intros Hz i Hi. apply not_true_iff_false. intros HD. specialize (L1 i Hi HD).
    destruct (L i Hi) as [? _]. lia.
  - intros H. destruct L2 as [|(i & Hi & HD & _)]; [done|]. rewrite H in HD; done.
Qed.
