(* ===== verification/Scheduler.v ===== *)
(** * The policy pipeline — src/internal/scheduler/{scheduler,conflict}.go

    [SchedulingPolicy] is the interface the pipeline is written against: a
    record of operations with the optional extensions as options, and
    [PolicyLaws], what the pipeline relies on.  The built-in policies are the
    instances.  A policy's mutable state (only the rotation counter of
    round-robin/v0 exists) is passed explicitly. *)

From S2P Require Import Prelude Float64 GoLib Qasm Views Filter Policies Fronts.

Record SchedulingPolicy := mkPolicy {
  PolName : string;
  PolFilter : JobView -> TargetView -> Z -> string;
  PolScore : JobView -> TargetView -> Z -> float64;
  PolScoreSet : option (Z -> JobView -> list TargetView -> Z -> list float64 * Z);
  PolPredictESP : option (JobView -> TargetView -> float64) }.

Record Decision := mkDecision {
  DPolicy : string; DTarget : string; DScore : float64; DSnapshotID : string;
  DWaitSeconds : float64; DPredictedESP : float64; DReason : string; DRejected : list Rejection }.

Definition by_name (a b : TargetView) : bool := str_lt a.(TName) b.(TName).

Definition feasible_in (p : SchedulingPolicy) (j : JobView) (now : Z) (t : TargetView) : bool :=
  String.eqb (p.(PolFilter) j t now) "".

Definition rejections (p : SchedulingPolicy) (j : JobView) (now : Z) (sorted : list TargetView)
  : list Rejection :=
  (fun t => mkRejection t.(TName) (p.(PolFilter) j t now))
    <$> List.filter (fun t => negb (feasible_in p j now t)) sorted.

(** The scores of the feasible targets: the set scorer if the policy has one. *)
Definition scores (p : SchedulingPolicy) (st : Z) (j : JobView) (feasible : list TargetView) (now : Z)
  : list float64 * Z :=
  match p.(PolScoreSet) with
  | Some f => f st j feasible now
  | None => ((fun t => p.(PolScore) j t now) <$> feasible, st)
  end.

(** [if best == nil || scores[i] > d.Score]. *)
Definition better (a b : TargetView * float64) : bool := fgt a.2 b.2.

Definition reason_text (p : SchedulingPolicy) (best : option (TargetView * float64))
    (feasible total : nat) (rejected : list Rejection) : string :=
  let head :=
    match best with
    | Some (t, score) =>
        "policy " +:+ p.(PolName) +:+ " selected " +:+ t.(TName) +:+ " (score " +:+ fmt_f 4 score
          +:+ ") among " +:+ itoa (Z.of_nat feasible) +:+ " feasible target(s)"
    | None =>
        "policy " +:+ p.(PolName) +:+ " found no feasible target among " +:+ itoa (Z.of_nat total)
    end in
  match rejected with
  | [] => head
  | _ => head +:+ "; filtered: "
           +:+ join ((fun r => r.(RTarget) +:+ " (" +:+ r.(RReason) +:+ ")") <$> rejected) "; "
  end.

Definition Schedule (p : SchedulingPolicy) (st : Z) (j : JobView) (fleet : list TargetView) (now : Z)
  : Decision * Z :=
  let sorted := sort_by by_name fleet in
  let rejected := rejections p j now sorted in
  let feasible := List.filter (feasible_in p j now) sorted in
  let '(sc, st') := scores p st j feasible now in
  let best := scan_best better (zip feasible sc) in
  let reason := reason_text p best (length feasible) (length sorted) rejected in
  (match best with
   | Some (t, score) =>
       let esp := match p.(PolPredictESP) with Some f => f j t | None => f0 end in
       mkDecision p.(PolName) t.(TName) score t.(SnapshotID) t.(WaitSeconds) esp reason rejected
   | None => mkDecision p.(PolName) "" f0 "" f0 f0 reason rejected
   end, st').

(** [Decision.PlacementRecord]: the status.placement document. *)
Definition PlacementRecord (d : Decision) : doc :=
  let rejected := (fun r => jobj [("target", JStr r.(RTarget)); ("reason", JStr r.(RReason))])
                    <$> d.(DRejected) in
  let predicted : doc := mkdoc [("waitSeconds", JNum d.(DWaitSeconds))] in
  let predicted := if fgt d.(DPredictedESP) f0
                   then <["successProbability" := JNum d.(DPredictedESP)]> predicted else predicted in
  mkdoc [("policy", JStr d.(DPolicy)); ("calibrationSnapshot", JStr d.(DSnapshotID));
         ("predicted", JObj predicted); ("reason", JStr d.(DReason)); ("rejected", JArr rejected)].

(** ** The registered policies *)

Definition fifoPolicy : SchedulingPolicy :=
  mkPolicy "fifo/v0" FilterTarget (fun _ _ _ => f0) None None.

Definition staticBestPolicy : SchedulingPolicy :=
  mkPolicy "static-best/v0" FilterCapabilityOnly (fun _ t _ => staticBest_Score t) None None.

Definition roundRobinPolicy : SchedulingPolicy :=
  mkPolicy "round-robin/v0" FilterCapabilityOnly (fun _ _ _ => f0)
    (Some (fun st _ feasible _ => roundRobin_ScoreSet st feasible)) None.

Definition calibAwarePolicy : SchedulingPolicy :=
  mkPolicy "calib-aware/v0" FilterTarget (fun j t _ => calibAware_Score j t) None (Some PredictedESP).

Definition paretoPolicy : SchedulingPolicy :=
  mkPolicy "pareto/v0" FilterTarget (fun _ _ _ => f0)
    (Some (fun st j feasible _ => (pareto_ScoreSet j feasible, st))) None.

Definition adaptiveDeferralPolicy (math_exp : float64 -> float64) : SchedulingPolicy :=
  mkPolicy "adaptive-deferral/v0" FilterTarget (adaptiveDeferral_Score math_exp) None (Some PredictedESP).

(** The factories, as the [init] functions register them. *)
Definition factories (math_exp : float64 -> float64) : list (string * SchedulingPolicy) :=
  [("fifo/v0", fifoPolicy); ("static-best/v0", staticBestPolicy); ("round-robin/v0", roundRobinPolicy);
   ("calib-aware/v0", calibAwarePolicy); ("pareto/v0", paretoPolicy);
   ("adaptive-deferral/v0", adaptiveDeferralPolicy math_exp)].

Definition RegisteredPolicies (math_exp : float64 -> float64) : list string :=
  sort_strings (fst <$> factories math_exp).

Inductive policy_error := UnknownPolicy (name : string) (registered : list string).

Definition find_factory (math_exp : float64 -> float64) (name : string) : option SchedulingPolicy :=
  snd <$> List.find (fun e => String.eqb e.1 name) (factories math_exp).

(** A fresh policy starts with state 0. *)
Definition NewPolicy (math_exp : float64 -> float64) (name : string)
  : result policy_error (SchedulingPolicy * Z) :=
  match find_factory math_exp name with
  | Some p => Ok (p, 0)
  | None => Err (UnknownPolicy name (RegisteredPolicies math_exp))
  end.

(** [Lookup]: [singletons] holds the state of each instance handed out. *)
Definition Lookup (math_exp : float64 -> float64) (singletons : gmap string Z) (name : string)
  : result policy_error SchedulingPolicy * gmap string Z :=
  match singletons !! name, find_factory math_exp name with
  | Some _, Some p => (Ok p, singletons)
  | _, _ =>
      match NewPolicy math_exp name with
      | Ok (p, st) => (Ok p, <[name := st]> singletons)
      | Err e => (Err e, singletons)
      end
  end.

(** ** conflict.go *)

Record FloorViolation := mkFloorViolation {
  Floor : string; Limit : float64; Actual : float64; FAggregate : string }.

(** [relaxed.TwoQubitErrorMax, relaxed.ReadoutErrorMax = 0, 0]. *)
Definition relaxed (j : JobView) : JobView :=
  mkJobView j.(JVID) j.(JVTenant) j.(Kind) j.(Format) j.(Shots) j.(JQubits) j.(Technology)
    f0 f0 j.(CalibrationMaxAge) j.(Aggregate) j.(OnConflict) j.(Deadline)
    j.(BudgetUnits) j.(SessionJoin) j.(SessionMaxDuration) j.(PreferOnPrem) j.(AllowCloudBurst)
    j.(DenyTargets) j.(RequireTargets) j.(Profile).

Definition violation (name : string) (limit : float64) (value : option float64) (agg : string)
  : list FloorViolation :=
  if fgt limit f0 then
    match value with
    | Some v => if fgt v limit then [mkFloorViolation name limit v agg] else []
    | None => []
    end
  else [].

Definition violations (j : JobView) (chosen : TargetView) : list FloorViolation :=
  let agg := or_default j.(Aggregate) "best" in
  violation "twoQubitErrorMax" j.(TwoQubitErrorMax) (TwoQubitErrorAggregate chosen agg) agg
  ++ violation "readoutErrorMax" j.(ReadoutErrorMax) (MetricAggregate chosen "readout.error" agg) agg.

Definition ScheduleRelaxed (p : SchedulingPolicy) (st : Z) (j : JobView) (fleet : list TargetView)
    (now : Z) : (Decision * list FloorViolation) * Z :=
  let '(d, st') := Schedule p st (relaxed j) fleet now in
  ((d, if String.eqb d.(DTarget) "" then []
       else match List.find (fun t => String.eqb t.(TName) d.(DTarget)) fleet with
            | Some chosen => violations j chosen
            | None => []
            end), st').

(** [j.Deadline.Add(-wait)] with the wait truncated to nanoseconds. *)
Definition DecisionHorizon (j : JobView) (d : Decision) : Z :=
  let wait := f_to_int64 (fmul d.(DWaitSeconds) (f_of_Z second)) in
  j.(Deadline) + wrap64 (- wait).

(** ** What the pipeline relies on *)

(** One score per feasible target, or the loop over [scores] would panic. *)
Class PolicyLaws (p : SchedulingPolicy) : Prop :=
  scores_length : forall st j l now, length (scores p st j l now).1 = length l.

#[export] Instance plain_laws p : TCEq p.(PolScoreSet) None -> PolicyLaws p.
Proof. intros E st j l now. apply TCEq_eq in E. unfold scores. rewrite E. apply length_fmap. Qed.

#[export] Instance roundRobin_laws : PolicyLaws roundRobinPolicy.
Proof.
  intros st j l now. unfold scores. simpl. unfold roundRobin_ScoreSet. case_bool_decide; simpl.
  - apply length_replicate.
  - by rewrite length_insert, length_replicate.
Qed.

Lemma normalize_length l : length (normalize l) = length l.
Proof. destruct l; [done|]. unfold normalize. by case_match; rewrite length_fmap. Qed.

#[export] Instance pareto_laws : PolicyLaws paretoPolicy.
Proof.
  intros st j l now. unfold scores. simpl. destruct l as [|t l]; [done|].
  unfold pareto_ScoreSet. set (fid := _ <$> t :: l). set (speed := _ <$> t :: l).
  destruct (fronts_total fid speed) as (fr & -> & [Hl _]). cbn [default from_option id fst].
  rewrite length_zip_with, Hl, length_zip, !normalize_length. unfold fid, speed.
  rewrite !length_fmap. lia.
Qed.

(** ** The scan over the scores *)

Lemma scan_best_ext {A} (g h : A -> A -> bool) l :
  (forall a b, a ∈ l -> b ∈ l -> g a b = h a b) -> scan_best g l = scan_best h l.
Proof.
  intros H. unfold scan_best.
  assert (G : forall l' best, (forall a, a ∈ l' -> a ∈ l) -> (forall b, best = Some b -> b ∈ l) ->
    fold_left (scan_step g) l' best = fold_left (scan_step h) l' best).
  { induction l' as [|x l' IH]; intros best Hl Hb; [done|]. simpl.
    assert (scan_step g best x = scan_step h best x) as <-.
    { destruct best as [b|]; [|done]. simpl. rewrite H; auto. apply Hl. left. }
    apply IH; [intros; apply Hl; by right|]. intros b Hs.
    destruct best as [b0|]; simpl in Hs; [destruct (g x b0)|]; injection Hs as <-; auto;
      apply Hl; left. }
  by apply G.
Qed.

Lemma better_total l :
  Forall (fun x => is_nan x.2 = false) l ->
  scan_best better l = scan_best (fun a b => float_less b.2 a.2) l.
Proof.
  intros Hn. apply scan_best_ext. rewrite Forall_forall in Hn. intros a b Ha Hb.
  unfold better, float_less. rewrite fgt_flt, (Hn b Hb). simpl. by rewrite orb_false_r.
Qed.

(** The winner of the scan, on numbers: nothing is better, and everything
    before it is strictly worse. *)
Lemma scan_better l b :
  Forall (fun x => is_nan x.2 = false) l -> scan_best better l = Some b ->
  exists l1 l2, l = l1 ++ b :: l2 /\
    (forall x, x ∈ l1 -> flt x.2 b.2 = true) /\ (forall x, x ∈ l2 -> fgt x.2 b.2 = false).
Proof.
  intros Hn Hb. rewrite better_total in Hb by done.
  assert (Irr : forall a : TargetView * float64, float_less a.2 a.2 = false) by (intros; apply float_less_irrefl).
  assert (Neg : forall a b c : TargetView * float64, float_less b.2 a.2 = false ->
     float_less c.2 b.2 = false -> float_less c.2 a.2 = false).
  { intros x y z Hx Hy. apply (float_less_neg_trans x.2 y.2 z.2); done. }
  assert (Tr : forall a b c : TargetView * float64, float_less b.2 a.2 = true ->
     float_less c.2 b.2 = true -> float_less c.2 a.2 = true).
  { intros x y z Hx Hy. destruct (float_less z.2 x.2) eqn:E; [done|].
    apply float_less_asym in Hy. rewrite (Neg x z y) in Hx; done. }
  destruct (scan_best_first _ Irr Tr Neg l b Hb) as (l1 & l2 & -> & H1).
  exists l1, l2. split; [done|]. rewrite Forall_forall in Hn. split; intros x Hx.
  - specialize (H1 x Hx). unfold float_less in H1. apply orb_true_iff in H1 as [H1|H1]; [done|].
    rewrite (Hn x) in H1; [done|]. apply elem_of_app. by left.
  - pose proof (scan_best_max _ Irr Tr Neg _ _ x Hb) as H.
    rewrite elem_of_app, elem_of_cons in H. specialize (H ltac:(auto)).
    unfold float_less in H. rewrite fgt_flt. by to_prop.
Qed.

(** The feasible targets, in name order. *)
Definition feasible_set (p : SchedulingPolicy) (j : JobView) (fleet : list TargetView) (now : Z)
  : list TargetView := List.filter (feasible_in p j now) (sort_by by_name fleet).

Lemma Schedule_unfold p st j fleet now d st' :
  Schedule p st j fleet now = (d, st') ->
  d.(DRejected) = rejections p j now (sort_by by_name fleet) /\
  match scan_best better (zip (feasible_set p j fleet now) (scores p st j (feasible_set p j fleet now) now).1) with
  | Some (t, sc) => d.(DTarget) = t.(TName) /\ d.(DScore) = sc /\ d.(DWaitSeconds) = t.(WaitSeconds)
                    /\ d.(DSnapshotID) = t.(SnapshotID)
  | None => d.(DTarget) = ""
  end.
Proof.
  unfold Schedule. fold (feasible_set p j fleet now).
  destruct (scores p st j (feasible_set p j fleet now) now) as [sc st1] eqn:E. simpl.
  destruct (scan_best _ _) as [[t x]|]; intros [= <- <-]; by split_and!.
Qed.

Lemma zip_nil_inv {A B} (l : list A) (k : list B) : length k = length l -> zip l k = [] -> l = [].
Proof. destruct l, k; done. Qed.

Lemma elem_of_feasible p j fleet now t :
  t ∈ feasible_set p j fleet now <-> t ∈ fleet /\ p.(PolFilter) j t now = "".
Proof.
  unfold feasible_set, feasible_in. rewrite list_elem_of_In, List.filter_In, <- list_elem_of_In.
  by rewrite elem_of_sort_by, String.eqb_eq.
Qed.

Lemma Schedule_target p `{!PolicyLaws p} st j fleet now d st' :
  Schedule p st j fleet now = (d, st') ->
  (feasible_set p j fleet now = [] /\ d.(DTarget) = "") \/
  (exists t, t ∈ fleet /\ p.(PolFilter) j t now = "" /\ d.(DTarget) = t.(TName)
             /\ d.(DWaitSeconds) = t.(WaitSeconds)).
Proof.
  intros (_ & H)%Schedule_unfold. destruct (scan_best _ _) as [[t sc]|] eqn:E.
  - right. exists t. destruct H as (H1 & _ & H2 & _). apply scan_best_elem in E.
    apply elem_of_zip_l, elem_of_feasible in E. tauto.
  - left. split; [|done]. apply scan_best_none in E. eapply zip_nil_inv; [|exact E].
    apply scores_length.
Qed.

(** (C18) A placed job runs on a feasible target of maximal score, and on the
    first such target in name order: in the list of feasible targets with
    their scores, everything before the chosen one scores strictly less and
    nothing after it scores more.  With no feasible target the decision is
    empty.  (Scores not NaN.) *)
Theorem Schedule_optimal p `{!PolicyLaws p} st j fleet now d st' :
  let feas := feasible_set p j fleet now in
  let sc := (scores p st j feas now).1 in
  Forall (fun x => is_nan x = false) sc ->
  Schedule p st j fleet now = (d, st') ->
  (feas = [] /\ d.(DTarget) = "") \/
  (exists l1 t l2, zip feas sc = l1 ++ (t, d.(DScore)) :: l2 /\ d.(DTarget) = t.(TName) /\
     t ∈ fleet /\ p.(PolFilter) j t now = "" /\
     (forall x, x ∈ l1 -> flt x.2 d.(DScore) = true) /\
     (forall x, x ∈ l2 -> fgt x.2 d.(DScore) = false)).
Proof.
  intros feas sc Hn (_ & H)%Schedule_unfold. fold feas sc in H.
  destruct (scan_best better (zip feas sc)) as [[t s]|] eqn:E.
  - right. destruct H as (H1 & H2 & _). edestruct scan_better as (l1 & l2 & Hz & Ha & Hb); [|exact E|].
    { apply Forall_forall. intros [a b] Hx. apply elem_of_zip_r in Hx. rewrite Forall_forall in Hn. by apply Hn. }
    exists l1, t, l2. rewrite H2. apply scan_best_elem, elem_of_zip_l, elem_of_feasible in E. tauto.
  - left. split; [|done]. apply scan_best_none in E. eapply zip_nil_inv; [|exact E]. apply scores_length.
Qed.

(** ** Decisions do not depend on the order of the fleet *)

Lemma by_name_asym a b : by_name a b = true -> by_name b a = false.
Proof. apply str_lt_asym. Qed.

Lemma by_name_neg_trans a b c :
  not_after by_name a b -> not_after by_name b c -> not_after by_name a c.
Proof. unfold not_after, by_name. intros H1 H2. by eapply str_lt_neg_trans. Qed.

Lemma NoDup_names_inj (fleet : list TargetView) a b :
  NoDup (TName <$> fleet) -> a ∈ fleet -> b ∈ fleet -> a.(TName) = b.(TName) -> a = b.
Proof.
  induction fleet as [|x l IH]; [by intros _ ?%elem_of_nil|].
  rewrite fmap_cons. intros [Hx N]%NoDup_cons [->|Ha]%elem_of_cons [->|Hb]%elem_of_cons E; auto.
  - exfalso. apply Hx. rewrite E. apply list_elem_of_fmap. by exists b.
  - exfalso. apply Hx. rewrite <- E. apply list_elem_of_fmap. by exists a.
Qed.

Lemma sort_by_name_perm l1 l2 :
  NoDup (TName <$> l1) -> l1 ≡ₚ l2 -> sort_by by_name l1 = sort_by by_name l2.
Proof.
  intros N P. apply (sort_by_unique by_name by_name_asym by_name_neg_trans).
  - intros a b Ha Hb H1 H2. rewrite <- P in Ha, Hb. apply (NoDup_names_inj l1); auto.
    by apply str_lt_total.
  - apply sort_by_sorted; [apply by_name_asym|apply by_name_neg_trans].
  - by rewrite sort_by_perm.
Qed.

(** (C19) Scheduling is deterministic: when target names are distinct, the
    decision (target, score, reason and rejections) and the policy's next
    state do not depend on the order in which the fleet is listed. *)
Theorem Schedule_fleet_order p st j fleet1 fleet2 now :
  NoDup (TName <$> fleet1) -> fleet1 ≡ₚ fleet2 ->
  Schedule p st j fleet1 now = Schedule p st j fleet2 now.
Proof. intros N P. unfold Schedule. by rewrite (sort_by_name_perm fleet1 fleet2 N P). Qed.

(** ** The audit trail *)

Lemma filter_partition {A} (f : A -> bool) l :
  List.filter (fun x => negb (f x)) l ++ List.filter f l ≡ₚ l.
Proof.
  induction l as [|x l IH]; [done|]. simpl. destruct (f x); simpl.
  - by rewrite <- Permutation_middle, IH.
  - by rewrite IH.
Qed.

(** Every target is accounted for: the names of the rejected targets
    and of the feasible ones together are exactly the names of the fleet, and
    each rejection carries the non-empty reason the filter gave. *)
Lemma Schedule_audit p st j fleet now d st' :
  Schedule p st j fleet now = (d, st') ->
  (RTarget <$> d.(DRejected)) ++ (TName <$> feasible_set p j fleet now) ≡ₚ TName <$> fleet /\
  (forall r, r ∈ d.(DRejected) -> r.(RReason) <> "" /\
     exists t, t ∈ fleet /\ t.(TName) = r.(RTarget) /\ p.(PolFilter) j t now = r.(RReason)).
Proof.
  intros (-> & _)%Schedule_unfold. unfold rejections, feasible_set. split.
  - rewrite <- list_fmap_compose. unfold compose. simpl. rewrite <- fmap_app, filter_partition.
    by rewrite sort_by_perm.
  - intros r (t & -> & Ht)%list_elem_of_fmap. apply list_elem_of_In, List.filter_In in Ht as [Ht Hf].
    apply list_elem_of_In in Ht. rewrite elem_of_sort_by in Ht. unfold feasible_in in Hf. to_prop. simpl.
    split; [done|]. by exists t.
Qed.

(** ** Policies may only narrow *)

Definition baseline (name : string) : bool := str_in name ["static-best/v0"; "round-robin/v0"].

Lemma find_factory_cases e name p :
  find_factory e name = Some p ->
  PolicyLaws p /\
  p.(PolFilter) = (if baseline name then FilterCapabilityOnly else FilterTarget) /\
  p.(PolName) = name.
Proof.
  unfold find_factory. intros H. destruct (List.find _ _) as [[n q]|] eqn:E; [|done].
  injection H as <-. apply List.find_some in E as [Hin Heq]. to_prop. simpl in *. subst n.
  repeat destruct Hin as [Hin|Hin]; try done; injection Hin as <- <-; (split; [apply _|done]).
Qed.

(** Whichever registered policy decides, the target it binds passes the
    capability, selector and budget checks of the job, and also the quality
    floors unless the policy is one of the two benchmark baselines. *)
Lemma registered_policies_narrow e name p st j fleet now d st' :
  find_factory e name = Some p -> Schedule p st j fleet now = (d, st') -> d.(DTarget) <> "" ->
  exists t, t ∈ fleet /\ t.(TName) = d.(DTarget) /\ capable j t now /\ selected j t /\
    (baseline name = false -> within_floors j t now).
Proof.
  intros (L & F & _)%find_factory_cases H Hne.
  destruct (Schedule_target p st j fleet now d st' H) as [[_ ?]|(t & Ht & Hf & HT & _)]; [done|].
  exists t. rewrite F in Hf. split_and!; try done; destruct (baseline name);
    unfold FilterCapabilityOnly, FilterTarget in Hf; apply filterTarget_spec in Hf as (? & Q & ?); auto.
Qed.

(** ** Relaxing the floors *)

Lemma relaxed_within_floors j t now :
  within_floors (relaxed j) t now <->
  (0 < j.(CalibrationMaxAge) ->
   t.(MeasuredAt) <> time_zero /\ time_sub now t.(MeasuredAt) <= j.(CalibrationMaxAge)).
Proof. split; [by intros []|]. intros H. by constructor. Qed.

Lemma filter_relaxed j t now :
  FilterTarget (relaxed j) t now = "" <->
  capable j t now /\ selected j t /\
  (0 < j.(CalibrationMaxAge) ->
   t.(MeasuredAt) <> time_zero /\ time_sub now t.(MeasuredAt) <= j.(CalibrationMaxAge)).
Proof.
  unfold FilterTarget. rewrite filterTarget_spec, relaxed_within_floors.
  assert (capable (relaxed j) t now <-> capable j t now) as -> by (split; intros []; by constructor).
  assert (selected (relaxed j) t <-> selected j t) as -> by (split; intros []; by constructor).
  tauto.
Qed.

Lemma violation_nil name limit value agg :
  violation name limit value agg = [] <->
  (fgt limit f0 = true -> forall v, value = Some v -> fgt v limit = false).
Proof.
  unfold violation. destruct (fgt limit f0); [|done]. destruct value as [v|]; [|done].
  destruct (fgt v limit) eqn:E; split; try done.
  - intros H. specialize (H eq_refl v eq_refl). congruence.
  - by intros _ _ v' [= <-].
Qed.

(** Floors and relaxation: strict feasibility is relaxed feasibility, no
    violated floor, and the metrics the floors need. *)
Lemma strict_feasible_iff j t now :
  FilterTarget j t now = "" <->
  FilterTarget (relaxed j) t now = "" /\ violations j t = [] /\
  (fgt j.(TwoQubitErrorMax) f0 = true -> metric_values t is_2q_error <> []) /\
  (fgt j.(ReadoutErrorMax) f0 = true -> metric_values t (fun n => String.eqb n "readout.error") <> []).
Proof.
  rewrite filter_relaxed. unfold FilterTarget, violations. rewrite filterTarget_spec, app_nil, !violation_nil.
  assert (N : forall l agg, l <> [] <-> exists v, aggregateValues l agg = Some v).
  { intros l agg. rewrite <- (aggregateValues_none l agg). destruct (aggregateValues l agg); split; try done; [by eauto|by intros []]. }
  unfold TwoQubitErrorAggregate, MetricAggregate.
  rewrite (N _ (or_default j.(Aggregate) "best")).
  rewrite (N (metric_values t (fun n => String.eqb n "readout.error")) (or_default j.(Aggregate) "best")).
  split.
  - intros (Hc & Hf & Hs). destruct (Hf eq_refl) as [H1 H2 H3]. split_and!; try done.
    + intros E v Hv. destruct (H1 E) as (v' & Hv' & ?). unfold TwoQubitErrorAggregate in Hv'. congruence.
    + intros E v Hv. destruct (H2 E) as (v' & Hv' & ?). unfold MetricAggregate in Hv'. congruence.
    + intros E. destruct (H1 E) as (v' & Hv' & ?). eauto.
    + intros E. destruct (H2 E) as (v' & Hv' & ?). eauto.
  - intros ((Hc & Hs & Ha) & (V1 & V2) & M1 & M2). split_and!; try done. intros _.
    constructor; [|by intros E; destruct (M2 E) as [v Hv]; eauto|done].
    intros E. destruct (M1 E) as [v Hv]. eauto.
Qed.

Lemma find_by_name fleet t :
  NoDup (TName <$> fleet) -> t ∈ fleet ->
  List.find (fun x => String.eqb x.(TName) t.(TName)) fleet = Some t.
Proof.
  intros N Ht. destruct (List.find _ _) as [x|] eqn:E.
  - apply List.find_some in E as [Hx E]. to_prop. f_equal.
    eapply NoDup_names_inj; eauto. by apply list_elem_of_In.
  - exfalso. apply list_elem_of_In in Ht. pose proof (List.find_none _ _ E t Ht) as X.
    simpl in X. by rewrite String.eqb_refl in X.
Qed.

(** The floor-relaxed pass of a standard-filter policy: when it finds no
    target, no target is strictly feasible either; when it finds one, that
    target passes everything but the floors, the reported violations are
    exactly the floors its snapshot exceeds, and the target is strictly
    feasible iff nothing is violated and every metric a floor needs is in the
    snapshot. *)
Lemma ScheduleRelaxed_spec p `{!PolicyLaws p} st j fleet now d vs st' :
  p.(PolFilter) = FilterTarget -> NoDup (TName <$> fleet) -> (forall t, t ∈ fleet -> t.(TName) <> "") ->
  ScheduleRelaxed p st j fleet now = ((d, vs), st') ->
  (d.(DTarget) = "" -> forall t, t ∈ fleet -> FilterTarget j t now <> "") /\
  (d.(DTarget) <> "" -> exists t, t ∈ fleet /\ t.(TName) = d.(DTarget) /\
     FilterTarget (relaxed j) t now = "" /\ vs = violations j t /\
     (FilterTarget j t now = "" <-> vs = [] /\
       (fgt j.(TwoQubitErrorMax) f0 = true -> metric_values t is_2q_error <> []) /\
       (fgt j.(ReadoutErrorMax) f0 = true ->
        metric_values t (fun n => String.eqb n "readout.error") <> []))).
Proof.
  intros F N Hne. unfold ScheduleRelaxed. destruct (Schedule p st (relaxed j) fleet now) as [d0 s0] eqn:E.
  intros [= -> <- <-]. destruct (Schedule_target _ _ _ _ _ _ _ E) as [[Hf Ht]|(t & Ht & Hf & HT & _)].
  - split; [|done]. intros _ t Hin Hs. apply strict_feasible_iff in Hs as [Hs _].
    assert (t ∈ feasible_set p (relaxed j) fleet now) as X by (apply elem_of_feasible; by rewrite F).
    rewrite Hf in X. by apply elem_of_nil in X.
  - split; [intros X; rewrite HT in X; by destruct (Hne t Ht)|]. intros Hd. exists t.
    rewrite F in Hf. apply String.eqb_neq in Hd. rewrite Hd, HT, (find_by_name fleet t N Ht).
    split_and!; try done. rewrite strict_feasible_iff. tauto.
Qed.

(** ** Rotation *)

Lemma zip_scores_at (feas : list TargetView) k i x :
  zip feas (<[k := f1]> (replicate (length feas) f0)) !! i = Some x ->
  feas !! i = Some x.1 /\ x.2 = if decide (i = k) then f1 else f0.
Proof.
  destruct x as [a b]. intros [Ha Hb]%lookup_zip_Some. split; [done|]. simpl.
  assert (i < length feas)%nat by (by eapply lookup_lt_Some).
  case_decide as E; [subst|].
  - rewrite list_lookup_insert_eq in Hb; [congruence|by rewrite length_replicate].
  - rewrite list_lookup_insert_ne, lookup_replicate_2 in Hb by done. congruence.
Qed.

(** round-robin/v0 rotates: with [n] feasible targets and the counter at
    [c], it picks the target number [c mod n] in name order and advances the
    counter by one, wrapping at 2^64. *)
Lemma roundRobin_rotates c j fleet now d c' :
  let feas := feasible_set roundRobinPolicy j fleet now in
  feas <> [] -> 0 <= c < 2 ^ 64 ->
  Schedule roundRobinPolicy c j fleet now = (d, c') ->
  c' = (c + 1) mod 2 ^ 64 /\
  exists t, feas !! Z.to_nat (c mod Z.of_nat (length feas)) = Some t /\ d.(DTarget) = t.(TName).
Proof.
  intros feas Hne Hc H. assert (H' := H). apply Schedule_unfold in H as [_ H]. fold feas in H.
  set (k := Z.to_nat (c mod Z.of_nat (length feas))).
  assert (Hn : length feas <> 0%nat) by (by destruct feas).
  assert (Hk : (k < length feas)%nat).
  { unfold k. pose proof (Z.mod_pos_bound c (Z.of_nat (length feas)) ltac:(lia)). lia. }
  assert (S : scores roundRobinPolicy c j feas now
              = (<[k := f1]> (replicate (length feas) f0), (c + 1) mod 2 ^ 64)).
  { unfold scores. simpl. unfold roundRobin_ScoreSet. rewrite bool_decide_eq_false_2 by done.
    repeat f_equal. unfold k. do 2 f_equal. rewrite Zminus_mod_idemp_l.
    replace (c + 1 - 1) with c by lia. by apply Z.mod_small. }
  unfold Schedule in H'. fold (feasible_set roundRobinPolicy j fleet now) in H'. fold feas in H'.
  rewrite S in H', H. injection H' as _ <-. split; [done|]. simpl in H.
  destruct (scan_best _ _) as [[t sc]|] eqn:E.
  - exists t. destruct H as (-> & _). split; [|done].
    edestruct scan_better as (l1 & l2 & Hz & H1 & H2); [|exact E|].
    { apply Forall_forall. intros x [i Hx]%list_elem_of_lookup.
      apply zip_scores_at in Hx as [_ ->]. by case_decide. }
    assert (Hi : zip feas (<[k := f1]> (replicate (length feas) f0)) !! length l1 = Some (t, sc))
      by (rewrite Hz; by apply list_lookup_middle).
    destruct (decide (length l1 = k)) as [<-|Hd]; [by apply zip_scores_at in Hi as [? _]|exfalso].
    apply zip_scores_at in Hi as [_ Hsc]. rewrite decide_False in Hsc by done. simpl in Hsc. subst sc.
    destruct (lookup_lt_is_Some_2 (zip feas (<[k := f1]> (replicate (length feas) f0))) k) as [x Hx].
    { rewrite length_zip, length_insert, length_replicate. lia. }
    assert (x.2 = f1) as Hx1 by (apply zip_scores_at in Hx as [_ ->]; by rewrite decide_True).
    rewrite Hz in Hx. apply list_elem_of_lookup_2, elem_of_app in Hx as [Hx|[->|Hx]%elem_of_cons].
    + specialize (H1 x Hx). rewrite Hx1 in H1. vm_compute in H1. done.
    + vm_compute in Hx1. done.
    + specialize (H2 x Hx). rewrite Hx1 in H2. vm_compute in H2. done.
  - exfalso. apply scan_best_none, zip_nil_inv in E; [done|].
    by rewrite length_insert, length_replicate.
Qed.

(** ** A concrete fleet *)

Definition fleet_target (name : string) (err : list Metric) (wait : Z) : TargetView :=
  mkTargetView name "gate-model" "superconducting" 5 ["openqasm3"] 10000 ["shots"] true false
    "snap" (60 * hour) err 0 (f_of_Z wait) [] f0.

Definition demo_fleet : list TargetView :=
  [fleet_target "c" [mkMetric "gate.2q.cz.error" (f_lit 1 100) []] 10;
   fleet_target "a" [mkMetric "gate.2q.cz.error" (f_lit 5 100) []] 10;
   fleet_target "b" [mkMetric "gate.2q.cz.error" (f_lit 2 100) []] 5].

Definition demo_now : Z := 61 * hour.

Definition demo_floor_job : JobView :=
  mkJobView "j1" "acme/chem" "gate-model" "openqasm3" 1000 2 [] (f_lit 3 100) f0 0 "best"
    "prefer-quality" 0 ["shots"] "" 0 false [] [] [] None.

Lemma demo_fleet_names : NoDup (TName <$> demo_fleet).
Proof. apply (bool_decide_unpack _). vm_compute. done. Qed.

Lemma Schedule_optimal_witness :
  exists d st', Schedule fifoPolicy 0 demo_floor_job demo_fleet demo_now = (d, st') /\
    ((feasible_set fifoPolicy demo_floor_job demo_fleet demo_now = [] /\ d.(DTarget) = "") \/
     (exists l1 t l2, zip (feasible_set fifoPolicy demo_floor_job demo_fleet demo_now)
         (scores fifoPolicy 0 demo_floor_job (feasible_set fifoPolicy demo_floor_job demo_fleet demo_now) demo_now).1
         = l1 ++ (t, d.(DScore)) :: l2 /\ d.(DTarget) = t.(TName) /\
       t ∈ demo_fleet /\ fifoPolicy.(PolFilter) demo_floor_job t demo_now = "" /\
       (forall x, x ∈ l1 -> flt x.2 d.(DScore) = true) /\
       (forall x, x ∈ l2 -> fgt x.2 d.(DScore) = false))).
Proof.
  exists (Schedule fifoPolicy 0 demo_floor_job demo_fleet demo_now).1,
    (Schedule fifoPolicy 0 demo_floor_job demo_fleet demo_now).2.
  split; [apply surjective_pairing|].
  apply (Schedule_optimal fifoPolicy 0 demo_floor_job demo_fleet demo_now _
           (Schedule fifoPolicy 0 demo_floor_job demo_fleet demo_now).2).
  - vm_compute. repeat constructor.
  - apply surjective_pairing.
Defined.

Lemma Schedule_fleet_order_witness :
  Schedule calibAwarePolicy 0 demo_floor_job demo_fleet demo_now
  = Schedule calibAwarePolicy 0 demo_floor_job (rev demo_fleet) demo_now.
Proof.
  apply (Schedule_fleet_order calibAwarePolicy 0 demo_floor_job demo_fleet (rev demo_fleet) demo_now).
  - apply demo_fleet_names.
  - apply Permutation_rev.
Defined.

Lemma Schedule_audit_witness :
  exists d st', Schedule fifoPolicy 0 demo_floor_job demo_fleet demo_now = (d, st') /\
    d.(DRejected) = [mkRejection "a" "best two-qubit error 0.05 exceeds floor 0.03"] /\
    (RTarget <$> d.(DRejected)) ++ (TName <$> feasible_set fifoPolicy demo_floor_job demo_fleet demo_now)
      ≡ₚ TName <$> demo_fleet.
Proof.
  exists (Schedule fifoPolicy 0 demo_floor_job demo_fleet demo_now).1,
    (Schedule fifoPolicy 0 demo_floor_job demo_fleet demo_now).2.
  split; [apply surjective_pairing|]. split; [vm_compute; reflexivity|].
  apply (Schedule_audit fifoPolicy 0 demo_floor_job demo_fleet demo_now _
           (Schedule fifoPolicy 0 demo_floor_job demo_fleet demo_now).2).
  apply surjective_pairing.
Defined.

Lemma registered_policies_narrow_witness :
  exists t, t ∈ demo_fleet /\
    t.(TName) = (Schedule calibAwarePolicy 0 demo_floor_job demo_fleet demo_now).1.(DTarget) /\
    capable demo_floor_job t demo_now /\ selected demo_floor_job t /\
    (baseline "calib-aware/v0" = false -> within_floors demo_floor_job t demo_now).
Proof.
  apply (registered_policies_narrow (fun x => x) "calib-aware/v0" calibAwarePolicy 0 demo_floor_job
    demo_fleet demo_now _ (Schedule calibAwarePolicy 0 demo_floor_job demo_fleet demo_now).2).
  - reflexivity.
  - apply surjective_pairing.
  - vm_compute. discriminate.
Defined.

(** A job whose floor no target of the fleet meets. *)
Definition demo_strict_job : JobView :=
  mkJobView "j2" "acme/chem" "gate-model" "openqasm3" 1000 2 [] (f_lit 1 1000) f0 0 "best"
    "prefer-deadline" (62 * hour) ["shots"] "" 0 false [] [] [] None.

Lemma ScheduleRelaxed_spec_witness :
  exists t, t ∈ demo_fleet /\
    t.(TName) = (ScheduleRelaxed fifoPolicy 0 demo_strict_job demo_fleet demo_now).1.1.(DTarget) /\
    (ScheduleRelaxed fifoPolicy 0 demo_strict_job demo_fleet demo_now).1.2 = violations demo_strict_job t.
Proof.
  destruct (ScheduleRelaxed_spec fifoPolicy 0 demo_strict_job demo_fleet demo_now
    (ScheduleRelaxed fifoPolicy 0 demo_strict_job demo_fleet demo_now).1.1
    (ScheduleRelaxed fifoPolicy 0 demo_strict_job demo_fleet demo_now).1.2
    (ScheduleRelaxed fifoPolicy 0 demo_strict_job demo_fleet demo_now).2) as [_ H].
  - reflexivity.
  - apply demo_fleet_names.
  - intros t. unfold demo_fleet. rewrite !elem_of_cons, elem_of_nil.
    intros [->|[->|[->|[]]]]; vm_compute; discriminate.
  - vm_compute. reflexivity.
  - destruct H as (t & Ht & Hn & _ & Hv & _); [vm_compute; discriminate|].
    exists t. exact (conj Ht (conj Hn Hv)).
Defined.

Lemma roundRobin_rotates_witness :
  (Schedule roundRobinPolicy 4 demo_floor_job demo_fleet demo_now).2 = (4 + 1) mod 2 ^ 64 /\
  exists t, feasible_set roundRobinPolicy demo_floor_job demo_fleet demo_now
              !! Z.to_nat (4 mod Z.of_nat (length (feasible_set roundRobinPolicy demo_floor_job demo_fleet demo_now)))
            = Some t /\
            (Schedule roundRobinPolicy 4 demo_floor_job demo_fleet demo_now).1.(DTarget) = t.(TName).
Proof.
  apply (roundRobin_rotates 4 demo_floor_job demo_fleet demo_now).
  - vm_compute. discriminate.
  - lia.
  - apply surjective_pairing.
Defined.

(** An empty violation list does not mean that the floors were not the
    binding constraint: on a target whose snapshot lacks the metric a floor
    needs, the strict pass finds nothing, while the relaxed pass places the
    job and reports no violation. *)
Lemma no_violation_yet_binding :
  let fleet := [fleet_target "a" [] 10] in
  (Schedule fifoPolicy 0 demo_strict_job fleet demo_now).1.(DTarget) = "" /\
  (ScheduleRelaxed fifoPolicy 0 demo_strict_job fleet demo_now).1.1.(DTarget) = "a" /\
  (ScheduleRelaxed fifoPolicy 0 demo_strict_job fleet demo_now).1.2 = [].
Proof. vm_compute. split_and!; reflexivity. Qed.
