(* ===== verification/FairShare.v ===== *)
(** * Fair-share ordering — src/internal/dispatch/fairshare.go

    Weighted deficit round-robin over projects.  An index that would be out of
    range makes the Go code panic; the model returns [None] there, and
    [fairOrder_total] shows that it never does. *)

From S2P Require Import Prelude Float64 GoLib Phase Database JobStore Tables.

(** [tenants]: each tenant once, in order of first appearance. *)
Fixpoint seen_tenants (seen : list string) (pending : list JobRecord) : list string :=
  match pending with
  | [] => []
  | rec :: rest =>
      if str_in rec.(Tenant) seen then seen_tenants seen rest
      else rec.(Tenant) :: seen_tenants (rec.(Tenant) :: seen) rest
  end.

(** [queues[tenant]]: that tenant's jobs, in order. *)
Definition queue (pending : list JobRecord) (tenant : string) : list JobRecord :=
  List.filter (fun r => String.eqb r.(Tenant) tenant) pending.

Definition weightOf (weights : gmap string Z) (tenant : string) : float64 :=
  let w := default 0 (weights !! tenant) in if 1 <=? w then f_of_Z w else f1.

Definition assigned_of (assigned : gmap string nat) (tenant : string) : nat :=
  default 0%nat (assigned !! tenant).

Section Order.
Context (weights : gmap string Z) (pending : list JobRecord).

Definition exhausted (assigned : gmap string nat) (tenant : string) : bool :=
  Nat.eqb (assigned_of assigned tenant) (length (queue pending tenant)).

Definition virtual_time (assigned : gmap string nat) (tenant : string) : float64 :=
  fdiv (f_of_Z (Z.of_nat (assigned_of assigned tenant) + 1)) (weightOf weights tenant).

(** One round of the inner loop, on [(best, bestKey)]. *)
Definition pick_step (assigned : gmap string nat) (acc : string * float64) (tenant : string)
  : string * float64 :=
  if exhausted assigned tenant then acc
  else let key := virtual_time assigned tenant in
       if String.eqb acc.1 "" || flt key acc.2 then (tenant, key) else acc.

Definition pick (assigned : gmap string nat) (tenants : list string) : string :=
  (fold_left (pick_step assigned) tenants ("", f0)).1.

(** [for len(out) < len(pending)]: one job per round. *)
Fixpoint fair_loop (rounds : nat) (tenants : list string) (assigned : gmap string nat)
    (out : list JobRecord) : option (list JobRecord) :=
  match rounds with
  | O => Some out
  | S rounds' =>
      let best := pick assigned tenants in
      match queue pending best !! assigned_of assigned best with
      | None => None
      | Some rec =>
          fair_loop rounds' tenants (<[best := S (assigned_of assigned best)]> assigned) (out ++ [rec])
      end
  end.
End Order.

Definition fairOrder (pending : list JobRecord) (weights : gmap string Z) : option (list JobRecord) :=
  if bool_decide (length pending <= 1)%nat then Some pending
  else fair_loop weights pending (length pending) (sort_strings (seen_tenants [] pending)) ∅ [].

(** [orderPending]: [weights] is [None] when the lookup failed. *)
Definition orderPending (pending : list JobRecord) (weights : option (gmap string Z))
  : option (list JobRecord) :=
  if bool_decide (length pending <= 1)%nat then Some pending
  else if bool_decide (length (seen_tenants [] pending) = 1%nat) then Some pending
  else match weights with
       | None => Some pending
       | Some w => fairOrder pending w
       end.

(** ** Lists are determined by their queues, up to permutation *)

Lemma queue_app l1 l2 t : queue (l1 ++ l2) t = queue l1 t ++ queue l2 t.
Proof. apply List.filter_app. Qed.

Lemma queue_split l t x q :
  queue l t = x :: q -> exists a b, l = a ++ x :: b /\ queue a t = [] /\ queue b t = q /\ x.(Tenant) = t.
Proof.
  induction l as [|y l IH]; [done|]. simpl. destruct (String.eqb_spec y.(Tenant) t) as [E|E].
  - intros [= -> <-]. by exists [], l.
  - intros H. destruct (IH H) as (a & b & -> & Ha & Hb & Hx). exists (y :: a), b. split_and!; try done.
    simpl. destruct (String.eqb_spec y.(Tenant) t); done.
Qed.

Lemma queue_perm l1 l2 : (forall t, queue l1 t = queue l2 t) -> l1 ≡ₚ l2.
Proof.
  revert l2. induction l1 as [|x l1 IH]; intros l2 H.
  - destruct l2 as [|y l2]; [done|]. specialize (H y.(Tenant)). simpl in H. by rewrite String.eqb_refl in H.
  - pose proof (H x.(Tenant)) as Hx. simpl in Hx. rewrite String.eqb_refl in Hx. symmetry in Hx.
    apply queue_split in Hx as (a & b & -> & Ha & Hb & _).
    rewrite <- Permutation_middle. constructor. apply IH. intros t. specialize (H t).
    rewrite queue_app in H |- *. simpl in H. destruct (String.eqb_spec x.(Tenant) t) as [E|E].
    + rewrite <- E in *. rewrite Ha in *. simpl in *. by injection H.
    + rewrite H. simpl. by destruct (String.eqb_spec x.(Tenant) t).
Qed.

Lemma seen_tenants_spec seen pending t :
  t ∈ seen_tenants seen pending <-> (t ∉ seen) /\ exists r, r ∈ pending /\ r.(Tenant) = t.
Proof.
  revert seen. induction pending as [|r l IH]; intros seen; simpl.
  - rewrite elem_of_nil. split; [done|]. intros [_ (r & Hr & _)]. by apply elem_of_nil in Hr.
  - destruct (str_in r.(Tenant) seen) eqn:E.
    + apply str_in_elem in E. rewrite IH. split; intros [Hs (x & Hx & Ht)]; split; try done.
      * exists x. split; [by right|done].
      * apply elem_of_cons in Hx as [->|Hx]; [by subst|by exists x].
    + rewrite elem_of_cons, IH, not_elem_of_cons. split.
      * intros [->|[[Hne Hs] (x & Hx & Ht)]].
        -- split; [intros H%str_in_elem; congruence|]. exists r. split; [left|done].
        -- split; [done|]. exists x. split; [by right|done].
      * intros [Hs (x & Hx & Ht)]. destruct (decide (t = r.(Tenant))) as [|Hne]; [by left|right].
        split; [done|]. apply elem_of_cons in Hx as [->|Hx]; [done|by exists x].
Qed.

Lemma seen_tenants_NoDup seen pending : NoDup (seen_tenants seen pending).
Proof.
  revert seen. induction pending as [|r l IH]; intros seen; simpl; [constructor|].
  destruct (str_in _ _); [done|]. constructor; [|done].
  rewrite seen_tenants_spec. intros [H _]. apply H. left.
Qed.

(** ** The loop *)

Section Loop.
Context (weights : gmap string Z) (pending : list JobRecord) (tenants : list string).
Hypothesis tenants_nodup : NoDup tenants.
Hypothesis tenants_all : forall r, r ∈ pending -> r.(Tenant) ∈ tenants.

(** The inner loop finds a tenant with jobs left whenever there is one. *)
Lemma pick_remaining assigned l acc :
  (acc.1 = "" \/ exhausted pending assigned acc.1 = false) ->
  (exists t, t ∈ l /\ exhausted pending assigned t = false) \/ exhausted pending assigned acc.1 = false ->
  exhausted pending assigned (fold_left (pick_step weights pending assigned) l acc).1 = false.
Proof.
  revert acc. induction l as [|x l IH]; intros acc Hacc H; simpl.
  { destruct H as [(t & Ht & _)|H]; [by apply elem_of_nil in Ht|done]. }
  unfold pick_step at 2. destruct (exhausted pending assigned x) eqn:E.
  - apply IH; [done|]. destruct H as [(t & [->|Ht]%elem_of_cons & Hr)|H]; [congruence|left|by right].
    by exists t.
  - destruct (String.eqb_spec acc.1 "") as [Ea|Ea]; simpl; [apply IH; by right|].
    destruct (flt _ _); apply IH; try (by right); destruct Hacc; auto; done.
Qed.

(** Jobs not yet handed out, by queue. *)
Definition leftover (assigned : gmap string nat) : list JobRecord :=
  flat_map (fun t => skipn (assigned_of assigned t) (queue pending t)) tenants.

Record fair_inv (assigned : gmap string nat) (out : list JobRecord) : Prop := {
  fi_prefix : forall t, queue out t = take (assigned_of assigned t) (queue pending t);
  fi_bound : forall t, (assigned_of assigned t <= length (queue pending t))%nat }.

Lemma queue_skipn l t t' n :
  queue (skipn n (queue l t)) t' = if String.eqb t t' then skipn n (queue l t) else [].
Proof.
  assert (H : forall k, (forall x, x ∈ k -> x.(Tenant) = t) -> queue k t' = if String.eqb t t' then k else []).
  { induction k as [|x k IHk]; intros Hk; simpl; [by destruct (String.eqb t t')|].
    rewrite IHk by (intros; apply Hk; by right). rewrite (Hk x) by left. by destruct (String.eqb t t'). }
  apply H. intros x Hx.
  assert (Hq : x ∈ queue l t) by (rewrite <- (firstn_skipn n (queue l t)); apply elem_of_app; by right).
  apply list_elem_of_In, List.filter_In in Hq as [_ Hq]. by to_prop.
Qed.

Lemma queue_leftover assigned t :
  (exists r, r ∈ pending /\ r.(Tenant) = t) \/ queue pending t = [] ->
  queue (leftover assigned) t = skipn (assigned_of assigned t) (queue pending t).
Proof.
  intros Ht. assert (Hin : t ∈ tenants \/ queue pending t = []).
  { destruct Ht as [(r & Hr & <-)|]; auto. }
  unfold leftover. revert Hin. clear tenants_all Ht. induction tenants as [|x l IH]; intros Hin; simpl.
  - destruct Hin as [?%elem_of_nil| ->]; [done|]. by rewrite skipn_nil.
  - apply NoDup_cons in tenants_nodup as [Hx N]. rewrite queue_app, queue_skipn.
    destruct (String.eqb_spec x t) as [->|Hn].
    + assert (queue (flat_map (fun t0 => skipn (assigned_of assigned t0) (queue pending t0)) l) t = []) as ->;
        [|apply app_nil_r].
      clear -Hx. induction l as [|y l IH]; [done|]. simpl. apply not_elem_of_cons in Hx as [Hy Hx].
      rewrite queue_app, queue_skipn, IH by done. by destruct (String.eqb_spec y t).
    + simpl. apply IH; [done|]. destruct Hin as [[->|?]%elem_of_cons|?]; auto; done.
Qed.

Lemma queue_nil_or l t : (exists r, r ∈ l /\ r.(Tenant) = t) \/ queue l t = [].
Proof.
  destruct (queue l t) as [|x q] eqn:E; [by right|left].
  apply queue_split in E as (a & b & -> & _ & _ & Hx). exists x. split; [|done].
  apply elem_of_app. right. left.
Qed.

Lemma fair_inv_perm assigned out : fair_inv assigned out -> out ++ leftover assigned ≡ₚ pending.
Proof.
  intros [H _]. apply queue_perm. intros t.
  rewrite queue_app, H, queue_leftover by apply queue_nil_or. apply take_drop.
Qed.

Lemma remaining_exists assigned out :
  fair_inv assigned out -> (length out < length pending)%nat ->
  exists t, t ∈ tenants /\ exhausted pending assigned t = false.
Proof.
  intros I Hl. pose proof (Permutation_length (fair_inv_perm _ _ I)) as P. rewrite length_app in P.
  destruct (List.existsb (fun t => negb (exhausted pending assigned t)) tenants) eqn:E.
  - apply existsb_exists in E as (t & Ht & E). exists t. rewrite list_elem_of_In. split; [done|by to_prop].
  - exfalso. assert (leftover assigned = []) as L; [|rewrite L in P; simpl in P; lia].
    unfold leftover. apply not_true_iff_false in E. clear -E. induction tenants as [|x l IH]; [done|].
    simpl in *. rewrite orb_true_iff in E. rewrite IH by tauto. rewrite app_nil_r.
    apply skipn_all2. unfold exhausted in E. destruct (Nat.eqb_spec (assigned_of assigned x) (length (queue pending x)));
      [lia|]. destruct E. by left.
Qed.

Lemma fair_inv_step assigned out b rec :
  fair_inv assigned out -> queue pending b !! assigned_of assigned b = Some rec ->
  fair_inv (<[b := S (assigned_of assigned b)]> assigned) (out ++ [rec]).
Proof.
  intros [H1 H2] Hr. assert (Tb : rec.(Tenant) = b).
  { apply list_elem_of_lookup_2, list_elem_of_In, List.filter_In in Hr as [_ Hr]. by to_prop. }
  assert (A : forall t, assigned_of (<[b := S (assigned_of assigned b)]> assigned) t
              = if String.eqb b t then S (assigned_of assigned b) else assigned_of assigned t).
  { intros t. unfold assigned_of at 1. destruct (String.eqb_spec b t) as [->|Hn].
    - by rewrite lookup_insert_eq.
    - by rewrite lookup_insert_ne. }
  constructor; intros t; rewrite A.
  - rewrite queue_app, H1. simpl. rewrite Tb. destruct (String.eqb_spec b t) as [<-|Hn].
    + symmetry. by apply take_S_r.
    + apply app_nil_r.
  - destruct (String.eqb_spec b t) as [<-|Hn]; [|apply H2]. apply lookup_lt_Some in Hr. lia.
Qed.

Lemma fair_loop_total rounds assigned out :
  fair_inv assigned out -> (length out + rounds = length pending)%nat ->
  exists out', fair_loop weights pending rounds tenants assigned out = Some out' /\
    exists assigned', fair_inv assigned' out' /\ length out' = length pending.
Proof.
  revert assigned out. induction rounds as [|n IH]; intros assigned out I Hl; simpl.
  { exists out. split; [done|]. exists assigned. split; [done|lia]. }
  set (b := pick weights pending assigned tenants).
  assert (Hb : exhausted pending assigned b = false).
  { apply pick_remaining; [by left|]. left. eapply remaining_exists; [done|lia]. }
  unfold exhausted in Hb. apply Nat.eqb_neq in Hb. pose proof (fi_bound _ _ I b) as Hle.
  destruct (lookup_lt_is_Some_2 (queue pending b) (assigned_of assigned b) ltac:(lia)) as [rec Hrec].
  rewrite Hrec. apply IH; [by apply fair_inv_step|]. rewrite length_app. simpl. lia.
Qed.

Lemma fair_inv_complete assigned out :
  fair_inv assigned out -> length out = length pending -> forall t, queue out t = queue pending t.
Proof.
  intros I Hl t. pose proof (Permutation_length (fair_inv_perm _ _ I)) as P. rewrite length_app in P.
  assert (leftover assigned = []) as L by (destruct (leftover assigned); [done|simpl in P; lia]).
  pose proof (queue_leftover assigned t (queue_nil_or _ _)) as Q. rewrite L in Q. simpl in Q.
  rewrite (fi_prefix _ _ I). apply take_ge. symmetry in Q. apply (f_equal length) in Q.
  rewrite length_drop in Q. simpl in Q. lia.
Qed.
End Loop.

Lemma fairOrder_total pending weights :
  exists out, fairOrder pending weights = Some out /\ forall t, queue out t = queue pending t.
Proof.
  unfold fairOrder. case_bool_decide as H; [by exists pending|].
  set (tenants := sort_strings (seen_tenants [] pending)).
  assert (N : NoDup tenants) by (unfold tenants, sort_strings; rewrite sort_by_perm; apply seen_tenants_NoDup).
  assert (A : forall r, r ∈ pending -> r.(Tenant) ∈ tenants).
  { intros r Hr. unfold tenants, sort_strings. rewrite sort_by_perm, seen_tenants_spec.
    split; [apply not_elem_of_nil|by exists r]. }
  assert (I0 : fair_inv pending ∅ []).
  { constructor; intros t; unfold assigned_of; rewrite lookup_empty; simpl; [done|lia]. }
  destruct (fair_loop_total weights pending tenants N A (length pending) ∅ [] I0 eq_refl)
    as (out & E & assigned & I & Hl).
  exists out. split; [done|]. by eapply fair_inv_complete.
Qed.

Lemma orderPending_queues pending weights :
  exists out, orderPending pending weights = Some out /\ forall t, queue out t = queue pending t.
Proof.
  unfold orderPending. do 2 (case_bool_decide; [by exists pending|]).
  destruct weights as [w|]; [apply fairOrder_total|by exists pending].
Qed.

(** (C27) Fair-share ordering loses, invents and reorders nothing: it always
    produces an order (no index is ever out of range), the order is a
    permutation of the pending jobs, and each project's jobs keep their
    arrival order. *)
Theorem orderPending_correct pending weights :
  exists out, orderPending pending weights = Some out /\ out ≡ₚ pending /\
    forall t, queue out t = queue pending t.
Proof.
  destruct (orderPending_queues pending weights) as (out & E & Q). exists out. split_and!; [done| |done].
  by apply queue_perm.
Qed.

(** ** Fairness of one step *)

Lemma pick_min weights pending assigned l acc :
  (forall t, t ∈ l -> t <> "" /\ is_nan (virtual_time weights assigned t) = false) ->
  (acc.1 = "" \/ (is_nan acc.2 = false /\ acc.2 = virtual_time weights assigned acc.1)) ->
  let b := (fold_left (pick_step weights pending assigned) l acc).1 in
  b <> "" ->
  (acc.1 <> "" -> flt acc.2 (virtual_time weights assigned b) = false) /\
  (forall t, t ∈ l -> exhausted pending assigned t = false ->
     flt (virtual_time weights assigned t) (virtual_time weights assigned b) = false) /\
  is_nan (virtual_time weights assigned b) = false.
Proof.
  revert acc. induction l as [|x l IH]; intros acc Hl Hacc; simpl.
  { intros Hb. destruct Hacc as [|[Hn E]]; [done|]. rewrite <- E. split_and!; [intros; apply flt_irrefl| |done].
    by intros t ?%elem_of_nil. }
  destruct (Hl x ltac:(left)) as [Hx Hnx].
  assert (Hl' : forall t, t ∈ l -> t <> "" /\ is_nan (virtual_time weights assigned t) = false)
    by (intros; apply Hl; by right).
  unfold pick_step at 2 4 6 8. destruct (exhausted pending assigned x) eqn:E.
  - intros Hb. destruct (IH acc Hl' Hacc Hb) as (H1 & H2 & H3). split_and!; try done.
    intros t [->|Ht]%elem_of_cons; [congruence|auto].
  - destruct (String.eqb acc.1 "" || flt (virtual_time weights assigned x) acc.2) eqn:Eb; intros Hb.
    + destruct (IH (x, virtual_time weights assigned x) Hl' ltac:(right; simpl; auto) Hb) as (H1 & H2 & H3).
      simpl in H1. split_and!; [|intros t [->|Ht]%elem_of_cons; auto|done].
      intros Ha. apply orb_true_iff in Eb as [Eb|Eb]; [by to_prop|].
      destruct Hacc as [|[Hn _]]; [done|]. apply (flt_neg_trans _ (virtual_time weights assigned x)); auto.
      by apply flt_asym.
    + apply orb_false_iff in Eb as [Ea Eb]. to_prop. destruct (IH acc Hl' Hacc Hb) as (H1 & H2 & H3).
      split_and!; try done. intros t [->|Ht]%elem_of_cons He; [|auto].
      destruct Hacc as [|[Hn _]]; [done|]. apply (flt_neg_trans _ acc.2); auto.
Qed.

(** Each step of the ordering serves a project with jobs left whose
    virtual time (assigned + 1) / weight no other waiting project undercuts
    (project names not empty, virtual times not NaN). *)
Lemma fair_step_minimal weights pending assigned tenants :
  (forall t, t ∈ tenants -> t <> "" /\ is_nan (virtual_time weights assigned t) = false) ->
  (exists t, t ∈ tenants /\ exhausted pending assigned t = false) ->
  let b := pick weights pending assigned tenants in
  exhausted pending assigned b = false /\
  (b <> "" -> forall t, t ∈ tenants -> exhausted pending assigned t = false ->
     flt (virtual_time weights assigned t) (virtual_time weights assigned b) = false).
Proof.
  intros Hn He b. split; [apply pick_remaining; [by left|by left]|].
  intros Hb. by apply (pick_min weights pending assigned tenants ("", f0) Hn (or_introl eq_refl)).
Qed.

(** ** The documented cadence *)

Definition fair_job (tenant : string) (n : Z) : JobRecord :=
  mkJobRecord (tenant +:+ itoa n) tenant "" Pending ∅ ∅ n n.

Definition fair_backlog : list JobRecord :=
  [fair_job "org/b" 1; fair_job "org/a" 2; fair_job "org/b" 3; fair_job "org/a" 4; fair_job "org/a" 5;
   fair_job "org/a" 6; fair_job "org/a" 7; fair_job "org/a" 8].

(** Two projects at weights 3:1 bind A, A, A, B. *)
Example cadence_3_to_1 :
  option_map (map Tenant) (fairOrder fair_backlog (list_to_map [("org/a", 3); ("org/b", 1)]))
  = Some ["org/a"; "org/a"; "org/a"; "org/b"; "org/a"; "org/a"; "org/a"; "org/b"].
Proof. vm_compute. reflexivity. Qed.

Lemma fair_step_minimal_witness :
  exhausted fair_backlog ∅ (pick (list_to_map [("org/a", 3)]) fair_backlog ∅ ["org/a"; "org/b"]) = false.
Proof.
  refine (proj1 (fair_step_minimal (list_to_map [("org/a", 3)]) fair_backlog ∅ ["org/a"; "org/b"] _ _)).
  - intros t. rewrite !elem_of_cons, elem_of_nil. intros [->|[->|[]]]; (split; [discriminate|vm_compute; reflexivity]).
  - exists "org/a". split; [left|vm_compute; reflexivity].
Defined.
