(* ===== verification/Auth.v ===== *)
(** * Who may do what — src/internal/auth, src/internal/api/auth.go

    Roles, the authorization matrix, project scope, API tokens, and the
    interceptor that authenticates, authorizes and audits every call.
    [sha256] (crypto/sha256) and the OIDC token verifier (go-oidc) are
    arguments. *)

From S2P Require Import Prelude Float64 GoLib Phase Database JobStore Tables.

(** ** gRPC statuses *)

Inductive codes :=
| Unauthenticated | PermissionDenied | InvalidArgument | NotFound | FailedPrecondition | Unimplemented
| ResourceExhausted | Internal.

Record status := mkStatus { StCode : codes; StMessage : string }.

(** ** auth.go *)

Abbreviation Role := Z.

Definition RoleViewer : Role := 0.
Definition RoleMember : Role := 1.
Definition RoleOperator : Role := 2.
Definition RoleAdmin : Role := 3.

Definition roleNames : list (Role * string) :=
  [(RoleViewer, "viewer"); (RoleMember, "member"); (RoleOperator, "operator"); (RoleAdmin, "admin")].

Definition Roles : list Role := [RoleViewer; RoleMember; RoleOperator; RoleAdmin].

Definition Role_String (r : Role) : string :=
  match List.find (fun e => e.1 =? r) roleNames with
  | Some e => e.2
  | None => "role(" +:+ itoa r +:+ ")"
  end.

Definition ParseRole (s : string) : result string Role :=
  match List.find (fun e => String.eqb e.2 s) roleNames with
  | Some e => Ok e.1
  | None => Err ("unknown role " +:+ quote s +:+ " (want viewer|member|operator|admin)")
  end.

Definition PrincipalOIDC : string := "oidc".
Definition PrincipalToken : string := "token".
Definition PrincipalBootstrap : string := "bootstrap".

Record Principal := mkPrincipal {
  PType : string; PSubject : string; PDisplay : string; PRole : Role; PProject : string }.

(** The call context, as far as it matters: the principal, if one is set. *)
Abbreviation context := (option Principal).

Definition WithPrincipal (ctx : context) (p : Principal) : context := Some p.
Definition FromContext (ctx : context) : option Principal := ctx.

Definition CheckProject (ctx : context) (project : string) : result status unit :=
  match FromContext ctx with
  | None => Err (mkStatus Unauthenticated "no principal in context")
  | Some p =>
      if negb (String.eqb p.(PProject) "") && negb (String.eqb p.(PProject) project)
      then Err (mkStatus PermissionDenied
             ("token is scoped to project " +:+ quote p.(PProject) +:+ ", not " +:+ quote project))
      else Ok tt
  end.

(** ** matrix.go *)

Definition jobs_svc (m : string) : string := "/tangle.api.v1alpha1.JobsService/" +:+ m.
Definition targets_svc (m : string) : string := "/tangle.api.v1alpha1.TargetsService/" +:+ m.
Definition admin_svc (m : string) : string := "/rabi.admin.v1alpha1.AdminService/" +:+ m.

Definition minRole : gmap string Role := list_to_map
  [(jobs_svc "SubmitJob", RoleMember); (jobs_svc "GetJob", RoleViewer);
   (jobs_svc "ListJobs", RoleViewer); (jobs_svc "WatchJob", RoleViewer);
   (jobs_svc "CancelJob", RoleMember);
   (targets_svc "ListTargets", RoleViewer); (targets_svc "GetTarget", RoleViewer);
   ("/tangle.api.v1alpha1.UsageService/GetTenantUsage", RoleViewer);
   (admin_svc "WhoAmI", RoleViewer); (admin_svc "ListTokens", RoleOperator);
   (admin_svc "CreateToken", RoleAdmin); (admin_svc "RevokeToken", RoleAdmin);
   (admin_svc "CreateProject", RoleAdmin); (admin_svc "ListProjects", RoleOperator);
   (admin_svc "ArchiveProject", RoleAdmin); (admin_svc "SetQuota", RoleAdmin);
   (admin_svc "ListQuotas", RoleOperator); (admin_svc "ExportLedger", RoleViewer)].

#[global] Opaque minRole.

Definition MinRole (fullMethod : string) : option Role := minRole !! fullMethod.

Definition Authorize (p : Principal) (fullMethod : string) : result status unit :=
  match minRole !! fullMethod with
  | None => Err (mkStatus PermissionDenied
                   ("method " +:+ fullMethod +:+ " has no authorization matrix entry"))
  | Some want =>
      if p.(PRole) <? want then
        Err (mkStatus PermissionDenied
          (fullMethod +:+ " requires role " +:+ Role_String want +:+ " or higher; " +:+ p.(PType)
             +:+ " " +:+ quote p.(PDisplay) +:+ " has role " +:+ Role_String p.(PRole)))
      else Ok tt
  end.

(** ** oidc.go *)

Record OIDCConfig := mkOIDC {
  Issuer : string; ClientID : string; GroupsClaim : string; GroupRoles : gmap string Role; DefaultRole : Role }.

(** What the library's verifier yields for a valid JWT; its claims may not
    decode. *)
Record IDToken := mkIDToken { TIssuer : string; TSubject : string; TClaims : result string doc }.

Record OIDCVerifier := mkOIDCVerifier { VConfig : OIDCConfig; VVerifier : string -> result string IDToken }.

(** [NewOIDCVerifier]; [provider] is the discovery of an issuer, whose result
    makes a verifier for an audience. *)
Definition NewOIDCVerifier (provider : string -> result string (string -> string -> result string IDToken))
    (cfg : OIDCConfig) : result string OIDCVerifier :=
  guard? negb (String.eqb cfg.(Issuer) "" || String.eqb cfg.(ClientID) "") else "oidc: issuer and client id are required" in
  let cfg := if String.eqb cfg.(GroupsClaim) ""
             then mkOIDC cfg.(Issuer) cfg.(ClientID) "groups" cfg.(GroupRoles) cfg.(DefaultRole) else cfg in
  match provider cfg.(Issuer) with
  | Err e => Err ("oidc: discover " +:+ cfg.(Issuer) +:+ ": " +:+ e)
  | Ok verifier => Ok (mkOIDCVerifier cfg (verifier cfg.(ClientID)))
  end.

(** The loop over the groups: the highest role any mapped group grants. *)
Definition group_role (cfg : OIDCConfig) (groups : list any) : Role :=
  fold_left (fun role g =>
    match cfg.(GroupRoles) !! str_or_empty (Some g) with
    | Some r => if role <? r then r else role
    | None => role
    end) groups cfg.(DefaultRole).

Definition claim_name (claims : doc) (subject : string) : string :=
  let pick k := match as_str (claims !! k) with Some s => negb (String.eqb s "") | None => false end in
  match List.find pick ["email"; "preferred_username"; "name"] with
  | Some k => str_or_empty (claims !! k)
  | None => subject
  end.

Definition oidc_principal (cfg : OIDCConfig) (t : IDToken) (claims : doc) : Principal :=
  mkPrincipal PrincipalOIDC (t.(TIssuer) +:+ "|" +:+ t.(TSubject))
    (claim_name claims t.(TSubject))
    (group_role cfg (arr_or_nil (claims !! cfg.(GroupsClaim)))) "".

(** [OIDCVerifier.Verify]. *)
Definition OIDCVerifier_Verify (v : OIDCVerifier) (rawToken : string) : result string Principal :=
  match v.(VVerifier) rawToken with
  | Err e => Err ("oidc: " +:+ e)
  | Ok t =>
      match t.(TClaims) with
      | Err e => Err ("oidc: decode claims: " +:+ e)
      | Ok claims => Ok (oidc_principal v.(VConfig) t claims)
      end
  end.

(** ** token.go *)

Definition tokenPrefix : string := "rabi_".

Definition IsToken (bearer : string) : bool := has_prefix bearer tokenPrefix.

Definition TokenID_of (bearer : string) : option string :=
  match cut_prefix bearer tokenPrefix with
  | None => None
  | Some rest =>
      match cut rest "_"%char with
      | Some (id, _) => if String.eqb id "" then None else Some id
      | None => None
      end
  end.

Section Credentials.
Context (sha256 : string -> string).

Definition HashToken (plaintext : string) : string := hex (sha256 plaintext).

(** [MintToken] on the random bytes it reads: plaintext, id, hash. *)
Definition MintToken (idb sec : string) : string * string * string :=
  let id := hex idb in
  let plaintext := tokenPrefix +:+ id +:+ "_" +:+ hex sec in
  (plaintext, id, HashToken plaintext).

Definition VerifyTokenHash (presented storedHash : string) : bool :=
  String.eqb (HashToken presented) storedHash.

(** ** api/auth.go *)

(** [NewAuthenticator]'s result: the bootstrap digest, if enabled, and OIDC. *)
Record Authenticator := mkAuthenticator {
  bootstrapHash : option string;
  oidc : option OIDCVerifier }.

Definition NewAuthenticator (bootstrapToken : string)
    (o : option OIDCVerifier) : result string Authenticator :=
  match bootstrapToken, o with
  | "", None => Err "auth: configure RABI_OIDC_ISSUER and/or RABI_BOOTSTRAP_TOKEN"
  | "", _ => Ok (mkAuthenticator None o)
  | _, _ => Ok (mkAuthenticator (Some (sha256 bootstrapToken)) o)
  end.

(** Incoming metadata: the values of the two authorization headers. *)
Record metadata := mkMetadata { authorization : list string; gateway_authorization : list string }.

Definition bearerFromContext (md : option metadata) : string :=
  match md with
  | None => ""
  | Some md =>
      let bearer v := match cut_prefix v "Bearer " with
                      | Some tok => if String.eqb tok "" then None else Some tok
                      | None => None
                      end in
      default "" (head (omap bearer (md.(authorization) ++ md.(gateway_authorization))))
  end.

Definition authenticateToken (d : db) (now : Z) (bearer : string) : result status Principal * db :=
  match TokenID_of bearer with
  | None => (Err (mkStatus Unauthenticated "invalid credentials"), d)
  | Some id =>
      match GetToken d id with
      | Err _ => (Err (mkStatus Unauthenticated "invalid credentials"), d)
      | Ok rec =>
          if negb (VerifyTokenHash bearer rec.(TokenHash)) then
            (Err (mkStatus Unauthenticated "invalid credentials"), d)
          else match rec.(RevokedAt) with
          | Some _ => (Err (mkStatus Unauthenticated "token revoked"), d)
          | None =>
              match ParseRole rec.(TokRole) with
              | Err e => (Err (mkStatus Internal ("stored token role: " +:+ e)), d)
              | Ok role =>
                  (Ok (mkPrincipal PrincipalToken rec.(TokID) rec.(TokName) role rec.(TokProject)),
                   TouchToken d now rec.(TokID))
              end
          end
      end
  end.

Definition Authenticate (a : Authenticator) (d : db) (now : Z) (md : option metadata)
  : result status Principal * db :=
  let bearer := bearerFromContext md in
  if String.eqb bearer "" then (Err (mkStatus Unauthenticated "missing credentials"), d)
  else if bool_decide (Some (sha256 bearer) = a.(bootstrapHash)) then
    (Ok (mkPrincipal PrincipalBootstrap "bootstrap" "bootstrap" RoleAdmin ""), d)
  else if IsToken bearer then authenticateToken d now bearer
  else match a.(oidc) with
  | Some v =>
      match OIDCVerifier_Verify v bearer with
      | Ok p => (Ok p, d)
      | Err e => (Err (mkStatus Unauthenticated ("invalid credentials: " +:+ e)), d)
      end
  | None => (Err (mkStatus Unauthenticated "invalid credentials"), d)
  end.

Definition adminActions : list string :=
  [admin_svc "CreateToken"; admin_svc "RevokeToken"; admin_svc "CreateProject";
   admin_svc "ArchiveProject"; admin_svc "SetQuota"].

(** [audit]: best effort, a failed insert changes nothing. *)
Definition audit (d : db) (e : AuditEntry) : db := (RecordAudit d e).2.

Definition audit_of (p : Principal) (method decision reason : string) : AuditEntry :=
  mkAuditEntry p.(PType) p.(PSubject) p.(PDisplay) (Role_String p.(PRole)) method decision reason.

(** [check]: the interceptor around every RPC. *)
Definition check (a : Authenticator) (d : db) (now : Z) (md : option metadata) (fullMethod : string)
  : result status context * db :=
  match Authenticate a d now md with
  | (Err st, d1) =>
      (Err st, audit d1 (mkAuditEntry "anonymous" "-" "" "" fullMethod "deny" st.(StMessage)))
  | (Ok p, d1) =>
      match Authorize p fullMethod with
      | Err st => (Err st, audit d1 (audit_of p fullMethod "deny" st.(StMessage)))
      | Ok _ =>
          let d2 := if str_in fullMethod adminActions
                    then audit d1 (audit_of p fullMethod "allow" "") else d1 in
          (Ok (WithPrincipal None p), d2)
      end
  end.

(** [UnaryAuthInterceptor]: the handler runs only on an allowed call. *)
Definition intercept {A} (a : Authenticator) (d : db) (now : Z) (md : option metadata)
    (fullMethod : string) (handler : context -> db -> result status A * db) : result status A * db :=
  match check a d now md fullMethod with
  | (Err st, d1) => (Err st, d1)
  | (Ok ctx, d1) => handler ctx d1
  end.
End Credentials.

(** ** The matrix *)

(** Authorization fails closed and is decided by the matrix alone: a
    call is allowed exactly when the method has an entry and the principal's
    role is at least that entry's; so raising a role never loses a right. *)
Lemma Authorize_spec p m :
  (Authorize p m = Ok tt <-> exists want, MinRole m = Some want /\ want <= p.(PRole)) /\
  (forall p', p.(PRole) <= p'.(PRole) -> Authorize p m = Ok tt -> Authorize p' m = Ok tt).
Proof.
  assert (S : forall q, Authorize q m = Ok tt <-> exists want, MinRole m = Some want /\ want <= q.(PRole)).
  { intros q. unfold Authorize, MinRole. destruct (minRole !! m) as [w|].
    - destruct (Z.ltb_spec q.(PRole) w); split; try done.
      + intros (w' & [= ->] & Hle). lia.
      + intros _. exists w. split; [done|lia].
    - split; [done|]. by intros (w & ? & _). }
  split; [apply S|]. intros p' Hle. rewrite !S. intros (w & Hw & Hp). exists w. split; [done|lia].
Qed.

(** Every method that changes state outside its own bookkeeping. *)
Definition mutating : list string :=
  jobs_svc "SubmitJob" :: jobs_svc "CancelJob" :: adminActions.

Lemma forallb_elem {A} (f : A -> bool) l x : forallb f l = true -> x ∈ l -> f x = true.
Proof. rewrite forallb_forall. intros H Hx. by apply H, list_elem_of_In. Qed.

Lemma mutating_minRole m : m ∈ mutating -> MinRole m = Some RoleMember \/ MinRole m = Some RoleAdmin.
Proof.
  intros Hm. assert (H : bool_decide (MinRole m = Some RoleMember)
                         || bool_decide (MinRole m = Some RoleAdmin) = true).
  { apply (forallb_elem (fun m => bool_decide (MinRole m = Some RoleMember)
      || bool_decide (MinRole m = Some RoleAdmin)) mutating m); [vm_compute; reflexivity|done]. }
  apply orb_true_iff in H as [H|H]; to_prop; auto.
Qed.

Lemma adminActions_minRole m : m ∈ adminActions -> MinRole m = Some RoleAdmin.
Proof.
  intros Hm. apply (bool_decide_eq_true_1 (MinRole m = Some RoleAdmin)).
  apply (forallb_elem (fun m => bool_decide (MinRole m = Some RoleAdmin)) adminActions m); [|done].
  vm_compute. reflexivity.
Qed.

(** A viewer can never change jobs, tokens, projects or quotas: every
    mutating method is refused to a principal below the member role, and the
    administrative ones to everyone but admins. *)
Lemma viewers_never_mutate p m :
  (m ∈ mutating -> p.(PRole) < RoleMember -> Authorize p m <> Ok tt) /\
  (m ∈ adminActions -> p.(PRole) < RoleAdmin -> Authorize p m <> Ok tt).
Proof.
  assert (A : forall w, MinRole m = Some w -> p.(PRole) < w -> Authorize p m <> Ok tt).
  { intros w Hw Hp. unfold Authorize, MinRole in *. rewrite Hw.
    destruct (Z.ltb_spec p.(PRole) w); [done|lia]. }
  split.
  - intros [Hw|Hw]%mutating_minRole Hp; eapply A; try exact Hw; [done|].
    unfold RoleMember, RoleAdmin in *. lia.
  - intros Hm%adminActions_minRole. by apply A.
Qed.

(** A project-scoped principal reaches exactly its own project; an
    unscoped one reaches every project; without a principal nothing is
    reached. *)
Lemma CheckProject_spec ctx project :
  CheckProject ctx project = Ok tt <->
  exists p, ctx = Some p /\ (p.(PProject) = "" \/ p.(PProject) = project).
Proof.
  unfold CheckProject, FromContext. destruct ctx as [p|]; [|split; [done|by intros (p & ? & _)]].
  destruct (String.eqb_spec p.(PProject) "") as [E|E]; simpl.
  { split; [|done]. intros _. exists p. auto. }
  destruct (String.eqb_spec p.(PProject) project) as [E'|E']; simpl.
  { split; [|done]. intros _. exists p. auto. }
  split; [done|]. intros (q & [= <-] & [?|?]); done.
Qed.

(** ** Tokens *)

Section TokenLemmas.
Context (sha256 : string -> string).

Lemma hex_digit_plain n : 0 <= n < 16 -> hex_digit n <> "_"%char /\ code (hex_digit n) <> 0.
Proof.
  intros H. assert (E : forallb (fun k => negb (Ascii.eqb (hex_digit (Z.of_nat k)) "_"%char)
                           && negb (code (hex_digit (Z.of_nat k)) =? 0)) (seq 0 16) = true)
    by (vm_compute; reflexivity).
  rewrite forallb_forall in E. specialize (E (Z.to_nat n)). rewrite in_seq, Z2Nat.id in E by lia.
  specialize (E ltac:(lia)). to_prop. split; [by apply Ascii.eqb_neq|done].
Qed.

Lemma code_bound c : 0 <= code c < 256.
Proof. unfold code. pose proof (N_ascii_bounded c). lia. Qed.

(** The separator does not occur in hexadecimal text. *)
Lemma cut_hex s rest : cut (hex s +:+ String "_"%char rest) "_"%char = Some (hex s, rest).
Proof.
  assert (C : forall x t, x <> "_"%char -> cut (String x t) "_"%char =
    match cut t "_"%char with Some (a, b) => Some (String x a, b) | None => None end).
  { intros x t Hx. cbn [cut]. by rewrite (proj2 (Ascii.eqb_neq _ _) Hx). }
  induction s as [|c s IH]; [done|]. cbn [hex].
  pose proof (code_bound c) as B.
  destruct (hex_digit_plain (code c / 16)) as [H1 _]; [split; [apply Z.div_pos; lia|apply Z.div_lt_upper_bound; lia]|].
  destruct (hex_digit_plain (code c mod 16)) as [H2 _]; [apply Z.mod_pos_bound; lia|].
  by rewrite !append_cons, !C, IH by done.
Qed.

(** Minting and presenting agree: the plaintext of a minted token is
    recognised as an API token, carries the minted id, and verifies against
    the stored hash (at least one random id byte). *)
Lemma MintToken_roundtrip idb sec plaintext id hash :
  idb <> "" -> MintToken sha256 idb sec = (plaintext, id, hash) ->
  IsToken plaintext = true /\ TokenID_of plaintext = Some id /\
  VerifyTokenHash sha256 plaintext hash = true.
Proof.
  intros Hid [= <- <- <-]. unfold IsToken, TokenID_of, VerifyTokenHash. split_and!.
  - apply prefix_append.
  - rewrite cut_prefix_append. change ("_" +:+ hex sec) with (String "_"%char (hex sec)).
    rewrite cut_hex. by destruct idb.
  - apply String.eqb_refl.
Qed.

(** ** Authentication *)

Lemma authenticateToken_ok d now bearer p d' :
  authenticateToken sha256 d now bearer = (Ok p, d') ->
  exists id rec, TokenID_of bearer = Some id /\ d.(api_tokens) !! id = Some rec /\
    rec.(RevokedAt) = None /\ HashToken sha256 bearer = rec.(TokenHash) /\
    ParseRole rec.(TokRole) = Ok p.(PRole) /\ p.(PProject) = rec.(TokProject) /\
    p.(PSubject) = rec.(TokID) /\ d' = TouchToken d now rec.(TokID).
Proof.
  unfold authenticateToken, GetToken. destruct (TokenID_of bearer) as [id|]; [|done].
  destruct (d.(api_tokens) !! id) as [rec|] eqn:E; [|done].
  destruct (VerifyTokenHash _ _ _) eqn:V; [|done]. destruct rec.(RevokedAt) eqn:R; [done|].
  destruct (ParseRole _) as [role|] eqn:P; [|done]. intros [= <- <-].
  apply String.eqb_eq in V. exists id, rec. by split_and!.
Qed.

(** (C30) An API token authenticates only against a live stored token whose
    hash it matches, and the principal gets exactly that token's role and
    project; in particular a revoked or unknown token never authenticates. *)
Theorem token_authentication_sound a d now md p d' :
  Authenticate sha256 a d now md = (Ok p, d') -> p.(PType) = PrincipalToken ->
  exists id rec, TokenID_of (bearerFromContext md) = Some id /\ d.(api_tokens) !! id = Some rec /\
    rec.(RevokedAt) = None /\ HashToken sha256 (bearerFromContext md) = rec.(TokenHash) /\
    ParseRole rec.(TokRole) = Ok p.(PRole) /\ p.(PProject) = rec.(TokProject).
Proof.
  unfold Authenticate. destruct (String.eqb _ ""); [done|]. case_bool_decide as B.
  { by intros [= <- <-]. }
  destruct (IsToken _) eqn:T.
  - intros H _. apply authenticateToken_ok in H as (id & rec & ? & ? & ? & ? & ? & ? & _).
    exists id, rec. by split_and!.
  - destruct a.(oidc) as [v|]; [|done]. unfold OIDCVerifier_Verify. destruct (v.(VVerifier) _) as [t|]; [|done].
    destruct t.(TClaims); [|done]. by intros [= <- <-].
Qed.

(** The audit entries the interceptor writes satisfy the table's constraint. *)
Lemma audit_deny d e : e.(ADecision) = "deny" \/ e.(ADecision) = "allow" ->
  (audit d e).(audit_log) = d.(audit_log) ++ [e].
Proof. intros H. unfold audit, RecordAudit. by destruct H as [-> | ->]. Qed.

Lemma Authenticate_audit a d now md : (Authenticate sha256 a d now md).2.(audit_log) = d.(audit_log).
Proof. unfold Authenticate, authenticateToken. by repeat case_match. Qed.

(** What the interceptor may write for a caller who presents [bearer]: the last
    use of the stored token that the bearer is, if it is not revoked, and one
    more entry of the audit log. *)
Definition touched (bearer : string) (d : db) (now : Z) (d0 : db) : Prop :=
  exists tokens log, d0 = set_audit_log (set_api_tokens d tokens) (d.(audit_log) ++ log) /\ (length log <= 1)%nat /\
    (tokens = d.(api_tokens) \/
     exists id rec, TokenID_of bearer = Some id /\ d.(api_tokens) !! id = Some rec /\ rec.(RevokedAt) = None /\
       HashToken sha256 bearer = rec.(TokenHash) /\ tokens = alter (touch_row now) rec.(TokID) d.(api_tokens)).

Lemma touched_refl bearer d now : touched bearer d now d.
Proof. exists d.(api_tokens), []. rewrite app_nil_r. split; [by destruct d|]. split; [cbn; lia|by left]. Qed.

Lemma Authenticate_frame a d now md r d1 :
  Authenticate sha256 a d now md = (r, d1) ->
  d1 = d \/ exists id rec, TokenID_of (bearerFromContext md) = Some id /\ d.(api_tokens) !! id = Some rec /\
    rec.(RevokedAt) = None /\ HashToken sha256 (bearerFromContext md) = rec.(TokenHash) /\ d1 = TouchToken d now rec.(TokID).
Proof.
  unfold Authenticate. cbv zeta. destruct (String.eqb _ ""); [intros [= _ <-]; by left|].
  case_bool_decide; [intros [= _ <-]; by left|]. destruct (IsToken _).
  - destruct r as [p|st]; intros E.
    + right. apply authenticateToken_ok in E as (id & rec & H1 & H2 & H3 & H4 & _ & _ & _ & H5). by exists id, rec.
    + left. revert E. unfold authenticateToken. repeat case_match; by intros [= _ <-].
  - destruct a.(oidc) as [v|]; [destruct (OIDCVerifier_Verify v _)|]; intros [= _ <-]; by left.
Qed.

(** The interceptor writes nothing else, and the principal of a call that it
    lets through is the one the credential stands for. *)
Lemma check_frame a d now md method r d' :
  check sha256 a d now md method = (r, d') ->
  touched (bearerFromContext md) d now d' /\
  forall ctx, r = Ok ctx -> exists p, ctx = Some p /\ (Authenticate sha256 a d now md).1 = Ok p /\ Authorize p method = Ok tt.
Proof.
  assert (W : forall d1 log, (d1 = d \/ exists id rec, TokenID_of (bearerFromContext md) = Some id /\ d.(api_tokens) !! id = Some rec /\
      rec.(RevokedAt) = None /\ HashToken sha256 (bearerFromContext md) = rec.(TokenHash) /\ d1 = TouchToken d now rec.(TokID)) ->
    (length log <= 1)%nat -> touched (bearerFromContext md) d now (set_audit_log d1 (d.(audit_log) ++ log))).
  { intros d1 log [->|(id & rec & H1 & H2 & H3 & H4 & ->)] L.
    - exists d.(api_tokens), log. split; [by destruct d|]. split; [exact L|by left].
    - eexists _, log. split; [reflexivity|]. split; [exact L|]. right. by exists id, rec. }
  assert (D : forall d1 e, e.(ADecision) = "deny" \/ e.(ADecision) = "allow" -> audit d1 e = set_audit_log d1 (d1.(audit_log) ++ [e])).
  { intros d1 e. unfold audit, RecordAudit. by intros [-> | ->]. }
  unfold check. generalize (str_in method adminActions). intros adm. pose proof (Authenticate_audit a d now md) as HA.
  destruct (Authenticate sha256 a d now md) as [[p|st] d1] eqn:E; cbn [snd] in HA; apply Authenticate_frame in E.
  - destruct (Authorize p method) as [[]|st] eqn:Z; intros [= <- <-]; split.
    + destruct adm.
      { rewrite D, HA by (right; reflexivity). apply W; [exact E|cbn; lia]. }
      replace d1 with (set_audit_log d1 (d.(audit_log) ++ [])) by (rewrite app_nil_r, <- HA; by destruct d1).
      apply W; [exact E|cbn; lia].
    + intros ctx [= <-]. exists p. split; [reflexivity|]. split; [reflexivity|exact Z].
    + rewrite D, HA by (left; reflexivity). apply W; [exact E|cbn; lia].
    + intros ctx [=].
  - intros [= <- <-]. split; [|intros ctx [=]]. rewrite D, HA by (left; reflexivity). apply W; [exact E|cbn; lia].
Qed.

Lemma intercept_ok {A} a d now md method (handler : context -> db -> result status A * db) x d' :
  intercept sha256 a d now md method handler = (Ok x, d') ->
  exists p d0, (Authenticate sha256 a d now md).1 = Ok p /\ Authorize p method = Ok tt /\
    touched (bearerFromContext md) d now d0 /\ handler (Some p) d0 = (Ok x, d').
Proof.
  unfold intercept. destruct (check _ _ _ _ _ _) as [[ctx|] d0] eqn:C; [|done]. apply check_frame in C as [T P].
  destruct (P ctx eq_refl) as (p & -> & H1 & H2). intros H.
  exists p, d0. exact (conj H1 (conj H2 (conj T H))).
Qed.

Lemma Authenticate_bearer a d now md md' :
  bearerFromContext md = bearerFromContext md' -> Authenticate sha256 a d now md = Authenticate sha256 a d now md'.
Proof. intros E. unfold Authenticate. by rewrite E. Qed.

(** The credential alone decides: two calls that present the same bearer are
    treated alike. *)
Lemma check_bearer a d now md md' m :
  bearerFromContext md = bearerFromContext md' -> check sha256 a d now md m = check sha256 a d now md' m.
Proof. intros E. unfold check. by rewrite (Authenticate_bearer _ _ _ _ _ E). Qed.

(** (C29) Every denial is audited, and every allowed administrative action:
    the interceptor appends exactly one entry for each, naming the method and
    the decision, and none for other allowed calls; and it lets a call through
    only with a principal the matrix allows. *)
Theorem check_audited a d now md m r d' :
  check sha256 a d now md m = (r, d') ->
  match r with
  | Err st => exists e, d'.(audit_log) = d.(audit_log) ++ [e] /\ e.(AMethod) = m /\
                        e.(ADecision) = "deny" /\ e.(AReason) = st.(StMessage)
  | Ok ctx => exists p, ctx = Some p /\ Authorize p m = Ok tt /\
      (Authenticate sha256 a d now md).1 = Ok p /\
      if str_in m adminActions
      then d'.(audit_log) = d.(audit_log) ++ [audit_of p m "allow" ""]
      else d'.(audit_log) = d.(audit_log)
  end.
Proof.
  unfold check. generalize (str_in m adminActions). intros adm.
  pose proof (Authenticate_audit a d now md) as HA.
  destruct (Authenticate sha256 a d now md) as [[p|st] d1] eqn:E; simpl in HA.
  - destruct (Authorize p m) as [[]|st] eqn:Z; intros [= <- <-].
    + exists p. split_and!; [reflexivity|exact Z|reflexivity|].
      destruct adm; [|exact HA]. rewrite audit_deny, HA; [reflexivity|by right].
    + exists (audit_of p m "deny" st.(StMessage)).
      split; [rewrite audit_deny, HA; [reflexivity|by left]|split_and!; reflexivity].
  - intros [= <- <-]. exists (mkAuditEntry "anonymous" "-" "" "" m "deny" st.(StMessage)).
    split; [rewrite audit_deny, HA; [reflexivity|by left]|split_and!; reflexivity].
Qed.
End TokenLemmas.

(** ** A concrete token *)

(** A stand-in digest for evaluation; the development never fixes one. *)
Definition demo_sha256 (s : string) : string := "#" +:+ s.

Definition demo_token_db : db :=
  (InsertToken empty_db 5 (mkTokenRecord "6162" "ci" "acme/chem" "member"
     (HashToken demo_sha256 "rabi_6162_7879") "bootstrap:bootstrap" 0 None None)).2.

Definition demo_auth : Authenticator := mkAuthenticator (Some (demo_sha256 "boot")) None.

Definition demo_md : option metadata := Some (mkMetadata ["Bearer rabi_6162_7879"] []).

Lemma MintToken_roundtrip_witness :
  exists p id h, MintToken demo_sha256 "ab" "xy" = (p, id, h) /\ p = "rabi_6162_7879" /\
    TokenID_of p = Some id /\ VerifyTokenHash demo_sha256 p h = true.
Proof.
  eexists _, _, _. split; [reflexivity|]. split; [vm_compute; reflexivity|].
  apply (MintToken_roundtrip demo_sha256 "ab" "xy"); [discriminate|reflexivity].
Defined.

Lemma token_authentication_sound_witness :
  exists p d', Authenticate demo_sha256 demo_auth demo_token_db 9 demo_md = (Ok p, d') /\
    exists id rec, TokenID_of (bearerFromContext demo_md) = Some id /\
      demo_token_db.(api_tokens) !! id = Some rec /\ p.(PProject) = rec.(TokProject).
Proof.
  exists (mkPrincipal PrincipalToken "6162" "ci" RoleMember "acme/chem"),
    (Authenticate demo_sha256 demo_auth demo_token_db 9 demo_md).2.
  assert (E : Authenticate demo_sha256 demo_auth demo_token_db 9 demo_md =
    (Ok (mkPrincipal PrincipalToken "6162" "ci" RoleMember "acme/chem"),
     (Authenticate demo_sha256 demo_auth demo_token_db 9 demo_md).2)) by (vm_compute; reflexivity).
  split; [exact E|].
  destruct (token_authentication_sound demo_sha256 demo_auth demo_token_db 9 demo_md _ _ E eq_refl) as (id & rec & H1 & H2 & _ & _ & _ & H3).
  exists id, rec. exact (conj H1 (conj H2 H3)).
Defined.

Lemma check_audited_witness :
  exists e, (check demo_sha256 demo_auth demo_token_db 9 demo_md (admin_svc "SetQuota")).2.(audit_log)
              = demo_token_db.(audit_log) ++ [e] /\ e.(ADecision) = "deny".
Proof.
  pose proof (check_audited demo_sha256 demo_auth demo_token_db 9 demo_md (admin_svc "SetQuota") _ _
                (surjective_pairing _)) as H.
  assert (E : is_ok (check demo_sha256 demo_auth demo_token_db 9 demo_md (admin_svc "SetQuota")).1 = false)
    by (vm_compute; reflexivity).
  destruct (check demo_sha256 demo_auth demo_token_db 9 demo_md (admin_svc "SetQuota")) as [[c|st] d'].
  - discriminate E.
  - destruct H as (e & H1 & _ & H2 & _). exists e. exact (conj H1 H2).
Defined.
