(* ===== verification/Admission.v ===== *)
(** * Admission — src/internal/job/validate.go

    The schema validator (santhosh-tekuri/jsonschema with the embedded
    QuantumJob schema) is the argument [schema_validate]; the order in which
    Go ranges over a map is the argument [range].  [SchemaSound] states what
    the schema guarantees and the type assertions after it rely on. *)

From S2P Require Import Prelude Float64 GoLib Phase.

Definition specKnownUnits : list string := ["qpu-seconds"; "shots"; "tasks"; "credits"].

Definition payloadFieldForKind : list (string * string) :=
  [("gate-model", "gateModel"); ("analog-hamiltonian", "analogHamiltonian"); ("annealing", "annealing");
   ("pulse", "pulse"); ("logical", "logical")].

Definition payload_field (kind : string) : string :=
  match List.find (fun e => String.eqb e.1 kind) payloadFieldForKind with
  | Some e => e.2
  | None => ""
  end.

Record Condition := mkCondition {
  CType : string; CStatus : string; CReason : string; CMessage : string }.

(** The sets a Go [map[string]bool] stands for, as lists. *)
Record FleetView := mkFleetView { ProgramFormats : list string; BillingUnits : list string }.

Record Admission := mkAdmission {
  ATenant : string; AName : string; ADoc : doc; Warnings : list Condition }.

Inductive admit_error :=
| DocumentRequired
| StatusSetByClient
| SchemaFailed (detail : string)
| TenantMismatch (tenant requested : string)
| ExtraPayload (field kind : string)
| DeadlineUnparsable (raw : string)
| DeadlinePast (raw : string)
| UnknownUnit (unit : string) (known : list string)
| TypeAssertionPanic (path : string).

(** The rendered error; [DeadlineUnparsable] shows the input where Go shows
    the parser's explanation. *)
Definition admit_message (e : admit_error) : string :=
  match e with
  | DocumentRequired => "quantum_job document is required"
  | StatusSetByClient => "/status: may not be set by clients (written by the control plane only)"
  | SchemaFailed m => "schema validation failed: " +:+ m
  | TenantMismatch t r => "/metadata/tenant: " +:+ quote t +:+ " does not match request tenant " +:+ quote r
  | ExtraPayload f k =>
      "/spec/workload/" +:+ f +:+ ": payload does not match kind " +:+ quote k
        +:+ " (exactly one modality payload allowed)"
  | DeadlineUnparsable raw => "/spec/deadline: not a valid RFC 3339 timestamp: " +:+ raw
  | DeadlinePast raw => "/spec/deadline: " +:+ raw +:+ " is in the past"
  | UnknownUnit u known =>
      "/spec/budget/limits/" +:+ u +:+ ": unknown native unit (known: " +:+ join known ", " +:+ ")"
  | TypeAssertionPanic p => "panic: interface conversion at " +:+ p
  end.

Definition programFormat (workload : doc) (payloadField : string) : string :=
  match as_obj (workload !! payloadField) with
  | None => ""
  | Some payload =>
      match as_obj (payload !! "program") with
      | None => ""
      | Some program => str_or_empty (program !! "format")
      end
  end.

Definition knownUnitList (fleet : FleetView) : list string :=
  sort_strings (specKnownUnits
    ++ List.filter (fun u => negb (str_in u specKnownUnits)) (remove_dups fleet.(BillingUnits))).

Definition known_unit (fleet : FleetView) (u : string) : bool :=
  str_in u specKnownUnits || str_in u fleet.(BillingUnits).

Section Admit.
Context (schema_validate : doc -> option string) (range : list string -> list string).

(** A type assertion [v.(T)] without the comma-ok form. *)
Definition assert_obj (v : option any) (path : string) : result admit_error doc :=
  match as_obj v with Some m => Ok m | None => Err (TypeAssertionPanic path) end.
Definition assert_str (v : option any) (path : string) : result admit_error string :=
  match as_str v with Some s => Ok s | None => Err (TypeAssertionPanic path) end.

(** The first payload field of another kind that the workload carries. *)
Definition extra_payload (workload : doc) (want : string) : option string :=
  List.find (fun f => negb (String.eqb f want) && bool_decide (is_Some (workload !! f)))
            (range (snd <$> payloadFieldForKind)).

Definition check_deadline (now : Z) (spec : doc) : result admit_error unit :=
  match as_str (spec !! "deadline") with
  | None => Ok tt
  | Some raw =>
      match parse_rfc3339 raw with
      | None => Err (DeadlineUnparsable raw)
      | Some deadline => if now <? deadline then Ok tt else Err (DeadlinePast raw)
      end
  end.

Definition limit_units (spec : doc) : list string :=
  fst <$> map_to_list (obj_or_nil (obj_or_nil (spec !! "budget") !! "limits")).

Definition unknown_unit (fleet : FleetView) (spec : doc) : option string :=
  List.find (fun u => negb (known_unit fleet u)) (range (limit_units spec)).

Definition format_warning (fleet : FleetView) (workload : doc) (want : string) : list Condition :=
  let format := programFormat workload want in
  if negb (String.eqb format "") && negb (str_in format fleet.(ProgramFormats)) then
    [mkCondition "FormatAvailable" "False" "NoRegisteredTarget"
       ("no registered target currently accepts program format " +:+ quote format
          +:+ "; the job will stay PENDING until one does")]
  else [].

(** [Admit] of a document ([None] is the nil map). *)
Definition Admit (d : option doc) (requestTenant : string) (fleet : FleetView) (now : Z)
  : result admit_error Admission :=
  match d with
  | None => Err DocumentRequired
  | Some d =>
      guard? negb (bool_decide (is_Some (d !! "status"))) else StatusSetByClient in
      match schema_validate d with
      | Some m => Err (SchemaFailed m)
      | None =>
          let? metadata := assert_obj (d !! "metadata") "metadata" in
          let? spec := assert_obj (d !! "spec") "spec" in
          let? name := assert_str (metadata !! "name") "metadata.name" in
          let? tenant := assert_str (metadata !! "tenant") "metadata.tenant" in
          guard? String.eqb requestTenant "" || String.eqb requestTenant tenant
            else (TenantMismatch tenant requestTenant) in
          let? workload := assert_obj (spec !! "workload") "spec.workload" in
          let? kind := assert_str (workload !! "kind") "spec.workload.kind" in
          let want := payload_field kind in
          match extra_payload workload want with
          | Some f => Err (ExtraPayload f kind)
          | None =>
              let? _ := check_deadline now spec in
              match unknown_unit fleet spec with
              | Some u => Err (UnknownUnit u (knownUnitList fleet))
              | None => Ok (mkAdmission tenant name d (format_warning fleet workload want))
              end
          end
      end
  end.

(** ** Correctness *)

(** What the embedded schema requires of a valid document. *)
Definition SchemaSound : Prop := forall d, schema_validate d = None ->
  exists metadata spec workload name tenant kind,
    as_obj (d !! "metadata") = Some metadata /\ as_obj (d !! "spec") = Some spec /\
    as_str (metadata !! "name") = Some name /\ as_str (metadata !! "tenant") = Some tenant /\
    as_obj (spec !! "workload") = Some workload /\ as_str (workload !! "kind") = Some kind.

Hypothesis range_perm : forall l, range l ≡ₚ l.

(** The declarative reading of admission. *)
Record admissible (d : doc) (requestTenant : string) (fleet : FleetView) (now : Z)
    (metadata spec workload : doc) (name tenant kind : string) : Prop := mkAdmissible {
  adm_status : d !! "status" = None;
  adm_schema : schema_validate d = None;
  adm_metadata : as_obj (d !! "metadata") = Some metadata;
  adm_spec : as_obj (d !! "spec") = Some spec;
  adm_name : as_str (metadata !! "name") = Some name;
  adm_tenant : as_str (metadata !! "tenant") = Some tenant;
  adm_workload : as_obj (spec !! "workload") = Some workload;
  adm_kind : as_str (workload !! "kind") = Some kind;
  adm_envelope : requestTenant = "" \/ requestTenant = tenant;
  adm_payload : forall k f, (k, f) ∈ payloadFieldForKind -> f <> payload_field kind -> workload !! f = None;
  adm_deadline : forall raw, as_str (spec !! "deadline") = Some raw ->
    exists t, parse_rfc3339 raw = Some t /\ now < t;
  adm_units : forall u, u ∈ limit_units spec -> u ∈ specKnownUnits \/ u ∈ fleet.(BillingUnits) }.

Lemma find_none_iff {A} (f : A -> bool) l : List.find f l = None <-> forall x, x ∈ l -> f x = false.
Proof.
  split.
  - intros H x Hx. by apply (List.find_none f l), list_elem_of_In.
  - intros H. destruct (List.find f l) as [x|] eqn:E; [|done].
    apply List.find_some in E as [Hx E]. rewrite H in E; [done|by apply list_elem_of_In].
Qed.

Lemma extra_payload_none workload want :
  extra_payload workload want = None <->
  forall k f, (k, f) ∈ payloadFieldForKind -> f <> want -> workload !! f = None.
Proof.
  unfold extra_payload. rewrite find_none_iff. split.
  - intros H k f Hf Hne. specialize (H f). rewrite range_perm, list_elem_of_fmap in H.
    specialize (H ltac:(by exists (k, f))). apply andb_false_iff in H as [H|H]; to_prop; [done|].
    by apply eq_None_not_Some.
  - intros H f. rewrite range_perm. intros ([k f'] & -> & Hf)%list_elem_of_fmap. simpl.
    destruct (String.eqb_spec f' want) as [|Hne]; [done|]. simpl.
    rewrite (H k f' Hf Hne). by apply bool_decide_eq_false_2; intros [].
Qed.

Lemma unknown_unit_none fleet spec :
  unknown_unit fleet spec = None <->
  forall u, u ∈ limit_units spec -> u ∈ specKnownUnits \/ u ∈ fleet.(BillingUnits).
Proof.
  unfold unknown_unit, known_unit. rewrite find_none_iff. split; intros H u Hu.
  - specialize (H u). rewrite range_perm in H. specialize (H Hu). to_prop.
    apply orb_true_iff in H. by rewrite !str_in_elem in H.
  - rewrite range_perm in Hu. apply negb_false_iff, orb_true_iff. rewrite !str_in_elem. by apply H.
Qed.

Lemma check_deadline_ok now spec :
  check_deadline now spec = Ok tt <->
  forall raw, as_str (spec !! "deadline") = Some raw -> exists t, parse_rfc3339 raw = Some t /\ now < t.
Proof.
  unfold check_deadline. destruct (as_str _) as [raw|]; [|done].
  destruct (parse_rfc3339 raw) as [t|] eqn:E.
  - destruct (Z.ltb_spec now t) as [Hl|Hl]; split; try done.
    + intros _ r [= <-]. by exists t.
    + intros H. destruct (H raw eq_refl) as (t' & E' & Hlt). rewrite E in E'. injection E' as <-. lia.
  - split; [done|]. intros H. destruct (H raw eq_refl) as (t' & E' & _). congruence.
Qed.

(** (C28) Admission accepts exactly the documents with no client-written
    status that pass the schema, agree with the request's tenant, carry no
    payload of another modality, have a future deadline (if any) and only
    known budget units; it returns the document unchanged, and an unsupported
    program format is at most a warning. *)
Theorem Admit_spec d requestTenant fleet now adm :
  Admit (Some d) requestTenant fleet now = Ok adm <->
  exists metadata spec workload name tenant kind,
    admissible d requestTenant fleet now metadata spec workload name tenant kind /\
    adm = mkAdmission tenant name d (format_warning fleet workload (payload_field kind)).
Proof.
  unfold Admit, assert_obj, assert_str. split.
  - intros H. destruct (bool_decide _) eqn:E1; simpl in H; [done|]. to_prop.
    destruct (schema_validate d) eqn:E2; [done|].
    destruct (as_obj (d !! "metadata")) as [metadata|] eqn:E3; [|done]. simpl in H.
    destruct (as_obj (d !! "spec")) as [spec|] eqn:E4; [|done]. simpl in H.
    destruct (as_str (metadata !! "name")) as [name|] eqn:E5; [|done]. simpl in H.
    destruct (as_str (metadata !! "tenant")) as [tenant|] eqn:E6; [|done]. simpl in H.
    destruct (_ || _) eqn:E7 in H; [|done].
    destruct (as_obj (spec !! "workload")) as [workload|] eqn:E8; [|done]. simpl in H.
    destruct (as_str (workload !! "kind")) as [kind|] eqn:E9; [|done]. simpl in H.
    destruct (extra_payload _ _) eqn:E10; [done|].
    destruct (check_deadline now spec) as [[]|] eqn:E11; [|done]. simpl in H.
    destruct (unknown_unit _ _) eqn:E12; [done|]. injection H as <-.
    exists metadata, spec, workload, name, tenant, kind. split; [|done].
    apply orb_true_iff in E7. rewrite !String.eqb_eq in E7.
    constructor; try done; [by apply eq_None_not_Some|by apply extra_payload_none|
      by apply check_deadline_ok|by apply unknown_unit_none].
  - intros (metadata & spec & workload & name & tenant & kind & [] & ->).
    rewrite adm_status0, bool_decide_eq_false_2 by (by intros []). simpl.
    rewrite adm_schema0, adm_metadata0. simpl. rewrite adm_spec0. simpl.
    rewrite adm_name0. simpl. rewrite adm_tenant0. simpl.
    replace (String.eqb requestTenant "" || String.eqb requestTenant tenant) with true
      by (symmetry; apply orb_true_iff; by rewrite !String.eqb_eq).
    rewrite adm_workload0. simpl. rewrite adm_kind0. simpl.
    rewrite (proj2 (extra_payload_none _ _)) by done.
    rewrite (proj2 (check_deadline_ok _ _)) by done. simpl.
    by rewrite (proj2 (unknown_unit_none _ _)).
Qed.

(** The unchecked type assertions of admission cannot fail: with a
    schema that guarantees the fields they read, [Admit] never panics. *)
Lemma Admit_never_panics d requestTenant fleet now path :
  SchemaSound -> Admit d requestTenant fleet now <> Err (TypeAssertionPanic path).
Proof.
  intros HS. unfold Admit, assert_obj, assert_str. destruct d as [d|]; [|done].
  destruct (bool_decide _); simpl; [done|]. destruct (schema_validate d) eqn:E; [done|].
  destruct (HS d E) as (metadata & spec & workload & name & tenant & kind & -> & -> & H1 & H2 & H3 & H4).
  simpl. rewrite H1. simpl. rewrite H2. simpl. destruct (_ || _); [|done]. rewrite H3. simpl. rewrite H4. simpl.
  destruct (extra_payload _ _); [done|]. unfold check_deadline.
  destruct (as_str (spec !! "deadline")); [destruct (parse_rfc3339 _); [destruct (_ <? _)|]|];
    simpl; try done; by destruct (unknown_unit _ _).
Qed.
End Admit.

(** ** A concrete schema *)

(** A validator that checks the fields [SchemaSound] names and nothing else. *)
Definition demo_schema (d : doc) : option string :=
  match as_obj (d !! "metadata"), as_obj (d !! "spec") with
  | Some metadata, Some spec =>
      match as_str (metadata !! "name"), as_str (metadata !! "tenant"), as_obj (spec !! "workload") with
      | Some _, Some _, Some workload =>
          match as_str (workload !! "kind") with Some _ => None | None => Some "kind" end
      | _, _, _ => Some "fields"
      end
  | _, _ => Some "objects"
  end.

Lemma demo_schema_sound : SchemaSound demo_schema.
Proof.
  intros d. unfold demo_schema.
  destruct (as_obj (d !! "metadata")) as [m|]; [|done]. destruct (as_obj (d !! "spec")) as [s|]; [|done].
  destruct (as_str (m !! "name")) as [n|] eqn:E1; [|done].
  destruct (as_str (m !! "tenant")) as [t|] eqn:E2; [|done].
  destruct (as_obj (s !! "workload")) as [w|] eqn:E3; [|done].
  destruct (as_str (w !! "kind")) as [k|] eqn:E4; [|done]. intros _.
  exists m, s, w, n, t, k. by split_and!.
Qed.

Definition demo_document : doc :=
  mkdoc [("metadata", jobj [("name", JStr "bell"); ("tenant", JStr "acme/chem")]);
         ("spec", jobj [("workload", jobj [("kind", JStr "gate-model");
            ("gateModel", jobj [("shots", JNum (f_of_Z 100));
               ("program", jobj [("format", JStr "openqasm3")])])])])].

Lemma Admit_spec_witness :
  exists adm, Admit demo_schema (fun l => l) (Some demo_document) "" (mkFleetView [] []) 0 = Ok adm /\
    exists metadata spec workload name tenant kind,
      admissible demo_schema demo_document "" (mkFleetView [] []) 0 metadata spec workload name tenant kind.
Proof.
  assert (E : is_ok (Admit demo_schema (fun l => l) (Some demo_document) "" (mkFleetView [] []) 0) = true)
    by (vm_compute; reflexivity).
  destruct (Admit demo_schema (fun l => l) (Some demo_document) "" (mkFleetView [] []) 0) as [adm|] eqn:A;
    [|discriminate E].
  exists adm. split; [reflexivity|].
  destruct (proj1 (Admit_spec demo_schema (fun l => l) (fun l => Permutation_refl l) demo_document ""
     (mkFleetView [] []) 0 adm) A) as (m & s & w & n & t & k & H & _).
  exists m, s, w, n, t, k. exact H.
Defined.

Lemma Admit_never_panics_witness :
  Admit demo_schema (fun l => l) (Some demo_document) "" (mkFleetView [] []) 0
  <> Err (TypeAssertionPanic "spec").
Proof.
  apply (Admit_never_panics demo_schema (fun l => l) (Some demo_document) "" (mkFleetView [] []) 0 "spec").
  apply demo_schema_sound.
Defined.
