(* ===== verification/Api.v ===== *)
(** * The API handlers — src/internal/api/{jobs,services,admin}.go

    Each RPC handler as a function of the call context and the database, in
    the order of the code's checks.  [canceller] is the dispatcher's
    [CancelJob], seen through the interface [TaskCanceller]. *)

From S2P Require Import Prelude Float64 GoLib Phase Database JobStore Tables Lifecycle Auth Admission.

(** ** Handlers: database in, status or response and database out *)

Abbreviation api A := (db -> result status A * db).

Definition aret {A} (a : A) : api A := fun d => (Ok a, d).
Definition afail {A} (c : codes) (m : string) : api A := fun d => (Err (mkStatus c m), d).
Definition abind {A B} (m : api A) (k : A -> api B) : api B :=
  fun d => match m d with (Ok a, d') => k a d' | (Err e, d') => (Err e, d') end.
Definition alift {A} (r : result status A) : api A := fun d => (r, d).
(** A store call, with the handler's wrapping of its error. *)
Definition acall {A} (c : db -> call A) (wrap : store_err -> status) : api A :=
  fun d => match c d with (Ok a, d') => (Ok a, d') | (Err e, d') => (Err (wrap e), d') end.
Definition aread {A} (f : db -> A) : api A := fun d => (Ok (f d), d).
(** A store call that cannot fail. *)
Definition awrite {A} (f : db -> A * db) : api A := fun d => let '(a, d') := f d in (Ok a, d').

Notation "'do?' x := m 'in' k" := (abind m (fun x => k))
  (at level 10, x pattern, m at level 100, k at level 200) : rabi_scope.

(** ** Protobuf messages *)

Record ProtoJob := mkProtoJob {
  PbJobId : string; PbTenant : string; PbQuantumJob : doc; PbStatus : doc;
  PbCreatedAt : option Z; PbUpdatedAt : option Z }.

Definition ts_or_nil (t : Z) : option Z := if is_zero t then None else Some t.

Definition jobToProto (rec : JobRecord) : ProtoJob :=
  mkProtoJob rec.(JobID) rec.(Tenant) rec.(Doc) rec.(Status)
    (ts_or_nil rec.(CreatedAt)) (ts_or_nil rec.(UpdatedAt)).

(** ** jobs.go *)

Definition defaultPageSize : Z := 100.
Definition maxPageSize : Z := 1000.

(** [conditionToMap]: JSON with omitempty on reason and message. *)
Definition conditionToMap (c : Condition) : doc :=
  let omit k v m := if String.eqb v "" then m else <[k := JStr v]> m in
  omit "reason" c.(CReason) (omit "message" c.(CMessage)
    (mkdoc [("type", JStr c.(CType)); ("status", JStr c.(CStatus))])).

Definition appendCondition (st : doc) (c : Condition) : doc :=
  <["conditions" := JArr (arr_or_nil (st !! "conditions") ++ [JObj (conditionToMap c)])]> st.

Definition declaredCosts (d : doc) : list (string * float64) :=
  let spec := obj_or_nil (d !! "spec") in
  let workload := obj_or_nil (spec !! "workload") in
  let gm := obj_or_nil (workload !! "gateModel") in
  match as_num (gm !! "shots") with
  | Some shots => if fgt shots f0 then [("shots", shots)] else []
  | None => []
  end.

(** [status.Errorf(codes.Internal, prefix+": %v", err)]. *)
Definition internal (prefix : string) (e : store_err) : status :=
  mkStatus Internal (prefix +:+ ": " +:+ store_message e).

Definition loadJob (ctx : context) (jobID : string) : api JobRecord :=
  if String.eqb jobID "" then afail InvalidArgument "job_id is required"
  else fun d =>
    match GetJob d jobID with
    | Err ErrNotFound => afail NotFound ("job " +:+ quote jobID +:+ " not found") d
    | Err e => (Err (internal "loading job" e), d)
    | Ok rec => (do? _ := alift (CheckProject ctx rec.(Tenant)) in aret rec) d
    end.

Definition effectiveTenant (ctx : context) (requested : string) : result status string :=
  match FromContext ctx with
  | None => Err (mkStatus Unauthenticated "no principal in context")
  | Some p =>
      if String.eqb p.(PProject) "" then Ok requested
      else if String.eqb requested "" then Ok p.(PProject)
      else let? _ := CheckProject ctx requested in Ok requested
  end.

(** [SubmitJob]; [uuid] is the fresh job id, [schema] and [range] as in
    [Admission]. *)
Definition initial_status (conditions : list any) : doc :=
  mkdoc [("phase", JStr Pending); ("conditions", JArr conditions); ("tasks", JArr []); ("usage", JArr [])].

Definition dry_run_condition : Condition :=
  mkCondition "Validated" "True" "DryRun" "admission checks passed; job was not enqueued".

Definition quota_or_internal (e : store_err) : status :=
  match e with
  | ErrQuotaExceeded _ _ _ _ => mkStatus ResourceExhausted (store_message e)
  | _ => internal "persisting job" e
  end.

Definition SubmitJob (schema : doc -> option string) (range : list string -> list string)
    (ctx : context) (now : Z) (uuid : string) (quantumJob : option doc) (tenant : string)
    (dryRun : bool) (fleet : FleetView) : api ProtoJob :=
  match quantumJob with
  | None => afail InvalidArgument "quantum_job document is required"
  | Some _ =>
      match Admit schema range quantumJob tenant fleet now with
      | Err e => afail InvalidArgument ("admission: " +:+ admit_message e)
      | Ok adm =>
          do? _ := alift (CheckProject ctx adm.(ATenant)) in
          let conditions := (fun w => JObj (conditionToMap w)) <$> adm.(Warnings) in
          if dryRun then
            aret (jobToProto (mkJobRecord "" adm.(ATenant) adm.(AName) "" adm.(ADoc)
              (mkdoc [("conditions", JArr (conditions ++ [JObj (conditionToMap dry_run_condition)]))]) 0 0))
          else
            do? proj := acall (fun d => EnsureProject d now adm.(ATenant)) (internal "resolving project") in
            match proj.(ArchivedAt) with
            | Some _ => afail FailedPrecondition
                ("project " +:+ quote adm.(ATenant) +:+ " is archived; new submissions are rejected")
            | None =>
                let rec := mkJobRecord uuid adm.(ATenant) adm.(AName) Pending adm.(ADoc)
                             (initial_status conditions) 0 0 in
                do? rec' := acall (fun d => InsertJobWithQuota d now rec (declaredCosts adm.(ADoc)))
                              quota_or_internal in
                aret (jobToProto rec')
            end
      end
  end.

Definition GetJob_rpc (ctx : context) (jobID : string) : api ProtoJob :=
  do? rec := loadJob ctx jobID in aret (jobToProto rec).

Record ListJobsResponse := mkListJobsResponse { LJobs : list ProtoJob; NextPageToken : string }.

Definition page_size (requested : Z) : Z :=
  let p := if requested <=? 0 then defaultPageSize else requested in
  if maxPageSize <? p then maxPageSize else p.

Definition page_offset (token : string) : result status Z :=
  if String.eqb token "" then Ok 0
  else match atoi token with
       | Some o => if o <? 0 then Err (mkStatus InvalidArgument ("malformed page_token " +:+ quote token))
                   else Ok o
       | None => Err (mkStatus InvalidArgument ("malformed page_token " +:+ quote token))
       end.

Definition ListJobs_rpc (ctx : context) (tenant phaseFilter pageToken : string) (pageSize : Z)
  : api ListJobsResponse :=
  let size := page_size pageSize in
  do? offset := alift (page_offset pageToken) in
  do? tenant := alift (effectiveTenant ctx tenant) in
  do? recs := aread (fun d => ListJobs d tenant phaseFilter (Z.to_nat size) (Z.to_nat offset)) in
  aret (mkListJobsResponse (jobToProto <$> recs)
          (if Z.of_nat (length recs) =? size then itoa (offset + size) else "")).

(** [sendEvent]: the record as the event left it. *)
Definition event_view (rec : JobRecord) (ev : JobEvent) : ProtoJob :=
  jobToProto (mkJobRecord rec.(JobID) rec.(Tenant) rec.(Name) ev.(EvPhase) rec.(Doc) ev.(EvStatus)
                rec.(CreatedAt) ev.(EvCreatedAt)).

(** The event loop: what is sent, the last sequence number, and whether a
    terminal event ended the stream. *)
Fixpoint send_events (rec : JobRecord) (events : list JobEvent) (lastSeq : Z)
  : list ProtoJob * Z * bool :=
  match events with
  | [] => ([], lastSeq, false)
  | ev :: rest =>
      if Terminal ev.(EvPhase) then ([event_view rec ev], ev.(Seq), true)
      else let '(out, seq, fin) := send_events rec rest ev.(Seq) in (event_view rec ev :: out, seq, fin)
  end.

(** The polling loop, over the databases the ticks find. *)
Fixpoint watch_ticks (rec : JobRecord) (ticks : list db) (lastSeq : Z) : list ProtoJob * bool :=
  match ticks with
  | [] => ([], false)
  | d :: rest =>
      let '(out, seq, fin) := send_events rec (JobEventsSince d rec.(JobID) lastSeq) lastSeq in
      if fin then (out, true)
      else let '(out', fin') := watch_ticks rec rest seq in (out ++ out', fin')
  end.

(** [WatchJob]: the messages streamed, and whether the stream ended by itself
    (otherwise the client went away after the last tick). *)
Definition WatchJob (ctx : context) (jobID : string) (d : db) (ticks : list db)
  : result status (list ProtoJob * bool) :=
  match (loadJob ctx jobID d).1 with
  | Err e => Err e
  | Ok rec =>
      let events := JobEventsSince d rec.(JobID) 0 in
      let '(out, seq, fin) := send_events rec events 0 in
      let out := match events with [] => [jobToProto rec] | _ => out end in
      if fin then Ok (out, true)
      else let '(out', fin') := watch_ticks rec ticks seq in Ok (out ++ out', fin')
  end.

Definition cancelled_condition : Condition :=
  mkCondition "Cancelled" "True" "UserRequested" "cancelled via CancelJob".

(** [CancelJob]; [canceller d] is the adapter-side cancellation, or its error. *)
Definition CancelJob (ctx : context) (now : Z) (jobID : string)
    (canceller : option (string -> db -> result string unit * db)) : api ProtoJob :=
  do? _ := loadJob ctx jobID in
  do? _ := match canceller with
           | None => aret tt
           | Some c => fun d => match c jobID d with
                                | (Ok _, d') => (Ok tt, d')
                                | (Err m, d') => (Err (mkStatus Internal ("cancelling task: " +:+ m)), d')
                                end
           end in
  do? rec := acall (fun d => TransitionJob d now jobID Cancelled
                       (Some (fun st => appendCondition st cancelled_condition)))
               (fun e => match e with
                         | ErrNotFound => mkStatus NotFound ("job " +:+ quote jobID +:+ " not found")
                         | e => mkStatus FailedPrecondition ("cancel: " +:+ store_message e)
                         end) in
  aret (jobToProto rec).

(** ** services.go *)

Definition GetTenantUsage (ctx : context) (tenant : string) (from to : option Z)
  : api (list UsageTotal) :=
  if String.eqb tenant "" then afail InvalidArgument "tenant is required"
  else
    do? _ := alift (CheckProject ctx tenant) in
    aread (fun d => TenantUsage d tenant (default time_zero from) (default time_zero to)).

(** ** admin.go *)

Definition WhoAmI (ctx : context) : api Principal :=
  match FromContext ctx with
  | None => afail Unauthenticated "no principal"
  | Some p => aret p
  end.

(** [CreateToken]; [idb] and [sec] are the random bytes of [MintToken]. *)
Definition CreateToken (sha256 : string -> string) (ctx : context) (now : Z)
    (name project role idb sec : string) : api (string * TokenRecord) :=
  let p := default (mkPrincipal "" "" "" 0 "") (FromContext ctx) in
  if String.eqb name "" || String.eqb project "" then
    afail InvalidArgument "name and project are required"
  else match ParseRole role with
  | Err m => afail InvalidArgument m
  | Ok r =>
      let '(plain, id, hash) := MintToken sha256 idb sec in
      do? _ := acall (fun d => InsertToken d now
                 (mkTokenRecord id name project (Role_String r) hash
                    (p.(PType) +:+ ":" +:+ p.(PSubject)) 0 None None)) (internal "store token") in
      do? stored := acall (fun d => (GetToken d id, d)) (internal "read back token") in
      aret (plain, stored)
  end.

Definition ListTokens_rpc (project : string) : api (list TokenRecord) :=
  aread (fun d => ListTokens d project).

Definition RevokeToken_rpc (now : Z) (id : string) : api bool :=
  if String.eqb id "" then afail InvalidArgument "id is required"
  else awrite (fun d => RevokeToken d now id).

Definition CreateProject (now : Z) (tenant : string) (weight : Z) : api ProjectRecord :=
  if String.eqb tenant "" then afail InvalidArgument "tenant is required"
  else
    do? p := acall (fun d => EnsureProject d now tenant) (internal "create project") in
    if (1 <=? weight) && negb (weight =? p.(PWeight)) then
      do? _ := acall (fun d => SetProjectWeight d p.(PTenant) weight) (internal "set weight") in
      aret (mkProjectRecord p.(PTenant) p.(POrg) p.(PName) weight p.(PCreatedAt) p.(ArchivedAt))
    else aret p.

Definition ListProjects_rpc (includeArchived : bool) : api (list ProjectRecord) :=
  aread (fun d => ListProjects d includeArchived).

Definition ArchiveProject_rpc (now : Z) (tenant : string) : api bool :=
  if String.eqb tenant "" then afail InvalidArgument "tenant is required"
  else awrite (fun d => ArchiveProject d now tenant).

Definition SetQuota_rpc (tenant unit_ : string) (limit : float64) : api unit :=
  if String.eqb tenant "" || String.eqb unit_ "" then
    afail InvalidArgument "tenant and unit are required"
  else
    do? _ := acall (fun d => (GetProject d tenant, d))
               (fun e => match e with
                         | ErrProjectNotFound => mkStatus NotFound ("project " +:+ quote tenant +:+ " not found")
                         | e => internal "project lookup" e
                         end) in
    acall (fun d => SetQuota d tenant unit_ limit) (internal "set quota").

Definition ListQuotas_rpc (tenant : string) : api (list QuotaRecord) :=
  aread (fun d => ListQuotas d tenant).

Definition export_tenant (ctx : context) (tenant : string) : result status string :=
  match FromContext ctx with
  | Some p =>
      if String.eqb p.(PProject) "" then Ok tenant
      else if String.eqb tenant "" then Ok p.(PProject)
      else let? _ := CheckProject ctx tenant in Ok tenant
  | None => Ok tenant
  end.

Definition ExportLedger (ctx : context) (tenant : string) : api (list LedgerEntry) :=
  do? t := alift (export_tenant ctx tenant) in
  aread (fun d => LedgerEntries d t).
