(* ===== verification/ApiProps.v ===== *)
(** * What the API promises

    Submission, project isolation, listing page by page, watching and
    cancelling. *)

From S2P Require Import Prelude Float64 GoLib Phase Database JobStore Tables Lifecycle Auth Admission Api.

(** ** Running handlers *)

Lemma abind_ok {A B} (m : api A) (k : A -> api B) d b d' :
  abind m k d = (Ok b, d') <-> exists a d1, m d = (Ok a, d1) /\ k a d1 = (Ok b, d').
Proof.
  unfold abind. destruct (m d) as [[a|e] d1]; split; try done.
  - intros H. by exists a, d1.
  - by intros (a' & d1' & [= <- <-] & H).
  - by intros (a' & d1' & ? & _).
Qed.

Lemma alift_ok {A} (r : result status A) d a d' : alift r d = (Ok a, d') <-> r = Ok a /\ d' = d.
Proof. unfold alift. split; [by intros [= -> ->]|by intros [-> ->]]. Qed.

Lemma acall_ok {A} (c : db -> call A) w d a d' : acall c w d = (Ok a, d') <-> c d = (Ok a, d').
Proof. unfold acall. destruct (c d) as [[x|e] d1]; split; (done || by intros [= -> ->]). Qed.

Lemma loadJob_ok ctx id d rec d' :
  loadJob ctx id d = (Ok rec, d') <->
  id <> "" /\ d.(jobs) !! id = Some rec /\ CheckProject ctx rec.(Tenant) = Ok tt /\ d' = d.
Proof.
  unfold loadJob, GetJob, scanJob, afail, abind, alift, aret.
  destruct (String.eqb_spec id "") as [E0|Hid]; [split; [done|intros [H0 _]; by destruct (H0 E0)]|].
  destruct (d.(jobs) !! id) as [r|]; [|split; [done|by intros (? & ? & _)]].
  destruct (CheckProject ctx r.(Tenant)) as [[]|e] eqn:C; split.
  - by intros [= <- <-].
  - by intros (_ & [= <-] & _ & ->).
  - done.
  - intros (_ & [= <-] & H & _). congruence.
Qed.

(** ** Submission *)

Lemma EnsureProject_ok d now t p d' :
  EnsureProject d now t = (Ok p, d') ->
  d'.(projects) !! t = Some p /\ (exists x, d' = set_projects d x).
Proof.
  unfold EnsureProject, GetProject. destruct (String.eqb t ""); [done|].
  destruct (splitTenant t) as [org name]. destruct (d.(projects) !! t) as [q|] eqn:E.
  - rewrite E. intros [= <- <-]. split; [done|]. exists d.(projects). by destruct d.
  - simpl. rewrite lookup_insert_eq. intros [= <- <-]. simpl. rewrite lookup_insert_eq. eauto.
Qed.

Lemma EnsureProject_jobs d now t : (EnsureProject d now t).2.(jobs) = d.(jobs) /\
  (EnsureProject d now t).2.(job_events) = d.(job_events).
Proof.
  unfold EnsureProject. destruct (String.eqb t ""); [done|]. destruct (splitTenant t).
  by destruct (d.(projects) !! t).
Qed.

Lemma check_quotas_ok d t costs :
  check_quotas d t costs = Ok tt ->
  forall u req limit, (u, req) ∈ costs -> d.(project_quotas) !! (t, u) = Some limit ->
    fgt (fadd (committed d t u) req) limit = false.
Proof.
  induction costs as [|[u0 r0] costs IH]; simpl; intros H u req limit; [by intros ?%elem_of_nil|].
  destruct (d.(project_quotas) !! (t, u0)) as [l|] eqn:Q.
  - destruct (fgt _ l) eqn:G; [done|]. intros [[= -> ->]|Hin]%elem_of_cons Hq; [congruence|].
    by eapply IH.
  - intros [[= -> ->]|Hin]%elem_of_cons Hq; [congruence|]. by eapply IH.
Qed.

Lemma InsertJobWithQuota_ok d now rec costs rec' d' :
  InsertJobWithQuota d now rec costs = (Ok rec', d') ->
  check_quotas d rec.(Tenant) costs = Ok tt /\ d.(jobs) !! rec.(JobID) = None /\
  d'.(jobs) = <[rec.(JobID) := rec']> d.(jobs) /\ d'.(projects) = d.(projects) /\
  rec' = mkJobRecord rec.(JobID) rec.(Tenant) rec.(Name) rec.(JPhase) rec.(Doc) rec.(Status) now now.
Proof.
  intros H%in_tx_ok. destruct (check_quotas _ _ _) as [[]|]; [|done]. simpl in H.
  apply insertJobTx_ok in H as (_ & _ & E & -> & ->). by split_and!.
Qed.

(** What an accepted submission leaves. *)
Lemma SubmitJob_ok schema range ctx now uuid qj tenant fleet d pj d' :
  SubmitJob schema range ctx now uuid qj tenant false fleet d = (Ok pj, d') ->
  exists adm rec,
    Admit schema range qj tenant fleet now = Ok adm /\ CheckProject ctx adm.(ATenant) = Ok tt /\
    (exists p, d'.(projects) !! adm.(ATenant) = Some p /\ p.(ArchivedAt) = None) /\
    (forall u req limit, (u, req) ∈ declaredCosts adm.(ADoc) ->
       d.(project_quotas) !! (adm.(ATenant), u) = Some limit ->
       fgt (fadd (committed d adm.(ATenant) u) req) limit = false) /\
    d.(jobs) !! uuid = None /\ d'.(jobs) = <[uuid := rec]> d.(jobs) /\
    rec.(JobID) = uuid /\ rec.(Tenant) = adm.(ATenant) /\ rec.(JPhase) = Pending /\
    rec.(Doc) = adm.(ADoc) /\ rec.(Status) !! "phase" = Some (JStr Pending) /\ pj = jobToProto rec.
Proof.
  unfold SubmitJob. destruct qj as [q|]; [|done]. destruct (Admit _ _ _ _ _ _) as [adm|] eqn:A; [|done].
  intros H. apply abind_ok in H as ([] & d1 & H1 & H). apply alift_ok in H1 as [C ->].
  cbv zeta in H. apply abind_ok in H as (p & d1 & H1 & H). apply acall_ok in H1.
  apply EnsureProject_ok in H1 as [Hp [x ->]].
  destruct p.(ArchivedAt) eqn:Ar; [done|].
  apply abind_ok in H as (rec & d2 & H2 & H). apply acall_ok in H2.
  apply InsertJobWithQuota_ok in H2 as (Hq & Hn & Hj & Hpr & ->). simpl in *.
  injection H as <- <-. eexists adm, _. split_and!; try done.
  - exists p. by rewrite Hpr.
  - intros u req limit Hin Hl. exact (check_quotas_ok _ _ _ Hq u req limit Hin Hl).
Qed.

(** (C12) An accepted submission was admitted, lies in the caller's scope and
    in an active project, overruns no quota, and leaves exactly one new job,
    PENDING, with the accepted document, under the fresh identifier. *)
Theorem SubmitJob_accepted schema range ctx now uuid qj tenant fleet d pj d' :
  SubmitJob schema range ctx now uuid qj tenant false fleet d = (Ok pj, d') ->
  exists adm rec,
    Admit schema range qj tenant fleet now = Ok adm /\ CheckProject ctx adm.(ATenant) = Ok tt /\
    (exists p, d'.(projects) !! adm.(ATenant) = Some p /\ p.(ArchivedAt) = None) /\
    (forall u req limit, (u, req) ∈ declaredCosts adm.(ADoc) ->
       d.(project_quotas) !! (adm.(ATenant), u) = Some limit ->
       fgt (fadd (committed d adm.(ATenant) u) req) limit = false) /\
    d.(jobs) !! uuid = None /\ d'.(jobs) = <[uuid := rec]> d.(jobs) /\
    rec.(JobID) = uuid /\ rec.(Tenant) = adm.(ATenant) /\ rec.(JPhase) = Pending /\
    rec.(Doc) = adm.(ADoc) /\ pj = jobToProto rec.
Proof.
  intros H. destruct (SubmitJob_ok _ _ _ _ _ _ _ _ _ _ _ H) as (adm & rec & H1 & H2 & H3 & H4 & H5 & H6 & H7 & H8 & H9 & H10 & _ & H11).
  by exists adm, rec.
Qed.

(** A dry run that succeeds was admitted, in the caller's scope. *)
Lemma SubmitJob_dry schema range ctx now uuid qj tenant fleet d pj d' :
  SubmitJob schema range ctx now uuid qj tenant true fleet d = (Ok pj, d') ->
  exists adm, Admit schema range qj tenant fleet now = Ok adm /\ CheckProject ctx adm.(ATenant) = Ok tt /\ d' = d.
Proof.
  unfold SubmitJob. destruct qj as [q|]; [|done]. destruct (Admit _ _ _ _ _ _) as [adm|]; [|done].
  unfold abind, alift. destruct (CheckProject ctx adm.(ATenant)) as [[]|] eqn:C; [|done].
  intros [= _ <-]. by exists adm.
Qed.

(** A refused submission and a dry run leave no trace in the job tables:
    a dry run changes nothing at all, an error no job and no event. *)
Lemma SubmitJob_refused schema range ctx now uuid qj tenant dryRun fleet d :
  (dryRun = true -> (SubmitJob schema range ctx now uuid qj tenant dryRun fleet d).2 = d) /\
  (forall st d', SubmitJob schema range ctx now uuid qj tenant dryRun fleet d = (Err st, d') ->
     d'.(jobs) = d.(jobs) /\ d'.(job_events) = d.(job_events)).
Proof.
  unfold SubmitJob. destruct qj as [q|]; [|by split; [|intros ? ? [= <- <-]]].
  destruct (Admit _ _ _ _ _ _) as [adm|]; [|by split; [|intros ? ? [= <- <-]]].
  unfold abind, alift. destruct (CheckProject ctx adm.(ATenant)); [|by split; [|intros ? ? [= <- <-]]].
  destruct dryRun; [by split|]. split; [done|]. intros st d'. unfold acall.
  pose proof (EnsureProject_jobs d now adm.(ATenant)) as [J1 J2].
  destruct (EnsureProject d now adm.(ATenant)) as [[p|e] d1]; simpl in J1, J2;
    [|intros [= <- <-]; by rewrite J1, J2].
  destruct p.(ArchivedAt); [intros [= <- <-]; by rewrite J1, J2|].
  destruct (InsertJobWithQuota _ _ _ _) as [[r|e] d2] eqn:I; [done|].
  intros [= <- <-]. unfold InsertJobWithQuota in I. apply in_tx_err in I as [-> _]. by rewrite J1, J2.
Qed.

(** ** Declared demand *)

(** The Go extraction of a submission's demand and the SQL function that
    charges reservations agree on every document whose shots are not
    negative: the demand of a unit is its declared cost. *)
Lemma declaredCosts_agree dc u :
  flt (declared_cost dc "shots") f0 = false ->
  let d := declared_cost dc u in
  match List.find (fun e => String.eqb e.1 u) (declaredCosts dc) with
  | Some (_, amount) => amount = d
  | None => fgt d f0 = false
  end.
Proof.
  unfold declared_cost, declaredCosts. rewrite String.eqb_refl. cbv zeta.
  intros Hs. destruct (String.eqb_spec u "shots") as [->|Hu];
    destruct (as_num _) as [shots|]; try done;
    (destruct (fgt shots f0) eqn:G; [|done]); cbn [List.find fst].
  - by rewrite String.eqb_refl.
  - by rewrite (proj2 (String.eqb_neq "shots" u)) by done.
Qed.

(** ** Project isolation *)

Lemma scoped_check p project :
  p.(PProject) <> "" -> CheckProject (Some p) project = Ok tt -> project = p.(PProject).
Proof.
  intros Hp. unfold CheckProject, FromContext.
  destruct (String.eqb_spec p.(PProject) ""); [done|]. simpl.
  by destruct (String.eqb_spec p.(PProject) project).
Qed.

Lemma effectiveTenant_scoped p t t' :
  p.(PProject) <> "" -> effectiveTenant (Some p) t = Ok t' -> t' = p.(PProject).
Proof.
  intros Hp. unfold effectiveTenant, FromContext.
  destruct (String.eqb_spec p.(PProject) ""); [done|].
  destruct (String.eqb t ""); [by intros [= <-]|].
  destruct (CheckProject (Some p) t) as [[]|] eqn:C; [|done]. intros [= <-]. by apply scoped_check.
Qed.

Lemma export_tenant_scoped p t t' :
  p.(PProject) <> "" -> export_tenant (Some p) t = Ok t' -> t' = p.(PProject).
Proof.
  intros Hp. unfold export_tenant, FromContext.
  destruct (String.eqb_spec p.(PProject) ""); [done|].
  destruct (String.eqb t ""); [by intros [= <-]|].
  destruct (CheckProject (Some p) t) as [[]|] eqn:C; [|done]. intros [= <-]. by apply scoped_check.
Qed.

(** All jobs that match a filter, newest first: what paging walks over. *)
Definition matching (d : db) (tenant phase : string) : list JobRecord :=
  sort_by newest_first (List.filter (list_filter tenant phase) (all_jobs d)).

Lemma ListJobs_matching d tenant phase limit offset :
  ListJobs d tenant phase limit offset = take limit (skipn offset (matching d tenant phase)).
Proof. done. Qed.

Lemma matching_tenant d tenant phase r : tenant <> "" -> r ∈ matching d tenant phase -> r.(Tenant) = tenant.
Proof.
  intros Ht. unfold matching. rewrite elem_of_sort_by, list_elem_of_In, List.filter_In.
  intros [_ H]. apply andb_true_iff in H as [H _]. apply orb_true_iff in H as [H|H]; by to_prop.
Qed.

Lemma elem_of_page {A} (l : list A) n m x : x ∈ take n (skipn m l) -> x ∈ l.
Proof.
  intros H. rewrite <- (firstn_skipn m l). apply elem_of_app. right.
  rewrite <- (firstn_skipn n (skipn m l)). apply elem_of_app. by left.
Qed.

Lemma ListJobs_rpc_ok ctx tenant phase token size d resp d' :
  ListJobs_rpc ctx tenant phase token size d = (Ok resp, d') ->
  exists offset t, page_offset token = Ok offset /\ effectiveTenant ctx tenant = Ok t /\ d' = d /\
    resp.(LJobs) = jobToProto <$> take (Z.to_nat (page_size size)) (skipn (Z.to_nat offset) (matching d t phase)) /\
    resp.(NextPageToken) =
      (if Z.of_nat (length (take (Z.to_nat (page_size size)) (skipn (Z.to_nat offset) (matching d t phase))))
          =? page_size size
       then itoa (offset + page_size size) else "").
Proof.
  unfold ListJobs_rpc. intros H. apply abind_ok in H as (offset & d1 & H1 & H). apply alift_ok in H1 as [H1 ->].
  apply abind_ok in H as (t & d2 & H2 & H). apply alift_ok in H2 as [H2 ->].
  unfold abind, aread, aret in H. rewrite ListJobs_matching in H. injection H as <- <-.
  exists offset, t. by split_and!.
Qed.

Lemma send_events_tenant rec events seq out seq' fin :
  send_events rec events seq = (out, seq', fin) -> Forall (fun pj => pj.(PbTenant) = rec.(Tenant)) out.
Proof.
  revert seq out seq' fin. induction events as [|ev l IH]; intros seq out seq' fin; simpl.
  - intros [= <- _ _]. constructor.
  - destruct (Terminal _); [intros [= <- _ _]; by repeat constructor|].
    destruct (send_events rec l (Seq ev)) as [[o s] f] eqn:E. intros [= <- _ _]. constructor; [done|eauto].
Qed.

Lemma watch_ticks_tenant rec ticks seq out fin :
  watch_ticks rec ticks seq = (out, fin) -> Forall (fun pj => pj.(PbTenant) = rec.(Tenant)) out.
Proof.
  revert seq out fin. induction ticks as [|d l IH]; intros seq out fin; simpl.
  - intros [= <- _]. constructor.
  - destruct (send_events _ _ _) as [[o s] f] eqn:E. pose proof (send_events_tenant _ _ _ _ _ _ E).
    destruct f; [by intros [= <- _]|]. destruct (watch_ticks rec l s) as [o' f'] eqn:W.
    intros [= <- _]. apply Forall_app. eauto.
Qed.

Lemma WatchJob_tenant ctx id d ticks out fin :
  WatchJob ctx id d ticks = Ok (out, fin) ->
  exists rec, loadJob ctx id d = (Ok rec, d) /\ Forall (fun pj => pj.(PbTenant) = rec.(Tenant)) out.
Proof.
  unfold WatchJob. destruct (loadJob ctx id d) as [[rec|e] d1] eqn:L; simpl; [|done].
  assert (d1 = d) as -> by (by apply loadJob_ok in L as (_ & _ & _ & ->)).
  destruct (send_events _ _ _) as [[o s] f] eqn:E. pose proof (send_events_tenant _ _ _ _ _ _ E) as T.
  assert (T' : Forall (fun pj => pj.(PbTenant) = rec.(Tenant))
     match JobEventsSince d rec.(JobID) 0 with [] => [jobToProto rec] | _ => o end)
    by (destruct (JobEventsSince _ _ _); [by repeat constructor|done]).
  intros H. exists rec. split; [done|]. destruct f; [by injection H as <- _|].
  destruct (watch_ticks _ _ _) as [o' f'] eqn:W. injection H as <- _.
  apply Forall_app. split; [done|]. by eapply watch_ticks_tenant.
Qed.

(** What a call on behalf of a project may change: nothing that belongs to
    another one.  Of the project's own rows it may change the jobs, with their
    events, and the row of the project. *)
Record isolated (project : string) (d d' : db) : Prop := mkIsolated {
  iso_jobs : filter (fun kv : string * JobRecord => kv.2.(Tenant) <> project) d'.(jobs)
             = filter (fun kv : string * JobRecord => kv.2.(Tenant) <> project) d.(jobs);
  iso_events : forall id r, d.(jobs) !! id = Some r -> r.(Tenant) <> project -> events_of d' id = events_of d id;
  iso_projects : delete project d'.(projects) = delete project d.(projects);
  iso_tasks : d'.(tasks) = d.(tasks);
  iso_ledger : d'.(usage_ledger) = d.(usage_ledger);
  iso_sessions : d'.(sessions) = d.(sessions);
  iso_quotas : d'.(project_quotas) = d.(project_quotas);
  iso_tokens : d'.(api_tokens) = d.(api_tokens);
  iso_audit : d'.(audit_log) = d.(audit_log);
  iso_runs : d'.(reconciliation_runs) = d.(reconciliation_runs);
  iso_shadow : d'.(shadow_placements) = d.(shadow_placements);
  iso_game_days : d'.(game_days) = d.(game_days) }.

Lemma isolated_refl project d : isolated project d d.
Proof. by constructor. Qed.

(** Writing a job of the project, with its event. *)
Lemma isolated_write project d now id rec p st :
  rec.(Tenant) = project -> (forall r, d.(jobs) !! id = Some r -> r.(Tenant) = project) ->
  isolated project d (append_event (put_job d id rec) now id p st).
Proof.
  intros Hr Ho. constructor; try done; simpl.
  - apply map_eq. intros k. destruct (decide (k = id)) as [->|N].
    + rewrite map_filter_insert_False by (by intros H; apply H). rewrite map_lookup_filter, lookup_delete_eq.
      rewrite map_lookup_filter. destruct (d.(jobs) !! id) as [r|] eqn:E; [|done]. simpl.
      rewrite option_guard_False; [done|]. intros H. apply H, (Ho r eq_refl).
    + rewrite !map_lookup_filter, lookup_insert_ne by done. done.
  - intros i r E N. unfold events_of, append_event. simpl. rewrite List.filter_app. simpl.
    rewrite (proj2 (String.eqb_neq id i)); [by rewrite app_nil_r|]. intros <-. by apply N, Ho.
Qed.

Lemma isolated_project d now t : isolated t d (EnsureProject d now t).2.
Proof.
  unfold EnsureProject. destruct (String.eqb t ""); [apply isolated_refl|]. destruct (splitTenant t).
  destruct (d.(projects) !! t) eqn:E; [apply isolated_refl|]. constructor; try done. simpl.
  by rewrite delete_insert_eq.
Qed.

Lemma isolated_trans project d1 d2 d3 :
  isolated project d1 d2 -> isolated project d2 d3 -> isolated project d1 d3.
Proof.
  intros [J1 E1 P1 T1 L1 S1 Q1 K1 A1 R1 H1 G1] [J2 E2 P2 T2 L2 S2 Q2 K2 A2 R2 H2 G2].
  constructor; try congruence. intros id r H N. rewrite (E2 id r); [by eapply E1| |done].
  assert (F : filter (fun kv : string * JobRecord => kv.2.(Tenant) <> project) d2.(jobs) !! id = Some r)
    by (rewrite J1; by apply map_lookup_filter_Some).
  by apply map_lookup_filter_Some in F as [? _].
Qed.

Lemma isolated_insert d now rec costs : isolated rec.(Tenant) d (InsertJobWithQuota d now rec costs).2.
Proof.
  unfold InsertJobWithQuota, in_tx. destruct (check_quotas _ _ _); [|apply isolated_refl]. cbn [rbind].
  destruct (insertJobTx now rec d) as [[rec' d']|] eqn:E; [|apply isolated_refl].
  apply insertJobTx_ok in E as (_ & _ & E & _ & ->). unfold insertion. cbv zeta.
  destruct (isolated_write rec.(Tenant) d now rec.(JobID) (inserted now rec) rec.(JPhase) rec.(Status)) as [];
    [done|congruence|]. by constructor.
Qed.

Lemma isolated_transition project d now id to mutate rec :
  d.(jobs) !! id = Some rec -> rec.(Tenant) = project -> isolated project d (TransitionJob d now id to mutate).2.
Proof.
  intros E T. unfold TransitionJob, scanJob, in_tx. rewrite E. cbn [rbind].
  destruct (Transition _ _); [|apply isolated_refl]. cbv zeta. destruct (doc_marshals _); [|apply isolated_refl].
  apply isolated_write; [exact T|]. intros r H. congruence.
Qed.

(** The adapter side of a cancellation: its answer, and the database by then. *)
Definition after_canceller (c : option (string -> db -> result string unit * db)) (id : string) (d : db)
  : result string unit * db :=
  match c with None => (Ok tt, d) | Some f => f id d end.

(** [CancelJob] on a job it may load. *)
Lemma CancelJob_loaded ctx now id c d rec :
  loadJob ctx id d = (Ok rec, d) ->
  CancelJob ctx now id c d =
  match after_canceller c id d with
  | (Err m, d1) => (Err (mkStatus Internal ("cancelling task: " +:+ m)), d1)
  | (Ok _, d1) =>
      match TransitionJob d1 now id Cancelled (Some (fun st => appendCondition st cancelled_condition)) with
      | (Ok r, d') => (Ok (jobToProto r), d')
      | (Err ErrNotFound, d') => (Err (mkStatus NotFound ("job " +:+ quote id +:+ " not found")), d')
      | (Err e, d') => (Err (mkStatus FailedPrecondition ("cancel: " +:+ store_message e)), d')
      end
  end.
Proof.
  intros L. unfold CancelJob, abind, aret, acall, after_canceller. rewrite L.
  destruct c as [f|]; [destruct (f id d) as [[[]|m] d1]|]; try done;
    by destruct (TransitionJob _ _ _ _ _) as [[r|[]] d'].
Qed.

Lemma loadJob_db ctx id d : (loadJob ctx id d).2 = d.
Proof.
  unfold loadJob, GetJob, scanJob, afail, abind, alift, aret. destruct (String.eqb id ""); [done|].
  destruct (d.(jobs) !! id); [|done]. by destruct (CheckProject _ _).
Qed.

Lemma CancelJob_unloaded ctx now id c d e :
  (loadJob ctx id d).1 = Err e -> CancelJob ctx now id c d = (Err e, d).
Proof.
  intros L. pose proof (loadJob_db ctx id d) as E. unfold CancelJob, abind.
  destruct (loadJob ctx id d) as [o d1]. simpl in *. by subst.
Qed.

(** The totals of a tenant depend on its own rows only. *)
Definition own_rows (d : db) (project : string) : db :=
  set_usage_ledger d (List.filter (fun e => String.eqb e.(LTenant) project) d.(usage_ledger)).

Lemma TenantUsage_own d t from to : TenantUsage d t from to = TenantUsage (own_rows d t) t from to.
Proof.
  assert (E : forall (g : LedgerEntry -> bool) l, List.filter (fun e => String.eqb e.(LTenant) t && g e) l
    = List.filter (fun e => String.eqb e.(LTenant) t && g e) (List.filter (fun e => String.eqb e.(LTenant) t) l)).
  { intros g. induction l as [|e l IH]; [done|]. simpl. destruct (String.eqb e.(LTenant) t) eqn:H; simpl; [|done].
    rewrite H. simpl. by rewrite IH. }
  unfold TenantUsage, own_rows. cbn [usage_ledger set_usage_ledger]. by rewrite <- E.
Qed.

Lemma submit_isolated schema range p now uuid qj tenant dryRun fleet d r d' :
  p.(PProject) <> "" -> SubmitJob schema range (Some p) now uuid qj tenant dryRun fleet d = (r, d') ->
  isolated p.(PProject) d d' /\ forall pj, r = Ok pj -> pj.(PbTenant) = p.(PProject).
Proof.
  intros Hp. unfold SubmitJob. destruct qj as [q|]; [|intros [= <- <-]; by split; [apply isolated_refl|]].
  destruct (Admit _ _ _ _ _ _) as [adm|] eqn:A; [|intros [= <- <-]; by split; [apply isolated_refl|]].
  unfold abind, alift. destruct (CheckProject (Some p) adm.(ATenant)) as [[]|] eqn:C;
    [|intros [= <- <-]; by split; [apply isolated_refl|]].
  apply scoped_check in C; [|done]. destruct dryRun.
  { intros [= <- <-]. split; [apply isolated_refl|]. by intros pj [= <-]. }
  cbv zeta. unfold acall. pose proof (isolated_project d now adm.(ATenant)) as I.
  destruct (EnsureProject d now adm.(ATenant)) as [[pr|e] d1]; cbn [snd] in I;
    [|intros [= <- <-]; by rewrite <- C].
  destruct pr.(ArchivedAt); [intros [= <- <-]; by rewrite <- C|].
  set (rec := mkJobRecord uuid _ _ _ _ _ _ _).
  pose proof (isolated_insert d1 now rec (declaredCosts adm.(ADoc))) as I2.
  destruct (InsertJobWithQuota d1 now rec _) as [[rec'|e] d2] eqn:Q; cbn [snd] in I2; intros [= <- <-]; rewrite <- C;
    (split; [exact (isolated_trans _ _ _ _ I I2)|]); [|done].
  intros pj [= <-]. by apply InsertJobWithQuota_ok in Q as (_ & _ & _ & _ & ->).
Qed.

Lemma cancel_isolated p now id c d r d' :
  p.(PProject) <> "" -> (forall f o d1, c = Some f -> f id d = (o, d1) -> rtc store_step d d1) ->
  CancelJob (Some p) now id c d = (r, d') ->
  (d' = d /\ is_ok r = false) \/
  (exists rec, d.(jobs) !! id = Some rec /\ rec.(Tenant) = p.(PProject) /\
     isolated p.(PProject) (after_canceller c id d).2 d' /\ forall pj, r = Ok pj -> pj.(PbTenant) = p.(PProject)).
Proof.
  intros Hp Hc H. pose proof (loadJob_db (Some p) id d) as E.
  destruct (loadJob (Some p) id d) as [[rec|e] d0] eqn:L; cbn [snd] in E; subst d0.
  2:{ rewrite (CancelJob_unloaded _ _ _ _ _ e) in H by (by rewrite L). injection H as <- <-. by left. }
  rewrite (CancelJob_loaded _ _ _ _ _ _ L) in H. apply loadJob_ok in L as (_ & J & C & _). apply scoped_check in C; [|done].
  right. exists rec. split; [exact J|]. split; [exact C|].
  destruct (after_canceller c id d) as [o d1] eqn:AC. cbn [snd].
  assert (R : rtc store_step d d1).
  { destruct c as [f|]; [by eapply Hc|]. by injection AC as _ <-. }
  destruct o as [[]|m]; [|injection H as <- <-; by split; [apply isolated_refl|]].
  destruct (run_job _ _ _ _ R J) as (r1 & J1 & _ & T1 & _). rewrite C in T1.
  pose proof (isolated_transition _ d1 now id Cancelled (Some (fun st => appendCondition st cancelled_condition)) r1 J1 T1) as I.
  destruct (TransitionJob _ _ _ _ _) as [[r2|e] d2] eqn:T; cbn [snd] in I.
  - injection H as <- <-. split; [exact I|]. intros pj [= <-]. apply in_tx_ok in T. unfold scanJob in T.
    rewrite J1 in T. cbn [rbind] in T. destruct (Transition _ _); [|done]. cbv zeta in T.
    destruct (doc_marshals _); [|done]. injection T as <- _. exact T1.
  - destruct e; injection H as <- <-; by split; [exact I|].
Qed.

(** (C13) A caller whose token is scoped to a project sees and touches only
    that project, through every data endpoint and on every path, errors
    included.  What it gets (submitted, fetched, listed, watched and cancelled
    jobs, usage totals and exported ledger rows) belongs to the project, and
    every table is left as it was but for the project's own jobs, their events
    and the project's row; a call that only reads leaves the database as it
    was.  Before it cancels, [CancelJob] asks the dispatcher to cancel at the
    adapter, and only for a job of the project: by then other clients of the
    store may have done anything ([after_canceller]). *)
Theorem project_isolation p d :
  p.(PProject) <> "" ->
  (forall schema range now uuid qj tenant dryRun fleet r d',
     SubmitJob schema range (Some p) now uuid qj tenant dryRun fleet d = (r, d') ->
     isolated p.(PProject) d d' /\ forall pj, r = Ok pj -> pj.(PbTenant) = p.(PProject)) /\
  (forall id r d', GetJob_rpc (Some p) id d = (r, d') ->
     d' = d /\ forall pj, r = Ok pj -> pj.(PbTenant) = p.(PProject)) /\
  (forall tenant phase token size r d',
     ListJobs_rpc (Some p) tenant phase token size d = (r, d') ->
     d' = d /\ forall resp, r = Ok resp -> Forall (fun pj => pj.(PbTenant) = p.(PProject)) resp.(LJobs)) /\
  (forall id ticks out fin, WatchJob (Some p) id d ticks = Ok (out, fin) ->
     Forall (fun pj => pj.(PbTenant) = p.(PProject)) out) /\
  (forall now id c r d',
     (forall f o d1, c = Some f -> f id d = (o, d1) -> rtc store_step d d1) ->
     CancelJob (Some p) now id c d = (r, d') ->
     (d' = d /\ is_ok r = false) \/
     (exists rec, d.(jobs) !! id = Some rec /\ rec.(Tenant) = p.(PProject) /\
        isolated p.(PProject) (after_canceller c id d).2 d' /\
        forall pj, r = Ok pj -> pj.(PbTenant) = p.(PProject))) /\
  (forall tenant from to r d', GetTenantUsage (Some p) tenant from to d = (r, d') ->
     d' = d /\ forall u, r = Ok u ->
       u = TenantUsage (own_rows d p.(PProject)) p.(PProject) (default time_zero from) (default time_zero to)) /\
  (forall tenant r d', ExportLedger (Some p) tenant d = (r, d') ->
     d' = d /\ forall l, r = Ok l -> Forall (fun e => e.(LTenant) = p.(PProject)) l).
Proof.
  intros Hp. split_and!.
  - intros. by eapply submit_isolated.
  - intros id r d'. unfold GetJob_rpc, abind, aret. pose proof (loadJob_db (Some p) id d) as E.
    destruct (loadJob (Some p) id d) as [[rec|e] d1] eqn:L; cbn [snd] in E; subst d1; intros [= <- <-]; (split; [done|]); [|done].
    intros pj [= <-]. apply loadJob_ok in L as (_ & _ & C & _). by apply scoped_check.
  - intros tenant phase token size r d' H. split.
    { revert H. unfold ListJobs_rpc, abind, alift, aread, aret. repeat case_match; by intros [= _ <-]. }
    intros resp ->. apply ListJobs_rpc_ok in H as (offset & t & _ & E & _ & -> & _).
    apply effectiveTenant_scoped in E as ->; [|done]. apply Forall_forall.
    intros pj (r & -> & Hr%elem_of_page)%list_elem_of_fmap. simpl. by eapply matching_tenant.
  - intros id ticks out fin (rec & L & F)%WatchJob_tenant. apply loadJob_ok in L as (_ & _ & C & _).
    apply scoped_check in C; [|done]. by rewrite <- C.
  - intros. by eapply cancel_isolated.
  - intros tenant from to r d'. unfold GetTenantUsage. destruct (String.eqb tenant ""); [by intros [= <- <-]|].
    unfold abind, alift, aread. destruct (CheckProject (Some p) tenant) as [[]|] eqn:C; intros [= <- <-]; (split; [done|]); [|done].
    intros u [= <-]. apply scoped_check in C as ->; [|done]. apply TenantUsage_own.
  - intros tenant r d'. unfold ExportLedger, abind, alift, aread.
    destruct (export_tenant (Some p) tenant) as [t|] eqn:E; intros [= <- <-]; (split; [done|]); [|done].
    apply export_tenant_scoped in E as ->; [|done]. intros l [= <-]. apply Forall_forall. intros e.
    unfold LedgerEntries. rewrite elem_of_sort_by, list_elem_of_In, List.filter_In. intros [_ He].
    apply orb_true_iff in He as [He|He]; apply String.eqb_eq in He; done.
Qed.

(** ** Listing page by page *)

(** A client that follows [NextPageToken] until it is empty. *)
Fixpoint follow_pages (fuel : nat) (ctx : context) (tenant phase token : string) (size : Z) (d : db)
  : option (list ProtoJob) :=
  match fuel with
  | O => None
  | S fuel' =>
      match (ListJobs_rpc ctx tenant phase token size d).1 with
      | Err _ => None
      | Ok resp =>
          if String.eqb resp.(NextPageToken) "" then Some resp.(LJobs)
          else (fun rest => resp.(LJobs) ++ rest)
                 <$> follow_pages fuel' ctx tenant phase resp.(NextPageToken) size d
      end
  end.

Lemma page_size_bounds size : 1 <= page_size size <= maxPageSize.
Proof.
  unfold page_size, maxPageSize, defaultPageSize.
  destruct (Z.leb_spec size 0); [by vm_compute|]. destruct (Z.ltb_spec 1000 size); lia.
Qed.

Lemma ListJobs_rpc_run ctx tenant t phase token offset size d :
  page_offset token = Ok offset -> effectiveTenant ctx tenant = Ok t ->
  let recs := take (Z.to_nat (page_size size)) (skipn (Z.to_nat offset) (matching d t phase)) in
  (ListJobs_rpc ctx tenant phase token size d).1 = Ok (mkListJobsResponse (jobToProto <$> recs)
     (if Z.of_nat (length recs) =? page_size size then itoa (offset + page_size size) else "")).
Proof. intros H1 H2. unfold ListJobs_rpc, abind, alift. by rewrite H1, H2. Qed.

Lemma follow_pages_from fuel ctx tenant t phase token offset size d :
  effectiveTenant ctx tenant = Ok t -> page_offset token = Ok offset -> 0 <= offset ->
  (length (matching d t phase) < fuel + Z.to_nat offset)%nat ->
  (Z.to_nat offset <= length (matching d t phase))%nat ->
  Z.of_nat (length (matching d t phase)) + maxPageSize <= int64_max ->
  follow_pages fuel ctx tenant phase token size d
  = Some (jobToProto <$> skipn (Z.to_nat offset) (matching d t phase)).
Proof.
  intros Ht. revert token offset. induction fuel as [|fuel IH]; intros token offset Htok H0 Hf Hle Hmax; [lia|].
  cbn [follow_pages]. rewrite (ListJobs_rpc_run ctx tenant t phase token offset size d Htok Ht). cbv zeta.
  pose proof (page_size_bounds size) as B. unfold maxPageSize in *.
  set (l := matching d t phase) in *. set (k := Z.to_nat (page_size size)).
  cbn [NextPageToken LJobs]. rewrite length_take, length_drop.
  destruct (Z.eqb_spec (Z.of_nat (k `min` (length l - Z.to_nat offset))) (page_size size)) as [E|E].
  - assert (Hk : (k <= length l - Z.to_nat offset)%nat) by (unfold k in *; lia).
    rewrite (proj2 (String.eqb_neq _ _)) by (apply itoa_nonempty; lia).
    rewrite (IH (itoa (offset + page_size size)) (offset + page_size size)); try lia.
    + simpl. f_equal. rewrite <- fmap_app. f_equal.
      replace (Z.to_nat (offset + page_size size)) with (Z.to_nat offset + k)%nat by (unfold k; lia).
      rewrite <- drop_drop. apply take_drop.
    + unfold page_offset. rewrite (proj2 (String.eqb_neq _ _)) by (apply itoa_nonempty; lia).
      rewrite atoi_itoa by lia. destruct (Z.ltb_spec (offset + page_size size) 0); [lia|done].
  - simpl. do 2 f_equal. apply take_ge. rewrite length_drop. unfold k in *. lia.
Qed.

(** Following the page tokens terminates and yields every matching job
    exactly once, newest first, whatever page size is requested. *)
Lemma paging_complete ctx tenant t phase size d :
  effectiveTenant ctx tenant = Ok t ->
  Z.of_nat (length (matching d t phase)) + maxPageSize <= int64_max ->
  follow_pages (S (length (matching d t phase))) ctx tenant phase "" size d
    = Some (jobToProto <$> matching d t phase) /\
  matching d t phase ≡ₚ List.filter (list_filter t phase) (all_jobs d).
Proof.
  intros Ht Hm. split; [|apply sort_by_perm].
  rewrite (follow_pages_from _ ctx tenant t phase "" 0 size d Ht eq_refl); try done; simpl; lia.
Qed.

(** ** Watching *)

(** Events up to and including the first terminal one. *)
Fixpoint until_terminal (l : list JobEvent) : list JobEvent :=
  match l with
  | [] => []
  | e :: l' => if Terminal e.(EvPhase) then [e] else e :: until_terminal l'
  end.

Definition has_terminal (l : list JobEvent) : bool := existsb (fun e => Terminal e.(EvPhase)) l.

Definition last_seq (l : list JobEvent) : Z := List.last (Seq <$> l) 0.

Lemma until_terminal_app l k :
  until_terminal (l ++ k) = if has_terminal l then until_terminal l else l ++ until_terminal k.
Proof.
  induction l as [|e l IH]; [done|]. simpl. destruct (Terminal _); simpl; [done|].
  rewrite IH. by destruct (has_terminal l).
Qed.

Lemma has_terminal_app l k : has_terminal (l ++ k) = has_terminal l || has_terminal k.
Proof. apply existsb_app. Qed.

Lemma send_events_spec rec events seq :
  send_events rec events seq =
  (event_view rec <$> until_terminal events,
   List.last (Seq <$> until_terminal events) seq, has_terminal events).
Proof.
  revert seq. induction events as [|e l IH]; intros seq; [done|].
  unfold has_terminal. cbn [send_events until_terminal existsb]. fold (has_terminal l).
  destruct (Terminal e.(EvPhase)) eqn:T; [done|].
  by rewrite IH, !fmap_cons, last_cons_default.
Qed.

Lemma until_terminal_none l : has_terminal l = false -> until_terminal l = l.
Proof.
  induction l as [|e l IH]; [done|]. simpl. destruct (Terminal _); [done|]. simpl. intros H. by rewrite IH.
Qed.

Lemma insertTx_appends d now rec rec' d' :
  insertJobTx now rec d = Ok (rec', d') -> exists new, d'.(job_events) = d.(job_events) ++ new.
Proof.
  intros (_ & _ & _ & _ & ->)%insertJobTx_ok. by eexists.
Qed.

(** Events are only ever appended. *)
Lemma step_appends d d' : store_step d d' -> exists new, d'.(job_events) = d.(job_events) ++ new.
Proof.
  assert (Id : exists new, d.(job_events) = d.(job_events) ++ new) by (exists []; by rewrite app_nil_r).
  destruct 1 as [now rec Hp|now rec costs Hp|now i to mutate Hto|now i cond|now locked i taskID target placement
    |now taskID adapter state err res|now jobID taskID tenant target [u a]|now i sid
    | | | | | | | | | | | | | | |];
    try (unfold InsertSession, EnsureProject, ArchiveProject, SetProjectWeight, SetQuota,
           InsertToken, RevokeToken, RecordAudit, ReconcileUsage, UpdateTask, record_one;
         exists []; rewrite app_nil_r; by repeat case_match).
  - unfold InsertJob, in_tx. destruct (insertJobTx now rec d) as [[r' d1]|] eqn:E; [|exact Id].
    by eapply insertTx_appends.
  - unfold InsertJobWithQuota, in_tx. destruct (check_quotas _ _ _); [|exact Id]. cbn [rbind].
    destruct (insertJobTx now rec d) as [[r' d1]|] eqn:E; [|exact Id]. by eapply insertTx_appends.
  - unfold TransitionJob, scanJob, in_tx. destruct (d.(jobs) !! i) as [r|]; [|exact Id]. simpl.
    destruct (Transition _ _); [|exact Id]. cbv zeta. destruct (doc_marshals _); [eexists; reflexivity|exact Id].
  - unfold SetJobCondition, scanJob, in_tx. destruct (d.(jobs) !! i) as [r|]; [|exact Id]. simpl.
    destruct (replace_condition _ _); [|exact Id]. cbv zeta. destruct (doc_marshals _); [eexists; reflexivity|exact Id].
  - unfold BindJob, scanJob, in_tx. destruct locked; [exact Id|].
    destruct (d.(jobs) !! i) as [r|]; [|exact Id]. simpl.
    destruct (String.eqb _ _); [|exact Id]. destruct (Transition _ _); [|exact Id]. cbv zeta.
    destruct (doc_marshals _); [|exact Id]. simpl. destruct (d.(tasks) !! taskID); [exact Id|eexists; reflexivity].
Qed.

Lemma run_appends d d' id : rtc store_step d d' -> exists new, events_of d' id = events_of d id ++ new.
Proof.
  induction 1 as [d|d d1 d2 Hs _ [new IH]]; [exists []; by rewrite app_nil_r|].
  apply step_appends in Hs as [n1 E]. exists (List.filter (fun ev => String.eqb ev.(EvJobID) id) n1 ++ new).
  rewrite IH. unfold events_of. by rewrite E, List.filter_app, app_assoc.
Qed.

(** What a tick reads: the events after the last one sent. *)
Lemma tick_events d id old new :
  Inv d -> events_of d id = old ++ new -> JobEventsSince d id (last_seq old) = new.
Proof.
  intros I E. rewrite JobEventsSince_spec by done.
  assert (Sp : List.filter (fun ev => String.eqb ev.(EvJobID) id && (last_seq old <? ev.(Seq))) d.(job_events)
    = List.filter (fun ev => last_seq old <? ev.(Seq)) (events_of d id)).
  { unfold events_of. clear. induction d.(job_events) as [|e l IH]; [done|]. simpl.
    destruct (String.eqb _ _); simpl; [destruct (_ <? _)|]; by rewrite IH. }
  rewrite Sp, E. clear Sp.
  assert (Hs : StronglySorted seq_lt (old ++ new)) by (rewrite <- E; apply seq_sorted_filter, I).
  assert (Hp : Forall (fun e => 0 < e.(Seq)) (old ++ new)).
  { rewrite <- E. apply Forall_forall. intros e He. pose proof (inv_seq d I) as S.
    rewrite Forall_forall in S. apply list_elem_of_In, List.filter_In in He as [He _].
    apply list_elem_of_In in He. specialize (S e He). lia. }
  clear E. rewrite List.filter_app.
  destruct old as [|o0 old0 _] using rev_ind.
  - simpl in *. clear Hs. induction Hp as [|e l He Hl IH]; [done|]. simpl. unfold last_seq. simpl.
    rewrite (proj2 (Z.ltb_lt 0 e.(Seq)) He). unfold last_seq in IH. simpl in IH. by rewrite IH.
  - unfold last_seq. rewrite fmap_app. simpl. rewrite List.last_last.
    rewrite <- app_assoc in Hs. simpl in Hs. clear Hp.
    assert (G : forall l, StronglySorted seq_lt (l ++ o0 :: new) ->
      List.filter (fun ev => o0.(Seq) <? ev.(Seq)) (l ++ [o0]) = [] /\
      List.filter (fun ev => o0.(Seq) <? ev.(Seq)) new = new).
    { induction l as [|e l IH]; simpl; intros H; inversion H as [|? ? H1 H2]; subst.
      - rewrite Z.ltb_irrefl. split; [done|]. clear -H2. induction H2 as [|x l Hx Hl IH]; [done|]. simpl.
        unfold seq_lt in Hx. rewrite (proj2 (Z.ltb_lt _ _) Hx). by rewrite IH.
      - destruct (IH H1) as [I1 I2]. split; [|done]. rewrite I1.
        rewrite Forall_forall in H2. specialize (H2 o0). unfold seq_lt in H2.
        destruct (Z.ltb_spec o0.(Seq) e.(Seq)); [|done].
        specialize (H2 ltac:(apply elem_of_app; right; left)). lia. }
    destruct (G old0 Hs) as [G1 G2]. by rewrite G1, G2.
Qed.

(** The databases the ticks find, in order. *)
Fixpoint timeline (d : db) (ticks : list db) : Prop :=
  match ticks with
  | [] => True
  | d' :: rest => rtc store_step d d' /\ timeline d' rest
  end.

Definition final_db (d : db) (ticks : list db) : db := List.last ticks d.

Lemma timeline_run d ticks : timeline d ticks -> rtc store_step d (final_db d ticks).
Proof.
  revert d. induction ticks as [|x l IH]; intros d; [constructor|]. intros [H1 H2].
  unfold final_db in *. rewrite last_cons_default. etrans; [exact H1|by apply IH].
Qed.

Lemma watch_ticks_spec rec d ticks :
  Inv d -> timeline d ticks -> has_terminal (events_of d rec.(JobID)) = false ->
  let all := events_of (final_db d ticks) rec.(JobID) in
  exists rest, watch_ticks rec ticks (last_seq (events_of d rec.(JobID)))
               = (event_view rec <$> rest, has_terminal all) /\
               until_terminal all = events_of d rec.(JobID) ++ rest.
Proof.
  revert d. induction ticks as [|x l IH]; intros d I T Hn; cbn zeta.
  - exists []. unfold final_db. simpl. rewrite Hn, app_nil_r. split; [done|by apply until_terminal_none].
  - destruct T as [Hr T]. assert (Ix : Inv x) by (eapply rtc_invariant; [exact I|apply Inv_step|exact Hr]).
    destruct (run_appends d x rec.(JobID) Hr) as [new Hnew]. unfold final_db. rewrite last_cons_default.
    cbn [watch_ticks]. rewrite (tick_events x rec.(JobID) _ new Ix Hnew), send_events_spec.
    destruct (has_terminal new) eqn:Ht.
    + exists (until_terminal new). destruct (run_appends x (final_db x l) rec.(JobID) (timeline_run _ _ T)) as [n2 E2].
      unfold final_db in E2. rewrite E2, Hnew, has_terminal_app, has_terminal_app, Ht, !orb_true_r. split; [done|].
      rewrite <- app_assoc, until_terminal_app, Hn, until_terminal_app, Ht. done.
    + rewrite (until_terminal_none new Ht).
      assert (L : List.last (Seq <$> new) (last_seq (events_of d rec.(JobID))) = last_seq (events_of x rec.(JobID))).
      { rewrite Hnew. unfold last_seq. rewrite fmap_app.
        destruct new as [|e0 new0 _] using rev_ind; [by rewrite app_nil_r|].
        rewrite fmap_app, app_assoc. simpl. by rewrite !List.last_last. }
      destruct (IH x Ix T) as (rest & W & U); [by rewrite Hnew, has_terminal_app, Hn, Ht|].
      rewrite L, W. exists (new ++ rest). unfold final_db in U.
      rewrite fmap_app. split; [done|]. by rewrite U, Hnew, app_assoc.
Qed.

(** (C14) A watcher misses nothing: whatever the store does between the polls,
    the stream is exactly the job's events in order, from the first one up to
    and including the first terminal event, and it ends by itself exactly when
    a terminal event exists. *)
Theorem WatchJob_complete ctx id d ticks rec :
  reachable d -> timeline d ticks -> loadJob ctx id d = (Ok rec, d) ->
  let all := events_of (final_db d ticks) id in
  WatchJob ctx id d ticks = Ok (event_view rec <$> until_terminal all, has_terminal all).
Proof.
  intros I%reachable_Inv T L. unfold WatchJob. rewrite L. cbn [fst].
  apply loadJob_ok in L as (_ & J & _ & _). destruct (job_of_inv _ _ _ I J) as [K _]. rewrite K.
  rewrite JobEventsSince_0, send_events_spec by done.
  pose proof (inv_history d I id) as H. unfold job_history_ok, history in H. rewrite J in H.
  destruct H as (_ & _ & h & H & _).
  assert (E : match events_of d id with [] => [jobToProto rec]
    | _ :: _ => event_view rec <$> until_terminal (events_of d id) end
    = event_view rec <$> until_terminal (events_of d id)) by (by destruct (events_of d id)).
  rewrite E. clear E. destruct (has_terminal (events_of d id)) eqn:Ht.
  - destruct (run_appends d _ id (timeline_run _ _ T)) as [new Hnew].
    rewrite Hnew, until_terminal_app, has_terminal_app, Ht. done.
  - rewrite (until_terminal_none _ Ht).
    destruct (watch_ticks_spec rec d ticks I T) as (rest & W & U); [by rewrite K|].
    rewrite K in W, U. unfold last_seq in W. rewrite W, U. by rewrite fmap_app.
Qed.

(** ** Cancelling *)

Lemma cancel_legal p : Valid p = true -> Terminal p = false -> Transition p Cancelled = Ok tt.
Proof.
  intros V T. phase_cases V; first [vm_compute; reflexivity|vm_compute in T; discriminate T].
Qed.

Lemma terminal_refuses p q : Valid p = true -> Valid q = true -> Terminal p = true ->
  Transition p q = Err (TerminalState p).
Proof. intros V Q T. unfold Transition. by rewrite V, Q, T. Qed.

Lemma Valid_Cancelled : Valid Cancelled = true.
Proof. vm_compute. reflexivity. Qed.

(** The condition that a cancelled job gets can always be written. *)
Lemma cancelled_marshals st :
  doc_marshals st = true ->
  doc_marshals (<["phase" := JStr Cancelled]> (appendCondition st cancelled_condition)) = true.
Proof.
  intros H. apply doc_marshals_insert; [|done]. apply doc_marshals_insert; [exact H|].
  apply marshals_snoc; [by apply arr_or_nil_marshals|vm_compute; reflexivity].
Qed.

(** (C15) Cancelling a job in the caller's scope, with the dispatcher as the
    canceller ([c] is [Some]) or without: first the canceller is asked, while
    it talks to the adapter others may use the store, and if it fails so does
    the call, with Internal and no change of its own.  Then the job, as it is
    by now, becomes CANCELLED if it is not finished, with one more event and
    the user's condition; a finished job is refused with FailedPrecondition
    and nothing changes. *)
Theorem CancelJob_spec ctx now id c d rec :
  reachable d -> loadJob ctx id d = (Ok rec, d) ->
  (forall f o d1, c = Some f -> f id d = (o, d1) -> rtc store_step d d1) ->
  match after_canceller c id d with
  | (Err m, d1) => CancelJob ctx now id c d = (Err (mkStatus Internal ("cancelling task: " +:+ m)), d1)
  | (Ok _, d1) =>
      exists cur, d1.(jobs) !! id = Some cur /\ cur.(Tenant) = rec.(Tenant) /\ cur.(Doc) = rec.(Doc) /\
      if Terminal cur.(JPhase)
      then exists m, CancelJob ctx now id c d = (Err (mkStatus FailedPrecondition m), d1)
      else exists rec' d', CancelJob ctx now id c d = (Ok (jobToProto rec'), d') /\
        d'.(jobs) = <[id := rec']> d1.(jobs) /\ rec'.(JPhase) = Cancelled /\
        rec'.(Tenant) = rec.(Tenant) /\ rec'.(Doc) = rec.(Doc) /\
        rec'.(Status) !! "phase" = Some (JStr Cancelled) /\
        rec'.(Status) !! "conditions" = Some (JArr (arr_or_nil (cur.(Status) !! "conditions")
                                             ++ [JObj (conditionToMap cancelled_condition)])) /\
        history d' id = history d1 id ++ [Cancelled]
  end.
Proof.
  intros R L Hc. rewrite (CancelJob_loaded _ _ _ _ _ _ L). apply loadJob_ok in L as (_ & J & _ & _).
  destruct (after_canceller c id d) as [o d1] eqn:AC.
  assert (R1 : rtc store_step d d1).
  { destruct c as [f|]; [by eapply Hc|]. by injection AC as _ <-. }
  destruct o as [[]|m]; [|done]. destruct (run_job _ _ _ _ R1 J) as (cur & J1 & _ & T1 & D1 & _).
  exists cur. do 3 (split; [done|]). assert (R' : reachable d1) by exact (transitivity R R1).
  destruct (job_of_inv _ _ _ (reachable_Inv _ R') J1) as [_ V].
  pose proof (cancelled_marshals _ (reachable_statuses _ R' _ _ J1)) as M.
  unfold TransitionJob, scanJob, in_tx. rewrite J1. cbn [rbind]. destruct (Terminal cur.(JPhase)) eqn:T.
  - rewrite (terminal_refuses _ Cancelled V Valid_Cancelled T). eexists. reflexivity.
  - rewrite (cancel_legal _ V T). cbv zeta. rewrite M. eexists _, _. split; [reflexivity|]. split_and!; try done.
    + cbn [Status with_phase]. by rewrite lookup_insert_eq.
    + cbn [Status with_phase]. rewrite lookup_insert_ne by done. unfold appendCondition. by rewrite lookup_insert_eq.
    + rewrite history_append. by rewrite decide_True.
Qed.

(** ** The handlers on the concrete run *)

Definition demo_member : Principal := mkPrincipal PrincipalToken "6162" "ci" RoleMember "acme/chem".

Definition demo_submitted : result status ProtoJob * db :=
  SubmitJob demo_schema (fun l => l) (Some demo_member) 10 "j9" (Some demo_document) "" false
    (mkFleetView [] []) empty_db.

Lemma SubmitJob_accepted_witness :
  exists pj, demo_submitted.1 = Ok pj /\
  exists adm rec, Admit demo_schema (fun l => l) (Some demo_document) "" (mkFleetView [] []) 10 = Ok adm /\
    demo_submitted.2.(jobs) = <["j9" := rec]> empty_db.(jobs) /\ rec.(JPhase) = Pending.
Proof.
  assert (E : is_ok demo_submitted.1 = true) by (vm_compute; reflexivity).
  destruct demo_submitted as [[pj|e] d'] eqn:S; [|discriminate E].
  exists pj. split; [reflexivity|].
  destruct (SubmitJob_accepted demo_schema (fun l => l) (Some demo_member) 10 "j9" (Some demo_document) ""
    (mkFleetView [] []) empty_db pj d' S) as (adm & rec & H1 & _ & _ & _ & _ & H2 & _ & _ & H3 & _).
  exists adm, rec. exact (conj H1 (conj H2 H3)).
Defined.

Lemma SubmitJob_refused_witness :
  (SubmitJob demo_schema (fun l => l) (Some demo_member) 10 "j9" (Some demo_document) "" true
     (mkFleetView [] []) empty_db).2 = empty_db.
Proof.
  apply (proj1 (SubmitJob_refused demo_schema (fun l => l) (Some demo_member) 10 "j9" (Some demo_document)
    "" true (mkFleetView [] []) empty_db)). reflexivity.
Defined.

Lemma declaredCosts_agree_witness :
  declaredCosts demo_document = [("shots", f_of_Z 100)] /\
  f_of_Z 100 = declared_cost demo_document "shots".
Proof.
  split; [vm_compute; reflexivity|].
  assert (H := declaredCosts_agree demo_document "shots" ltac:(vm_compute; reflexivity)).
  vm_compute in H. vm_compute. exact H.
Defined.

Lemma project_isolation_witness :
  exists pj d', GetJob_rpc (Some demo_member) "j1" demo_bound = (Ok pj, d') /\ pj.(PbTenant) = "acme/chem".
Proof.
  destruct (GetJob_rpc (Some demo_member) "j1" demo_bound) as [[pj|st] d'] eqn:E.
  - exists pj, d'. split; [reflexivity|].
    exact (proj2 (proj1 (proj2 (project_isolation demo_member demo_bound ltac:(discriminate))) "j1" (Ok pj) d' E) pj eq_refl).
  - exfalso. vm_compute in E. discriminate E.
Defined.

Lemma paging_complete_witness :
  follow_pages (S (length (matching demo_bound "acme/chem" ""))) (Some demo_member) "" "" "" 1 demo_bound
  = Some (jobToProto <$> matching demo_bound "acme/chem" "").
Proof.
  refine (proj1 (paging_complete (Some demo_member) "" "acme/chem" "" 1 demo_bound _ _)).
  - vm_compute. reflexivity.
  - vm_compute. discriminate.
Defined.

Definition demo_record : JobRecord :=
  mkJobRecord "j1" "acme/chem" "bell" Pending (mkdoc [("spec", JStr "bell")])
    (mkdoc [("phase", JStr Pending)]) 10 10.

Lemma WatchJob_complete_witness :
  WatchJob (Some demo_member) "j1" demo_pending [demo_cancelled]
  = Ok (event_view demo_record <$> until_terminal (events_of demo_cancelled "j1"), true).
Proof.
  refine (WatchJob_complete (Some demo_member) "j1" demo_pending [demo_cancelled] demo_record _ _ _).
  - apply demo_pending_reachable.
  - split; [apply rtc_once, demo_cancelled_step|exact I].
  - vm_compute. reflexivity.
Defined.

(** A canceller that tells the adapter, while a notification arrives. *)
Definition demo_canceller (id : string) (d : db) : result string unit * db := (Ok tt, NotifyJobs d).

Lemma CancelJob_spec_witness :
  exists rec' d', CancelJob (Some demo_member) 30 "j1" (Some demo_canceller) demo_pending = (Ok (jobToProto rec'), d') /\
    rec'.(JPhase) = Cancelled.
Proof.
  assert (H := CancelJob_spec (Some demo_member) 30 "j1" (Some demo_canceller) demo_pending demo_record
    demo_pending_reachable ltac:(vm_compute; reflexivity)
    ltac:(intros f o d1 [= <-] [= _ <-]; apply rtc_once, step_notify)).
  cbn [after_canceller demo_canceller] in H. destruct H as (cur & J & _ & _ & H).
  assert (E : (NotifyJobs demo_pending).(jobs) !! "j1" = Some demo_record) by (vm_compute; reflexivity).
  rewrite E in J. injection J as <-.
  assert (T : Terminal demo_record.(JPhase) = false) by (vm_compute; reflexivity).
  rewrite T in H. destruct H as (rec' & d' & H1 & _ & H2 & _). exists rec', d'. exact (conj H1 H2).
Defined.
