(* ===== verification/Prog.v ===== *)
(** * Dispatcher programs

    The dispatcher's goroutines as command trees: one node per store call,
    adapter call, clock reading or spawned executor, with a continuation for
    the answer.  [Done_cmd] answers whether the process context is cancelled,
    [Pause_cmd] waits for a time or for that, [WaitNotify_cmd] for a
    notification of the store ([WaitForJobNotify] of [Boot]).
    The store calls are the atomic steps of [Lifecycle]. *)

From S2P Require Import Prelude Float64 GoLib Phase Database JobStore Tables Lifecycle Views.

(** ** Adapter messages (the generated protobuf types) *)

Inductive task_state := TASK_QUEUED | TASK_RUNNING | TASK_SUCCEEDED | TASK_FAILED | TASK_CANCELLED.

Record ErrorDetail := mkErrorDetail {
  ECategory : string; ERetriable : bool; EVendorCode : string; EVendorMessage : string }.

Record Result_ := mkResult { ResFormat : string; ResInline : string; ResUri : string }.

Record TaskStatus := mkTaskStatus {
  TSState : task_state; TSResult : option Result_; TSUsage : list (string * float64);
  TSError : option ErrorDetail }.

Record SubmitTaskRequest := mkSubmit {
  SubTarget : string; IdempotencyKey : string; PayloadFormat : string; PayloadInline : string;
  SubShots : Z; SubSession : string; TenantHint : string }.

(** ** Programs *)

Inductive prog (A : Type) : Type :=
| Ret (a : A)
(* store *)
| GetJob_cmd (id : string) (k : sres JobRecord -> prog A)
| TransitionJob_cmd (id : string) (to : Phase) (mutate : option (doc -> doc)) (k : sres JobRecord -> prog A)
| SetJobCondition_cmd (id : string) (cond : doc) (k : sres bool -> prog A)
| BindJob_cmd (id taskID target : string) (placement : doc) (k : sres JobRecord -> prog A)
| UpdateTask_cmd (taskID adapter state : string) (err res : option doc) (k : sres unit -> prog A)
| RecordUsage_cmd (jobID taskID tenant target : string) (usage : string * float64) (k : unit -> prog A)
| GetSession_cmd (id : string) (k : sres SessionRecord -> prog A)
| InsertSession_cmd (s : SessionRecord) (k : sres unit -> prog A)
| StampSession_cmd (id sessionID : string) (k : unit -> prog A)
| SweepSessions_cmd (k : unit -> prog A)
| PendingJobs_cmd (limit : nat) (k : list JobRecord -> prog A)
| ActiveTasks_cmd (k : list TaskRecord -> prog A)
| TaskForJob_cmd (id : string) (k : sres TaskRecord -> prog A)
| ProjectWeights_cmd (tenants : list string) (k : option (gmap string Z) -> prog A)
| RecordShadow_cmd (p : ShadowPlacement) (k : unit -> prog A)
(* process *)
| Now_cmd (k : Z -> prog A)
| Uuid_cmd (k : string -> prog A)
| Fleet_cmd (k : list TargetView -> prog A)
| Done_cmd (k : bool -> prog A)
| Pause_cmd (k : unit -> prog A)
| WaitNotify_cmd (k : result string unit -> prog A)
| Spawn_cmd (rec : JobRecord) (taskID target : string) (k : unit -> prog A)
(* adapter *)
| HasClient_cmd (site : string) (k : bool -> prog A)
| SubmitTask_cmd (site : string) (req : SubmitTaskRequest) (k : result string string -> prog A)
| WatchTask_cmd (site target task : string) (k : result string unit -> prog A)
| Recv_cmd (k : result string TaskStatus -> prog A)
| CancelTask_cmd (site target task : string) (k : result string unit -> prog A)
| OpenSession_cmd (site target tenant : string) (maxDuration : Z) (k : result string (string * option Z) -> prog A)
| CloseSession_cmd (site session : string) (k : unit -> prog A).

Arguments Ret {A} a.
Arguments GetJob_cmd {A} id k.
Arguments TransitionJob_cmd {A} id to mutate k.
Arguments SetJobCondition_cmd {A} id cond k.
Arguments BindJob_cmd {A} id taskID target placement k.
Arguments UpdateTask_cmd {A} taskID adapter state err res k.
Arguments RecordUsage_cmd {A} jobID taskID tenant target usage k.
Arguments GetSession_cmd {A} id k.
Arguments InsertSession_cmd {A} s k.
Arguments StampSession_cmd {A} id sessionID k.
Arguments SweepSessions_cmd {A} k.
Arguments PendingJobs_cmd {A} limit k.
Arguments ActiveTasks_cmd {A} k.
Arguments TaskForJob_cmd {A} id k.
Arguments ProjectWeights_cmd {A} tenants k.
Arguments RecordShadow_cmd {A} p k.
Arguments Now_cmd {A} k.
Arguments Uuid_cmd {A} k.
Arguments Fleet_cmd {A} k.
Arguments Done_cmd {A} k.
Arguments Pause_cmd {A} k.
Arguments WaitNotify_cmd {A} k.
Arguments Spawn_cmd {A} rec taskID target k.
Arguments HasClient_cmd {A} site k.
Arguments SubmitTask_cmd {A} site req k.
Arguments WatchTask_cmd {A} site target task k.
Arguments Recv_cmd {A} k.
Arguments CancelTask_cmd {A} site target task k.
Arguments OpenSession_cmd {A} site target tenant maxDuration k.
Arguments CloseSession_cmd {A} site session k.

(** Sequencing. *)
Fixpoint pbind {A B} (p : prog A) (f : A -> prog B) : prog B :=
  match p with
  | Ret a => f a
  | GetJob_cmd i k => GetJob_cmd i (fun r => pbind (k r) f)
  | TransitionJob_cmd i t m k => TransitionJob_cmd i t m (fun r => pbind (k r) f)
  | SetJobCondition_cmd i c k => SetJobCondition_cmd i c (fun r => pbind (k r) f)
  | BindJob_cmd i t g pl k => BindJob_cmd i t g pl (fun r => pbind (k r) f)
  | UpdateTask_cmd t a s e r k => UpdateTask_cmd t a s e r (fun x => pbind (k x) f)
  | RecordUsage_cmd j t n g u k => RecordUsage_cmd j t n g u (fun x => pbind (k x) f)
  | GetSession_cmd i k => GetSession_cmd i (fun r => pbind (k r) f)
  | InsertSession_cmd s k => InsertSession_cmd s (fun r => pbind (k r) f)
  | StampSession_cmd i s k => StampSession_cmd i s (fun r => pbind (k r) f)
  | SweepSessions_cmd k => SweepSessions_cmd (fun r => pbind (k r) f)
  | PendingJobs_cmd n k => PendingJobs_cmd n (fun r => pbind (k r) f)
  | ActiveTasks_cmd k => ActiveTasks_cmd (fun r => pbind (k r) f)
  | TaskForJob_cmd i k => TaskForJob_cmd i (fun r => pbind (k r) f)
  | ProjectWeights_cmd l k => ProjectWeights_cmd l (fun r => pbind (k r) f)
  | RecordShadow_cmd s k => RecordShadow_cmd s (fun r => pbind (k r) f)
  | Now_cmd k => Now_cmd (fun r => pbind (k r) f)
  | Uuid_cmd k => Uuid_cmd (fun r => pbind (k r) f)
  | Fleet_cmd k => Fleet_cmd (fun r => pbind (k r) f)
  | Done_cmd k => Done_cmd (fun r => pbind (k r) f)
  | Pause_cmd k => Pause_cmd (fun r => pbind (k r) f)
  | WaitNotify_cmd k => WaitNotify_cmd (fun r => pbind (k r) f)
  | Spawn_cmd r t g k => Spawn_cmd r t g (fun x => pbind (k x) f)
  | HasClient_cmd s k => HasClient_cmd s (fun r => pbind (k r) f)
  | SubmitTask_cmd s q k => SubmitTask_cmd s q (fun r => pbind (k r) f)
  | WatchTask_cmd s g t k => WatchTask_cmd s g t (fun r => pbind (k r) f)
  | Recv_cmd k => Recv_cmd (fun r => pbind (k r) f)
  | CancelTask_cmd s g t k => CancelTask_cmd s g t (fun r => pbind (k r) f)
  | OpenSession_cmd s g n m k => OpenSession_cmd s g n m (fun r => pbind (k r) f)
  | CloseSession_cmd s x k => CloseSession_cmd s x (fun r => pbind (k r) f)
  end.

Notation "'let!' x := c 'in' k" := (c (fun x => k))
  (at level 10, x pattern, c at level 100, k at level 200) : rabi_scope.
Notation "'run!' x := p 'in' k" := (pbind p (fun x => k))
  (at level 10, x pattern, p at level 100, k at level 200) : rabi_scope.

(** ** Steps

    One command, against the database.  Answers from outside the store are
    arbitrary; so are transaction times, and whether another transaction holds
    the row [BindJob] wants.  [Spawn_cmd] is the business of the process. *)
Inductive pstep {A} : db -> prog A -> db -> prog A -> Prop :=
| ps_get d id k : pstep d (GetJob_cmd id k) d (k (GetJob d id))
| ps_transition d now id to m k :
    pstep d (TransitionJob_cmd id to m k) (TransitionJob d now id to m).2 (k (TransitionJob d now id to m).1)
| ps_condition d now id c k :
    pstep d (SetJobCondition_cmd id c k) (SetJobCondition d now id c).2 (k (SetJobCondition d now id c).1)
| ps_bind d now locked id t g pl k :
    pstep d (BindJob_cmd id t g pl k) (BindJob d now locked id t g pl).2 (k (BindJob d now locked id t g pl).1)
| ps_update d now t a s e r k :
    pstep d (UpdateTask_cmd t a s e r k) (UpdateTask d now t a s e r).2 (k (UpdateTask d now t a s e r).1)
| ps_usage d now j t n g u k :
    pstep d (RecordUsage_cmd j t n g u k) (record_one now j t n g d u) (k tt)
| ps_session d id k : pstep d (GetSession_cmd id k) d (k (GetSession d id))
| ps_insert_session d now s k :
    pstep d (InsertSession_cmd s k) (InsertSession d now s).2 (k (InsertSession d now s).1)
| ps_stamp d now id s k : pstep d (StampSession_cmd id s k) (stamp_session_sql d now id s) (k tt)
| ps_sweep d now k : pstep d (SweepSessions_cmd k) (sweepExpiredSessions d now) (k tt)
| ps_pending d n k : pstep d (PendingJobs_cmd n k) d (k (PendingJobs d n))
| ps_active d k : pstep d (ActiveTasks_cmd k) d (k (ActiveTasks d))
| ps_task d id k : pstep d (TaskForJob_cmd id k) d (k (TaskForJob d id))
| ps_weights d l k : pstep d (ProjectWeights_cmd l k) d (k (Some (ProjectWeights d l)))
| ps_weights_fail d l k : pstep d (ProjectWeights_cmd l k) d (k None)
| ps_shadow d now p k : pstep d (RecordShadow_cmd p k) (RecordShadowPlacement d now p) (k tt)
| ps_now d t k : pstep d (Now_cmd k) d (k t)
| ps_uuid d s k : pstep d (Uuid_cmd k) d (k s)
| ps_fleet d l k : pstep d (Fleet_cmd k) d (k l)
| ps_done d b k : pstep d (Done_cmd k) d (k b)
| ps_pause d k : pstep d (Pause_cmd k) d (k tt)
| ps_wait d r k : pstep d (WaitNotify_cmd k) d (k r)
| ps_client d s b k : pstep d (HasClient_cmd s k) d (k b)
| ps_submit d s q r k : pstep d (SubmitTask_cmd s q k) d (k r)
| ps_watch d s g t r k : pstep d (WatchTask_cmd s g t k) d (k r)
| ps_recv d r k : pstep d (Recv_cmd k) d (k r)
| ps_cancel d s g t r k : pstep d (CancelTask_cmd s g t k) d (k r)
| ps_open d s g n m r k : pstep d (OpenSession_cmd s g n m k) d (k r)
| ps_close d s x k : pstep d (CloseSession_cmd s x k) d (k tt).

(** ** Judgements about every execution of a program

    [always Q R h p]: whatever the answers, every command of [p] satisfies [Q]
    and every result [R], given what the program has observed and done before
    it, the history [h], newest first: clock readings, fleet snapshots,
    sessions, attempts to bind a job and whether they succeeded, sweeps, waits
    and answers to whether it has to stop. *)
Inductive label :=
| LTransition (id : string) (to : Phase)
| LBind (id target : string)
| LSpawn (id : string)
| LSubmit (site : string) (req : SubmitTaskRequest)
| LRecv.

Inductive event :=
| EvNow (t : Z)
| EvFleet (fleet : list TargetView)
| EvSession (id : string) (r : sres SessionRecord)
| EvBind (id : string) (won : bool)
| EvSweep
| EvWait
| EvAsked (stop : bool).

Fixpoint always {A} (Q : list event -> label -> Prop) (R : list event -> A -> Prop)
    (h : list event) (p : prog A) : Prop :=
  match p with
  | Ret a => R h a
  | TransitionJob_cmd i t _ k => Q h (LTransition i t) /\ forall r, always Q R h (k r)
  | BindJob_cmd i _ g _ k => Q h (LBind i g) /\ forall r, always Q R (EvBind i (is_ok r) :: h) (k r)
  | Spawn_cmd r _ _ k => Q h (LSpawn r.(JobID)) /\ forall x, always Q R h (k x)
  | Now_cmd k => forall r, always Q R (EvNow r :: h) (k r)
  | Fleet_cmd k => forall r, always Q R (EvFleet r :: h) (k r)
  | GetSession_cmd i k => forall r, always Q R (EvSession i r :: h) (k r)
  | GetJob_cmd _ k => forall r, always Q R h (k r)
  | SetJobCondition_cmd _ _ k => forall r, always Q R h (k r)
  | UpdateTask_cmd _ _ _ _ _ k => forall r, always Q R h (k r)
  | RecordUsage_cmd _ _ _ _ _ k => forall r, always Q R h (k r)
  | InsertSession_cmd _ k => forall r, always Q R h (k r)
  | StampSession_cmd _ _ k => forall r, always Q R h (k r)
  | SweepSessions_cmd k => forall r, always Q R (EvSweep :: h) (k r)
  | PendingJobs_cmd _ k => forall r, always Q R h (k r)
  | ActiveTasks_cmd k => forall r, always Q R h (k r)
  | TaskForJob_cmd _ k => forall r, always Q R h (k r)
  | ProjectWeights_cmd _ k => forall r, always Q R h (k r)
  | RecordShadow_cmd _ k => forall r, always Q R h (k r)
  | Uuid_cmd k => forall r, always Q R h (k r)
  | Done_cmd k => forall r, always Q R (EvAsked r :: h) (k r)
  | Pause_cmd k => forall r, always Q R (EvWait :: h) (k r)
  | WaitNotify_cmd k => forall r, always Q R (EvWait :: h) (k r)
  | HasClient_cmd _ k => forall r, always Q R h (k r)
  | SubmitTask_cmd s q k => Q h (LSubmit s q) /\ forall r, always Q R h (k r)
  | WatchTask_cmd _ _ _ k => forall r, always Q R h (k r)
  | Recv_cmd k => Q h LRecv /\ forall r, always Q R h (k r)
  | CancelTask_cmd _ _ _ k => forall r, always Q R h (k r)
  | OpenSession_cmd _ _ _ _ k => forall r, always Q R h (k r)
  | CloseSession_cmd _ _ k => forall r, always Q R h (k r)
  end.

Lemma always_bind {A B} Q (R : list event -> B -> Prop) (S : list event -> A -> Prop)
    (p : prog A) (f : A -> prog B) h :
  always Q S h p -> (forall h' a, S h' a -> always Q R h' (f a)) -> always Q R h (pbind p f).
Proof.
  revert h. induction p; intros h Hp Hf; simpl in *; eauto; try (destruct Hp as [? Hp]; split; eauto).
Qed.

Lemma always_mono {A} (Q Q' : list event -> label -> Prop) (R R' : list event -> A -> Prop) p h :
  (forall h l, Q h l -> Q' h l) -> (forall h a, R h a -> R' h a) -> always Q R h p -> always Q' R' h p.
Proof.
  intros HQ HR. revert h. induction p; intros h; simpl; eauto; intros [? Hp]; split; eauto.
Qed.

(** Walk over a program, one command at a time. *)
Ltac walk :=
  repeat first
    [ progress cbn [always pbind]
    | match goal with |- forall _, _ => intros ? end
    | match goal with |- _ /\ _ => split end
    | match goal with |- context [match ?x with _ => _ end] => destruct x end ].

(** A program whose transitions are the code's own. *)
Definition lawful (h : list event) (l : label) : Prop :=
  match l with LTransition _ to => to ∈ transition_targets | _ => True end.

Definition safe {A} (p : prog A) : Prop := forall h, always lawful (fun _ _ => True) h p.

Lemma safe_bind {A B} (p : prog A) (f : A -> prog B) : safe p -> (forall a, safe (f a)) -> safe (pbind p f).
Proof. intros Hp Hf h. apply (always_bind _ _ (fun _ _ => True)); [apply Hp|]. intros h' a _. apply Hf. Qed.

Lemma safe_step {A} d (p : prog A) d' p' h :
  pstep d p d' p' -> always lawful (fun _ _ => True) h p -> exists h', always lawful (fun _ _ => True) h' p'.
Proof. destruct 1; simpl; intros H; eexists; try apply H. Qed.

(** Every command is a step of the store, or leaves the database alone. *)
Lemma pstep_store {A} d (p : prog A) d' p' h :
  pstep d p d' p' -> always lawful (fun _ _ => True) h p -> rtc store_step d d'.
Proof.
  destruct 1; simpl; intros H; try apply rtc_refl; apply rtc_once; try by constructor.
  destruct H as [H _]. by constructor.
Qed.

(** ** Executions under interference

    [obeys Ask Post p d]: started on [d], with any steps of other store
    clients between its commands and after the last one, the executors [p]
    starts and the submissions it makes satisfy [Ask] when it does, and it ends
    with a result and a database that satisfy [Post]. *)
Inductive ask :=
| AskSpawn (rec : JobRecord) (taskID target : string)
| AskSubmit (site : string) (req : SubmitTaskRequest).

Section Obeys.
Context {A : Type} (Ask : ask -> db -> Prop) (Post : A -> db -> Prop).

(** After any steps of others. *)
Definition rely (d : db) (P : db -> Prop) : Prop := forall d', rtc store_step d d' -> P d'.

Fixpoint obeys (p : prog A) (d0 : db) : Prop :=
  rely d0 (fun d =>
    match p with
    | Ret a => Post a d
    | GetJob_cmd id k => obeys (k (GetJob d id)) d
    | TransitionJob_cmd id to m k =>
        forall now, obeys (k (TransitionJob d now id to m).1) (TransitionJob d now id to m).2
    | SetJobCondition_cmd id c k =>
        forall now, obeys (k (SetJobCondition d now id c).1) (SetJobCondition d now id c).2
    | BindJob_cmd id t g pl k =>
        forall now locked, obeys (k (BindJob d now locked id t g pl).1) (BindJob d now locked id t g pl).2
    | UpdateTask_cmd t a s e r k =>
        forall now, obeys (k (UpdateTask d now t a s e r).1) (UpdateTask d now t a s e r).2
    | RecordUsage_cmd j t n g u k => forall now, obeys (k tt) (record_one now j t n g d u)
    | GetSession_cmd id k => obeys (k (GetSession d id)) d
    | InsertSession_cmd s k => forall now, obeys (k (InsertSession d now s).1) (InsertSession d now s).2
    | StampSession_cmd id s k => forall now, obeys (k tt) (stamp_session_sql d now id s)
    | SweepSessions_cmd k => forall now, obeys (k tt) (sweepExpiredSessions d now)
    | PendingJobs_cmd n k => obeys (k (PendingJobs d n)) d
    | ActiveTasks_cmd k => obeys (k (ActiveTasks d)) d
    | TaskForJob_cmd id k => obeys (k (TaskForJob d id)) d
    | ProjectWeights_cmd l k => obeys (k (Some (ProjectWeights d l))) d /\ obeys (k None) d
    | RecordShadow_cmd p k => forall now, obeys (k tt) (RecordShadowPlacement d now p)
    | Now_cmd k => forall t, obeys (k t) d
    | Uuid_cmd k => forall s, obeys (k s) d
    | Fleet_cmd k => forall l, obeys (k l) d
    | Done_cmd k => forall b, obeys (k b) d
    | Pause_cmd k => obeys (k tt) d
    | WaitNotify_cmd k => forall r, obeys (k r) d
    | Spawn_cmd rec t g k => Ask (AskSpawn rec t g) d /\ obeys (k tt) d
    | HasClient_cmd _ k => forall b, obeys (k b) d
    | SubmitTask_cmd s q k => Ask (AskSubmit s q) d /\ forall r, obeys (k r) d
    | WatchTask_cmd _ _ _ k => forall r, obeys (k r) d
    | Recv_cmd k => forall r, obeys (k r) d
    | CancelTask_cmd _ _ _ k => forall r, obeys (k r) d
    | OpenSession_cmd _ _ _ _ k => forall r, obeys (k r) d
    | CloseSession_cmd _ _ k => obeys (k tt) d
    end).

(** One step of the program or of another client of the store. *)
Inductive istep : db * prog A -> db * prog A -> Prop :=
| is_env d d' p : store_step d d' -> istep (d, p) (d', p)
| is_prog d p d' p' : pstep d p d' p' -> istep (d, p) (d', p')
| is_spawn d r t g k : istep (d, Spawn_cmd r t g k) (d, k tt).

Lemma obeys_env p d d' : rtc store_step d d' -> obeys p d -> obeys p d'.
Proof. intros Hs H. destruct p; simpl in *; intros d1 R; apply H; by etrans. Qed.

Lemma obeys_step p d d' p' : pstep d p d' p' -> obeys p d -> obeys p' d'.
Proof.
  intros Hs H. destruct Hs; match type of H with obeys _ ?d => specialize (H d (rtc_refl _ _)) end.
  all: cbn beta iota in H. all: try exact H. all: try exact (H _). all: try exact (H _ _). all: apply H.
Qed.

(** The judgement is about the interleaved executions. *)
Lemma obeys_sound p d d' a : rtc istep (d, p) (d', Ret a) -> obeys p d -> Post a d'.
Proof.
  intros R. remember (d, p) as x eqn:Ex. remember (d', Ret a) as y eqn:Ey.
  revert d p Ex d' a Ey. induction R as [x|x y z Hs R IH]; intros d p -> d' a E.
  - injection E as -> ->. intros H. apply (H d'), rtc_refl.
  - intros H. inversion Hs as [d0 d1 p0 Hs' E1 E2|d0 p0 d1 p1 Hs' E1 E2|d0 r t g k E1 E2]; subst.
    + eapply IH; [reflexivity|reflexivity|]. eapply obeys_env; [by apply rtc_once|done].
    + eapply IH; [reflexivity|reflexivity|]. by eapply obeys_step.
    + eapply IH; [reflexivity|reflexivity|]. apply (H _ (rtc_refl _ _)).
Qed.
End Obeys.

(** About the results alone. *)
Abbreviation ensures := (obeys (fun _ _ => True)).

Lemma ensures_ret {A} (Post : A -> db -> Prop) a d : rely d (Post a) -> ensures Post (Ret a) d.
Proof. done. Qed.

Lemma rely_trans d d' P : rtc store_step d d' -> rely d P -> rely d' P.
Proof. intros R H d2 R2. apply H. by etrans. Qed.

Lemma obeys_bind {A B Ask} (Post : B -> db -> Prop) (Mid : A -> db -> Prop) (p : prog A) (f : A -> prog B) d :
  obeys Ask Mid p d -> (forall a d, Mid a d -> obeys Ask Post (f a) d) -> obeys Ask Post (pbind p f) d.
Proof.
  intros Hp Hf. revert d Hp. induction p; intros d0 Hp; cbn [pbind].
  { apply Hf. apply (Hp d0), rtc_refl. }
  all: intros d' R; specialize (Hp d' R); cbn beta iota in Hp |- *.
  all: try (intros; match goal with IH : context [obeys _ _ _ _ -> _] |- _ => apply IH end; apply Hp).
  all: destruct Hp as [Hp1 Hp2]; split; first [exact Hp1|intros; match goal with IH : context [obeys _ _ _ _ -> _] |- _ => apply IH end; first [apply Hp1|apply Hp2]].
Qed.

(** A fact that store steps preserve survives a safe program. *)
Lemma ensures_invariant {A} (S : db -> Prop) (p : prog A) h d :
  (forall d d', store_step d d' -> S d -> S d') ->
  always lawful (fun _ _ => True) h p -> S d -> ensures (fun _ => S) p d.
Proof.
  intros HS. assert (HR : forall d d', rtc store_step d d' -> S d -> S d') by (induction 1; eauto).
  revert h d. induction p; intros h d Hp Hd d' R; cbn [always] in Hp;
    pose proof (HR _ _ R Hd) as Hd'; cbn beta iota; try exact Hd'; try destruct Hp as [Hl Hp]; intros;
    repeat split; intros; match goal with IH : context [obeys _ _ _ _] |- _ => eapply IH; [apply Hp|] end;
    try exact Hd'; (eapply HS; [|exact Hd']); by constructor.
Qed.

Lemma obeys_and {A Ask} (P Q : A -> db -> Prop) p d :
  obeys Ask P p d -> ensures Q p d -> obeys Ask (fun a d => P a d /\ Q a d) p d.
Proof.
  revert d. induction p; intros d Hp Hq d' R; specialize (Hp d' R); specialize (Hq d' R);
    cbn beta iota in *; intros; repeat split; intros; try match goal with IH : context [obeys _ _ _ _] |- _ => apply IH end;
    first [apply Hp|apply Hq].
Qed.

Lemma obeys_mono {A Ask} (P Q : A -> db -> Prop) p d :
  (forall a d, P a d -> Q a d) -> obeys Ask P p d -> obeys Ask Q p d.
Proof.
  intros HPQ. revert d. induction p; intros d Hp d' R; specialize (Hp d' R); cbn beta iota in *; intros;
    repeat split; intros; try match goal with IH : context [obeys _ _ _ _] |- _ => apply IH end; try apply Hp.
  by apply HPQ.
Qed.

(** A program that starts no executor and submits nothing obeys whatever is
    asked of those that do. *)
Definition silent (h : list event) (l : label) : Prop :=
  match l with LSpawn _ | LSubmit _ _ => False | _ => True end.

Lemma obeys_silent {A} Ask (R : list event -> A -> Prop) p h d :
  always silent R h p -> obeys Ask (fun a _ => exists h', R h' a) p d.
Proof.
  revert h d. induction p; intros h d0 Hp d R0; cbn [always silent] in Hp; cbn beta iota; try (by exists h).
  all: try (by destruct Hp as [[] _]); try (destruct Hp as [_ Hp]); intros; repeat split.
  all: match goal with IH : context [obeys _ _ _ _] |- _ => eapply IH, Hp end.
Qed.

(** Safe and silent. *)
Definition quiet {A} (p : prog A) : Prop := forall h, always (fun h l => lawful h l /\ silent h l) (fun _ _ => True) h p.

Lemma quiet_safe {A} (p : prog A) : quiet p -> safe p.
Proof. intros H h. eapply always_mono; [| |apply H]; [intros h' l Hl; exact (proj1 Hl)|done]. Qed.

Lemma quiet_silent {A} (p : prog A) h : quiet p -> always silent (fun _ _ => True) h p.
Proof. intros H. eapply always_mono; [| |apply H]; [intros h' l Hl; exact (proj2 Hl)|done]. Qed.

Lemma quiet_bind {A B} (p : prog A) (f : A -> prog B) : quiet p -> (forall a, quiet (f a)) -> quiet (pbind p f).
Proof. intros Hp Hf h. eapply always_bind; [apply Hp|]. intros h' a _. apply Hf. Qed.

(** A fact that store steps preserve survives a quiet program. *)
Lemma obeys_quiet {A} Ask (S : db -> Prop) (p : prog A) d :
  (forall d d', store_step d d' -> S d -> S d') -> quiet p -> S d -> obeys Ask (fun _ => S) p d.
Proof.
  intros HS Hq Hd. eapply obeys_mono; [|apply obeys_and; [eapply obeys_silent|]].
  - intros a d' [_ H]. exact H.
  - exact (quiet_silent p [] Hq).
  - eapply ensures_invariant; [exact HS|exact (quiet_safe p Hq [])|exact Hd].
Qed.

(** ** An adapter that answers

    [fed handle l p]: the executions of [p] in which the process is not
    stopping, the adapter is there, accepts the submission with [handle] and
    the watches, and the streams deliver [l], breaks included; with what is
    left of [l]. *)
Fixpoint fed {A} (handle : string) (l : list (result string TaskStatus)) (p : prog A)
  : prog (list (result string TaskStatus) * A) :=
  match p with
  | Ret a => Ret (l, a)
  | GetJob_cmd i k => GetJob_cmd i (fun r => fed handle l (k r))
  | TransitionJob_cmd i t m k => TransitionJob_cmd i t m (fun r => fed handle l (k r))
  | SetJobCondition_cmd i c k => SetJobCondition_cmd i c (fun r => fed handle l (k r))
  | BindJob_cmd i t g pl k => BindJob_cmd i t g pl (fun r => fed handle l (k r))
  | UpdateTask_cmd t a s e r k => UpdateTask_cmd t a s e r (fun x => fed handle l (k x))
  | RecordUsage_cmd j t n g u k => RecordUsage_cmd j t n g u (fun x => fed handle l (k x))
  | GetSession_cmd i k => GetSession_cmd i (fun r => fed handle l (k r))
  | InsertSession_cmd s k => InsertSession_cmd s (fun r => fed handle l (k r))
  | StampSession_cmd i s k => StampSession_cmd i s (fun r => fed handle l (k r))
  | SweepSessions_cmd k => SweepSessions_cmd (fun r => fed handle l (k r))
  | PendingJobs_cmd n k => PendingJobs_cmd n (fun r => fed handle l (k r))
  | ActiveTasks_cmd k => ActiveTasks_cmd (fun r => fed handle l (k r))
  | TaskForJob_cmd i k => TaskForJob_cmd i (fun r => fed handle l (k r))
  | ProjectWeights_cmd t k => ProjectWeights_cmd t (fun r => fed handle l (k r))
  | RecordShadow_cmd s k => RecordShadow_cmd s (fun r => fed handle l (k r))
  | Now_cmd k => Now_cmd (fun r => fed handle l (k r))
  | Uuid_cmd k => Uuid_cmd (fun r => fed handle l (k r))
  | Fleet_cmd k => Fleet_cmd (fun r => fed handle l (k r))
  | Done_cmd k => Done_cmd (fun _ => fed handle l (k false))
  | Pause_cmd k => Pause_cmd (fun r => fed handle l (k r))
  | WaitNotify_cmd k => WaitNotify_cmd (fun r => fed handle l (k r))
  | Spawn_cmd r t g k => Spawn_cmd r t g (fun x => fed handle l (k x))
  | HasClient_cmd s k => HasClient_cmd s (fun _ => fed handle l (k true))
  | SubmitTask_cmd s q k => SubmitTask_cmd s q (fun _ => fed handle l (k (Ok handle)))
  | WatchTask_cmd s g t k => WatchTask_cmd s g t (fun _ => fed handle l (k (Ok tt)))
  | Recv_cmd k => Recv_cmd (fun r => match l with x :: l' => fed handle l' (k x) | [] => fed handle [] (k r) end)
  | CancelTask_cmd s g t k => CancelTask_cmd s g t (fun r => fed handle l (k r))
  | OpenSession_cmd s g n m k => OpenSession_cmd s g n m (fun r => fed handle l (k r))
  | CloseSession_cmd s x k => CloseSession_cmd s x (fun r => fed handle l (k r))
  end.

Lemma fed_bind {A B} handle (Post : list (result string TaskStatus) * B -> db -> Prop)
    (Mid : list (result string TaskStatus) * A -> db -> Prop) (p : prog A) (f : A -> prog B) l d :
  ensures Mid (fed handle l p) d -> (forall l' a d, Mid (l', a) d -> ensures Post (fed handle l' (f a)) d) ->
  ensures Post (fed handle l (pbind p f)) d.
Proof.
  intros Hp Hf. revert l d Hp. induction p; intros l d0 Hp; cbn [pbind fed] in *.
  { apply Hf. apply (Hp d0), rtc_refl. }
  all: intros d' R; specialize (Hp d' R); cbn beta iota in Hp |- *.
  all: intros; repeat split; intros; try destruct l; match goal with IH : context [obeys _ _ _ _ -> _] |- _ => apply IH end;
    apply Hp.
  all: first [exact true|exact (Err EmptyString)].
Qed.

(** Fewer executions than the program has. *)
Lemma fed_refines {A} handle (Post : A -> db -> Prop) (p : prog A) l d :
  ensures Post p d -> ensures (fun o => Post o.2) (fed handle l p) d.
Proof.
  revert l d. induction p; intros l d0 Hp d' R; specialize (Hp d' R); cbn [fed] in *; cbn beta iota in *; [done|..].
  all: intros; repeat split; intros; try destruct l;
    match goal with IH : context [obeys _ _ _ _] |- _ => apply IH end; apply Hp.
Qed.

(** A program that receives nothing leaves the stream as it is. *)
Definition receives_not (h : list event) (l : label) : Prop := match l with LRecv => False | _ => True end.

Lemma fed_muted {A} handle (Post : A -> db -> Prop) (p : prog A) l h d :
  always receives_not (fun _ _ => True) h p -> ensures Post p d ->
  ensures (fun o d' => o.1 = l /\ Post o.2 d') (fed handle l p) d.
Proof.
  revert h d. induction p; intros h d0 Hq Hp d' R; specialize (Hp d' R); cbn [always receives_not fed] in *; cbn beta iota in *; [done|..].
  all: try (by destruct Hq as [[] _]); try destruct Hq as [_ Hq]; intros; repeat split; intros.
  all: match goal with IH : context [obeys _ _ _ _] |- _ => eapply IH; [apply Hq|] end; apply Hp.
Qed.

#[export] Hint Resolve safe_bind quiet_bind quiet_safe : rabi.
