(* ===== verification/Dispatch.v ===== *)
(** * The dispatcher — src/internal/dispatch/{dispatcher,sessions,conflict}.go

    One definition per method, as programs over the commands of [Prog].
    Loops that run until the process stops take a number of rounds: running
    out of rounds is the process stopping there.  [json_unmarshal] is
    encoding/json on result payloads ([None] on an error), [errtext] the text
    of a library's error on an input. *)

From S2P Require Import Prelude Float64 GoLib Phase Database JobStore Tables Lifecycle Qasm Views Filter Policies Scheduler FairShare Prog.

(** ** Documents *)

(** [docPath]: a missing or mistyped step gives the empty object. *)
Fixpoint docPath (d : doc) (path : list string) : doc :=
  match path with
  | [] => d
  | p :: rest => match as_obj (d !! p) with Some next => docPath next rest | None => ∅ end
  end.

Record Payload := mkPayload { PlFormat : string; PlInline : string }.

(** The library calls whose error texts the dispatcher copies. *)
Inductive libcall := Base64_DecodeString | Time_ParseDuration | Time_Parse.

Definition errmap (category : string) (retriable : bool) (key message : string) : doc :=
  mkdoc [("category", JStr category); ("retriable", JBool retriable); (key, JStr message)].

Section Dispatcher.
Context (errtext : libcall -> string -> string) (json_unmarshal : string -> option (option doc))
  (base64_encode : string -> string).

Definition payloadFor (d : doc) : result doc (Payload * Z) :=
  let workload := docPath d ["spec"; "workload"] in
  let kind := str_or_empty (workload !! "kind") in
  let modality := docPath workload [payloadField kind] in
  let program := docPath modality ["program"] in
  let format := str_or_empty (program !! "format") in
  let shots := match as_num (modality !! "shots") with Some s => f_to_uint 64 s | None => 0 end in
  let uri := str_or_empty (program !! "source") in
  if negb (String.eqb uri "") then
    Err (errmap "INVALID_PROGRAM" false "vendorMessage"
      ("program.source URIs are not resolvable in this deployment (got " +:+ quote uri
         +:+ "); inline the program"))
  else let inline := str_or_empty (program !! "inline") in
       match base64_decode inline with
       | None => Err (errmap "INVALID_PROGRAM" false "vendorMessage"
           ("program.inline is not valid base64: " +:+ errtext Base64_DecodeString inline))
       | Some raw => Ok (mkPayload format raw, shots)
       end.

Definition errorToMap (detail : option ErrorDetail) : doc :=
  match detail with
  | None => errmap "VENDOR_ERROR" false "vendorMessage" "adapter reported failure without ErrorDetail"
  | Some e => mkdoc [("category", JStr e.(ECategory)); ("retriable", JBool e.(ERetriable));
                     ("vendorCode", JStr e.(EVendorCode)); ("vendorMessage", JStr e.(EVendorMessage))]
  end.

(** [out[u.Unit] += u.Amount], as the map it builds. *)
Definition usageToMap (records : list (string * float64)) : gmap string float64 :=
  fold_left (fun out u => <[u.1 := fadd (default f0 (out !! u.1)) u.2]> out) records ∅.

Definition usageToStatus (usage : gmap string float64) : list any :=
  (fun unit_ => jobj [("unit", JStr unit_); ("amount", JNum (default f0 (usage !! unit_)))])
    <$> sort_strings (fst <$> map_to_list usage).

Definition condition (condType status reason message : string) : doc :=
  mkdoc [("type", JStr condType); ("status", JStr status); ("reason", JStr reason); ("message", JStr message)].

Definition appendCondition (st : doc) (condType status reason message : string) : doc :=
  <["conditions" := JArr (arr_or_nil (st !! "conditions") ++ [JObj (condition condType status reason message)])]> st.

(** [site, target, _ := strings.Cut(name, "/")]. *)
Definition cut_target (name : string) : string * string :=
  match cut name "/"%char with Some (site, id) => (site, id) | None => (name, "") end.

(** A [map[string]any] as a JSON value: a nil map is null. *)
Definition nullable (d : option doc) : any := match d with Some m => JObj m | None => JNull end.

Definition resultToMap (r : option Result_) : option doc :=
  match r with
  | None => None
  | Some r =>
      let out := mkdoc [("format", JStr r.(ResFormat))] in
      let out := if String.eqb r.(ResInline) "" then out
                 else match json_unmarshal r.(ResInline) with
                      | Some decoded => <["data" := nullable decoded]> out
                      | None => <["inlineBase64" := JStr (base64_encode r.(ResInline))]> out
                      end in
      Some (if String.eqb r.(ResUri) "" then out else <["uri" := JStr r.(ResUri)]> out)
  end.

(** ** Failing a job *)

Definition fail_status (taskID targetName : string) (errDetail : doc) (st : doc) : doc :=
  let st := <["tasks" := JArr [jobj [("id", JStr taskID); ("target", JStr targetName);
               ("state", JStr "FAILED"); ("error", JObj errDetail)]]]> st in
  appendCondition st "Failed" "True" (str_or_empty (errDetail !! "category"))
    (str_or_empty (errDetail !! "vendorMessage")).

Definition failJob (rec : JobRecord) (taskID targetName : string) (errDetail : doc) : prog unit :=
  let! _ := UpdateTask_cmd taskID "" "FAILED" (Some errDetail) None in
  let! _ := TransitionJob_cmd rec.(JobID) Failed (Some (fail_status taskID targetName errDetail)) in
  Ret tt.

(** ** sessions.go *)

Definition session_lost_status (msg : string) (st : doc) : doc :=
  let st := <["conditions" := JArr (arr_or_nil (st !! "conditions")
               ++ [JObj (condition "SessionLost" "True" "SessionUnavailable" msg)])]> st in
  <["error" := JObj (errmap "SESSION_LOST" true "message" msg)]> st.

Definition failSessionLost (rec : JobRecord) (msg : string) : prog unit :=
  let! _ := TransitionJob_cmd rec.(JobID) Failed (Some (session_lost_status msg)) in Ret tt.

Definition failSessionLostTask (rec : JobRecord) (taskID targetName msg : string) : prog unit :=
  failJob rec taskID targetName (errmap "SESSION_LOST" true "message" msg).

(** [j.RequireTargets = []string{sess.Target}]. *)
Definition pin (j : JobView) (target : string) : JobView :=
  mkJobView j.(JVID) j.(JVTenant) j.(Kind) j.(Format) j.(Shots) j.(JQubits) j.(Technology)
    j.(TwoQubitErrorMax) j.(ReadoutErrorMax) j.(CalibrationMaxAge) j.(Aggregate) j.(OnConflict)
    j.(Deadline) j.(BudgetUnits) j.(SessionJoin) j.(SessionMaxDuration) j.(PreferOnPrem)
    j.(AllowCloudBurst) j.(DenyTargets) [target] j.(Profile).

(** [sessionAffinity]: the view to schedule with, or [None] after failing the
    job. *)
Definition sessionAffinity (rec : JobRecord) (j : JobView) : prog (option JobView) :=
  if String.eqb j.(SessionJoin) "" then Ret (Some j)
  else
    let! r := GetSession_cmd j.(SessionJoin) in
    match r with
    | Err _ =>
        run! _ := failSessionLost rec ("session " +:+ quote j.(SessionJoin) +:+ " not found") in Ret None
    | Ok sess =>
        if negb (String.eqb sess.(STenant) rec.(Tenant)) then
          run! _ := failSessionLost rec ("session " +:+ quote sess.(SessionID) +:+ " belongs to project "
                                          +:+ quote sess.(STenant)) in Ret None
        else
          let! now := Now_cmd in
          if negb (Live sess now) then
            run! _ := failSessionLost rec ("session " +:+ quote sess.(SessionID)
                                            +:+ " is closed or expired") in Ret None
          else Ret (Some (pin j sess.(STarget)))
    end.

(** [openSessionIfRequested]: the adapter session, or [None] after a failure. *)
Definition openSessionIfRequested (rec : JobRecord) (taskID targetName : string) : prog (option string) :=
  match ParseJob rec.(JobID) rec.(Tenant) rec.(Doc) with
  | Err _ => Ret (Some "")
  | Ok j =>
      if (j.(SessionMaxDuration) <=? 0) || negb (String.eqb j.(SessionJoin) "") then Ret (Some "")
      else
        let '(site, targetID) := cut_target targetName in
        let! client := HasClient_cmd site in
        if negb client then
          run! _ := failJob rec taskID targetName (errmap "DEVICE_OFFLINE" true "vendorMessage"
            ("adapter for site " +:+ site +:+ " is not configured")) in Ret None
        else
          let! h := OpenSession_cmd site targetID rec.(Tenant) j.(SessionMaxDuration) in
          match h with
          | Err e =>
              run! _ := failJob rec taskID targetName
                (errmap "VENDOR_ERROR" true "vendorMessage" ("OpenSession: " +:+ e)) in Ret None
          | Ok (adapterSession, expires) =>
              let! sid := Uuid_cmd in
              let sess := mkSessionRecord sid rec.(Tenant) targetName adapterSession rec.(JobID)
                            expires None 0 in
              let! ins := InsertSession_cmd sess in
              match ins with
              | Err e =>
                  let! _ := CloseSession_cmd site adapterSession in
                  run! _ := failJob rec taskID targetName (errmap "VENDOR_ERROR" true "vendorMessage"
                    ("recording session: " +:+ store_message e)) in Ret None
              | Ok _ =>
                  let! _ := SetJobCondition_cmd rec.(JobID)
                    (condition "SessionOpened" "True" "SessionOpened"
                       ("session " +:+ sid +:+ " on " +:+ targetName)) in
                  let! _ := StampSession_cmd rec.(JobID) sid in
                  Ret (Some adapterSession)
              end
          end
  end.

Definition sessionForExecution (rec : JobRecord) (taskID targetName : string) : prog (option string) :=
  match ParseJob rec.(JobID) rec.(Tenant) rec.(Doc) with
  | Err _ => Ret (Some "")
  | Ok j =>
      if negb (String.eqb j.(SessionJoin) "") then
        let! r := GetSession_cmd j.(SessionJoin) in
        let lost cause :=
          run! _ := failSessionLostTask rec taskID targetName
            ("session " +:+ quote j.(SessionJoin) +:+ " " +:+ cause +:+ " before task submission") in
          Ret None in
        match r with
        | Err _ => lost "not found"
        | Ok sess =>
            let! now := Now_cmd in
            if Live sess now then Ret (Some sess.(AdapterSessionID)) else lost "closed or expired"
        end
      else openSessionIfRequested rec taskID targetName
  end.

(** ** Following a task *)

(** [RecordUsage]: one insert per unit, in the map's order. *)
Fixpoint record_usage (jobID taskID tenant target : string) (usage : list (string * float64)) : prog unit :=
  match usage with
  | [] => Ret tt
  | u :: rest =>
      let! _ := RecordUsage_cmd jobID taskID tenant target u in
      record_usage jobID taskID tenant target rest
  end.

Definition success_status (taskID targetName : string) (res : option doc) (usage : gmap string float64)
    (st : doc) : doc :=
  <["usage" := JArr (usageToStatus usage)]>
  (<["tasks" := JArr [jobj [("id", JStr taskID); ("target", JStr targetName);
      ("state", JStr "SUCCEEDED"); ("result", nullable res)]]]> st).

(** [applyTaskStatus]: whether the task is finished, and the [running] flag. *)
Definition applyTaskStatus (rec : JobRecord) (taskID targetName targetID adapterTaskID : string)
    (status : TaskStatus) (running : bool) : prog (bool * bool) :=
  match status.(TSState) with
  | TASK_RUNNING =>
      if running then Ret (false, true)
      else
        let! _ := UpdateTask_cmd taskID adapterTaskID "RUNNING" None None in
        let! tr := TransitionJob_cmd rec.(JobID) Running None in
        match tr with
        | Ok _ => Ret (false, true)
        | Err _ =>
            let! cur := GetJob_cmd rec.(JobID) in
            let stop := match cur with Err _ => true | Ok c => Terminal c.(JPhase) end in
            if stop then
              let! _ := CancelTask_cmd (cut_target targetName).1 targetID adapterTaskID in Ret (true, true)
            else Ret (false, true)
        end
  | TASK_SUCCEEDED =>
      let! _ := TransitionJob_cmd rec.(JobID) Running None in
      let res := resultToMap status.(TSResult) in
      let! _ := UpdateTask_cmd taskID adapterTaskID "SUCCEEDED" None res in
      let usage := usageToMap status.(TSUsage) in
      run! _ := record_usage rec.(JobID) taskID rec.(Tenant) targetName (map_to_list usage) in
      let! _ := TransitionJob_cmd rec.(JobID) Succeeded (Some (success_status taskID targetName res usage)) in
      Ret (true, running)
  | TASK_FAILED =>
      let errDetail := errorToMap status.(TSError) in
      let! _ := UpdateTask_cmd taskID adapterTaskID "FAILED" (Some errDetail) None in
      run! _ := failJob rec taskID targetName errDetail in
      Ret (true, running)
  | TASK_CANCELLED =>
      let! _ := UpdateTask_cmd taskID adapterTaskID "CANCELLED" None None in
      let! _ := TransitionJob_cmd rec.(JobID) Cancelled
        (Some (fun st => appendCondition st "Cancelled" "True" "AdapterCancelled"
                           "task cancelled at the adapter")) in
      Ret (true, running)
  | TASK_QUEUED => Ret (false, running)
  end.

(** Why an executor returns: it is done with its task, after the report [last]
    if an adapter's report ended it, or the process is stopping.  Nothing reads
    this; it is what theorems speak of. *)
Inductive executor_end := Finished (last : option TaskStatus) | Stopped.

(** [follow]: (re)connect, then receive until the task is finished.
    [streaming] tells which of the two nested loops is running. *)
Fixpoint follow (rounds : nat) (rec : JobRecord) (taskID targetName targetID adapterTaskID : string)
    (streaming running : bool) : prog executor_end :=
  match rounds with
  | O => Ret Stopped
  | S n =>
      if streaming then
        let! r := Recv_cmd in
        match r with
        | Err _ =>
            let! stopped := Done_cmd in
            if stopped then Ret Stopped
            else let! _ := Pause_cmd in follow n rec taskID targetName targetID adapterTaskID false running
        | Ok status =>
            run! (finished, running') :=
              applyTaskStatus rec taskID targetName targetID adapterTaskID status running in
            if finished then Ret (Finished (Some status))
            else follow n rec taskID targetName targetID adapterTaskID true running'
        end
      else
        let! stopped := Done_cmd in
        if stopped then Ret Stopped
        else
          let! w := WatchTask_cmd (cut_target targetName).1 targetID adapterTaskID in
          match w with
          | Err _ => let! _ := Pause_cmd in follow n rec taskID targetName targetID adapterTaskID false running
          | Ok _ => follow n rec taskID targetName targetID adapterTaskID true running
          end
  end.

(** [execute]: submit (idempotently) and follow. *)
Definition execute (rounds : nat) (rec : JobRecord) (taskID targetName : string) : prog executor_end :=
  let '(site, targetID) := cut_target targetName in
  let! client := HasClient_cmd site in
  if negb client then
    run! _ := failJob rec taskID targetName (errmap "DEVICE_OFFLINE" true "vendorMessage"
      ("adapter for site " +:+ site +:+ " is not configured")) in Ret (Finished None)
  else match payloadFor rec.(Doc) with
  | Err errDetail => run! _ := failJob rec taskID targetName errDetail in Ret (Finished None)
  | Ok (payload, shots) =>
      run! session := sessionForExecution rec taskID targetName in
      match session with
      | None => Ret (Finished None)
      | Some adapterSessionID =>
          let! h := SubmitTask_cmd site (mkSubmit targetID taskID payload.(PlFormat) payload.(PlInline)
                                          shots adapterSessionID rec.(Tenant)) in
          match h with
          | Err e =>
              let! stopped := Done_cmd in
              if stopped then Ret Stopped
              else
                run! _ := failJob rec taskID targetName
                  (errmap "VENDOR_ERROR" true "vendorMessage" ("SubmitTask: " +:+ e)) in Ret (Finished None)
          | Ok adapterTaskID =>
              let! _ := UpdateTask_cmd taskID adapterTaskID "QUEUED" None None in
              let! tr := TransitionJob_cmd rec.(JobID) Submitted None in
              match tr with
              | Ok _ => follow rounds rec taskID targetName targetID adapterTaskID false false
              | Err _ =>
                  let! cur := GetJob_cmd rec.(JobID) in
                  match cur with
                  | Err _ => let! _ := CancelTask_cmd site targetID adapterTaskID in Ret (Finished None)
                  | Ok c =>
                      if Terminal c.(JPhase) then
                        let! _ := CancelTask_cmd site targetID adapterTaskID in Ret (Finished None)
                      else follow rounds c taskID targetName targetID adapterTaskID false false
                  end
              end
          end
      end
  end.

(** ** The scheduling cycle *)

(** The active policy, the candidates, and their states. *)
Record policies := mkPolicies {
  active : SchedulingPolicy; active_state : Z; shadow : list (SchedulingPolicy * Z) }.

Definition DefaultPolicy : string := "fifo/v0".

(** [New], as far as the policy is concerned, with the process's singletons;
    [EnableShadow] adds candidates. *)
Definition New (math_exp : float64 -> float64) (singletons : gmap string Z) (policyName : string)
  : result policy_error policies * gmap string Z :=
  let name := if String.eqb policyName "" then DefaultPolicy else policyName in
  let '(r, singletons) := Lookup math_exp singletons name in
  match r with
  | Ok p => (Ok (mkPolicies p (default 0 (singletons !! name)) []), singletons)
  | Err e => (Err e, singletons)
  end.

Definition EnableShadow (ps : policies) (l : list (SchedulingPolicy * Z)) : policies :=
  mkPolicies ps.(active) ps.(active_state) (ps.(shadow) ++ l).

Definition with_active (ps : policies) (st : Z) : policies := mkPolicies ps.(active) st ps.(shadow).
Definition with_shadow (ps : policies) (l : list (SchedulingPolicy * Z)) : policies :=
  mkPolicies ps.(active) ps.(active_state) l.

Definition findTargetView (fleet : list TargetView) (name : string) : option TargetView :=
  if String.eqb name "" then None else List.find (fun t => String.eqb t.(TName) name) fleet.

Definition targetESP (j : JobView) (fleet : list TargetView) (name : string) : option float64 :=
  PredictedESP j <$> findTargetView fleet name.

Definition targetWait (fleet : list TargetView) (name : string) : option float64 :=
  WaitSeconds <$> findTargetView fleet name.

(** [recordShadow]: each candidate decides over the same snapshot. *)
Fixpoint recordShadow (j : JobView) (act : Decision) (fleet : list TargetView) (now : Z)
    (candidates : list (SchedulingPolicy * Z)) : prog (list (SchedulingPolicy * Z)) :=
  match candidates with
  | [] => Ret []
  | (p, st) :: rest =>
      if String.eqb p.(PolName) act.(DPolicy) then
        run! rest' := recordShadow j act fleet now rest in Ret ((p, st) :: rest')
      else
        let '(sd, st') := Schedule p st j fleet now in
        let! _ := RecordShadow_cmd (mkShadowPlacement 0 j.(JVID) j.(JVTenant) p.(PolName) act.(DPolicy)
          act.(DTarget) sd.(DTarget) (String.eqb act.(DTarget) sd.(DTarget))
          (targetESP j fleet act.(DTarget)) (targetESP j fleet sd.(DTarget))
          (targetWait fleet act.(DTarget)) (targetWait fleet sd.(DTarget))) in
        run! rest' := recordShadow j act fleet now rest in Ret ((p, st') :: rest')
  end.

Definition HorizonModel : string := "deadline minus predicted wait; execution estimate 0".

(** The placement of a floor-relaxed bind. *)
Definition relaxed_placement (d : Decision) (vs : list FloorViolation) (horizon : Z) : doc :=
  let floors := (fun v => jobj [("floor", JStr v.(Floor)); ("limit", JNum v.(Limit));
                   ("actual", JNum v.(Actual)); ("aggregate", JStr v.(FAggregate))]) <$> vs in
  <["relaxedFloors" := JArr floors]>
  (<["horizonModel" := JStr HorizonModel]>
  (<["decisionHorizon" := JStr (fmt_rfc3339 horizon)]>
  (<["floorsRelaxed" := JBool true]>
  (<["onConflict" := JStr "prefer-deadline"]> (PlacementRecord d))))).

Definition reject_message (vs : list FloorViolation) (deadline : Z) : string :=
  "quality floor and deadline are unsatisfiable together: "
    +:+ join ((fun v => v.(Floor) +:+ " (" +:+ v.(FAggregate) +:+ " " +:+ fmt_g 4 v.(Actual) +:+ " > "
                  +:+ fmt_g 4 v.(Limit) +:+ ")") <$> vs) ", "
    +:+ " cannot be met before " +:+ fmt_rfc3339 deadline.

Definition reject_status (msg : string) (st : doc) : doc :=
  let st := <["conditions" := JArr (arr_or_nil (st !! "conditions")
    ++ [JObj (condition "UnsatisfiableBeforeDeadline" "True" "OnConflictReject" msg)])]> st in
  <["error" := JObj (errmap "CAPABILITY_MISMATCH" true "message" msg)]> st.

(** [resolveConflict] (RFC-0003): whether the job was handled. *)
Definition resolveConflict (ps : policies) (rec : JobRecord) (j : JobView) : prog (bool * policies) :=
  if negb (HasQualityFloor j) || is_zero j.(Deadline) then Ret (false, ps)
  else
    let! now := Now_cmd in
    let! fleet := Fleet_cmd in
    let '((d, vs), st') := ScheduleRelaxed ps.(active) ps.(active_state) j fleet now in
    let ps := with_active ps st' in
    if String.eqb d.(DTarget) "" || negb (nonempty vs) then Ret (false, ps)
    else
      let horizon := DecisionHorizon j d in
      if String.eqb j.(OnConflict) "prefer-deadline" then
        if now <? horizon then Ret (false, ps)
        else
          let! taskID := Uuid_cmd in
          let! b := BindJob_cmd rec.(JobID) taskID d.(DTarget) (relaxed_placement d vs horizon) in
          match b with
          | Err _ => Ret (true, ps)
          | Ok bound => let! _ := Spawn_cmd bound taskID d.(DTarget) in Ret (true, ps)
          end
      else if String.eqb j.(OnConflict) "reject" then
        if now <? horizon then Ret (false, ps)
        else
          let! _ := TransitionJob_cmd rec.(JobID) Failed (Some (reject_status (reject_message vs j.(Deadline)))) in
          Ret (true, ps)
      else if j.(Deadline) <? now then
        let! _ := SetJobCondition_cmd rec.(JobID)
          (condition "DeadlineExceededWaitingForQuality" "True" "PreferQuality"
             ("deadline " +:+ fmt_rfc3339 j.(Deadline)
               +:+ " passed while waiting for quality floors; onConflict=prefer-quality keeps waiting")) in
        Ret (false, ps)
      else Ret (false, ps).

Definition parse_message (e : parse_error) : string :=
  match e with
  | NoSpec => "scheduler: document has no spec"
  | BadCalibrationMaxAge raw =>
      "scheduler: calibrationMaxAge " +:+ quote raw +:+ ": " +:+ errtext Time_ParseDuration raw
  | BadMaxDuration raw =>
      "scheduler: session.maxDuration " +:+ quote raw +:+ ": " +:+ errtext Time_ParseDuration raw
  | BadDeadline raw => "scheduler: deadline " +:+ quote raw +:+ ": " +:+ errtext Time_Parse raw
  end.

(** [dispatchOne]: filter, score, bind; whether the job was bound. *)
Definition dispatchOne (ps : policies) (rec : JobRecord) : prog (bool * policies) :=
  match ParseJob rec.(JobID) rec.(Tenant) rec.(Doc) with
  | Err e =>
      let! _ := SetJobCondition_cmd rec.(JobID)
        (condition "Schedulable" "False" "UnparseableDocument" (parse_message e)) in
      Ret (false, ps)
  | Ok view =>
      run! affinity := sessionAffinity rec view in
      match affinity with
      | None => Ret (false, ps)
      | Some j =>
          let! now := Now_cmd in
          let! fleet := Fleet_cmd in
          let '(decision, st') := Schedule ps.(active) ps.(active_state) j fleet now in
          let ps := with_active ps st' in
          run! cands := recordShadow j decision fleet now ps.(shadow) in
          let ps := with_shadow ps cands in
          if String.eqb decision.(DTarget) "" then
            run! (handled, ps) := resolveConflict ps rec j in
            if handled then Ret (false, ps)
            else
              let! _ := SetJobCondition_cmd rec.(JobID)
                (condition "Schedulable" "False" "NoFeasibleTarget" decision.(DReason)) in
              Ret (false, ps)
          else
            let! taskID := Uuid_cmd in
            let! b := BindJob_cmd rec.(JobID) taskID decision.(DTarget) (PlacementRecord decision) in
            match b with
            | Err _ => Ret (false, ps)
            | Ok bound => let! _ := Spawn_cmd bound taskID decision.(DTarget) in Ret (true, ps)
            end
      end
  end.

Fixpoint dispatch_all (ps : policies) (recs : list JobRecord) (bound : Z) : prog (Z * policies) :=
  match recs with
  | [] => Ret (bound, ps)
  | rec :: rest =>
      run! (b, ps) := dispatchOne ps rec in
      dispatch_all ps rest (if b then bound + 1 else bound)
  end.

Definition claimBatch : nat := 32.

(** [orderPending], with the weight lookup as a command when it is made. *)
Definition order_pending (pending : list JobRecord) : prog (list JobRecord) :=
  let tenants := seen_tenants [] pending in
  if bool_decide (length pending <= 1)%nat || bool_decide (length tenants = 1%nat) then Ret pending
  else
    let! w := ProjectWeights_cmd tenants in
    Ret (default pending (orderPending pending w)).

(** [cycle]: jobs claimed and jobs bound. *)
Definition cycle (ps : policies) : prog (Z * Z * policies) :=
  let! _ := SweepSessions_cmd in
  let! pending := PendingJobs_cmd claimBatch in
  run! ordered := order_pending pending in
  run! (bound, ps) := dispatch_all ps ordered 0 in
  Ret (Z.of_nat (length pending), bound, ps).

(** [resume]: re-attach executors to the tasks that were in flight. *)
Fixpoint resume_tasks (ts : list TaskRecord) : prog unit :=
  match ts with
  | [] => Ret tt
  | t :: rest =>
      let! r := GetJob_cmd t.(TJobID) in
      match r with
      | Err _ => resume_tasks rest
      | Ok rec => let! _ := Spawn_cmd rec t.(TaskID) t.(TTarget) in resume_tasks rest
      end
  end.

Definition resume : prog unit := let! ts := ActiveTasks_cmd in resume_tasks ts.

(** [leaderGate] is nil or a predicate, which answers anew before every cycle:
    here a function of the rounds that are left. *)
Definition gate_open (leaderGate : option (nat -> bool)) (n : nat) : bool :=
  match leaderGate with None => true | Some f => f n end.

(** A full batch that made progress: go on without waiting. *)
Definition more_work (claimed bound : Z) : bool := (Z.of_nat claimBatch <=? claimed) && (0 <? bound).

Fixpoint run_cycles (leaderGate : option (nat -> bool)) (rounds : nat) (ps : policies) : prog unit :=
  match rounds with
  | O => Ret tt
  | S n =>
      let! stopped := Done_cmd in
      if stopped then Ret tt
      else if negb (gate_open leaderGate n) then let! _ := Pause_cmd in run_cycles leaderGate n ps
      else
        run! (claimed, bound, ps) := cycle ps in
        if more_work claimed bound then run_cycles leaderGate n ps
        else
          let! w := WaitNotify_cmd in
          match w with
          | Ok _ => run_cycles leaderGate n ps
          | Err _ =>
              let! stopped := Done_cmd in
              if stopped then run_cycles leaderGate n ps
              else let! _ := Pause_cmd in run_cycles leaderGate n ps
          end
  end.

Definition Run (leaderGate : option (nat -> bool)) (rounds : nat) (ps : policies) : prog unit :=
  run! _ := resume in run_cycles leaderGate rounds ps.

(** [Dispatcher.CancelJob]: best-effort adapter cancel, never an error. *)
Definition CancelJob_dispatch (jobID : string) : prog unit :=
  let! r := TaskForJob_cmd jobID in
  match r with
  | Ok t =>
      let adapter := default "" t.(AdapterTaskID) in
      if String.eqb adapter "" then Ret tt
      else
        let '(site, targetID) := cut_target t.(TTarget) in
        let! client := HasClient_cmd site in
        if client then let! _ := CancelTask_cmd site targetID adapter in Ret tt else Ret tt
  | Err _ => Ret tt
  end.

(** ** The process

    The scheduling goroutine and the executors share the database, with each
    other and with the rest of the control plane, and the set of jobs that
    have an executor.  [startExecutor] takes the set's mutex; the deferred
    [delete] runs when the executor returns. *)
Record proc := mkProc {
  pdb : db; inFlight : gset string; execs : list (string * prog executor_end); main : prog unit }.

Definition startExecutor (rounds : nat) (rec : JobRecord) (taskID targetName : string) (s : proc) : proc :=
  if decide (rec.(JobID) ∈ s.(inFlight)) then s
  else mkProc s.(pdb) ({[rec.(JobID)]} ∪ s.(inFlight))
         (s.(execs) ++ [(rec.(JobID), execute rounds rec taskID targetName)]) s.(main).

Inductive proc_step : proc -> proc -> Prop :=
| pr_env d d' fl es m : store_step d d' -> proc_step (mkProc d fl es m) (mkProc d' fl es m)
| pr_main d d' fl es m m' : pstep d m d' m' -> proc_step (mkProc d fl es m) (mkProc d' fl es m')
| pr_spawn rounds d fl es rec taskID target k :
    proc_step (mkProc d fl es (Spawn_cmd rec taskID target k))
              (startExecutor rounds rec taskID target (mkProc d fl es (k tt)))
| pr_exec d d' fl l1 id p p' l2 m :
    pstep d p d' p' ->
    proc_step (mkProc d fl (l1 ++ (id, p) :: l2) m) (mkProc d' fl (l1 ++ (id, p') :: l2) m)
| pr_exit d fl l1 id e l2 m :
    proc_step (mkProc d fl (l1 ++ (id, Ret e) :: l2) m) (mkProc d (fl ∖ {[id]}) (l1 ++ l2) m).
End Dispatcher.
