(* ===== verification/DispatchProps.v ===== *)
(** * What the dispatcher promises

    Every process step is a step of the store and a job has at most one
    executor; a bind goes to a target the job's floors, selectors and session
    allow; an executor leaves its job in a terminal phase unless the process
    is stopping or the job's status cannot be written as JSON; a job that
    cannot start fails. *)

From S2P Require Import Prelude Float64 GoLib Phase Database JobStore Tables Chaos Lifecycle Qasm Views Filter Policies Scheduler FairShare Prog Dispatch.

(** ** The programs are safe *)

Section Process.
Context (errtext : libcall -> string -> string) (jd : string -> option (option doc)) (b64 : string -> string).

Lemma target_Failed : Failed ∈ transition_targets.
Proof. unfold transition_targets. set_solver. Qed.
Lemma target_Running : Running ∈ transition_targets.
Proof. unfold transition_targets. set_solver. Qed.
Lemma target_Submitted : Submitted ∈ transition_targets.
Proof. unfold transition_targets. set_solver. Qed.
Lemma target_Succeeded : Succeeded ∈ transition_targets.
Proof. unfold transition_targets. set_solver. Qed.
Lemma target_Cancelled : Cancelled ∈ transition_targets.
Proof. unfold transition_targets. set_solver. Qed.

Hint Resolve target_Failed target_Running target_Submitted target_Succeeded target_Cancelled : core.

(** A program without loops: walk it; the rest is in the hints. *)
Ltac solve_quiet := intros ?; walk; cbn [lawful silent]; auto.
Ltac solve_safe := intros ?; walk; cbn [lawful]; auto.

Lemma failJob_quiet rec t g e : quiet (failJob rec t g e).
Proof. unfold failJob. solve_quiet. Qed.

Lemma fails_quiet {A} rec t g e (a : A) : quiet (run! _ := failJob rec t g e in Ret a).
Proof. unfold failJob. solve_quiet. Qed.

Lemma failSessionLost_quiet rec msg : quiet (failSessionLost rec msg).
Proof. unfold failSessionLost. solve_quiet. Qed.

Lemma sessionAffinity_quiet rec j : quiet (sessionAffinity rec j).
Proof. unfold sessionAffinity, failSessionLost. solve_quiet. Qed.

Lemma sessionForExecution_quiet rec t g : quiet (sessionForExecution rec t g).
Proof.
  unfold sessionForExecution, openSessionIfRequested, failSessionLostTask, failJob. solve_quiet.
Qed.

Lemma record_usage_quiet jobID taskID tenant target l : quiet (record_usage jobID taskID tenant target l).
Proof. induction l as [|u l IH]; intros h; simpl; [done|]. intros _. apply IH. Qed.

Lemma applyTaskStatus_quiet rec t g tid at_ st running : quiet (applyTaskStatus jd b64 rec t g tid at_ st running).
Proof.
  unfold applyTaskStatus, failJob. intros h. destruct (TSState st); walk; cbn [lawful silent]; auto.
  apply (quiet_bind (record_usage _ _ _ _ _)); [apply record_usage_quiet|]. intros []. solve_quiet.
Qed.

Lemma follow_quiet n rec t g tid at_ streaming running : quiet (follow jd b64 n rec t g tid at_ streaming running).
Proof.
  revert rec streaming running. induction n as [|n IH]; intros rec streaming running h; [done|].
  cbn [follow]. destruct streaming.
  - cbn [always]. split; [done|]. intros [status|e].
    + apply (quiet_bind (applyTaskStatus _ _ _ _ _ _ _ _ _)); [apply applyTaskStatus_quiet|].
      intros [[] ?]; [done|apply IH].
    + cbn [always]. intros []; [done|]. intros _. apply IH.
  - cbn [always]. intros []; [done|]. cbn [always]. intros []; [apply IH|]. intros _. apply IH.
Qed.

Lemma execute_safe n rec t g : safe (execute errtext jd b64 n rec t g).
Proof.
  unfold execute. destruct (cut_target g) as [site tid]. intros h. cbn [always]. intros [];
    cbn [negb]; [|apply quiet_safe, fails_quiet].
  destruct (payloadFor errtext (Doc rec)) as [[pl shots]|e]; [|apply quiet_safe, fails_quiet].
  apply (safe_bind (sessionForExecution _ _ _)); [apply quiet_safe, sessionForExecution_quiet|].
  intros [s|] h'; [|done]. walk; cbn [lawful]; auto; apply quiet_safe; first [apply fails_quiet|apply follow_quiet].
Qed.

Lemma recordShadow_quiet j act fleet now l : quiet (recordShadow j act fleet now l).
Proof.
  induction l as [|[p st] l IH]; intros h; cbn [recordShadow]; [done|]. destruct (String.eqb _ _).
  - apply (quiet_bind (recordShadow _ _ _ _ _)); [apply IH|]. intros ? ?. done.
  - destruct (Schedule _ _ _ _ _). cbn [always]. intros ?.
    apply (quiet_bind (recordShadow _ _ _ _ _)); [apply IH|]. intros ? ?. done.
Qed.

Lemma resolveConflict_safe ps rec j : safe (resolveConflict ps rec j).
Proof. unfold resolveConflict. solve_safe. Qed.

Lemma dispatchOne_safe ps rec : safe (dispatchOne errtext ps rec).
Proof.
  unfold dispatchOne. destruct (ParseJob _ _ _) as [view|e]; [|solve_safe].
  apply safe_bind; [apply quiet_safe, sessionAffinity_quiet|]. intros [j|]; [|solve_safe].
  intros h. cbn [always]. intros now fleet. destruct (Schedule _ _ _ _ _) as [dec st'].
  apply (safe_bind (recordShadow _ _ _ _ _)); [apply quiet_safe, recordShadow_quiet|]. intros cands.
  destruct (String.eqb _ _); [|solve_safe].
  apply safe_bind; [apply resolveConflict_safe|]. intros [[] ps']; solve_safe.
Qed.

Lemma dispatch_all_safe recs : forall ps n, safe (dispatch_all errtext ps recs n).
Proof.
  induction recs as [|rec recs IH]; intros ps n; cbn [dispatch_all]; [by intros h|].
  apply safe_bind; [apply dispatchOne_safe|]. intros [b ps']. apply IH.
Qed.

Lemma cycle_safe ps : safe (cycle errtext ps).
Proof.
  unfold cycle. intros h. cbn [always]. intros _ pending. apply (safe_bind (order_pending _)).
  - unfold order_pending. solve_safe.
  - intros ordered. apply safe_bind; [apply dispatch_all_safe|]. intros [b ps'] h'. done.
Qed.

Lemma resume_tasks_safe ts : safe (resume_tasks ts).
Proof. induction ts as [|t ts IH]; intros h; cbn [resume_tasks always]; [done|]. intros []; [split; [done|intros _]|]; apply IH. Qed.

Lemma Run_safe gate n ps : safe (Run errtext gate n ps).
Proof.
  unfold Run. apply safe_bind; [intros h; unfold resume; cbn [always]; intros ts; apply resume_tasks_safe|].
  intros _. revert ps. induction n as [|n IH]; intros ps h; cbn [run_cycles always]; [done|].
  intros []; [done|]. destruct (gate_open gate n); cbn [negb]; [|intros ?; apply IH].
  apply (safe_bind (cycle _ _)); [apply cycle_safe|]. intros [[claimed bound] ps'] h'.
  destruct (more_work _ _); [apply IH|]. intros []; [apply IH|]. intros []; [apply IH|]. intros ?. apply IH.
Qed.

(** The dispatcher as the API's canceller reads the store and talks to the
    adapter: by the time it returns the store has taken some of its steps. *)
Lemma CancelJob_dispatch_runs id d d' o :
  rtc istep (d, CancelJob_dispatch id) (d', Ret o) -> rtc store_step d d'.
Proof.
  intros R. refine (obeys_sound (fun _ _ => True) (fun _ x => rtc store_step d x) _ d d' o R _).
  apply (ensures_invariant _ _ []); [intros x y S H; exact (rtc_r _ _ _ H S)| |apply rtc_refl].
  unfold CancelJob_dispatch. walk; done.
Qed.

(** ** The process only takes store steps *)

(** What remains of every program of the process is safe from some history
    on; executors and [inFlight] agree, and no job has two executors. *)
Definition proc_ok (s : proc) : Prop :=
  reachable s.(pdb) /\ NoDup (s.(execs).*1) /\ s.(inFlight) = list_to_set (s.(execs).*1) /\
  Forall (fun x => exists h, always lawful (fun _ _ => True) h x.2) s.(execs) /\
  exists h, always lawful (fun _ _ => True) h s.(main).

Lemma reachable_store_step d d' : reachable d -> store_step d d' -> reachable d'.
Proof. apply rtc_r. Qed.

Lemma proc_ok_step s s' : proc_step errtext jd b64 s s' -> proc_ok s -> proc_ok s'.
Proof.
  destruct 1 as [d d' fl es m Hs|d d' fl es m m' Hs|rounds d fl es rec t g k|d d' fl l1 id p p' l2 m Hs
    |d fl l1 id e l2 m]; unfold proc_ok; simpl; intros (Hr & Hn & Hf & He & [h Hm]).
  - split_and!; eauto. by eapply reachable_store_step.
  - split_and!; eauto.
    + unfold reachable in *. etrans; [exact Hr|]. by eapply pstep_store.
    + by eapply safe_step.
  - destruct Hm as [_ Hm]. unfold startExecutor. simpl. case_decide as D; simpl.
    + split_and!; eauto.
    + rewrite fmap_app. split_and!; eauto.
      * apply NoDup_app. split_and!; [done| |apply NoDup_singleton].
        intros x Hx ->%list_elem_of_singleton. apply D. subst fl. by apply elem_of_list_to_set.
      * subst fl. rewrite list_to_set_app_L. simpl. by rewrite (right_id_L ∅ (∪)), (comm_L (∪)).
      * apply Forall_app. split; [done|]. constructor; [|done]. exists []. apply execute_safe.
  - rewrite !fmap_app, !fmap_cons in *. rewrite Forall_app, Forall_cons in *.
    destruct He as (He1 & [h' He] & He2). simpl in *. split_and!; eauto.
    + unfold reachable in *. etrans; [exact Hr|]. by eapply pstep_store.
    + by eapply safe_step.
  - rewrite !fmap_app, !fmap_cons in *. rewrite Forall_app, Forall_cons in *.
    destruct He as (He1 & _ & He2). simpl in *. apply NoDup_app in Hn as (N1 & N2 & N3).
    apply NoDup_cons in N3 as [N3 N4]. split_and!; eauto.
    + apply NoDup_app. split_and!; try done. intros x Hx Hx2. by apply (N2 x Hx); right.
    + subst fl. rewrite !list_to_set_app_L. simpl.
      assert (id ∉ l1.*1) as N5 by (intros Hx; apply (N2 id Hx); left).
      apply set_eq. intros x.
      rewrite elem_of_difference, !elem_of_union, elem_of_singleton, !elem_of_list_to_set.
      split; [tauto|]. intros [?|?]; (split; [tauto|by intros ->]).
Qed.

(** (C5) The dispatcher refines the store's transaction system: however its
    scheduling loop, its executors, the adapters and the other clients of the
    database interleave, and wherever it is stopped, the database it works on
    stays one that the store's transactions can produce, so everything proved
    of those databases holds of it; and no job ever has two executors in the
    process. *)
Theorem dispatcher_refines_store gate rounds ps d0 s :
  reachable d0 -> rtc (proc_step errtext jd b64) (mkProc d0 ∅ [] (Run errtext gate rounds ps)) s ->
  reachable s.(pdb) /\ NoDup (s.(execs).*1) /\ forall id, id ∈ s.(inFlight) <-> id ∈ s.(execs).*1.
Proof.
  intros Hr H. assert (proc_ok s) as (R & N & F & _).
  { revert H. apply rtc_invariant; [|apply proc_ok_step]. unfold proc_ok. simpl.
    split_and!; [done|apply NoDup_nil_2|done|apply Forall_nil_2|]. exists []. apply Run_safe. }
  split_and!; [done|done|intros id; rewrite F; apply elem_of_list_to_set].
Qed.
End Process.

(** ** Binds respect the job's intent *)

(** Membership in a history. *)
Ltac seen := rewrite ?elem_of_cons; auto.

(** The view a job is scheduled with: its own, or pinned to the target of a
    live session of its own project. *)
Definition scheduled_as (rec : JobRecord) (j0 : JobView) (h : list event) (j : JobView) : Prop :=
  (j0.(SessionJoin) = "" /\ j = j0) \/
  (j0.(SessionJoin) <> "" /\ exists sess now,
     EvSession j0.(SessionJoin) (Ok sess) ∈ h /\ EvNow now ∈ h /\
     sess.(STenant) = rec.(Tenant) /\ Live sess now = true /\ j = pin j0 sess.(STarget)).

(** The latest start: the deadline less the target's predicted wait. *)
Definition latest_start (j : JobView) (t : TargetView) : Z :=
  j.(Deadline) + wrap64 (- f_to_int64 (fmul t.(WaitSeconds) (f_of_Z second))).

(** Why the dispatcher may bind [rec] to [target], given what it observed. *)
Inductive bind_allowed (base : bool) (rec : JobRecord) (h : list event) (target : string) : Prop :=
| mkAllowed (j0 j : JobView) (now : Z) (fleet : list TargetView) (t : TargetView)
    (parsed : ParseJob rec.(JobID) rec.(Tenant) rec.(Doc) = Ok j0)
    (session : scheduled_as rec j0 h j)
    (observed : EvNow now ∈ h /\ EvFleet fleet ∈ h /\ t ∈ fleet)
    (named : t.(TName) = target)
    (can_run : capable j t now)
    (may_run : selected j t)
    (floors : base = true \/ within_floors j t now \/
      (j.(OnConflict) = "prefer-deadline" /\ HasQualityFloor j = true /\
       j.(Deadline) <> time_zero /\ latest_start j t <= now /\ within_floors (relaxed j) t now)).

(** Why the dispatcher may fail [rec] instead of binding it. *)
Definition fail_allowed (rec : JobRecord) (h : list event) : Prop :=
  exists j0, ParseJob rec.(JobID) rec.(Tenant) rec.(Doc) = Ok j0 /\
    ((j0.(SessionJoin) <> "" /\ exists r, EvSession j0.(SessionJoin) r ∈ h /\
        forall sess, r = Ok sess -> sess.(STenant) <> rec.(Tenant) \/
                                    exists now, EvNow now ∈ h /\ Live sess now = false) \/
     (j0.(OnConflict) = "reject" /\ HasQualityFloor j0 = true /\ j0.(Deadline) <> time_zero)).

Definition dispatch_ok (base : bool) (rec : JobRecord) (h : list event) (l : label) : Prop :=
  match l with
  | LBind id target => id = rec.(JobID) /\ bind_allowed base rec h target
  | LTransition id to => id = rec.(JobID) /\ to = Failed /\ fail_allowed rec h
  | LSpawn _ | LSubmit _ _ | LRecv => True
  end.

Lemma recordShadow_history Q j act fleet now l h :
  always Q (fun h' _ => h' = h) h (recordShadow j act fleet now l).
Proof.
  induction l as [|[p st] l IH]; cbn [recordShadow]; [done|]. destruct (String.eqb _ _).
  - eapply always_bind; [exact IH|]. done.
  - destruct (Schedule _ _ _ _ _). cbn [always]. intros _. eapply always_bind; [exact IH|]. done.
Qed.

Lemma sessionAffinity_view base rec j0 :
  ParseJob rec.(JobID) rec.(Tenant) rec.(Doc) = Ok j0 ->
  always (dispatch_ok base rec)
    (fun h o => forall j, o = Some j -> scheduled_as rec j0 h j) [] (sessionAffinity rec j0).
Proof.
  intros HP. unfold sessionAffinity, failSessionLost.
  destruct (String.eqb_spec j0.(SessionJoin) "") as [E|E]; cbn [always].
  { intros j [= <-]. by left. }
  intros [sess|e]; cbn [always pbind].
  - destruct (String.eqb_spec sess.(STenant) rec.(Tenant)) as [T|T]; cbn [negb always pbind].
    + intros now. destruct (Live sess now) eqn:L; cbn [negb always pbind].
      * intros j [= <-]. right. split; [done|]. exists sess, now. split_and!; try done; seen.
      * split; [|done]. split_and!; try done. exists j0. split; [done|]. left. split; [done|].
        exists (Ok sess). split; [seen|]. intros ? [= <-]. right. exists now. split; [seen|done].
    + split; [|done]. split_and!; try done. exists j0. split; [done|]. left. split; [done|].
      exists (Ok sess). split; [seen|]. intros ? [= <-]. by left.
  - split; [|done]. split_and!; try done. exists j0. split; [done|]. left. split; [done|].
    exists (Err e). split; [seen|done].
Qed.

(** A decision of a registered policy, in declarative terms. *)
Lemma decision_allowed e name p st j fleet now d st' :
  find_factory e name = Some p -> Schedule p st j fleet now = (d, st') -> d.(DTarget) <> "" ->
  exists t, t ∈ fleet /\ t.(TName) = d.(DTarget) /\ t.(WaitSeconds) = d.(DWaitSeconds) /\
    capable j t now /\ selected j t /\ (baseline name = true \/ within_floors j t now).
Proof.
  intros (L & F & _)%find_factory_cases H Hne.
  destruct (Schedule_target p st j fleet now d st' H) as [[_ ?]|(t & Ht & Hf & HT & HW)]; [done|].
  exists t. rewrite F in Hf. destruct (baseline name) eqn:B;
    unfold FilterCapabilityOnly, FilterTarget in Hf; apply filterTarget_spec in Hf as (? & Q & ?);
    split_and!; auto.
Qed.

Lemma scheduled_as_mono rec j0 h h' j :
  (forall x, x ∈ h -> x ∈ h') -> scheduled_as rec j0 h j -> scheduled_as rec j0 h' j.
Proof.
  intros M [[??]|(E & s & n & H1 & H2 & H3)]; [by left|right]. split; [done|]. exists s, n. auto.
Qed.

(** Pinning touches only the required targets. *)
Lemma scheduled_as_policy rec j0 h j :
  scheduled_as rec j0 h j ->
  j.(OnConflict) = j0.(OnConflict) /\ HasQualityFloor j = HasQualityFloor j0 /\ j.(Deadline) = j0.(Deadline).
Proof. by intros [[_ ->]|(_ & s & n & _ & _ & _ & _ & ->)]. Qed.

Lemma resolveConflict_ok e name ps rec j0 j h :
  find_factory e name = Some ps.(active) ->
  ParseJob rec.(JobID) rec.(Tenant) rec.(Doc) = Ok j0 -> scheduled_as rec j0 h j ->
  always (dispatch_ok (baseline name) rec) (fun _ _ => True) h (resolveConflict ps rec j).
Proof.
  intros HF HP HS. destruct (scheduled_as_policy _ _ _ _ HS) as (C1 & C2 & C3). unfold resolveConflict.
  destruct (negb (HasQualityFloor j) || is_zero j.(Deadline)) eqn:G; [done|].
  apply orb_false_iff in G as [G1 G2]. apply negb_false_iff in G1.
  unfold is_zero in G2. to_prop. cbn [always]. intros now fleet.
  destruct (ScheduleRelaxed _ _ _ _ _) as [[d vs] st'] eqn:E.
  destruct (String.eqb d.(DTarget) "" || negb (nonempty vs)) eqn:G3; [done|].
  apply orb_false_iff in G3 as [G3 _]. to_prop.
  unfold ScheduleRelaxed in E. destruct (Schedule _ _ _ _ _) as [d1 st1] eqn:E1. injection E as <- _ _.
  destruct (decision_allowed _ _ _ _ _ _ _ _ _ HF E1 G3) as (t & Ht & Hn & Hw & Hc & Hs & Hq).
  assert (capable j t now) by (destruct Hc; by constructor).
  assert (selected j t) by (destruct Hs; by constructor).
  destruct (String.eqb_spec j.(OnConflict) "prefer-deadline") as [O|O].
  - destruct (Z.ltb_spec now (DecisionHorizon j d1)) as [|Hh]; [done|]. cbn [always]. intros taskID.
    split; [|intros []; [split; done|done]]. split; [done|].
    apply (mkAllowed _ _ _ _ j0 j now fleet t); try done.
    + eapply scheduled_as_mono; [|exact HS]. intros x Hx. seen.
    + split_and!; [seen|seen|done].
    + destruct Hq as [Hq|Hq]; [by left|right; right]. split_and!; try done.
      unfold latest_start. rewrite Hw. exact Hh.
  - destruct (String.eqb_spec j.(OnConflict) "reject") as [R|R].
    + destruct (Z.ltb _ _); [done|]. cbn [always]. split; [|done]. split_and!; try done.
      exists j0. split; [done|]. right. rewrite <- C1, <- C2, <- C3. done.
    + destruct (Z.ltb _ _); [|done]. done.
Qed.

(** (C6) The scheduler never acts against the job's intent: whatever it reads
    from the store, the clock, the registry and the sessions, the only job
    [dispatchOne] binds is the one it was given, to a target of a fleet
    snapshot it took that is capable and selected for the job (and, for a job
    in a session, the target of a live session of its own project) and within
    the job's quality floors; unless the active policy is a benchmark
    baseline, or the job asked for the deadline to win, its floors are relaxed
    and the latest start is reached.  It fails the job only when its session
    is gone, or it asked for rejection. *)
Theorem dispatchOne_respects_intent errtext e name ps rec :
  find_factory e name = Some ps.(active) ->
  always (dispatch_ok (baseline name) rec) (fun _ _ => True) [] (dispatchOne errtext ps rec).
Proof.
  intros HF. unfold dispatchOne. destruct (ParseJob _ _ _) as [j0|err] eqn:HP; [|done].
  eapply always_bind; [by apply sessionAffinity_view|]. intros h [j|] HS; [|done].
  specialize (HS j eq_refl). cbn [always]. intros now fleet.
  destruct (Schedule _ _ _ _ _) as [d st'] eqn:E.
  eapply always_bind; [apply recordShadow_history|]. intros h' cands ->. cbv beta in *.
  assert (HS' : scheduled_as rec j0 (EvFleet fleet :: EvNow now :: h) j)
    by (eapply scheduled_as_mono; [|exact HS]; intros x Hx; seen).
  destruct (String.eqb_spec d.(DTarget) "") as [G|G].
  - eapply always_bind; [by eapply resolveConflict_ok|]. intros h' [[] ps'] _; done.
  - cbn [always]. intros taskID. split; [|intros []; [split; done|done]]. split; [done|].
    destruct (decision_allowed _ _ _ _ _ _ _ _ _ HF E G) as (t & Ht & Hn & Hw & Hc & Hs & Hq).
    apply (mkAllowed _ _ _ _ j0 j now fleet t); try done.
    + split_and!; [seen|seen|done].
    + destruct Hq; auto.
Qed.

(** ** What has happened to a job, whoever moved it *)

Definition job_at (d : db) (id : string) (P : Phase -> Prop) : Prop :=
  exists r, d.(jobs) !! id = Some r /\ P r.(JPhase).

Definition Settled (p : Phase) : Prop := Terminal p = true.
Definition PastRunning (p : Phase) : Prop := p = Running \/ Settled p.
Definition PastSubmitted (p : Phase) : Prop := p = Submitted \/ PastRunning p.
Definition PastBind (p : Phase) : Prop := p = Scheduled \/ PastSubmitted p.

(** Closed under the transitions anyone makes. *)
Class Closed (P : Phase -> Prop) : Prop :=
  closed : forall p q, P p -> Transition p q = Ok tt -> q <> Pending -> P q.

#[export] Instance Settled_closed : Closed Settled.
Proof. intros p q H (_ & _ & T & _)%Transition_ok_CanTransition. unfold Settled in H. congruence. Qed.

(** Adding one phase below a closed set whose successors lie in the set. *)
Lemma closed_below p0 (P : Phase -> Prop) :
  Closed P -> (forall q, Transition p0 q = Ok tt -> q <> Pending -> P q) -> Closed (fun p => p = p0 \/ P p).
Proof. intros C H p q [->|Hp] T N; [auto|]. right. by eapply (C p q). Qed.

#[export] Instance PastRunning_closed : Closed PastRunning.
Proof.
  apply (closed_below Running); [apply _|]. intros q T N. apply Transition_edges in T.
  apply Terminal_cases. edge_cases T; auto.
Qed.

#[export] Instance PastSubmitted_closed : Closed PastSubmitted.
Proof.
  apply (closed_below Submitted); [apply _|]. intros q T N. apply Transition_edges in T.
  edge_cases T; (by left) || (right; apply Terminal_cases; auto).
Qed.

#[export] Instance PastBind_closed : Closed PastBind.
Proof.
  apply (closed_below Scheduled); [apply _|]. intros q T N. apply Transition_edges in T.
  edge_cases T; (by left) || (right; right; apply Terminal_cases; auto).
Qed.

Lemma job_at_step d d' id P `{!Closed P} : store_step d d' -> job_at d id P -> job_at d' id P.
Proof.
  intros Hs (r & Hr & HP). destruct (step_evolves _ _ _ _ Hs Hr) as (r' & Hr' & _ & _ & _ & _ & _ & E).
  exists r'. split; [done|]. destruct E as [->|[T N]]; [done|]. by eapply (closed r.(JPhase)).
Qed.

Lemma job_at_run d d' id P `{!Closed P} : rtc store_step d d' -> job_at d id P -> job_at d' id P.
Proof. induction 1; [done|]. intros. eauto using job_at_step. Qed.

Lemma job_at_mono d id (P Q : Phase -> Prop) : (forall p, P p -> Q p) -> job_at d id P -> job_at d id Q.
Proof. intros H (r & ? & ?). exists r. auto. Qed.

(** A phase of the job, in a database whose statuses can be written again. *)
Definition steady (d : db) (id : string) (P : Phase -> Prop) : Prop := job_at d id P /\ statuses_marshal d.

Lemma steady_step d d' id P `{!Closed P} : store_step d d' -> steady d id P -> steady d' id P.
Proof. intros Hs [H M]. split; [exact (job_at_step _ _ _ _ Hs H)|exact (statuses_step _ _ Hs M)]. Qed.

Lemma steady_run d d' id P `{!Closed P} : rtc store_step d d' -> steady d id P -> steady d' id P.
Proof. induction 1; [done|]. intros. eauto using steady_step. Qed.

Lemma steady_mono d id (P Q : Phase -> Prop) : (forall p, P p -> Q p) -> steady d id P -> steady d id Q.
Proof. intros H [J M]. split; [exact (job_at_mono _ _ _ _ H J)|exact M]. Qed.

Lemma steady_reachable d id P : reachable d -> job_at d id P -> steady d id P.
Proof. intros R J. split; [exact J|exact (reachable_statuses d R)]. Qed.

(** What a transition adds to a status is text. *)
Definition writable (mutate : option (doc -> doc)) : Prop :=
  forall st, doc_marshals st = true -> doc_marshals (match mutate with Some f => f st | None => st end) = true.

Lemma writable_none : writable None.
Proof. by intros st. Qed.

(** A requested transition is made, or the job has already gone further. *)
Lemma transition_reaches d now id to mutate (P Q : Phase -> Prop) :
  to ∈ transition_targets -> writable mutate -> Q to -> (forall p, P p -> Q p \/ Transition p to = Ok tt) ->
  steady d id P -> steady (TransitionJob d now id to mutate).2 id Q.
Proof.
  intros Htt W Hto HP [(r & Hr & Hp) M]. split; [|exact (statuses_step _ _ (step_transition _ _ _ _ _ Htt) M)].
  assert (HM : doc_marshals (<["phase" := JStr to]> (match mutate with Some f => f r.(Status) | None => r.(Status) end)) = true)
    by (apply doc_marshals_insert; [apply W, (M _ _ Hr)|done]).
  unfold TransitionJob, scanJob, in_tx. rewrite Hr. cbn [rbind].
  destruct (Transition r.(JPhase) to) as [[]|e] eqn:T; cbv zeta; [rewrite HM|]; cbn [snd].
  - eexists. simpl. rewrite lookup_insert_eq. by split.
  - exists r. split; [done|]. destruct (HP _ Hp) as [|]; [done|congruence].
Qed.

Lemma to_failed d now id m :
  writable m -> steady d id PastBind -> steady (TransitionJob d now id Failed m).2 id Settled.
Proof.
  intros W. apply transition_reaches; [apply target_Failed|done|phase_eval|].
  intros p [->|[->|[->|H]]]; [right; phase_eval..|by left].
Qed.

Lemma to_cancelled d now id m :
  writable m -> steady d id PastBind -> steady (TransitionJob d now id Cancelled m).2 id Settled.
Proof.
  intros W. apply transition_reaches; [apply target_Cancelled|done|phase_eval|].
  intros p [->|[->|[->|H]]]; [right; phase_eval..|by left].
Qed.

Lemma to_submitted d now id :
  steady d id PastBind -> steady (TransitionJob d now id Submitted None).2 id PastSubmitted.
Proof.
  apply transition_reaches; [apply target_Submitted|apply writable_none|by left|].
  intros p [->|H]; [right; phase_eval|by left].
Qed.

Lemma to_running d now id :
  steady d id PastSubmitted -> steady (TransitionJob d now id Running None).2 id PastRunning.
Proof.
  apply transition_reaches; [apply target_Running|apply writable_none|by left|].
  intros p [->|H]; [right; phase_eval|by left].
Qed.

Lemma to_succeeded d now id m :
  writable m -> steady d id PastRunning -> steady (TransitionJob d now id Succeeded m).2 id Settled.
Proof.
  intros W. apply transition_reaches; [apply target_Succeeded|done|phase_eval|].
  intros p [->|H]; [right; phase_eval|by left].
Qed.

(** *** What the dispatcher writes *)

Lemma errmap_marshals c b k m : doc_marshals (errmap c b k m) = true.
Proof. by apply doc_marshals_mkdoc. Qed.

Lemma errorToMap_marshals e : doc_marshals (errorToMap e) = true.
Proof. destruct e; [by apply doc_marshals_mkdoc|apply errmap_marshals]. Qed.

Lemma payloadFor_marshals errtext dc e : payloadFor errtext dc = Err e -> doc_marshals e = true.
Proof. unfold payloadFor. repeat case_match; intros [= <-]; apply errmap_marshals. Qed.

Lemma appendCondition_marshals st a b c m :
  doc_marshals st = true -> doc_marshals (appendCondition st a b c m) = true.
Proof.
  intros H. apply doc_marshals_insert; [exact H|]. apply marshals_snoc; [by apply arr_or_nil_marshals|].
  by apply (doc_marshals_mkdoc [_; _; _; _]).
Qed.

(** An array of one object. *)
Lemma one_object_marshals l : forallb (fun kv => marshals kv.2) l = true -> marshals (JArr [jobj l]) = true.
Proof. intros H%doc_marshals_mkdoc. unfold doc_marshals in H. cbn [marshals forallb]. unfold jobj. by rewrite H. Qed.

Lemma fail_writable t g e : doc_marshals e = true -> writable (Some (fail_status t g e)).
Proof.
  intros He st H. apply appendCondition_marshals, doc_marshals_insert; [exact H|].
  apply one_object_marshals. cbn [forallb snd]. unfold doc_marshals in He. by rewrite He.
Qed.

Lemma cancelled_writable : writable (Some (fun st => appendCondition st "Cancelled" "True" "AdapterCancelled"
                           "task cancelled at the adapter")).
Proof. intros st. apply appendCondition_marshals. Qed.

(** Usage that can be written into a status: its sums are finite. *)
Definition finite_usage (records : list (string * float64)) : bool :=
  forallb (fun ua => f_finite ua.2) (map_to_list (usageToMap records)).

Lemma usageToStatus_marshals l : finite_usage l = true -> marshals (JArr (usageToStatus (usageToMap l))) = true.
Proof.
  unfold finite_usage, usageToStatus. cbn [marshals]. rewrite !forallb_forall. intros H v Hv.
  apply list_elem_of_In, list_elem_of_fmap in Hv as (u & -> & _). apply (doc_marshals_mkdoc [_; _]).
  cbn [forallb snd marshals]. rewrite andb_true_r. destruct (usageToMap l !! u) as [a|] eqn:E; [|done].
  apply (H (u, a)), list_elem_of_In. by apply elem_of_map_to_list.
Qed.

Lemma resultToMap_marshals jd b64 r :
  (forall s m, jd s = Some m -> opt_marshals m = true) -> marshals (nullable (resultToMap jd b64 r)) = true.
Proof.
  intros HJ. destruct r as [r|]; [|done]. unfold resultToMap. cbv zeta. cbn [nullable].
  match goal with |- context [<["uri" := _]> ?m] => assert (B : doc_marshals m = true) end.
  - assert (B : doc_marshals (mkdoc [("format", JStr r.(ResFormat))]) = true) by (by apply doc_marshals_mkdoc).
    destruct (String.eqb _ _); [exact B|]. destruct (jd r.(ResInline)) as [m|] eqn:E;
      (apply doc_marshals_insert; [exact B|]); [|reflexivity].
    specialize (HJ _ _ E). destruct m; [exact HJ|reflexivity].
  - destruct (String.eqb r.(ResUri) ""); [exact B|]. apply doc_marshals_insert; [exact B|reflexivity].
Qed.

Lemma success_writable jd b64 t g r l :
  (forall s m, jd s = Some m -> opt_marshals m = true) -> finite_usage l = true ->
  writable (Some (success_status t g (resultToMap jd b64 r) (usageToMap l))).
Proof.
  intros HJ HF st H. apply doc_marshals_insert; [|by apply usageToStatus_marshals].
  apply doc_marshals_insert; [exact H|]. apply one_object_marshals. cbn [forallb snd].
  by rewrite (resultToMap_marshals _ _ _ HJ).
Qed.

Lemma update_task_job_at d now t a s e r id P :
  steady d id P -> steady (UpdateTask d now t a s e r).2 id P.
Proof. unfold UpdateTask. by repeat case_match. Qed.

(** A charge stays in the ledger. *)
Definition charged (d : db) (k : string * string) : Prop := k ∈ charge <$> d.(usage_ledger).

Lemma charged_step d d' k : store_step d d' -> charged d k -> charged d' k.
Proof.
  destruct 1 as [now rec Hp|now rec costs Hp|now i to mutate Hto|now i cond|now locked i taskID target placement
    |now taskID adapter state err res|now jobID taskID tenant target [u a]|now i sid
    | | | | | | | | | | | | | | |]; unfold charged; try done;
    unfold InsertJob, InsertJobWithQuota, insertJobTx, TransitionJob, SetJobCondition, BindJob, UpdateTask,
      record_one, InsertSession, EnsureProject, ArchiveProject, SetProjectWeight, SetQuota, InsertToken,
      RevokeToken, RecordAudit, ReconcileUsage, in_tx, rbind; repeat case_match; simplify_eq; simpl; try done.
  rewrite fmap_app. intros C. apply elem_of_app. by left.
Qed.

Lemma charged_run d d' k : rtc store_step d d' -> charged d k -> charged d' k.
Proof. induction 1; eauto using charged_step. Qed.

Lemma record_one_charged now j t n g d u : charged (record_one now j t n g d u) (t, u.1).
Proof.
  destruct u as [unit amount]. unfold record_one. destruct (existsb _ _) eqn:E.
  - apply existsb_exists in E as (x & Hx & Hc). apply list_elem_of_fmap. exists x.
    split; [symmetry; by apply same_charge_spec|by apply list_elem_of_In].
  - unfold charged. simpl. rewrite fmap_app. apply elem_of_app. right. by left.
Qed.

Lemma record_usage_charges jobID taskID tenant target l d :
  ensures (fun _ d' => forall u, u ∈ l -> charged d' (taskID, u.1)) (record_usage jobID taskID tenant target l) d.
Proof.
  assert (G : forall l0 l d, (forall u, u ∈ l0 -> charged d (taskID, u.1)) ->
    ensures (fun _ d' => forall u, u ∈ l0 ++ l -> charged d' (taskID, u.1))
            (record_usage jobID taskID tenant target l) d);
    [|apply (G []); by intros u ?%elem_of_nil].
  clear. intros l0 l. revert l0. induction l as [|v l IH]; intros l0 d H d' R; cbn [record_usage].
  - intros u. rewrite app_nil_r. intros Hu. exact (charged_run _ _ _ R (H u Hu)).
  - intros now. specialize (IH (l0 ++ [v]) (record_one now jobID taskID tenant target d' v)).
    eapply obeys_mono; [|apply IH].
    + intros a d2 H2 u Hu. apply H2. by rewrite <- app_assoc.
    + intros u [Hu| ->%list_elem_of_singleton]%elem_of_app; [|apply record_one_charged].
      eapply charged_step; [apply step_usage|]. exact (charged_run _ _ _ R (H u Hu)).
Qed.

(** [usageToMap] has a key for every unit reported. *)
Lemma usageToMap_key l u : u ∈ l -> exists a, (u.1, a) ∈ map_to_list (usageToMap l).
Proof.
  intros Hu. enough (is_Some (usageToMap l !! u.1)) as [a Ha] by (exists a; by apply elem_of_map_to_list).
  unfold usageToMap. revert Hu. generalize (∅ : gmap string float64).
  assert (K : forall l m k, is_Some (m !! k) ->
    is_Some (fold_left (fun (out : gmap string float64) v => <[v.1 := fadd (default f0 (out !! v.1)) v.2]> out) l m !! k)).
  { clear. induction l as [|v l IH]; intros m k H; simpl; [done|]. apply IH.
    rewrite lookup_insert_is_Some. destruct (decide (v.1 = k)); auto. }
  induction l as [|v l IH]; intros m; [by intros ?%elem_of_nil|].
  intros [->|Hu]%elem_of_cons; simpl; [|by apply IH]. apply K. by rewrite lookup_insert_eq.
Qed.

(** ** A task that ends, ends its job *)

Lemma failJob_settles rec t g e d :
  doc_marshals e = true -> steady d rec.(JobID) PastBind ->
  ensures (fun _ d' => steady d' rec.(JobID) Settled) (failJob rec t g e) d.
Proof.
  intros He H d1 R1 now. apply (steady_run _ _ _ _ R1), (update_task_job_at _ now t "" "FAILED" (Some e) None) in H.
  intros d2 R2 now2. apply (steady_run _ _ _ _ R2), (to_failed _ now2 _ _ (fail_writable t g e He)) in H.
  intros d3 R3. by apply (steady_run _ _ _ _ R3).
Qed.

Lemma fails_settled {A} rec t g e (a : A) d :
  doc_marshals e = true -> steady d rec.(JobID) PastBind ->
  ensures (fun _ d' => steady d' rec.(JobID) Settled) (run! _ := failJob rec t g e in Ret a) d.
Proof.
  intros He H. eapply obeys_bind; [apply failJob_settles; [exact He|exact H]|].
  intros ? d1 H1 d2 R2. exact (steady_run _ _ _ _ R2 H1).
Qed.

Lemma PastSubmitted_bind d id : steady d id PastSubmitted -> steady d id PastBind.
Proof. apply steady_mono. by right. Qed.

Definition task_ended (s : task_state) : Prop := s = TASK_SUCCEEDED \/ s = TASK_FAILED \/ s = TASK_CANCELLED.

(** Whether the end of a task can be recorded: the usage of a task that
    succeeded has to be finite. *)
Definition recordable (last : option TaskStatus) : bool :=
  match last with
  | Some st => match st.(TSState) with TASK_SUCCEEDED => finite_usage st.(TSUsage) | _ => true end
  | None => true
  end.

Section Applying.
Context (jd : string -> option (option doc)) (b64 : string -> string)
  (jd_marshals : forall s m, jd s = Some m -> opt_marshals m = true).

(** When the adapter reports that a task succeeded, failed or was
    cancelled, the executor finishes it, and whenever the executor finishes a
    task the job is in a terminal phase by then, if the report can be recorded:
    whatever other clients of the store did to it between the executor's
    calls. *)
Lemma applyTaskStatus_settles rec t g tid at_ st running d :
  steady d rec.(JobID) PastSubmitted ->
  ensures (fun o d' => (task_ended st.(TSState) -> o.1 = true) /\
                       (o.1 = true -> recordable (Some st) = true -> steady d' rec.(JobID) Settled))
    (applyTaskStatus jd b64 rec t g tid at_ st running) d.
Proof.
  intros H. unfold applyTaskStatus, task_ended, recordable. destruct st.(TSState) eqn:ES.
  - intros d1 _. split; [by intros [?|[?|?]]|done].
  - destruct running.
    { intros d1 _. split; [by intros [?|[?|?]]|done]. }
    intros d1 R1 now1. apply (steady_run _ _ _ _ R1), (update_task_job_at _ now1 t at_ "RUNNING" None None) in H.
    intros d2 R2 now2. apply (steady_run _ _ _ _ R2), (to_running _ now2 _) in H.
    destruct (TransitionJob d2 now2 rec.(JobID) Running None) as [[r|e] d3]; simpl in H |- *.
    { intros d4 _. split; [by intros [?|[?|?]]|done]. }
    intros d4 R4. apply (steady_run _ _ _ _ R4) in H. destruct H as [(c & Hc & _) M].
    unfold GetJob, scanJob. rewrite Hc. simpl. destruct (Terminal c.(JPhase)) eqn:T.
    + intros d5 R5 o d6 R6. split; [done|]. intros _ _.
      apply (steady_run d5 d6 _ _ R6), (steady_run d4 d5 _ _ R5). split; [by exists c|exact M].
    + intros d5 _. split; [by intros [?|[?|?]]|done].
  - intros d1 R1 now1. apply (steady_run _ _ _ _ R1), (to_running _ now1 _) in H.
    intros d2 R2 now2. apply (steady_run _ _ _ _ R2), (update_task_job_at _ now2 t at_ "SUCCEEDED" None
      (resultToMap jd b64 st.(TSResult))) in H.
    eapply obeys_bind.
    { eapply (ensures_invariant (fun d => steady d rec.(JobID) PastRunning) _ []);
        [intros ? ? Hs; by apply (steady_step _ _ _ _ Hs)|apply quiet_safe, record_usage_quiet|exact H]. }
    clear H. intros a3 d3 H d4 R4 now4 d5 R5. split; [done|]. intros _ F.
    apply (steady_run _ _ _ _ R4), (to_succeeded _ now4 _ _
      (success_writable jd b64 t g st.(TSResult) st.(TSUsage) jd_marshals F)) in H.
    by apply (steady_run _ _ _ _ R5).
  - intros d1 R1 now1. apply (steady_run _ _ _ _ R1), (update_task_job_at _ now1 t at_ "FAILED"
      (Some (errorToMap st.(TSError))) None) in H.
    eapply obeys_bind; [apply failJob_settles, PastSubmitted_bind, H; apply errorToMap_marshals|].
    intros a2 d2 H2 d3 R3. split; [done|]. intros _ _. by apply (steady_run _ _ _ _ R3).
  - intros d1 R1 now1. apply (steady_run _ _ _ _ R1), (update_task_job_at _ now1 t at_ "CANCELLED" None None) in H.
    intros d2 R2 now2. apply (steady_run _ _ _ _ R2), PastSubmitted_bind in H.
    intros d3 R3. split; [done|]. intros _ _. apply (steady_run _ _ _ _ R3), to_cancelled, H. apply cancelled_writable.
Qed.
End Applying.

(** (C8) Exactly-once billing: when the executor has processed the report that
    a task succeeded, the ledger holds one entry, and not two, for every unit
    of usage reported; also when the report is delivered again, to this
    process or to another. *)
Theorem succeeded_task_billed_once json_unmarshal base64_encode rec t g tid at_ st running d :
  reachable d -> st.(TSState) = TASK_SUCCEEDED ->
  ensures (fun _ d' => forall u, u ∈ st.(TSUsage) -> charge_count d' (t, u.1) = 1%nat)
    (applyTaskStatus json_unmarshal base64_encode rec t g tid at_ st running) d.
Proof.
  intros HR ES.
  eapply (obeys_mono (fun _ d' => reachable d' /\ forall u, u ∈ st.(TSUsage) -> charged d' (t, u.1))).
  { intros _ d' [I%reachable_Inv H] u Hu. specialize (H u Hu). unfold charged in H. unfold charge_count.
    pose proof (filter_charge_le _ (t, u.1) (inv_charges d' I)) as L.
    apply list_elem_of_fmap in H as (x & Hx & Hin).
    destruct (List.filter _ _) as [|y [|? ?]] eqn:F; simpl in *; try lia. exfalso.
    assert (Hn : In x []); [|destruct Hn]. rewrite <- F. apply List.filter_In. split; [by apply list_elem_of_In|].
    by apply bool_decide_eq_true. }
  apply obeys_and.
  { eapply (ensures_invariant reachable _ []); [intros; by eapply reachable_store_step| |done].
    apply quiet_safe, applyTaskStatus_quiet. }
  unfold applyTaskStatus. rewrite ES. intros d1 _ now1 d2 _ now2.
  eapply obeys_bind; [apply record_usage_charges|]. intros [] d3 H3 d4 R4 now4 d5 R5 u Hu.
  destruct (usageToMap_key _ _ Hu) as [a Ha]. specialize (H3 _ Ha). simpl in H3.
  eapply charged_run; [exact R5|]. eapply charged_step; [apply step_transition, target_Succeeded|].
  eapply charged_run; [exact R4|exact H3].
Qed.

(** ** An executor settles its job

    Or the process stops, or the adapter reported a success whose usage cannot
    be recorded: there is no other way for an executor to return.
    encoding/json decodes only what it can encode: JSON has no NaN and no
    infinity, and a number out of range is an error. *)
Section Settling.
Context (errtext : libcall -> string -> string) (jd : string -> option (option doc)) (b64 : string -> string)
  (jd_marshals : forall s m, jd s = Some m -> opt_marshals m = true).

(** The next command of a program, after steps of others. *)
Ltac next H := let d := fresh "d" in let R := fresh "R" in intros d R; apply (steady_run _ _ _ _ R) in H; cbn beta iota.

Definition settles (id : string) (o : executor_end) (d : db) : Prop :=
  forall last, o = Finished last -> recordable last = true -> steady d id Settled.

Definition session_done (id : string) (o : option string) (d : db) : Prop :=
  steady d id PastBind /\ (o = None -> steady d id Settled).

Lemma session_lost rec t g e d :
  doc_marshals e = true -> steady d rec.(JobID) PastBind ->
  ensures (session_done rec.(JobID)) (run! _ := failJob rec t g e in Ret None) d.
Proof.
  intros He H. eapply obeys_mono; [|by apply fails_settled]. intros ? d' S. split; [|done].
  apply (steady_mono _ _ _ _ (fun p Hp => or_intror (or_intror (or_intror Hp))) S).
Qed.

Lemma session_kept id a d : steady d id PastBind -> ensures (session_done id) (Ret (Some a)) d.
Proof. intros H. next H. by split. Qed.

Lemma sessionForExecution_settles rec t g d :
  steady d rec.(JobID) PastBind -> ensures (session_done rec.(JobID)) (sessionForExecution rec t g) d.
Proof.
  intros H. unfold sessionForExecution. destruct (ParseJob _ _ _) as [j|]; [|by apply session_kept].
  destruct (negb _) eqn:J.
  - next H. destruct (GetSession _ _) as [sess|]; [|by apply session_lost; [apply errmap_marshals|]].
    next H. intros now. destruct (Live sess now); [by apply session_kept|by apply session_lost; [apply errmap_marshals|]].
  - unfold openSessionIfRequested. destruct (ParseJob _ _ _) as [j'|]; [|by apply session_kept].
    destruct (_ || _); [by apply session_kept|]. destruct (cut_target g) as [site tid].
    next H. intros []; cbn [negb]; [|by apply session_lost; [apply errmap_marshals|]].
    next H. intros [[adapter expires]|e]; [|by apply session_lost; [apply errmap_marshals|]].
    next H. intros sid. next H. intros now. set (sess := mkSessionRecord _ _ _ _ _ _ _ _).
    apply (steady_step _ _ _ _ (step_session _ now sess)) in H.
    destruct (InsertSession _ now sess) as [[[]|e] d']; cbn [fst snd] in *.
    + next H. intros now2 d5 R5. apply (steady_run _ _ _ _ (rtc_l _ _ _ _ (step_condition _ now2 _ _) R5)) in H.
      intros now3 d6 R6. apply (steady_run _ _ _ _ (rtc_l _ _ _ _ (step_stamp _ now3 _ _) R6)) in H. by split.
    + next H. by apply session_lost; [apply errmap_marshals|].
Qed.

Lemma follow_settles n t g tid at_ rec streaming running d :
  steady d rec.(JobID) PastSubmitted ->
  ensures (settles rec.(JobID)) (follow jd b64 n rec t g tid at_ streaming running) d.
Proof.
  revert streaming running d. induction n as [|n IH]; intros streaming running d H; cbn [follow]; [by next H|].
  destruct streaming; next H.
  - intros [status|e].
    + eapply obeys_bind; [apply obeys_and; [by apply (applyTaskStatus_settles jd b64 jd_marshals)|]|].
      { eapply (ensures_invariant (fun d => steady d rec.(JobID) PastSubmitted) _ []);
          [intros ? ? Hs; by apply (steady_step _ _ _ _ Hs)|apply quiet_safe, applyTaskStatus_quiet|exact H]. }
      intros [finished running'] d' [[_ S] H']. cbn [fst] in S. destruct finished; [|apply IH, H'].
      intros d2 R2 last [= <-] F. by apply (steady_run _ _ _ _ R2), S.
    + next H. intros []; [by next H|]. next H. by apply IH.
  - intros []; [by next H|]. next H. intros []; [by apply IH|]. next H. by apply IH.
Qed.

(** The executor of a bound job: when it is done with its task the job is in a
    terminal phase, on every path and however others interfere. *)
Lemma execute_settles n rec t g d :
  reachable d -> steady d rec.(JobID) PastBind ->
  ensures (settles rec.(JobID)) (execute errtext jd b64 n rec t g) d.
Proof.
  assert (F : forall e d, doc_marshals e = true -> steady d rec.(JobID) PastBind ->
    ensures (settles rec.(JobID)) (run! _ := failJob rec t g e in Ret (Finished None)) d).
  { intros e d1 He H. eapply obeys_mono; [|apply (fails_settled _ _ _ _ _ _ He H)]. intros a d' S ? _ _. exact S. }
  intros HR H. pose proof (errmap_marshals) as EM. unfold execute. destruct (cut_target g) as [site tid].
  intros d1 R1. apply (steady_run _ _ _ _ R1) in H. apply (transitivity HR) in R1. intros []; cbn [negb]; [|by apply F].
  destruct (payloadFor errtext rec.(Doc)) as [[pl shots]|e] eqn:HP; [|by apply F; [apply (payloadFor_marshals _ _ _ HP)|]].
  eapply obeys_bind.
  { apply obeys_and; [by apply sessionForExecution_settles|].
    eapply (ensures_invariant reachable _ []); [intros ? ? Hr Hs; exact (reachable_store_step _ _ Hs Hr)|apply quiet_safe, sessionForExecution_quiet|exact R1]. }
  clear HR R1 H. intros [s|] d2 [[H S] HR]; [|intros d3 R3 ? _ _; by apply (steady_run _ _ _ _ R3), S].
  intros d3 R3. apply (steady_run _ _ _ _ R3) in H. apply (transitivity HR) in R3. split; [done|]. intros [at_|e].
  2:{ next H. intros []; [by next H|by apply F]. }
  intros d4 R4 now4. apply (steady_run _ _ _ _ R4), (update_task_job_at _ now4 t at_ "QUEUED" None None) in H.
  assert (HR4 : reachable (UpdateTask d4 now4 t at_ "QUEUED" None None).2).
  { eapply reachable_store_step; [|apply step_update_task]. exact (transitivity R3 R4). }
  intros d5 R5 now5. apply (steady_run _ _ _ _ R5), (to_submitted _ now5 _) in H. apply (transitivity HR4) in R5.
  pose proof (reachable_store_step _ _ R5 (step_transition _ now5 rec.(JobID) Submitted None target_Submitted)) as HR5.
  destruct (TransitionJob d5 now5 rec.(JobID) Submitted None) as [[r|e] d6]; cbn [fst snd] in *; [by apply follow_settles|].
  intros d7 R7. apply (steady_run _ _ _ _ R7) in H. apply (transitivity HR5) in R7.
  destruct H as [(c & Hc & Hp) M]. assert (E : c.(JobID) = rec.(JobID)) by (eapply job_of_inv; [by apply reachable_Inv|exact Hc]).
  unfold GetJob, scanJob. rewrite Hc. cbn [rbind]. destruct (Terminal c.(JPhase)) eqn:T.
  - intros d8 R8 o d9 R9 ? _ _. apply (steady_run _ _ _ _ R9), (steady_run _ _ _ _ R8). split; [by exists c|exact M].
  - rewrite <- E. apply follow_settles. rewrite E. split; [by exists c|exact M].
Qed.
End Settling.

(** ** Only bound jobs get an executor *)

(** A task's row: its job and its target are there to stay. *)
Definition task_row (d : db) (t id target : string) : Prop :=
  exists x, d.(tasks) !! t = Some x /\ x.(TJobID) = id /\ x.(TTarget) = target.

Lemma task_row_step d d' t id g : store_step d d' -> task_row d t id g -> task_row d' t id g.
Proof.
  intros St (x & Hx & E). assert (Same : forall m : gmap string TaskRecord, m = d.(tasks) ->
    exists x, m !! t = Some x /\ x.(TJobID) = id /\ x.(TTarget) = g) by (intros ? ->; by exists x).
  destruct St as [now rec Hp|now rec costs Hp|now i to mutate Hto|now i cond|now locked i taskID target placement
    |now taskID adapter state err res|now jobID taskID tenant target [u a]|now i sid
    | | | | | | | | | | | | | | |]; unfold task_row; try by apply Same.
  all: try (apply Same; unfold InsertJob, InsertJobWithQuota, insertJobTx, TransitionJob, SetJobCondition,
    record_one, InsertSession, EnsureProject, ArchiveProject, SetProjectWeight, SetQuota, InsertToken,
    RevokeToken, RecordAudit, ReconcileUsage, in_tx, rbind; repeat case_match; by simplify_eq).
  - unfold BindJob, in_tx, rbind. repeat case_match; simplify_eq; try by apply Same.
    exists x. split; [|done]. cbn in *. rewrite lookup_insert_ne; [done|congruence].
  - unfold UpdateTask. do 2 (destruct (negb _); [by apply Same|]).
    destruct (d.(tasks) !! taskID) as [y|] eqn:Ey; [|by apply Same]. cbn.
    destruct (decide (taskID = t)) as [->|N]; [rewrite lookup_insert_eq|rewrite lookup_insert_ne by done; by exists x].
    eexists. split; [reflexivity|]. cbn. congruence.
Qed.

Lemma task_row_run d d' t id g : rtc store_step d d' -> task_row d t id g -> task_row d' t id g.
Proof. induction 1; eauto using task_row_step. Qed.

(** What holds when a job is handed to an executor: it was bound, with that
    task and target, and the record is the job's. *)
Record handed (rec : JobRecord) (t g : string) (d : db) : Prop := mkHanded {
  h_bound : job_at d rec.(JobID) PastBind;
  h_job : exists r, d.(jobs) !! rec.(JobID) = Some r /\ r.(Doc) = rec.(Doc) /\ r.(Tenant) = rec.(Tenant);
  h_task : task_row d t rec.(JobID) g }.

Lemma handed_step rec t g d d' : store_step d d' -> handed rec t g d -> handed rec t g d'.
Proof.
  intros St [B (r & Hr & D & T) R]. split; [exact (job_at_step _ _ _ _ St B)| |exact (task_row_step _ _ _ _ _ St R)].
  destruct (step_evolves _ _ _ _ St Hr) as (r' & Hr' & _ & ET & _ & ED & _). exists r'. by rewrite ED, ET.
Qed.

Lemma handed_run rec t g d d' : rtc store_step d d' -> handed rec t g d -> handed rec t g d'.
Proof. induction 1; eauto using handed_step. Qed.

Definition bound_over (a : ask) (d : db) : Prop :=
  match a with AskSpawn rec t g => handed rec t g d | AskSubmit _ _ => True end.

(** On a reachable database a program hands over only bound jobs. *)
Definition hands {A} (p : prog A) : Prop :=
  forall d, reachable d -> obeys bound_over (fun _ d' => reachable d') p d.

Lemma hands_bind {A B} (p : prog A) (f : A -> prog B) : hands p -> (forall a, hands (f a)) -> hands (pbind p f).
Proof. intros Hp Hf d R. eapply obeys_bind; [by apply Hp|]. intros a d' R'. by apply Hf. Qed.

Lemma hands_quiet {A} (p : prog A) : quiet p -> hands p.
Proof. intros Hq d R. apply obeys_quiet; [|exact Hq|exact R]. intros ? ? St HR. exact (reachable_store_step _ _ HR St). Qed.

Lemma hands_ret {A} (a : A) : hands (Ret a).
Proof. by apply hands_quiet. Qed.

Lemma reachable_run d d' : reachable d -> rtc store_step d d' -> reachable d'.
Proof. intros H1 H2. exact (transitivity H1 H2). Qed.

(** Bind, and start the executor of what was bound. *)
Lemma hands_bind_spawn {A} id t g pl (lost won : prog A) :
  hands lost -> hands won ->
  hands (BindJob_cmd id t g pl (fun b => match b with Err _ => lost | Ok bound => Spawn_cmd bound t g (fun _ => won) end)).
Proof.
  intros Hl Hw d R d1 R1 now locked. apply (reachable_run _ _ R) in R1.
  pose proof (reachable_store_step _ _ R1 (step_bind _ now locked id t g pl)) as R2.
  destruct (BindJob d1 now locked id t g pl) as [[bound|e] d2] eqn:E; cbn [fst snd] in *; [|by apply Hl].
  intros d3 R3. pose proof (reachable_run _ _ R2 R3). split; [|by apply Hw].
  apply (handed_run _ _ _ _ _ R3). apply BindJob_ok in E as (_ & _ & Hj & Hp & Ht).
  destruct (job_of_inv _ _ _ (reachable_Inv _ R2) Hj) as [EI _]. split.
  - exists bound. rewrite EI. split; [done|by left].
  - exists bound. by rewrite EI.
  - exists (new_task t id g now). by rewrite EI.
Qed.

Section Handover.
Context (errtext : libcall -> string -> string).

Lemma sessionAffinity_hands rec j : hands (sessionAffinity rec j).
Proof. apply hands_quiet, sessionAffinity_quiet. Qed.

Lemma recordShadow_hands j act fleet now l : hands (recordShadow j act fleet now l).
Proof. apply hands_quiet, recordShadow_quiet. Qed.

(** A command that reads, or writes nothing the executors depend on. *)
Ltac ask R := let d := fresh "d" in let S := fresh "R" in intros d S; apply (reachable_run _ _ R) in S; cbn beta iota.

Lemma condition_hands {A} id c (p : prog A) : hands p -> hands (SetJobCondition_cmd id c (fun _ => p)).
Proof. intros Hp d R. ask R. intros now. apply Hp. eapply reachable_store_step; [exact R0|apply step_condition]. Qed.

Lemma resolveConflict_hands ps rec j : hands (resolveConflict ps rec j).
Proof.
  unfold resolveConflict. destruct (_ || _); [apply hands_ret|]. intros d R. ask R. intros now. ask R0. intros fleet.
  destruct (ScheduleRelaxed _ _ _ _ _) as [[dec vs] st']. destruct (_ || _); [by apply hands_ret|].
  destruct (String.eqb _ "prefer-deadline").
  { destruct (Z.ltb _ _); [by apply hands_ret|]. ask R1. intros taskID. apply hands_bind_spawn; try apply hands_ret. exact R2. }
  destruct (String.eqb _ "reject").
  { destruct (Z.ltb _ _); [by apply hands_ret|]. apply hands_quiet; [|exact R1]. by intros h; split; [split; [apply target_Failed|]|]. }
  destruct (Z.ltb _ _); [|by apply hands_ret]. apply condition_hands; [apply hands_ret|exact R1].
Qed.

Lemma dispatchOne_hands ps rec : hands (dispatchOne errtext ps rec).
Proof.
  unfold dispatchOne. destruct (ParseJob _ _ _) as [view|e]; [|apply condition_hands, hands_ret].
  apply hands_bind; [apply sessionAffinity_hands|]. intros [j|]; [|apply hands_ret].
  intros d R. ask R. intros now. ask R0. intros fleet. destruct (Schedule _ _ _ _ _) as [dec st'].
  apply hands_bind; [apply recordShadow_hands| |exact R1]. intros cands. destruct (String.eqb _ _).
  - apply hands_bind; [apply resolveConflict_hands|]. intros [[] ps']; [apply hands_ret|apply condition_hands, hands_ret].
  - intros d2 R2. ask R2. intros taskID. apply hands_bind_spawn; try apply hands_ret. exact R3.
Qed.

Lemma dispatch_all_hands recs : forall ps n, hands (dispatch_all errtext ps recs n).
Proof.
  induction recs as [|rec recs IH]; intros ps n; cbn [dispatch_all]; [apply hands_ret|].
  apply hands_bind; [apply dispatchOne_hands|]. intros [b ps']. apply IH.
Qed.

Lemma cycle_hands ps : hands (cycle errtext ps).
Proof.
  intros d R. unfold cycle. ask R. intros now. apply (fun R' => reachable_store_step _ _ R' (step_sweep _ now)) in R0.
  ask R0. apply hands_bind; [|intros ordered|exact R1].
  - unfold order_pending. destruct (_ || _); [apply hands_ret|]. by apply hands_quiet.
  - apply hands_bind; [apply dispatch_all_hands|]. intros [b ps']. apply hands_ret.
Qed.
Definition in_flight_task (d : db) (t : TaskRecord) : Prop :=
  job_at d t.(TJobID) PastBind /\ task_row d t.(TaskID) t.(TJobID) t.(TTarget).

Lemma in_flight_run d d' ts : rtc store_step d d' -> Forall (in_flight_task d) ts -> Forall (in_flight_task d') ts.
Proof.
  intros R H. eapply Forall_impl; [exact H|]. intros t [B T].
  split; [exact (job_at_run _ _ _ _ R B)|exact (task_row_run _ _ _ _ _ R T)].
Qed.

Lemma resume_tasks_hands ts d :
  reachable d -> Forall (in_flight_task d) ts -> obeys bound_over (fun _ d' => reachable d') (resume_tasks ts) d.
Proof.
  revert d. induction ts as [|t ts IH]; intros d R H; cbn [resume_tasks]; [by apply hands_ret|].
  intros d1 R1. pose proof (reachable_run _ _ R R1) as HR1.
  apply (in_flight_run _ _ _ R1) in H. apply Forall_cons in H as [[B T] H].
  destruct B as (r & Hr & Hp). unfold GetJob, scanJob. rewrite Hr. cbn [rbind].
  intros d2 R2. split.
  - apply (handed_run _ _ _ _ _ R2). destruct (job_of_inv _ _ _ (reachable_Inv _ HR1) Hr) as [EI _].
    split; rewrite EI; [by exists r..|exact T].
  - apply IH; [exact (reachable_run _ _ HR1 R2)|exact (in_flight_run _ _ _ R2 H)].
Qed.

Lemma active_tasks_bound d : reachable d -> Forall (in_flight_task d) (ActiveTasks d).
Proof.
  intros R%reachable_Inv. apply Forall_forall. intros t Ht. apply list_elem_of_In, List.filter_In in Ht as [Hin Ht].
  split.
  - destruct (d.(jobs) !! t.(TJobID)) as [r|] eqn:E; [|done]. exists r. split; [done|].
    apply str_in_elem in Ht. rewrite !elem_of_cons, elem_of_nil in Ht.
    destruct Ht as [?|[?|[?|[]]]]; [by left|by right; left|by right; right; left].
  - apply list_elem_of_In, list_elem_of_fmap in Hin as ([k x] & -> & Hx%elem_of_map_to_list).
    cbn [snd]. exists x. by rewrite (inv_task_key d R _ _ Hx).
Qed.

Lemma Run_hands gate n ps : hands (Run errtext gate n ps).
Proof.
  unfold Run. apply hands_bind; [intros d R; unfold resume; ask R; apply resume_tasks_hands; [exact R0|by apply active_tasks_bound]|].
  intros _. revert ps. induction n as [|n IH]; intros ps; cbn [run_cycles]; [apply hands_ret|].
  intros d R. ask R. intros []; [by apply hands_ret|]. destruct (gate_open gate n); cbn [negb]; [|ask R0; by apply IH].
  apply hands_bind; [apply cycle_hands| |exact R0]. intros [[claimed bound] ps']. clear d R d0 R0.
  destruct (more_work _ _); [apply IH|]. intros d R. ask R. intros []; [by apply IH|].
  ask R0. intros []; [by apply IH|]. ask R1. by apply IH.
Qed.
End Handover.

(** ** No job is abandoned *)

Section Handing.
Context (errtext : libcall -> string -> string) (jd : string -> option (option doc)) (b64 : string -> string).

(** The scheduling goroutine hands over only bound jobs. *)
Definition proc_handing (s : proc) : Prop :=
  proc_ok s /\ obeys bound_over (fun _ d => reachable d) s.(main) s.(pdb).

Lemma proc_handing_step s s' : proc_step errtext jd b64 s s' -> proc_handing s -> proc_handing s'.
Proof.
  intros St (P & M). split; [by eapply proc_ok_step|]. destruct P as (Hr & _ & _ & He & [h Hm]).
  destruct St as [d d' fl es m Hs|d d' fl es m m' Hs|rounds d fl es rec t g k|d d' fl l1 id p p' l2 m Hs
    |d fl l1 id e l2 m]; cbn [main pdb execs] in *.
  - apply rtc_once in Hs. exact (obeys_env _ _ _ _ _ Hs M).
  - exact (obeys_step _ _ _ _ _ _ Hs M).
  - destruct (M d (rtc_refl _ _)) as [_ M']. unfold startExecutor. cbn [inFlight]. by case_decide.
  - rewrite Forall_app, Forall_cons in He. destruct He as (_ & [h' He] & _). cbn [snd] in He.
    exact (obeys_env _ _ _ _ _ (pstep_store _ _ _ _ _ Hs He) M).
  - exact M.
Qed.

Lemma proc_handing_start gate rounds ps d0 :
  reachable d0 -> proc_handing (mkProc d0 ∅ [] (Run errtext gate rounds ps)).
Proof.
  intros Hr. split; [|by apply Run_hands]. unfold proc_ok. cbn.
  split_and!; [done|apply NoDup_nil_2|done|apply Forall_nil_2|]. exists []. apply Run_safe.
Qed.
End Handing.

Section Settled.
Context (errtext : libcall -> string -> string) (jd : string -> option (option doc)) (b64 : string -> string)
  (jd_marshals : forall s m, jd s = Some m -> opt_marshals m = true).

(** An executor has a bound job, which it will settle. *)
Definition executor_ok (d : db) (x : string * prog executor_end) : Prop :=
  steady d x.1 PastBind /\ ensures (settles x.1) x.2 d.

Definition proc_settling (s : proc) : Prop :=
  proc_handing s /\ Forall (executor_ok s.(pdb)) s.(execs).

Lemma executor_env d d' x : rtc store_step d d' -> executor_ok d x -> executor_ok d' x.
Proof. intros R [B E]. split; [exact (steady_run _ _ _ _ R B)|exact (obeys_env _ _ _ _ _ R E)]. Qed.

Lemma executors_env d d' l : rtc store_step d d' -> Forall (executor_ok d) l -> Forall (executor_ok d') l.
Proof. intros R H. eapply Forall_impl; [exact H|]. intros x. by apply executor_env. Qed.

Lemma proc_settling_step s s' : proc_step errtext jd b64 s s' -> proc_settling s -> proc_settling s'.
Proof.
  intros St (P & E). split; [by eapply proc_handing_step|]. destruct P as ((Hr & _ & _ & He & [h Hm]) & M).
  destruct St as [d d' fl es m Hs|d d' fl es m m' Hs|rounds d fl es rec t g k|d d' fl l1 id p p' l2 m Hs
    |d fl l1 id e l2 m]; cbn [main pdb execs] in *.
  - apply rtc_once in Hs. exact (executors_env _ _ _ Hs E).
  - exact (executors_env _ _ _ (pstep_store _ _ _ _ _ Hs Hm) E).
  - destruct (M d (rtc_refl _ _)) as [B _]. unfold startExecutor. cbn [inFlight pdb execs main].
    case_decide; cbn [pdb execs]; [done|]. apply Forall_app. split; [done|].
    pose proof (steady_reachable _ _ _ Hr (h_bound _ _ _ _ B)). constructor; [|done]. split; [done|].
    by apply execute_settles.
  - rewrite Forall_app, Forall_cons in *. destruct He as (_ & [h' He] & _). destruct E as (E1 & [B E] & E2).
    cbn [fst snd] in *. pose proof (pstep_store _ _ _ _ _ Hs He) as R.
    split_and!; try exact (executors_env _ _ _ R E1); try exact (executors_env _ _ _ R E2).
    split; [exact (steady_run _ _ _ _ R B)|exact (obeys_step _ _ _ _ _ _ Hs E)].
  - rewrite Forall_app, Forall_cons in *. tauto.
Qed.

(** (C7) No bound job is abandoned, with one exception: however the scheduling
    loop, the executors, the adapters and the other clients of the database
    interleave, in a process and in one that took over after a crash, every
    executor runs a job that was bound, and one that has returned left its job
    in a terminal phase; unless the process is stopping, when the next one
    resumes it, or the adapter's last report was a success whose usage has a
    NaN or infinite sum, which the status document cannot hold.  (What
    encoding/json decodes from a result it can encode again.) *)
Theorem executors_settle_jobs gate rounds ps d0 s :
  reachable d0 -> rtc (proc_step errtext jd b64) (mkProc d0 ∅ [] (Run errtext gate rounds ps)) s ->
  forall id p, (id, p) ∈ s.(execs) ->
    job_at s.(pdb) id PastBind /\
    forall e, p = Ret e ->
      e = Stopped \/ job_at s.(pdb) id Settled \/
      exists st, e = Finished (Some st) /\ st.(TSState) = TASK_SUCCEEDED /\ finite_usage st.(TSUsage) = false.
Proof.
  intros Hr H id p Hin. assert (proc_settling s) as (_ & E).
  { revert H. apply rtc_invariant; [|apply proc_settling_step]. split; [by apply proc_handing_start|by apply Forall_nil]. }
  apply (proj1 (Forall_forall _ _) E) in Hin as [[B _] S]. split; [exact B|]. intros e ->. cbn in S.
  specialize (S _ (rtc_refl _ _)). destruct e as [last|]; [right|by left].
  destruct (recordable last) eqn:Rl; [left; by apply (S last)|right].
  destruct last as [st|]; [|done]. exists st. cbn in Rl. by destruct (TSState st).
Qed.
End Settled.

(** A bound job whose document yields no payload fails: whenever [execute]
    returns, the job is in a terminal phase. *)
Lemma execute_rejects errtext json_unmarshal base64_encode rounds rec t g e d :
  payloadFor errtext rec.(Doc) = Err e -> reachable d -> job_at d rec.(JobID) PastBind ->
  ensures (fun _ d' => job_at d' rec.(JobID) Settled)
    (execute errtext json_unmarshal base64_encode rounds rec t g) d.
Proof.
  intros HE R H%(steady_reachable _ _ _ R). unfold execute. destruct (cut_target g) as [site tid].
  pose proof (payloadFor_marshals _ _ _ HE) as M. pose proof errmap_marshals as EM.
  intros d1 R1. apply (steady_run _ _ _ _ R1) in H. intros []; cbn [negb]; rewrite ?HE;
    (eapply obeys_mono; [|by apply (fails_settled _ _ _ _ (Finished None))]); intros a d' [S _]; exact S.
Qed.

(** The exception is real: when the adapter reports that the task succeeded
    with a NaN among its usage, the executor is done, the charge is in the
    ledger and the task's row says SUCCEEDED, but the job stays RUNNING, and
    nobody follows it any more. *)
Definition nan_report : TaskStatus := mkTaskStatus TASK_SUCCEEDED None [("qpu-seconds", S754_nan)] None.

(** ** Concrete runs *)

Definition demo_policies : policies := mkPolicies fifoPolicy 0 [].

Definition demo_rec : JobRecord :=
  mkJobRecord "j1" "acme/chem" "bell" Scheduled (mkdoc [("spec", JStr "bell")]) ∅ 10 20.

Definition demo_submitted : db := (TransitionJob demo_bound 30 "j1" Submitted None).2.

Lemma demo_submitted_reachable : reachable demo_submitted.
Proof. eapply reachable_store_step; [apply demo_bound_reachable|apply step_transition, target_Submitted]. Qed.

Lemma demo_submitted_at : job_at demo_submitted "j1" PastSubmitted.
Proof. eexists. split; [vm_compute; reflexivity|]. left. vm_compute. reflexivity. Qed.

Lemma demo_bound_at : job_at demo_bound "j1" PastBind.
Proof. eexists. split; [vm_compute; reflexivity|]. left. vm_compute. reflexivity. Qed.

Definition demo_done : TaskStatus :=
  mkTaskStatus TASK_SUCCEEDED (Some (mkResult "counts" "" "")) [("shots", f_of_Z 100); ("qpu-seconds", f_of_Z 3)] None.

(** A standby schedules nothing: behind a gate that stays closed [Run] binds
    and moves no job, whatever it may still resume. *)
Lemma standby_never_binds errtext n ps h :
  always (fun _ l => match l with LSpawn _ => True | _ => False end) (fun _ _ => True) h
    (Run errtext (Some (fun _ => false)) n ps).
Proof.
  unfold Run. apply (always_bind _ _ (fun _ _ => True)).
  - unfold resume. cbn [always]. intros ts. revert h. induction ts as [|t ts IH]; intros h; cbn [resume_tasks always]; [done|].
    intros [r|e]; cbn [always]; [split; [done|intros _]|]; apply IH.
  - intros h' _ _. revert h'. induction n as [|n IH]; intros h'; cbn [run_cycles always]; [done|]. intros []; [done|intros _; apply IH].
Qed.

(** No payload of the examples is JSON, and library errors have no text. *)
Definition no_json (_ : string) : option (option doc) := None.
Definition no_text (_ : libcall) (_ : string) : string := "".

(** A restarted process re-attaches to the one task that was in flight. *)
Lemma resume_one errtext jd b64 gate cycles rounds ps d t rec :
  ActiveTasks d = [t] -> GetJob d t.(TJobID) = Ok rec ->
  rtc (proc_step errtext jd b64) (mkProc d ∅ [] (Run errtext gate cycles ps))
    (mkProc d ({[rec.(JobID)]} ∪ ∅) [(rec.(JobID), execute errtext jd b64 rounds rec t.(TaskID) t.(TTarget))]
       (run_cycles errtext gate cycles ps)).
Proof.
  intros HA HG. eapply rtc_l; [apply pr_main, ps_active|]. rewrite HA.
  eapply rtc_l; [apply pr_main, ps_get|]. rewrite HG.
  pose proof (pr_spawn errtext jd b64 rounds d ∅ [] rec t.(TaskID) t.(TTarget) (fun _ => run_cycles errtext gate cycles ps)) as S.
  unfold startExecutor in S. cbn [inFlight pdb execs main app] in S.
  rewrite decide_False in S by (by apply not_elem_of_empty). by apply rtc_once.
Qed.

Lemma dispatcher_refines_store_witness :
  exists p m, let s := mkProc demo_bound ({["j1"]} ∪ ∅) [("j1", p)] m in
    reachable s.(pdb) /\ NoDup (s.(execs).*1) /\ forall id, id ∈ s.(inFlight) <-> id ∈ s.(execs).*1.
Proof.
  eexists _, _.
  apply (dispatcher_refines_store no_text no_json id None 1 demo_policies demo_bound); [apply demo_bound_reachable|].
  eapply (resume_one no_text no_json id None 1 5 demo_policies demo_bound (new_task "t1" "j1" "sim-a" 20)
    (mkJobRecord "j1" "acme/chem" "bell" Scheduled (mkdoc [("spec", JStr "bell")])
       (bound_status (mkdoc [("phase", JStr Pending)]) "t1" "sim-a" (mkdoc [("policy", JStr "fifo")])) 10 20));
    vm_compute; reflexivity.
Defined.

Lemma demo_factory : find_factory (fun x => x) "fifo/v0" = Some demo_policies.(active).
Proof. reflexivity. Qed.

Lemma dispatchOne_respects_intent_witness :
  always (dispatch_ok (baseline "fifo/v0") demo_rec) (fun _ _ => True) [] (dispatchOne no_text demo_policies demo_rec).
Proof.
  exact (dispatchOne_respects_intent no_text (fun x => x) "fifo/v0" demo_policies demo_rec demo_factory).
Defined.

Lemma no_json_marshals s m : no_json s = Some m -> opt_marshals m = true.
Proof. done. Qed.

(** At most [n] store calls of a program that nobody disturbs, at time [now],
    up to the first command of another kind. *)
Fixpoint alone {A} (n : nat) (now : Z) (p : prog A) (d : db) : prog A * db :=
  match n with
  | O => (p, d)
  | S n =>
      match p with
      | TransitionJob_cmd id to m k => alone n now (k (TransitionJob d now id to m).1) (TransitionJob d now id to m).2
      | UpdateTask_cmd t a s e r k => alone n now (k (UpdateTask d now t a s e r).1) (UpdateTask d now t a s e r).2
      | RecordUsage_cmd j t tn g u k => alone n now (k tt) (record_one now j t tn g d u)
      | _ => (p, d)
      end
  end.

Lemma alone_steps {A} n now (p : prog A) d : rtc istep (d, p) ((alone n now p d).2, (alone n now p d).1).
Proof.
  revert p d. induction n as [|n IH]; intros p d; [apply rtc_refl|]. destruct p; cbn [alone]; try apply rtc_refl;
    (eapply rtc_l; [apply is_prog; constructor|apply IH]).
Qed.

Lemma nan_usage_strands_job :
  exists d', rtc istep (demo_submitted, applyTaskStatus no_json id demo_rec "t1" "sim-a" "" "a1" nan_report false)
               (d', Ret (true, false)) /\
    job_at d' "j1" (fun p => p = Running) /\ charged d' ("t1", "qpu-seconds") /\
    exists x, d'.(tasks) !! "t1" = Some x /\ x.(TState) = "SUCCEEDED".
Proof.
  pose proof (alone_steps 5 40 (applyTaskStatus no_json id demo_rec "t1" "sim-a" "" "a1" nan_report false) demo_submitted) as H.
  eexists. split; [exact H|]. split_and!.
  - eexists. split; vm_compute; reflexivity.
  - apply list_elem_of_In. vm_compute. left. reflexivity.
  - eexists. split; vm_compute; reflexivity.
Qed.

Lemma succeeded_task_billed_once_witness :
  ensures (fun _ d' => forall u, u ∈ demo_done.(TSUsage) -> charge_count d' ("t1", u.1) = 1%nat)
    (applyTaskStatus no_json id demo_rec "t1" "sim-a" "" "a1" demo_done false) demo_submitted.
Proof.
  apply (succeeded_task_billed_once no_json id demo_rec "t1" "sim-a" "" "a1" demo_done false demo_submitted).
  - exact demo_submitted_reachable.
  - reflexivity.
Defined.

Definition demo_uri_rec : JobRecord :=
  mkJobRecord "j1" "acme/chem" "bell" Scheduled
    (mkdoc [("spec", jobj [("workload", jobj [("kind", JStr "gate-model");
       ("gateModel", jobj [("program", jobj [("format", JStr "openqasm3"); ("source", JStr "s3://b/p.qasm")])])])])])
    ∅ 10 20.

Lemma demo_uri_err : is_ok (payloadFor no_text demo_uri_rec.(Doc)) = false.
Proof. vm_compute. reflexivity. Qed.

Lemma execute_rejects_witness :
  ensures (fun _ d' => job_at d' "j1" Settled) (execute no_text no_json id 3 demo_uri_rec "t1" "site/dev") demo_bound.
Proof.
  destruct (payloadFor no_text demo_uri_rec.(Doc)) as [ps|e] eqn:E.
  - exfalso. pose proof demo_uri_err as H. rewrite E in H. discriminate H.
  - exact (execute_rejects no_text no_json id 3 demo_uri_rec "t1" "site/dev" e demo_bound E demo_bound_reachable demo_bound_at).
Defined.

(** A job whose adapter is gone: the resumed executor fails it. *)
Definition demo_offline_error : doc :=
  errmap "DEVICE_OFFLINE" true "vendorMessage" "adapter for site sim-a is not configured".

Definition demo_offline : db :=
  (TransitionJob (UpdateTask demo_bound 30 "t1" "" "FAILED" (Some demo_offline_error) None).2 31 "j1" Failed
     (Some (fail_status "t1" "sim-a" demo_offline_error))).2.

Lemma demo_offline_run :
  rtc (proc_step no_text no_json id) (mkProc demo_bound ∅ [] (Run no_text None 1 demo_policies))
    (mkProc demo_offline ({["j1"]} ∪ ∅) [("j1", Ret (Finished None))] (run_cycles no_text None 1 demo_policies)).
Proof.
  etrans.
  { eapply (resume_one no_text no_json id None 1 5 demo_policies demo_bound (new_task "t1" "j1" "sim-a" 20)
      (mkJobRecord "j1" "acme/chem" "bell" Scheduled (mkdoc [("spec", JStr "bell")])
         (bound_status (mkdoc [("phase", JStr Pending)]) "t1" "sim-a" (mkdoc [("policy", JStr "fifo")])) 10 20));
      vm_compute; reflexivity. }
  cbn [JobID TTarget TaskID new_task]. unfold execute. change (cut_target "sim-a") with ("sim-a", ""). cbv beta iota.
  eapply rtc_l; [eapply (pr_exec _ _ _ demo_bound _ _ [] _ _ _ []), (ps_client _ _ false)|]. cbn [negb pbind failJob app].
  eapply rtc_l; [eapply (pr_exec _ _ _ demo_bound _ _ [] _ _ _ []), (ps_update _ 30)|]. cbn [pbind app].
  eapply rtc_l; [eapply (pr_exec _ _ _ _ _ _ [] _ _ _ []), (ps_transition _ 31)|]. cbn [pbind app]. apply rtc_refl.
Qed.

Lemma executors_settle_jobs_witness : job_at demo_offline "j1" PastBind /\ job_at demo_offline "j1" Settled.
Proof.
  destruct (executors_settle_jobs no_text no_json id no_json_marshals None 1 demo_policies demo_bound
    (mkProc demo_offline ({["j1"]} ∪ ∅) [("j1", Ret (Finished None))] (run_cycles no_text None 1 demo_policies))
    demo_bound_reachable demo_offline_run "j1" (Ret (Finished None))) as [B S]; [left|].
  split; [exact B|]. destruct (S (Finished None) eq_refl) as [E|[E|(st & E & _)]]; [discriminate E|exact E|discriminate E].
Defined.
