(* ===== verification/Progress.v ===== *)
(** * Progress of the dispatcher

    The loop of [Run] goes from one cycle to the next without waiting only
    while it binds jobs, and does not miss a round; and an executor whose
    adapter eventually reports the end of the task finishes. *)

From S2P Require Import Prelude Float64 GoLib Phase Database JobStore Tables Lifecycle Qasm Views Filter Policies Scheduler FairShare Prog Dispatch DispatchProps.

(** ** The pace of a loop

    Read off the history of its commands, newest first: a cycle begins with a
    sweep of the expired sessions. *)
Definition is_sweep (e : event) : bool := match e with EvSweep => true | _ => false end.
Definition is_win (e : event) : bool := match e with EvBind _ true => true | _ => false end.

Definition cycles (h : list event) : nat := length (List.filter is_sweep h).
Definition wins (h : list event) : nat := length (List.filter is_win h).

(** Cycles since the last wait that no job bound since then accounts for. *)
Fixpoint debt (h : list event) : nat :=
  match h with
  | [] | EvWait :: _ => 0
  | EvSweep :: h => S (debt h)
  | EvBind _ true :: h => pred (debt h)
  | _ :: h => debt h
  end.

Fixpoint paced (h : list event) : Prop :=
  match h with [] => True | _ :: h' => (debt h <= 1)%nat /\ paced h' end.

Lemma debt_covers b c : EvWait ∉ b -> (cycles b <= wins b + debt (b ++ c))%nat.
Proof.
  unfold cycles, wins. induction b as [|e b IH]; intros N; [cbn; lia|].
  apply not_elem_of_cons in N as [N1 N2]. specialize (IH N2).
  destruct e as [| | |id [|]| | |]; cbn [List.filter is_sweep is_win app debt length]; try lia. done.
Qed.

Lemma paced_suffix a h : paced (a ++ h) -> paced h.
Proof. induction a; [done|]. intros [_ H]. auto. Qed.

Lemma paced_debt h : paced h -> (debt h <= 1)%nat.
Proof. destruct h; [cbn; lia|]. by intros [H _]. Qed.

Lemma paced_segment h a b c : paced h -> h = a ++ b ++ c -> EvWait ∉ b -> (cycles b <= wins b + 1)%nat.
Proof.
  intros P -> N. apply paced_suffix, paced_debt in P. pose proof (debt_covers b c N). lia.
Qed.

(** What happens inside a cycle, and whether it bound a job. *)
Definition in_cycle (e : event) : bool :=
  match e with EvSweep | EvWait | EvAsked _ => false | _ => true end.

Inductive within (h : list event) : bool -> list event -> Prop :=
| within_start : within h false h
| within_event b b' h' e : in_cycle e = true -> within h b h' -> b' = b || is_win e -> within h b' (e :: h').

Lemma within_debt h b h' :
  within h b h' -> (debt h' <= debt h)%nat /\ (b = true -> debt h <= 1 -> debt h' = 0)%nat /\
  cycles h' = cycles h /\ (EvAsked true ∈ h' <-> EvAsked true ∈ h) /\ ((debt h <= 1)%nat -> paced h -> paced h').
Proof.
  unfold cycles. induction 1 as [|b b' h' e He _ (D & Z & C & A & P) ->]; [by split_and!; try lia|].
  destruct e as [| | |id [|]| | |]; try done; cbn [List.filter is_sweep is_win debt length paced];
    rewrite ?orb_false_r, ?orb_true_r, elem_of_cons, A;
    (split_and!; [lia| |done|split; [by intros [?|?]|by right]|]); intros; repeat split; try lia; auto;
    match goal with H : b = true |- _ => specialize (Z H) end; lia.
Qed.

Lemma within_trans h b1 h1 b2 h2 : within h b1 h1 -> within h1 b2 h2 -> within h (b1 || b2) h2.
Proof.
  intros H1. induction 1 as [|b b' h' e He _ IH ->]; [by rewrite orb_false_r|].
  eapply within_event; [exact He|exact IH|]. apply orb_assoc.
Qed.

Section Counts.
Context (errtext : libcall -> string -> string).

(** A part of a cycle: if it says that it bound a job, it did. *)
Definition part {A} (bound : A -> bool) (h h' : list event) (a : A) : Prop :=
  exists b, within h b h' /\ (bound a = true -> b = true).

Ltac within := first [eassumption|apply within_start|eapply within_event; [reflexivity|within|reflexivity]].
Ltac part_here := eexists; split; [within|done].

Lemma part_bind {A B} (f : A -> bool) (g : B -> bool) (p : prog A) (k : A -> prog B) h :
  always (fun _ _ => True) (part f h) h p ->
  (forall h1 b a, within h b h1 -> (f a = true -> b = true) -> always (fun _ _ => True) (fun h' x =>
     exists b', within h1 b' h' /\ (g x = true -> b || b' = true)) h1 (k a)) ->
  always (fun _ _ => True) (part g h) h (pbind p k).
Proof.
  intros Hp Hk. eapply always_bind; [exact Hp|]. intros h1 a (b & W & F).
  eapply always_mono; [| |exact (Hk _ _ _ W F)]; [done|]. intros h' x (b' & W' & G).
  exists (b || b'). split; [exact (within_trans _ _ _ _ _ W W')|exact G].
Qed.

Lemma sessionAffinity_part rec j h : always (fun _ _ => True) (part (fun _ => false) h) h (sessionAffinity rec j).
Proof. unfold sessionAffinity, failSessionLost. walk; try done; part_here. Qed.

Lemma recordShadow_part j act fleet now l h :
  always (fun _ _ => True) (part (fun _ => false) h) h (recordShadow j act fleet now l).
Proof.
  eapply always_mono; [| |apply (recordShadow_history (fun _ _ => True))]; [done|]. intros h' a ->. part_here.
Qed.

Lemma resolveConflict_part ps rec j h :
  always (fun _ _ => True) (part (fun _ => false) h) h (resolveConflict ps rec j).
Proof. unfold resolveConflict. walk; try done; part_here. Qed.

(** [dispatchOne] answers true only when its own bind succeeded. *)
Lemma dispatchOne_part ps rec h : always (fun _ _ => True) (part fst h) h (dispatchOne errtext ps rec).
Proof.
  unfold dispatchOne. destruct (ParseJob _ _ _) as [view|e]; [|walk; part_here].
  eapply part_bind; [apply sessionAffinity_part|]. intros h1 b1 [j|] _ _; [|cbn; eexists; split; [within|done]].
  cbn [always]. intros now fleet. destruct (Schedule _ _ _ _ _) as [dec st'].
  eapply always_bind; [apply recordShadow_part|]. intros h2 cands (b2 & W2 & _).
  assert (W : within h1 b2 h2).
  { eapply (within_trans _ false); [|exact W2]. within. }
  destruct (String.eqb _ _).
  - eapply always_bind; [apply resolveConflict_part|]. intros h3 [[] ps'] (b3 & W3 & _);
      walk; (eexists; split; [exact (within_trans _ _ _ _ _ W W3)|done]).
  - cbn [always]. intros taskID. split; [done|]. intros [bound|e]; cbn [always is_ok]; [split; [done|intros _]|];
      (eexists; split; [within|]); [intros _; by rewrite !orb_true_r|done].
Qed.

Lemma dispatch_all_part recs : forall ps n h,
  always (fun _ _ => True) (fun h' o => exists b, within h b h' /\ (n < o.1 -> b = true)) h (dispatch_all errtext ps recs n).
Proof.
  induction recs as [|rec recs IH]; intros ps n h; cbn [dispatch_all].
  { eexists. split; [within|]. cbn [fst]. lia. }
  eapply always_bind; [apply dispatchOne_part|]. intros h1 [w ps'] (b & W & F). cbn [fst] in F.
  eapply always_mono; [| |apply IH]; [done|]. intros h' o (b' & W' & F').
  exists (b || b'). split; [exact (within_trans _ _ _ _ _ W W')|]. intros H. destruct w; [by rewrite F|].
  rewrite (F' H). apply orb_true_r.
Qed.

(** A cycle is one sweep, and it says that it bound jobs only if it did. *)
Lemma cycle_part ps h :
  always (fun _ _ => True) (fun h' o => exists b, within (EvSweep :: h) b h' /\ (0 < o.1.2 -> b = true)) h (cycle errtext ps).
Proof.
  unfold cycle. cbn [always]. intros _ pending.
  eapply (always_bind _ _ (fun h' _ => h' = EvSweep :: h)).
  { unfold order_pending. by walk. }
  intros h1 ordered ->. eapply always_bind; [apply dispatch_all_part|].
  intros h2 [bound ps'] (b & W & F). cbn [always]. exists b. by split.
Qed.

(** The rounds in which the gate is open, of the first [n] from the end. *)
Definition open_rounds (gate : option (nat -> bool)) (n : nat) : nat := length (List.filter (gate_open gate) (seq 0 n)).

Lemma open_rounds_S gate n : open_rounds gate (S n) = ((if gate_open gate n then 1 else 0) + open_rounds gate n)%nat.
Proof.
  unfold open_rounds. rewrite seq_S, List.filter_app, length_app. cbn. destruct (gate_open gate n); cbn; lia.
Qed.

(** Between two rounds everything is accounted for. *)
Definition at_round (gate : option (nat -> bool)) (n done : nat) (h : list event) : Prop :=
  paced h /\ debt h = 0%nat /\ (EvAsked true ∉ h -> (cycles h + open_rounds gate n = done)%nat).

Lemma run_cycles_paced gate n ps done h :
  at_round gate n done h ->
  always (fun _ _ => True) (fun h' _ => paced h' /\ (EvAsked true ∉ h' -> cycles h' = done)) h (run_cycles errtext gate n ps).
Proof.
  revert ps h. induction n as [|n IH]; intros ps h (P & D & N); cbn [run_cycles always].
  { split; [exact P|]. intros HN. specialize (N HN). unfold open_rounds in N. cbn in N. lia. }
  intros [].
  { split; [split; [cbn; lia|exact P]|]. intros HN. exfalso. apply HN. by left. }
  rewrite open_rounds_S in N. destruct (gate_open gate n) eqn:G; cbn [negb always].
  2:{ intros _. apply IH. split_and!; [cbn; split_and!; [lia|lia|exact P]|done|].
      intros HN. rewrite !not_elem_of_cons in HN. destruct HN as (_ & _ & HN). specialize (N HN). unfold cycles in *. cbn. lia. }
  eapply always_bind; [apply cycle_part|]. intros h1 [[claimed bound] ps'] (b & W & F). cbn [fst snd] in F.
  apply within_debt in W as (_ & Z1 & C1 & A1 & P1). unfold cycles in C1. cbn [debt List.filter is_sweep length] in Z1, C1.
  rewrite D in Z1. rewrite !elem_of_cons in A1.
  assert (P' : paced h1) by (apply P1; cbn; [lia|]; split_and!; [lia|lia|exact P]). clear P1.
  assert (N' : EvAsked true ∉ h1 -> (cycles h1 + open_rounds gate n)%nat = done).
  { intros HN. rewrite <- N by tauto. unfold cycles. lia. }
  pose proof (paced_debt _ P') as D'. destruct (more_work claimed bound) eqn:M.
  { apply IH. split_and!; [exact P'|apply Z1; [|lia]|exact N']. apply F.
    by apply andb_true_iff in M as [_ M%Z.ltb_lt]. }
  clear -IH P' N' D'. cbn [always]. intros [u|e]; [|cbn [always]; intros []; [|cbn [always]; intros u]]; apply IH;
    (split_and!; [cbn; split_and!; first [exact P'|lia]|done|]); intros HN; rewrite !not_elem_of_cons in HN;
    unfold cycles in *; cbn; tauto.
Qed.

End Counts.

(** ** Executors finish *)

Section Finishing.
Context (errtext : libcall -> string -> string) (jd : string -> option (option doc)) (b64 : string -> string)
  (jd_marshals : forall s m, jd s = Some m -> opt_marshals m = true).

Ltac solve_muted := intros ?; walk; cbn [receives_not]; auto.
Definition muted {A} (p : prog A) : Prop := forall h, always receives_not (fun _ _ => True) h p.

Lemma muted_bind {A B} (p : prog A) (f : A -> prog B) : muted p -> (forall a, muted (f a)) -> muted (pbind p f).
Proof. intros Hp Hf h. eapply always_bind; [apply Hp|]. intros h' a _. apply Hf. Qed.

Lemma fails_muted {A} rec t g e (a : A) : muted (run! _ := failJob rec t g e in Ret a).
Proof. unfold failJob. solve_muted. Qed.

Lemma sessionForExecution_muted rec t g : muted (sessionForExecution rec t g).
Proof. unfold sessionForExecution, openSessionIfRequested, failSessionLostTask, failJob. solve_muted. Qed.

Lemma applyTaskStatus_muted rec t g tid at_ st running : muted (applyTaskStatus jd b64 rec t g tid at_ st running).
Proof.
  unfold applyTaskStatus, failJob. destruct (TSState st); [solve_muted|solve_muted| |solve_muted|solve_muted].
  intros h. cbn [always receives_not]. split; [done|]. intros _ _.
  apply (muted_bind (record_usage _ _ _ _ _)); [|intros []; solve_muted].
  intros h'. generalize (map_to_list (usageToMap (TSUsage st))). intros l. revert h'.
  induction l as [|u l IH]; intros h'; cbn [record_usage always]; [done|]. intros _. apply IH.
Qed.

(** The end of a task ends its executor's loop. *)
Lemma applyTaskStatus_ends rec t g tid at_ st running d :
  ensures (fun o _ => task_ended st.(TSState) -> o.1 = true) (applyTaskStatus jd b64 rec t g tid at_ st running) d.
Proof.
  eapply obeys_mono; [|apply (obeys_silent _ (fun _ o => task_ended st.(TSState) -> o.1 = true) _ [])].
  { by intros o d' [h H]. }
  unfold applyTaskStatus, failJob, task_ended. destruct (TSState st); walk; cbn [silent fst]; auto;
    try (by match goal with H : _ \/ _ |- _ => destruct H as [?|[?|?]] end).
  eapply always_bind; [apply (quiet_silent (record_usage _ _ _ _ _)), record_usage_quiet|]. intros h' [] _. by walk.
Qed.

(** The messages and breaks of the streams, and where the task ends. *)
Definition ends_task (r : result string TaskStatus) : Prop :=
  match r with Ok st => task_ended st.(TSState) | Err _ => False end.

(** The executor is done with its task; if a report ended it, it was one of [l]. *)
Definition finishes {L} (l : list (result string TaskStatus)) (o : L * executor_end) (_ : db) : Prop :=
  exists last, o.2 = Finished last /\ forall st, last = Some st -> Ok st ∈ l.

Lemma finishes_more {L} l l' (o : L * executor_end) d :
  (forall r, r ∈ l -> r ∈ l') -> finishes l o d -> finishes l' o d.
Proof. intros H (last & E & F). exists last. eauto. Qed.

(** Two rounds for each: a break costs one more, for the new watch. *)
Lemma follow_finishes handle t g tid at_ rec l n (streaming running : bool) d :
  Exists ends_task l -> (2 * length l + (if streaming then 0 else 1) <= n)%nat ->
  ensures (finishes l) (fed handle l (follow jd b64 n rec t g tid at_ streaming running)) d.
Proof.
  revert l streaming running d. induction n as [|n IH]; intros l streaming running d E N.
  { destruct l; [by apply Exists_nil in E|cbn [length] in N; lia]. }
  assert (Tail : forall x l' (p : prog executor_end) d, ensures (finishes l') (fed handle l' p) d ->
    ensures (finishes (x :: l')) (fed handle l' p) d).
  { intros x l' p d' H. eapply obeys_mono; [|exact H]. intros o d2. apply finishes_more. intros r ?. by right. }
  cbn [follow]. destruct streaming.
  - destruct l as [|[st|e] l]; [by apply Exists_nil in E| |]; cbn [fed length] in *; intros d1 R1 r; [|].
    + eapply fed_bind; [eapply fed_muted; [exact (applyTaskStatus_muted _ _ _ _ _ _ _ [])|apply applyTaskStatus_ends]|].
      intros l' [finished running'] d2 [E1 H]. cbn [snd fst] in E1, H. subst l'. destruct finished.
      { intros d3 R3. eexists. split; [reflexivity|]. intros ? [= <-]. by left. }
      apply Exists_cons in E as [E|E]; [by specialize (H E)|]. apply Tail, IH; [exact E|lia].
    + apply Exists_cons in E as [[]|E]. intros d2 R2 b d3 R3. apply Tail, IH; [exact E|lia].
  - cbn [fed]. intros d1 R1 b d2 R2 w. apply IH; [exact E|lia].
Qed.

(** (C9) Every job comes to an end if its adapter works: when the adapter takes
    the submission and its streams, however often they break, deliver the end
    of the task, and it reports no usage with a NaN or infinite sum, the
    executor of a bound job finishes, in at most two rounds per message, and
    the job is then in a terminal phase, whatever the other clients of the
    store do meanwhile.  (What encoding/json decodes from a result it can
    encode again.) *)
Theorem executor_finishes handle n rec t g l d :
  reachable d -> job_at d rec.(JobID) PastBind -> Exists ends_task l ->
  (forall st, Ok st ∈ l -> recordable (Some st) = true) -> (2 * length l + 1 <= n)%nat ->
  ensures (fun o d' => finishes l o d' /\ job_at d' rec.(JobID) Settled) (fed handle l (execute errtext jd b64 n rec t g)) d.
Proof.
  intros HR H E Rc N.
  assert (Settles : ensures (fun o => settles rec.(JobID) o.2) (fed handle l (execute errtext jd b64 n rec t g)) d)
    by (by apply fed_refines, execute_settles, steady_reachable).
  assert (K : forall (o : list (result string TaskStatus) * executor_end) d', finishes l o d' /\ settles rec.(JobID) o.2 d' -> finishes l o d' /\ job_at d' rec.(JobID) Settled).
  { intros o d' [(last & F & L) S]. split; [by exists last|]. apply (S last F). destruct last; [|done]. by apply Rc, L. }
  eapply obeys_mono; [exact K|]. apply obeys_and; [|exact Settles]. clear Settles K.
  assert (Fail : forall l d e, ensures (finishes l)
    (fed handle l (run! _ := failJob rec t g e in Ret (Finished None))) d).
  { intros l' d' e. do 3 (intros ? ?; try intros ?). by eexists. }
  unfold execute. destruct (cut_target g) as [site tid]. cbn [fed]. intros d1 R1 b. cbn [negb].
  destruct (payloadFor errtext rec.(Doc)) as [[pl shots]|e]; [|apply Fail].
  eapply (fed_bind _ _ (fun (o : _ * option string) _ => o.1 = l)).
  { eapply obeys_mono; [|eapply (fed_muted _ (fun _ _ => True)); [exact (sessionForExecution_muted _ _ _ [])|]].
    - by intros o d' [? _].
    - eapply obeys_mono; [|apply (ensures_invariant (fun _ => True) _ []); [done|apply quiet_safe, sessionForExecution_quiet|done]]. done. }
  intros l' [s|] d2 E'; cbn [fst] in E'; subst l'; [|intros d3 R3; by eexists]. cbn [fed]. intros d3 R3. split; [done|]. intros r.
  intros d4 R4 now4 d5 R5 now5. destruct (TransitionJob _ _ _ _ _) as [[r'|e] d6]; cbn [fst snd];
    [by apply follow_finishes|]. cbn [fed]. intros d7 R7. destruct (GetJob _ _) as [c|e']; [|intros ? ? ? ? ?; by eexists].
  destruct (Terminal _); [intros ? ? ? ? ?; by eexists|by apply follow_finishes].
Qed.
End Finishing.

(** A stream that breaks, and then the end. *)
Lemma executor_finishes_witness :
  ensures (fun o d' => finishes [Err "EOF"; Ok demo_done] o d' /\ job_at d' "j1" Settled)
    (fed "dev-1" [Err "EOF"; Ok demo_done] (execute no_text no_json id 5 demo_rec "t1" "sim-a")) demo_bound.
Proof.
  apply (executor_finishes no_text no_json id no_json_marshals "dev-1" 5 demo_rec "t1" "sim-a" [Err "EOF"; Ok demo_done] demo_bound).
  - exact demo_bound_reachable.
  - exact demo_bound_at.
  - right. left. left. reflexivity.
  - intros st [E|[[= ->]|E%elem_of_nil]%elem_of_cons]%elem_of_cons; [discriminate E|vm_compute; reflexivity|destruct E].
  - cbn. lia.
Defined.
