(* ===== verification/Registry.v ===== *)
(** * The fleet — src/internal/registry/registry.go, dispatch's [entryToView]

    The registry's cache of adapters' answers, the operations that fill it,
    and the views the scheduler, admission and the API take of it.  What the
    adapters answer is an argument of [discover] and [poll] ([None] is a failed
    call); [parse_float] is [strconv.ParseFloat] and [encode_caps],
    [encode_state] are protojson. *)

From S2P Require Import Prelude Float64 GoLib Phase Database JobStore Tables Lifecycle Views Filter Policies Scheduler Auth Admission Api Prog Dispatch.

(** ** What adapters say (generated protobuf types, through their getters) *)

Inductive device_status := STATUS_UNSPECIFIED | ONLINE | CALIBRATING | MAINTENANCE | DEGRADED | OFFLINE.

Record TargetInfo := mkTargetInfo { InfoTargetId : string; InfoModality : string; InfoTechnology : string }.

Record Capabilities := mkCapabilities {
  NumQubits : Z; CapFormats : list string; CapMaxShots : Z; CapBilling : list string;
  CloudQueue : bool; VendorExtensions : gmap string string }.

Record Calibration := mkCalibration {
  CalSnapshot : string; CalMeasuredAt : option Z; CalMetrics : list Metric }.

Record DeviceState := mkDeviceState {
  DevStatus : device_status; DevQueueDepth : Z; EstimatedWait : option Z;
  DevCalibration : option Calibration; DevMaintenance : list (option Z * option Z) }.

(** ** registry.go *)

Record Entry := mkEntry {
  EName : string; ESite : string; ETargetID : string; EInfo : TargetInfo; ECaps : Capabilities;
  EState : option DeviceState; EStateAt : Z }.

(** [sites] by name, with the address dialled; [entries] by fleet-scoped name. *)
Record Registry := mkRegistry { sites : gmap string string; entries : gmap string Entry }.

Definition New : Registry := mkRegistry ∅ ∅.

Inductive spec_error := MalformedSpec (part : string) | DialFailed (name addr cause : string).

(** The loop of [NewFromSpec]; [dial] is grpc.NewClient, which may refuse an
    address. *)
Fixpoint add_sites (dial : string -> option string) (parts : list string) (r : Registry)
  : result spec_error Registry :=
  match parts with
  | [] => Ok r
  | part :: rest =>
      match cut (trim_space part) "="%char with
      | Some (name, addr) =>
          if String.eqb name "" || String.eqb addr "" then Err (MalformedSpec part)
          else match dial addr with
               | Some cause => Err (DialFailed name addr cause)
               | None => add_sites dial rest (mkRegistry (<[name := addr]> r.(sites)) r.(entries))
               end
      | None => Err (MalformedSpec part)
      end
  end.

Definition NewFromSpec (dial : string -> option string) (spec : string) : result spec_error Registry :=
  if String.eqb (trim_space spec) "" then Ok New else add_sites dial (split spec ","%char) New.

(** The body of [discover]'s inner loop, one target of one site. *)
Definition register (site : string) (r : Registry) (x : TargetInfo * option Capabilities) : Registry :=
  let '(info, answer) := x in
  match answer with
  | None => r
  | Some caps =>
      let name := site +:+ "/" +:+ info.(InfoTargetId) in
      let e := match r.(entries) !! name with
               | None => mkEntry name site info.(InfoTargetId) info caps None time_zero
               | Some e => mkEntry e.(EName) e.(ESite) e.(ETargetID) info caps e.(EState) e.(EStateAt)
               end in
      mkRegistry r.(sites) (<[name := e]> r.(entries))
  end.

(** [discover], with [order] the sites in the order the map was ranged over. *)
Definition discover (ask : string -> option (list (TargetInfo * option Capabilities)))
    (order : list string) (r : Registry) : Registry :=
  fold_left (fun r s => match ask s with None => r | Some l => fold_left (register s) l r end) order r.

Definition entry_less (a b : Entry) : bool := str_lt a.(EName) b.(EName).

(** [Entries]: sorted copies. *)
Definition Entries (r : Registry) : list Entry := sort_by entry_less (snd <$> map_to_list r.(entries)).

Definition Entry_of (r : Registry) (name : string) : option Entry := r.(entries) !! name.

Definition siteFor (r : Registry) (name : string) : option string := r.(sites) !! name.

Definition AdapterClient (r : Registry) (siteName : string) : bool :=
  match siteFor r siteName with Some _ => true | None => false end.

(** The body of [poll]'s loop, for one entry of the snapshot. *)
Definition poll_one (now : Z) (ask : Entry -> option DeviceState) (r : Registry) (e : Entry) : Registry :=
  match siteFor r e.(ESite) with
  | None => r
  | Some _ =>
      match ask e with
      | None => r
      | Some state =>
          match r.(entries) !! e.(EName) with
          | Some x => mkRegistry r.(sites) (<[e.(EName) :=
              mkEntry x.(EName) x.(ESite) x.(ETargetID) x.(EInfo) x.(ECaps) (Some state) now]> r.(entries))
          | None => r
          end
      end
  end.

Definition poll (now : Z) (ask : Entry -> option DeviceState) (r : Registry) : Registry :=
  fold_left (poll_one now ask) (Entries r) r.

Section Encode.
Context (encode_caps : Capabilities -> result string doc) (encode_state : DeviceState -> result string doc).

Record Target := mkTarget { TgName : string; TgCaps : doc; TgState : option doc }.

Definition entryToAPI (e : Entry) : result string Target :=
  match encode_caps e.(ECaps) with
  | Err m => Err ("registry: encode capabilities for " +:+ e.(EName) +:+ ": " +:+ m)
  | Ok caps =>
      match e.(EState) with
      | None => Ok (mkTarget e.(EName) caps None)
      | Some st =>
          match encode_state st with
          | Err m => Err ("registry: encode state for " +:+ e.(EName) +:+ ": " +:+ m)
          | Ok state => Ok (mkTarget e.(EName) caps (Some state))
          end
      end
  end.

Fixpoint encode_all (l : list Entry) : result string (list Target) :=
  match l with
  | [] => Ok []
  | e :: rest => let? t := entryToAPI e in let? ts := encode_all rest in Ok (t :: ts)
  end.

Definition ListTargets (r : Registry) (modalityFilter : string) : result string (list Target) :=
  encode_all (List.filter (fun e => String.eqb modalityFilter ""
                             || String.eqb e.(EInfo).(InfoModality) modalityFilter) (Entries r)).

Definition GetTarget (r : Registry) (name : string) : result string (option Target) :=
  match Entry_of r name with
  | None => Ok None
  | Some e => let? t := entryToAPI e in Ok (Some t)
  end.

(** The RPCs of api/services.go over it. *)
Definition ListTargets_rpc (r : Registry) (modalityFilter : string) : result status (list Target) :=
  match ListTargets r modalityFilter with
  | Err m => Err (mkStatus Internal ("listing targets: " +:+ m))
  | Ok ts => Ok ts
  end.

Definition GetTarget_rpc (r : Registry) (name : string) : result status Target :=
  match GetTarget r name with
  | Err m => Err (mkStatus Internal ("getting target: " +:+ m))
  | Ok None => Err (mkStatus NotFound ("target " +:+ quote name +:+ " not registered"))
  | Ok (Some t) => Ok t
  end.
End Encode.

(** [FleetView]: the sets as lists of their members. *)
Definition FleetView_of (r : Registry) : FleetView :=
  mkFleetView (flat_map (fun e => e.(ECaps).(CapFormats)) (Entries r))
              (flat_map (fun e => e.(ECaps).(CapBilling)) (Entries r)).

Definition is_online (s : option DeviceState) : bool :=
  match s with Some st => match st.(DevStatus) with ONLINE => true | _ => false end | None => false end.

Definition OnlineGateModelTargets (r : Registry) : list string :=
  sort_strings (EName <$> List.filter (fun e =>
    String.eqb e.(EInfo).(InfoModality) "gate-model" && is_online e.(EState)) (Entries r)).

(** ** dispatcher.go: what the scheduler sees *)

(** [Timestamp.AsTime] of a missing message is the Unix epoch. *)
Definition unix_epoch : Z := 62135596800 * second.
Definition AsTime (t : option Z) : Z := default unix_epoch t.

(** [Duration.Seconds]. *)
Definition Seconds (d : Z) : float64 :=
  fadd (f_of_Z (Z.quot d second)) (fdiv (f_of_Z (Z.rem d second)) (f_of_Z second)).

Section Views.
Context (parse_float : string -> option float64).

Definition ext_of (e : Entry) (k : string) : string := default "" (e.(ECaps).(VendorExtensions) !! k).

Definition entryToView (e : Entry) : TargetView :=
  let technology := if String.eqb e.(EInfo).(InfoTechnology) "" then ext_of e "technology"
                    else e.(EInfo).(InfoTechnology) in
  let cloud := e.(ECaps).(CloudQueue) || String.eqb (ext_of e "cloud") "true" in
  let nominal := default f0 (parse_float (ext_of e "nominal-2q-error-median")) in
  let cal := match e.(EState) with Some st => st.(DevCalibration) | None => None end in
  mkTargetView e.(EName) e.(EInfo).(InfoModality) technology e.(ECaps).(NumQubits) e.(ECaps).(CapFormats)
    e.(ECaps).(CapMaxShots) e.(ECaps).(CapBilling) (is_online e.(EState)) cloud
    (match cal with Some c => c.(CalSnapshot) | None => "" end)
    (match cal with Some c => default time_zero c.(CalMeasuredAt) | None => time_zero end)
    (match cal with Some c => c.(CalMetrics) | None => [] end)
    (match e.(EState) with Some st => st.(DevQueueDepth) | None => 0 end)
    (match e.(EState) with Some st => Seconds (default 0 st.(EstimatedWait)) | None => f0 end)
    (match e.(EState) with
     | Some st => (fun w => mkWindow (AsTime w.1) (AsTime w.2)) <$> st.(DevMaintenance)
     | None => [] end)
    nominal.

Definition fleetViews (r : Registry) : list TargetView := entryToView <$> Entries r.
End Views.

(** ** The registry's life

    Discovery and polling run on one goroutine; readers may look between any
    two updates. *)
Inductive reg_step : Registry -> Registry -> Prop :=
| reg_register r site x : is_Some (r.(sites) !! site) -> reg_step r (register site r x)
| reg_poll r now ask e : reg_step r (poll_one now ask r e).

(** ** Well-formedness *)

Definition entry_ok (r : Registry) (k : string) (e : Entry) : Prop :=
  e.(EName) = k /\ k = e.(ESite) +:+ "/" +:+ e.(ETargetID) /\ is_Some (r.(sites) !! e.(ESite)).

Definition reg_ok (r : Registry) : Prop := forall k e, r.(entries) !! k = Some e -> entry_ok r k e.

Lemma register_sites site r x : (register site r x).(sites) = r.(sites).
Proof. destruct x as [info []]; done. Qed.

Lemma poll_one_sites now ask r e : (poll_one now ask r e).(sites) = r.(sites).
Proof. unfold poll_one. by repeat case_match. Qed.

Lemma reg_step_ok r r' : reg_step r r' -> reg_ok r -> reg_ok r'.
Proof.
  destruct 1 as [r site [info [caps|]] Hs|r now ask e]; intros H; [|done|].
  - intros k x. simpl. intros [[<- <-]|[_ Hx]]%lookup_insert_Some; [|by apply H].
    destruct (r.(entries) !! _) as [e|] eqn:E; [|by repeat split].
    destruct (H _ _ E) as (H1 & H2 & H3). by repeat split.
  - unfold poll_one. destruct (siteFor r e.(ESite)); [|done]. destruct (ask e) as [st|]; [|done].
    destruct (r.(entries) !! e.(EName)) as [y|] eqn:E; [|done].
    intros k x. simpl. intros [[<- <-]|[_ Hx]]%lookup_insert_Some; [|by apply H].
    destruct (H _ _ E) as (H1 & H2 & H3). by repeat split.
Qed.

Lemma add_sites_entries dial parts r r' : add_sites dial parts r = Ok r' -> r'.(entries) = r.(entries).
Proof.
  revert r. induction parts as [|p parts IH]; intros r; simpl; [by intros [= <-]|].
  destruct (cut _ _) as [[name addr]|]; [|done]. destruct (_ || _); [done|].
  destruct (dial addr); [done|]. intros H. by rewrite (IH _ H).
Qed.

Lemma NewFromSpec_ok dial spec r : NewFromSpec dial spec = Ok r -> reg_ok r.
Proof.
  unfold NewFromSpec. destruct (String.eqb _ _).
  - intros [= <-] k e H. simpl in H. by rewrite lookup_empty in H.
  - intros H%add_sites_entries k e Hx. rewrite H in Hx. simpl in Hx. by rewrite lookup_empty in Hx.
Qed.

(** Both loops are sequences of these steps. *)
Lemma register_steps site l r :
  is_Some (r.(sites) !! site) -> rtc reg_step r (fold_left (register site) l r).
Proof.
  revert r. induction l as [|x l IH]; intros r H; simpl; [apply rtc_refl|].
  eapply rtc_l; [by apply reg_register|]. apply IH. by rewrite register_sites.
Qed.

Lemma registers_sites site l r : (fold_left (register site) l r).(sites) = r.(sites).
Proof. revert r. induction l as [|x l IH]; intros r; simpl; [done|]. by rewrite IH, register_sites. Qed.

Lemma discover_steps ask order r :
  Forall (fun s => is_Some (r.(sites) !! s)) order -> rtc reg_step r (discover ask order r).
Proof.
  unfold discover. revert r. induction order as [|s order IH]; intros r H; simpl; [apply rtc_refl|].
  inversion H as [|? ? H1 H2]; subst. destruct (ask s) as [l|]; [|by apply IH].
  etrans; [by apply register_steps|]. apply IH. by rewrite registers_sites.
Qed.

Lemma poll_steps now ask r : rtc reg_step r (poll now ask r).
Proof.
  unfold poll. generalize (Entries r). intros l. revert r.
  induction l as [|e l IH]; intros r; simpl; [apply rtc_refl|]. eapply rtc_l; [apply reg_poll|apply IH].
Qed.

Lemma elem_of_Entries r e : e ∈ Entries r <-> exists k, r.(entries) !! k = Some e.
Proof.
  unfold Entries. rewrite elem_of_sort_by, list_elem_of_fmap. split.
  - intros ([k e'] & -> & H). exists k. by apply elem_of_map_to_list.
  - intros [k H]. exists (k, e). split; [done|by apply elem_of_map_to_list].
Qed.

Lemma Entries_names r : reg_ok r -> NoDup (EName <$> Entries r).
Proof.
  intros H. unfold Entries. rewrite (sort_by_perm entry_less).
  replace (EName <$> (snd <$> map_to_list r.(entries))) with (fst <$> map_to_list r.(entries)).
  { apply NoDup_fst_map_to_list. }
  rewrite <- list_fmap_compose. apply list_fmap_ext. intros i [k e] Hi. simpl.
  apply list_elem_of_lookup_2, elem_of_map_to_list in Hi. by destruct (H _ _ Hi).
Qed.

(** (C33) The fleet the scheduler sees is well formed, however discovery and
    polling went and at whatever moment it looks: target names are distinct
    and not empty, every view comes from a registered entry whose site has an
    adapter, and splitting the name at its first slash, as the dispatcher does
    to submit a task, gives back that site and the target's own identifier, if
    the site's name has no slash. *)
Theorem fleet_wellformed dial spec r0 r parse_float :
  NewFromSpec dial spec = Ok r0 -> rtc reg_step r0 r ->
  NoDup (TName <$> fleetViews parse_float r) /\
  (forall t, t ∈ fleetViews parse_float r -> t.(TName) <> "" /\
     exists e, e ∈ Entries r /\ t = entryToView parse_float e /\ AdapterClient r e.(ESite) = true /\
       (cut e.(ESite) "/"%char = None -> cut_target t.(TName) = (e.(ESite), e.(ETargetID)))).
Proof.
  intros H0 HR. assert (reg_ok r) as OK.
  { revert HR. apply rtc_invariant; [by eapply NewFromSpec_ok|apply reg_step_ok]. }
  split.
  - unfold fleetViews. rewrite <- list_fmap_compose. by apply Entries_names.
  - intros t (e & -> & He)%list_elem_of_fmap. pose proof He as [k Hk]%elem_of_Entries.
    destruct (OK _ _ Hk) as (En & -> & [addr Ha]). simpl. rewrite En. split.
    + destruct e.(ESite); done.
    + exists e. split_and!; try done.
      * unfold AdapterClient, siteFor. by rewrite Ha.
      * intros Hc. unfold cut_target.
        change ("/" +:+ e.(ETargetID)) with (String "/"%char e.(ETargetID)). by rewrite (cut_append _ _ _ Hc).
Qed.

(** What the scheduler knows of a target does not change when its
    adapter stops answering: with every discovery and poll failing, the views
    stay as they were, a target that was online included. *)
Lemma silent_adapters_keep_views now order r parse_float :
  fleetViews parse_float (poll now (fun _ => None) (discover (fun _ => None) order r))
  = fleetViews parse_float r.
Proof.
  assert (D : discover (fun _ => None) order r = r).
  { unfold discover. by induction order as [|s order IH]. }
  rewrite D. f_equal. unfold poll. induction (Entries r) as [|e l IH]; simpl; [done|].
  unfold poll_one at 2. by destruct (siteFor r e.(ESite)).
Qed.

(** ** A concrete fleet *)

Definition demo_spec : string := "sim=aer:50051, ibm=ibm-host:50052".

Definition demo_answer (site : string) : option (list (TargetInfo * option Capabilities)) :=
  if String.eqb site "sim" then
    Some [(mkTargetInfo "qpu-1" "gate-model" "superconducting",
           Some (mkCapabilities 20 ["openqasm3"] 10000 ["shots"] false ∅))]
  else None.

Definition demo_state (_ : Entry) : option DeviceState :=
  Some (mkDeviceState ONLINE 2 (Some (3 * second)) None []).

Definition demo_registry : Registry := mkRegistry {["sim" := "aer:50051"; "ibm" := "ibm-host:50052"]} ∅.

Definition demo_running : Registry := poll 10 demo_state (discover demo_answer ["sim"; "ibm"] demo_registry).

Lemma demo_running_steps : rtc reg_step demo_registry demo_running.
Proof.
  etrans; [apply (discover_steps demo_answer ["sim"; "ibm"])|apply poll_steps].
  repeat constructor; vm_compute; eauto.
Qed.

Lemma fleet_wellformed_witness :
  TName <$> fleetViews (fun _ => None) demo_running = ["sim/qpu-1"] /\
  NoDup (TName <$> fleetViews (fun _ => None) demo_running).
Proof.
  split; [vm_compute; reflexivity|].
  refine (proj1 (fleet_wellformed (fun _ => None) demo_spec demo_registry demo_running (fun _ => None) _ _)).
  - vm_compute. reflexivity.
  - exact demo_running_steps.
Defined.

(** A site whose name contains a slash is accepted, and its targets are then
    routed to a site that does not exist. *)
Lemma slash_site_misrouted :
  let r := discover (fun _ => Some [(mkTargetInfo "t" "gate-model" "", Some (mkCapabilities 5 [] 0 [] false ∅))])
             ["a/b"] (mkRegistry {["a/b" := "h:1"]} ∅) in
  NewFromSpec (fun _ => None) "a/b=h:1" = Ok (mkRegistry {["a/b" := "h:1"]} ∅) /\
  (TName <$> fleetViews (fun _ => None) r) = ["a/b/t"] /\
  cut_target "a/b/t" = ("a", "b/t") /\ AdapterClient r "a" = false.
Proof. vm_compute. repeat split. Qed.
