(* ===== verification/Operator.v ===== *)
(** * The Kubernetes operator — src/operator/controller, src/operator/api

    One reconciliation of a QuantumJob resource against the control plane of
    [Api].  The reads and writes of the cluster are arguments and results:
    [Reconcile] gets the resource that was read and whether each write
    succeeds, and returns the writes it attempts in order.  A call to the
    control plane can be lost before it runs or lose its reply ([network]).
    [unmarshal] is encoding/json on the resource's raw spec and [new_struct]
    structpb's check of the document; both return the error's text, and
    [error_text] is the text of a gRPC error. *)

From S2P Require Import Prelude Float64 GoLib Phase Database JobStore Tables Lifecycle Auth Admission Api ApiProps.

(** ** types.go *)

Definition TenantAnnotation : string := "tangle.dev/tenant".
Definition Finalizer : string := "tangle.dev/job-finalizer".

Record QuantumJobStatus := mkQJStatus {
  QJobID : string; QPhase : string; QBoundTarget : string; QPlacementReason : string;
  QMessage : string; QSyncedAt : Z }.

Record QuantumJob := mkQuantumJob {
  CRName : string; CRNamespace : string; Annotations : gmap string string; Labels : gmap string string;
  Deleting : bool; Finalizers : list string; SpecRaw : string; CRStatus : QuantumJobStatus }.

Definition with_status (cr : QuantumJob) (st : QuantumJobStatus) : QuantumJob :=
  mkQuantumJob cr.(CRName) cr.(CRNamespace) cr.(Annotations) cr.(Labels) cr.(Deleting) cr.(Finalizers)
    cr.(SpecRaw) st.

Definition with_finalizers (cr : QuantumJob) (l : list string) : QuantumJob :=
  mkQuantumJob cr.(CRName) cr.(CRNamespace) cr.(Annotations) cr.(Labels) cr.(Deleting) l
    cr.(SpecRaw) cr.(CRStatus).

Definition with_job (st : QuantumJobStatus) (id : string) : QuantumJobStatus :=
  mkQJStatus id st.(QPhase) st.(QBoundTarget) st.(QPlacementReason) st.(QMessage) st.(QSyncedAt).

(** Go's [==] on two statuses. *)
Definition status_eqb (a b : QuantumJobStatus) : bool :=
  String.eqb a.(QJobID) b.(QJobID) && String.eqb a.(QPhase) b.(QPhase)
  && String.eqb a.(QBoundTarget) b.(QBoundTarget) && String.eqb a.(QPlacementReason) b.(QPlacementReason)
  && String.eqb a.(QMessage) b.(QMessage) && (a.(QSyncedAt) =? b.(QSyncedAt)).

(** ** document.go *)

Definition tenantFor (cr : QuantumJob) : string :=
  match cr.(Annotations) !! TenantAnnotation with
  | Some t => if String.eqb t "" then cr.(CRNamespace) else t
  | None => cr.(CRNamespace)
  end.

Definition BuildDocument (unmarshal : string -> result string doc) (cr : QuantumJob) : result string doc :=
  if String.eqb cr.(SpecRaw) "" then Err "spec is empty"
  else match unmarshal cr.(SpecRaw) with
  | Err e => Err ("spec is not an object: " +:+ e)
  | Ok spec =>
      let meta := mkdoc [("name", JStr cr.(CRName)); ("tenant", JStr (tenantFor cr))] in
      let meta := if decide (cr.(Labels) = ∅) then meta
                  else <["labels" := JObj (JStr <$> cr.(Labels))]> meta in
      Ok (mkdoc [("apiVersion", JStr "tangle.dev/v1alpha1"); ("kind", JStr "QuantumJob");
                 ("metadata", JObj meta); ("spec", JObj spec)])
  end.

(** [applyJobStatus]; [now] is the clock truncated to the second. *)
Definition applyJobStatus (now : Z) (st : QuantumJobStatus) (pj : ProtoJob) : QuantumJobStatus :=
  let s := pj.(PbStatus) in
  let reason := match as_obj (s !! "placement") with
                | Some placement => str_or_empty (placement !! "reason")
                | None => st.(QPlacementReason)
                end in
  let message := match last (arr_or_nil (s !! "conditions")) with
                 | Some (JObj c) => str_or_empty (c !! "message")
                 | _ => st.(QMessage)
                 end in
  mkQJStatus st.(QJobID) (str_or_empty (s !! "phase")) (str_or_empty (s !! "boundTarget")) reason message now.

(** ** Calls to the control plane *)

Inductive network := Delivered | RequestLost (msg : string) | ReplyLost (msg : string).

(** A gRPC error: a status of the server's, or one of the transport's own. *)
Inductive rpc_error := Remote (st : status) | Unreachable (msg : string).

Definition rpc {A} (n : network) (m : api A) (d : db) : result rpc_error A * db :=
  match n with
  | RequestLost msg => (Err (Unreachable msg), d)
  | ReplyLost msg => (Err (Unreachable msg), (m d).2)
  | Delivered => match m d with (Ok a, d') => (Ok a, d') | (Err st, d') => (Err (Remote st), d') end
  end.

Definition is_code (e : rpc_error) (c : codes -> bool) : bool :=
  match e with Remote st => c st.(StCode) | Unreachable _ => false end.

(** ** reconciler.go *)

(** What the cluster and the network do during one reconciliation, in which
    every call is made at most once. *)
Record weather := mkWeather {
  wList : network; wSubmit : network; wCancel : network; wGet : network;
  wUpdate : option string; wStatusUpdate : option (bool * string) }.

Inductive write := WUpdate (cr : QuantumJob) | WStatus (cr : QuantumJob).

(** Done, to be looked at again in [resyncEvery], or an error. *)
Inductive outcome := Settle | Requeue | Fail_ (msg : string).

Section Reconciler.
Context (unmarshal : string -> result string doc) (new_struct : doc -> option string)
  (schema : doc -> option string) (range : list string -> list string) (fleet : FleetView)
  (canceller : option (string -> db -> result string unit * db)) (error_text : rpc_error -> string).
(** The operator's principal, the clocks, the identifier of a new job. *)
Context (ctx : context) (now : Z) (uuid : string) (w : weather).

(** [r.Status().Update]. *)
Definition status_update (cr : QuantumJob) (ok : outcome) : outcome * list write :=
  match w.(wStatusUpdate) with
  | None => (ok, [WStatus cr])
  | Some (_, msg) => (Fail_ msg, [WStatus cr])
  end.

Definition markMessage (cr : QuantumJob) (message : string) : outcome * list write :=
  let st := cr.(CRStatus) in
  status_update (with_status cr (mkQJStatus st.(QJobID) st.(QPhase) st.(QBoundTarget)
    st.(QPlacementReason) message now)) Settle.

Definition named (name : string) (pj : ProtoJob) : bool :=
  match as_obj (pj.(PbQuantumJob) !! "metadata") with
  | Some meta => match as_str (meta !! "name") with Some n => String.eqb n name | None => false end
  | None => false
  end.

(** [adopt]: the identifier, or "" when the list has none or cannot be had. *)
Definition adopt (tenant name : string) (d : db) : string * db :=
  match rpc w.(wList) (ListJobs_rpc ctx tenant "" "" 200) d with
  | (Err _, d') => ("", d')
  | (Ok resp, d') =>
      (match List.find (named name) resp.(LJobs) with Some pj => pj.(PbJobId) | None => "" end, d')
  end.

Definition submit (cr : QuantumJob) (d : db) : outcome * list write * db :=
  let tenant := tenantFor cr in
  let '(adopted, d) := adopt tenant cr.(CRName) d in
  if negb (String.eqb adopted "") then
    (status_update (with_status cr (with_job cr.(CRStatus) adopted)) Requeue, d)
  else match BuildDocument unmarshal cr with
  | Err e => (markMessage cr ("InvalidSpec: " +:+ e), d)
  | Ok document =>
      match new_struct document with
      | Some e => (markMessage cr ("InvalidSpec: " +:+ e), d)
      | None =>
          match rpc w.(wSubmit) (SubmitJob schema range ctx now uuid (Some document) tenant false fleet) d with
          | (Err e, d) =>
              if is_code e (fun c => match c with InvalidArgument => true | _ => false end)
              then (markMessage cr ("AdmissionRejected: " +:+ error_text e), d)
              else (Fail_ ("submitting job: " +:+ error_text e), [], d)
          | (Ok pj, d) =>
              let st := applyJobStatus now (with_job cr.(CRStatus) pj.(PbJobId)) pj in
              (status_update (with_status cr st) Requeue, d)
          end
      end
  end.

Definition terminal_phase (p : string) : bool := str_in p ["SUCCEEDED"; "FAILED"; "CANCELLED"].

Definition sync (cr : QuantumJob) (d : db) : outcome * list write * db :=
  match rpc w.(wGet) (GetJob_rpc ctx cr.(CRStatus).(QJobID)) d with
  | (Err e, d) =>
      if is_code e (fun c => match c with NotFound => true | _ => false end)
      then (markMessage cr ("JobLost: control plane no longer knows job " +:+ cr.(CRStatus).(QJobID)), d)
      else (Fail_ ("fetching job: " +:+ error_text e), [], d)
  | (Ok pj, d) =>
      let st := applyJobStatus now cr.(CRStatus) pj in
      let final := if terminal_phase st.(QPhase) then Settle else Requeue in
      if status_eqb st cr.(CRStatus) then (final, [], d)
      else match w.(wStatusUpdate) with
           | None => (final, [WStatus (with_status cr st)], d)
           | Some (conflict, msg) =>
               (if conflict then Requeue else Fail_ msg, [WStatus (with_status cr st)], d)
           end
  end.

(** The deletion branch: cancel, then release the finalizer. *)
Definition finalize (cr : QuantumJob) (d : db) : outcome * list write * db :=
  if negb (str_in Finalizer cr.(Finalizers)) then (Settle, [], d)
  else
    let release d :=
      let cr' := with_finalizers cr (List.filter (fun f => negb (String.eqb f Finalizer)) cr.(Finalizers)) in
      (match w.(wUpdate) with None => Settle | Some msg => Fail_ msg end, [WUpdate cr'], d) in
    if String.eqb cr.(CRStatus).(QJobID) "" then release d
    else match rpc w.(wCancel) (CancelJob ctx now cr.(CRStatus).(QJobID) canceller) d with
         | (Err e, d) =>
             if is_code e (fun c => match c with FailedPrecondition | NotFound => true | _ => false end)
             then release d
             else (Fail_ ("cancelling job on delete: " +:+ error_text e), [], d)
         | (Ok _, d) => release d
         end.

(** [Reconcile], given what reading the resource returned: the resource, that
    it is gone, or an error. *)
Definition Reconcile (read : result string (option QuantumJob)) (d : db) : outcome * list write * db :=
  match read with
  | Err e => (Fail_ e, [], d)
  | Ok None => (Settle, [], d)
  | Ok (Some cr) =>
      if cr.(Deleting) then finalize cr d
      else
        let go cr := if String.eqb cr.(CRStatus).(QJobID) "" then submit cr d else sync cr d in
        if str_in Finalizer cr.(Finalizers) then go cr
        else
          let cr' := with_finalizers cr (cr.(Finalizers) ++ [Finalizer]) in
          match w.(wUpdate) with
          | Some msg => (Fail_ msg, [WUpdate cr'], d)
          | None => let '(o, ws, d') := go cr' in (o, WUpdate cr' :: ws, d')
          end
  end.
End Reconciler.

(** ** What a submission leaves in the job table *)

Lemma Admit_document schema range d tenant fleet now adm :
  Admit schema range (Some d) tenant fleet now = Ok adm ->
  adm.(ADoc) = d /\ exists metadata, as_obj (d !! "metadata") = Some metadata /\
    as_str (metadata !! "tenant") = Some adm.(ATenant).
Proof.
  unfold Admit, assert_obj, assert_str, rbind. intros H. repeat case_match; simplify_eq. simpl. eauto.
Qed.

Lemma SubmitJob_effect schema range ctx now uuid document tenant fleet d r d' :
  SubmitJob schema range ctx now uuid (Some document) tenant false fleet d = (r, d') ->
  d'.(jobs) = d.(jobs) \/
  (exists rec metadata, d'.(jobs) !! uuid = Some rec /\ rec.(JobID) = uuid /\ rec.(Doc) = document /\
     as_obj (document !! "metadata") = Some metadata /\ as_str (metadata !! "tenant") = Some rec.(Tenant)).
Proof.
  unfold SubmitJob, abind, alift, acall. destruct (Admit _ _ _ _ _ _) as [adm|] eqn:A; [|intros [= <- <-]; by left].
  apply Admit_document in A as (HD & m & Hm & Ht).
  destruct (CheckProject ctx adm.(ATenant)); [|intros [= <- <-]; by left].
  pose proof (EnsureProject_jobs d now adm.(ATenant)) as [J _].
  destruct (EnsureProject d now adm.(ATenant)) as [[p|e] d1]; simpl in J; [|intros [= <- <-]; by left].
  destruct p.(ArchivedAt); [intros [= <- <-]; by left|].
  destruct (InsertJobWithQuota _ _ _ _) as [[rec|e] d2] eqn:I.
  - apply InsertJobWithQuota_ok in I as (_ & _ & Hj & _ & Hr). simpl in Hj, Hr. intros [= <- <-].
    right. exists rec, m. rewrite Hj, lookup_insert_eq. subst rec. simpl. by split_and!.
  - unfold InsertJobWithQuota in I. apply in_tx_err in I as [-> _]. intros [= <- <-]. by left.
Qed.

(** The document names the resource and its tenant. *)
Lemma BuildDocument_meta unmarshal cr document :
  BuildDocument unmarshal cr = Ok document ->
  exists metadata, as_obj (document !! "metadata") = Some metadata /\
    metadata !! "name" = Some (JStr cr.(CRName)) /\ metadata !! "tenant" = Some (JStr (tenantFor cr)).
Proof.
  unfold BuildDocument. destruct (String.eqb _ _); [done|]. destruct (unmarshal _) as [spec|]; [|done].
  intros [= <-]. eexists. split; [reflexivity|]. case_decide; [by split|].
  rewrite !lookup_insert_ne by done. by split.
Qed.

(** ** Reconciling twice *)

Lemma rpc_state {A} n (m : api A) d : (rpc n m d).2 = d \/ (rpc n m d).2 = (m d).2.
Proof. destruct n; simpl; [|by left|by right]. destruct (m d) as [[]]; by right. Qed.

Lemma ListJobs_rpc_state ctx tenant phase token size d : (ListJobs_rpc ctx tenant phase token size d).2 = d.
Proof.
  unfold ListJobs_rpc, abind, alift, aread, aret. destruct (page_offset token); [|done].
  by destruct (effectiveTenant ctx tenant).
Qed.

Lemma adopt_state ctx w tenant name d : (adopt ctx w tenant name d).2 = d.
Proof.
  unfold adopt. pose proof (rpc_state w.(wList) (ListJobs_rpc ctx tenant "" "" 200) d) as H.
  rewrite ListJobs_rpc_state in H. by destruct (rpc _ _ d) as [[]]; destruct H.
Qed.

Section Twice.
Context (unmarshal : string -> result string doc) (new_struct : doc -> option string)
  (schema : doc -> option string) (range : list string -> list string) (fleet : FleetView)
  (canceller : option (string -> db -> result string unit * db)) (error_text : rpc_error -> string)
  (ctx : context).

Abbreviation reconcile := (Reconcile unmarshal new_struct schema range fleet canceller error_text ctx).

(** Whatever is lost on the way, a resource without a job creates at most the
    one job it is named in. *)
Lemma submit_creates now uuid w cr d o ws d' :
  submit unmarshal new_struct schema range fleet error_text ctx now uuid w cr d = (o, ws, d') ->
  d'.(jobs) = d.(jobs) \/
  (exists rec, d'.(jobs) !! uuid = Some rec /\ rec.(JobID) = uuid /\ rec.(Tenant) = tenantFor cr /\
     named cr.(CRName) (jobToProto rec) = true).
Proof.
  unfold submit. pose proof (adopt_state ctx w (tenantFor cr) cr.(CRName) d) as A.
  destruct (adopt _ _ _ _ d) as [adopted d0]. simpl in A. subst d0.
  destruct (negb _); [intros H; destruct (status_update _ _ _); injection H as _ _ <-; by left|].
  destruct (BuildDocument _ _) as [document|e] eqn:B;
    [|intros H; destruct (markMessage _ _ _ _); injection H as _ _ <-; by left].
  destruct (new_struct document) as [e|]; [intros H; destruct (markMessage _ _ _ _); injection H as _ _ <-; by left|].
  pose proof (rpc_state w.(wSubmit)
    (SubmitJob schema range ctx now uuid (Some document) (tenantFor cr) false fleet) d) as S.
  destruct (rpc _ _ d) as [out d1]. cbn [snd] in S. intros H.
  assert (d' = d1) as ->.
  { destruct out as [pj|e]; [destruct (status_update _ _ _); by injection H|].
    destruct (is_code _ _); [destruct (markMessage _ _ _ _); by injection H|by injection H]. }
  destruct S as [->|S]; [by left|].
  destruct (SubmitJob _ _ _ _ _ _ _ _ _ d) as [r d2] eqn:E. cbn [snd] in S. subst d2.
  apply SubmitJob_effect in E as [E|(rec & m & E1 & E2 & E3 & E4 & E5)]; [by left|right].
  apply BuildDocument_meta in B as (m' & B1 & B2 & B3). rewrite E4 in B1. injection B1 as <-.
  exists rec. split_and!; try done.
  - rewrite B3 in E5. simpl in E5. congruence.
  - unfold named. simpl. rewrite E3, E4, B2. simpl. apply String.eqb_refl.
Qed.

Lemma reconcile_submit now uuid w cr d :
  cr.(Deleting) = false -> cr.(CRStatus).(QJobID) = "" ->
  (exists cr' ws, cr'.(CRName) = cr.(CRName) /\ tenantFor cr' = tenantFor cr /\
     cr'.(CRStatus) = cr.(CRStatus) /\
     let '(o, ws', d') := submit unmarshal new_struct schema range fleet error_text ctx now uuid w cr' d in
     reconcile now uuid w (Ok (Some cr)) d = (o, ws ++ ws', d')) \/
  (w.(wUpdate) <> None /\ (reconcile now uuid w (Ok (Some cr)) d).2 = d).
Proof.
  intros HD HJ. unfold Reconcile. rewrite HD. destruct (str_in Finalizer _).
  - left. exists cr, []. split_and!; try done. rewrite HJ. simpl. by destruct (submit _ _ _ _ _ _ _ _ _ _ cr d) as [[o ws] d'].
  - destruct (w.(wUpdate)) eqn:W; [right; by split|]. left.
    exists (with_finalizers cr (cr.(Finalizers) ++ [Finalizer])), [WUpdate (with_finalizers cr (cr.(Finalizers) ++ [Finalizer]))].
    split_and!; try done. simpl. rewrite HJ. simpl. by destruct (submit _ _ _ _ _ _ _ _ _ _ _ d) as [[o ws] d'].
Qed.

(** A delivered listing in which the resource's job is on the first page ends
    in adopting a job of the resource's tenant and name. *)
Lemma adopt_finds w p tenant name d r :
  Inv d -> d.(jobs) !! "" = None -> ctx = Some p -> p.(PProject) = "" -> w.(wList) = Delivered ->
  tenant <> "" -> r ∈ take 200 (matching d tenant "") -> named name (jobToProto r) = true ->
  exists r', adopt ctx w tenant name d = (r'.(JobID), d) /\ r'.(JobID) <> "" /\
    d.(jobs) !! r'.(JobID) = Some r' /\ r'.(Tenant) = tenant /\ named name (jobToProto r') = true.
Proof.
  intros I H0 -> Hp HW Ht Hr Hn. unfold adopt, rpc. rewrite HW.
  assert (E : effectiveTenant (Some p) tenant = Ok tenant) by (unfold effectiveTenant; simpl; by rewrite Hp).
  pose proof (ListJobs_rpc_run (Some p) tenant tenant "" "" 0 200 d eq_refl E) as L.
  pose proof (ListJobs_rpc_state (Some p) tenant "" "" 200 d) as S.
  destruct (ListJobs_rpc _ _ _ _ _ d) as [out d']. cbn [fst] in L. cbn [snd] in S. subst d' out. cbn [LJobs].
  change (page_size 200) with 200. change (Z.to_nat 200) with 200%nat. change (skipn (Z.to_nat 0) ?l) with l.
  destruct (List.find _ _) as [pj|] eqn:F.
  - apply List.find_some in F as [Hin Hnm]. apply list_elem_of_In, list_elem_of_fmap in Hin as (r' & -> & Hr').
    assert (Hm : r' ∈ matching d tenant "").
    { rewrite <- (firstn_skipn 200 (matching d tenant "")). apply elem_of_app. by left. }
    pose proof (matching_tenant _ _ _ _ Ht Hm) as T.
    unfold matching in Hm. rewrite elem_of_sort_by, list_elem_of_In, List.filter_In in Hm.
    destruct Hm as [Hm _]. apply list_elem_of_In, list_elem_of_fmap in Hm as ([k x] & E' & Hx). simpl in E'. subst x.
    apply elem_of_map_to_list in Hx. destruct (job_of_inv _ _ _ I Hx) as [K _].
    exists r'. split_and!; [done| |by rewrite K|done|done]. rewrite K. intros ->. congruence.
  - exfalso. pose proof (List.find_none _ _ F (jobToProto r)) as N. rewrite Hn in N.
    enough (true = false) by done. apply N.
    apply list_elem_of_In, list_elem_of_fmap. by exists r.
Qed.

(** (C31) The operator does not run a resource's job twice: if a first
    reconciliation created a job, whatever failed after that, its reply and
    the status write included, and the control plane then went on, a second
    one that still sees no job identifier, but whose listing is answered and
    has the job among the tenant's 200 newest, creates nothing and writes the
    identifier of a job with the resource's tenant and name. *)
Theorem no_double_run p cr1 cr2 now1 uuid1 w1 d o1 ws1 d1 d2 now2 uuid2 w2 o2 ws2 d3 :
  ctx = Some p -> p.(PProject) = "" ->
  cr1.(Deleting) = false -> cr1.(CRStatus).(QJobID) = "" -> tenantFor cr1 <> "" ->
  reconcile now1 uuid1 w1 (Ok (Some cr1)) d = (o1, ws1, d1) -> d1.(jobs) <> d.(jobs) ->
  rtc store_step d1 d2 -> reachable d2 -> d2.(jobs) !! "" = None ->
  (forall r, d2.(jobs) !! uuid1 = Some r -> r ∈ take 200 (matching d2 (tenantFor cr1) "")) ->
  cr2.(CRName) = cr1.(CRName) -> tenantFor cr2 = tenantFor cr1 ->
  cr2.(Deleting) = false -> cr2.(CRStatus).(QJobID) = "" ->
  w2.(wList) = Delivered -> w2.(wUpdate) = None ->
  reconcile now2 uuid2 w2 (Ok (Some cr2)) d2 = (o2, ws2, d3) ->
  d3 = d2 /\ exists cr' r, WStatus cr' ∈ ws2 /\ cr'.(CRStatus).(QJobID) = r.(JobID) /\
    d2.(jobs) !! r.(JobID) = Some r /\ r.(Tenant) = tenantFor cr1 /\
    named cr1.(CRName) (jobToProto r) = true.
Proof.
  intros Hc Hp D1 J1 HT R1 N1 Hrun HR H0 Hpage En Et D2 J2 HL HU R2.
  assert (exists rec, d1.(jobs) !! uuid1 = Some rec /\ rec.(JobID) = uuid1 /\ rec.(Tenant) = tenantFor cr1 /\
            named cr1.(CRName) (jobToProto rec) = true) as (rec & E1 & E2 & E3 & E4).
  { destruct (reconcile_submit now1 uuid1 w1 cr1 d D1 J1) as [(cr' & ws & C1 & C2 & _ & H)|[_ H]];
      [|rewrite R1 in H; simpl in H; by subst d1].
    destruct (submit _ _ _ _ _ _ _ _ _ _ cr' d) as [[o ws'] d'] eqn:S. rewrite R1 in H. injection H as _ _ ->.
    apply submit_creates in S as [S|S]; [done|]. by rewrite C1, C2 in S. }
  destruct (run_job _ _ _ _ Hrun E1) as (r' & F1 & F2 & F3 & F4 & _).
  assert (Hn : named cr1.(CRName) (jobToProto r') = true) by (unfold named in *; simpl in *; by rewrite F4).
  destruct (reconcile_submit now2 uuid2 w2 cr2 d2 D2 J2) as [(cr' & ws & C1 & C2 & C3 & H)|[H _]]; [|done].
  destruct (adopt_finds w2 p (tenantFor cr1) cr1.(CRName) d2 r' (reachable_Inv _ HR) H0 Hc Hp HL HT (Hpage _ F1) Hn)
    as (r & A & A1 & A2 & A3 & A4).
  unfold submit in H. rewrite C1, C2, En, Et, A in H. rewrite (proj2 (String.eqb_neq _ _) A1) in H.
  cbn [negb] in H. unfold status_update in H. rewrite R2 in H.
  destruct w2.(wStatusUpdate) as [[c msg]|]; injection H as _ -> ->; (split; [done|]);
    eexists _, r; (split; [apply elem_of_app; right; by left|]); by split_and!.
Qed.
End Twice.

(** ** Deletion *)

Definition gone_or_finished (d : db) (id : string) : Prop :=
  forall r, d.(jobs) !! id = Some r -> Terminal r.(JPhase) = true.

Lemma transition_finishes d now id out d' :
  reachable d -> TransitionJob d now id Cancelled (Some (fun st => appendCondition st cancelled_condition)) = (out, d') ->
  gone_or_finished d' id.
Proof.
  intros R. pose proof (reachable_Inv _ R) as I. unfold TransitionJob, scanJob, in_tx. destruct (d.(jobs) !! id) as [r|] eqn:E.
  - destruct (job_of_inv _ _ _ I E) as [_ V]. cbn [rbind]. destruct (Terminal r.(JPhase)) eqn:T.
    + rewrite (terminal_refuses _ Cancelled V Valid_Cancelled T). intros [= _ <-] x. rewrite E. by intros [= <-].
    + rewrite (cancel_legal _ V T). cbv zeta. rewrite (cancelled_marshals _ (reachable_statuses _ R _ _ E)).
      intros [= _ <-] x. simpl. rewrite lookup_insert_eq. intros [= <-]. phase_eval.
  - intros [= _ <-] x. by rewrite E.
Qed.

(** A cancellation the server accepts, or refuses as late or unknown, leaves
    the job finished or unknown. *)
Lemma CancelJob_finishes ctx now id c d out d' :
  reachable d -> (forall f x r x', c = Some f -> f id x = (r, x') -> rtc store_step x x') ->
  CancelJob ctx now id c d = (out, d') ->
  match out with
  | Ok _ => gone_or_finished d' id
  | Err st => st.(StCode) = FailedPrecondition \/ st.(StCode) = NotFound -> gone_or_finished d' id
  end.
Proof.
  intros R HC. unfold CancelJob, abind. destruct (loadJob ctx id d) as [[rec|st] d1] eqn:L.
  - apply loadJob_ok in L as (_ & _ & _ & ->).
    assert (G : forall d2 out, reachable d2 -> acall (fun d => TransitionJob d now id Cancelled
        (Some (fun st => appendCondition st cancelled_condition)))
        (fun e => match e with
                  | ErrNotFound => mkStatus NotFound ("job " +:+ quote id +:+ " not found")
                  | e => mkStatus FailedPrecondition ("cancel: " +:+ store_message e)
                  end) d2 = out -> gone_or_finished out.2 id).
    { intros d2 o R2 <-. unfold acall. destruct (TransitionJob _ _ _ _ _) as [[r|e] d3] eqn:T; simpl;
        (eapply transition_finishes; [exact R2|exact T]). }
    destruct c as [f|].
    + destruct (f id d) as [[[]|m] d2] eqn:F; [|intros [= <- <-]; by intros [|]].
      specialize (HC f d _ d2 eq_refl F).
      specialize (G d2 _ ltac:(unfold reachable in *; by etrans) eq_refl).
      destruct (acall _ _ d2) as [[r|e] d3]; intros [= <- <-]; [done|by intros _].
    + specialize (G d _ R eq_refl). unfold aret at 1. destruct (acall _ _ d) as [[r|e] d3];
        intros [= <- <-]; [done|by intros _].
  - intros [= <- <-]. unfold loadJob in L. destruct (String.eqb id ""); [injection L as <- <-; by intros [|]|].
    unfold GetJob, scanJob in L. destruct (d.(jobs) !! id) as [r|] eqn:E.
    + unfold abind, alift, CheckProject in L. destruct (FromContext ctx) as [p|]; [|injection L as <- <-; by intros [|]].
      destruct (_ && _); [|done]. injection L as <- <-. by intros [|].
    + injection L as _ <-. intros _ r. by rewrite E.
Qed.

(** (C32) Deleting a resource stops its job: when a reconciliation of a
    resource under deletion that knows its job releases the finalizer, the
    control plane reports the job finished or does not know it. *)
Theorem deletion_stops_job unmarshal new_struct schema range fleet canceller error_text ctx now uuid w cr d ws d' :
  reachable d ->
  (forall f x r x', canceller = Some f -> f cr.(CRStatus).(QJobID) x = (r, x') -> rtc store_step x x') ->
  cr.(Deleting) = true -> Finalizer ∈ cr.(Finalizers) -> cr.(CRStatus).(QJobID) <> "" ->
  Reconcile unmarshal new_struct schema range fleet canceller error_text ctx now uuid w (Ok (Some cr)) d
    = (Settle, ws, d') ->
  gone_or_finished d' cr.(CRStatus).(QJobID).
Proof.
  intros R HC HD HF HJ. unfold Reconcile. rewrite HD. unfold finalize.
  rewrite (proj2 (str_in_elem _ _) HF). cbn [negb]. rewrite (proj2 (String.eqb_neq _ _) HJ).
  unfold rpc. destruct w.(wCancel); [|done|done].
  destruct (CancelJob _ _ _ _ d) as [[pj|st] d1] eqn:C; pose proof (CancelJob_finishes _ _ _ _ _ _ _ R HC C) as G.
  - intros [= _ _ <-]. exact G.
  - unfold is_code. destruct st.(StCode) eqn:SC; try done; intros [= _ _ <-]; apply G; auto.
Qed.

(** ** Concrete reconciliations *)

Definition demo_cr : QuantumJob :=
  mkQuantumJob "bell" "acme" ∅ ∅ false [Finalizer] "{..}" (mkQJStatus "" "" "" "" "" 0).

Definition demo_spec_of (_ : string) : result string doc :=
  match as_obj (demo_document !! "spec") with Some s => Ok s | None => Err "no spec" end.

Definition demo_operator : Principal := mkPrincipal PrincipalToken "6f70" "operator" RoleMember "".

Definition calm : weather := mkWeather Delivered Delivered Delivered Delivered None None.
(** The status write after a submission fails. *)
Definition crash : weather := mkWeather Delivered Delivered Delivered Delivered None (Some (false, "timeout")).
(** Listing the tenant's jobs fails. *)
Definition list_down : weather :=
  mkWeather (RequestLost "unavailable") Delivered Delivered Delivered None None.

Definition demo_reconcile (now : Z) (uuid : string) (w : weather) (cr : QuantumJob) (d : db)
  : outcome * list write * db :=
  Reconcile demo_spec_of (fun _ => None) demo_schema (fun l => l) (mkFleetView [] []) None (fun _ => "")
    (Some demo_operator) now uuid w (Ok (Some cr)) d.

Definition after_crash : db := (demo_reconcile 10 "j1" crash demo_cr empty_db).2.

(** The guard against running twice depends on the listing: [adopt]
    takes a failed [ListJobs] for an empty one, so after a crash between the
    submission and the status write a single failed listing makes the operator
    submit the resource's job a second time. *)
Lemma list_outage_runs_twice :
  let d := (demo_reconcile 20 "j2" list_down demo_cr after_crash).2 in
  (fun r => (r.(JobID), r.(Tenant), r.(JPhase), named "bell" (jobToProto r))) <$> matching d "acme" ""
  = [("j2", "acme", Pending, true); ("j1", "acme", Pending, true)].
Proof. vm_compute. reflexivity. Qed.

(** A resource deleted after that crash is released without cancelling. *)
Lemma deletion_orphans_unknown_job :
  let cr := mkQuantumJob "bell" "acme" ∅ ∅ true [Finalizer] "{..}" (mkQJStatus "" "" "" "" "" 0) in
  let '(o, ws, d) := demo_reconcile 20 "j2" calm cr after_crash in
  o = Settle /\ ws = [WUpdate (with_finalizers cr [])] /\
  (JPhase <$> (matching d "acme" "")) = [Pending].
Proof. vm_compute. repeat split. Qed.

(** A resource created again under the name of a deleted one adopts the job
    that the deletion cancelled, and runs nothing. *)
Lemma recreated_resource_adopts_cancelled :
  let deleted := mkQuantumJob "bell" "acme" ∅ ∅ true [Finalizer] "{..}" (mkQJStatus "j1" "PENDING" "" "" "" 0) in
  let d := (demo_reconcile 20 "j2" calm deleted after_crash).2 in
  let '(_, ws, d') := demo_reconcile 30 "j3" calm demo_cr d in
  ws = [WStatus (with_status demo_cr (with_job demo_cr.(CRStatus) "j1"))] /\
  (JPhase <$> (matching d' "acme" "")) = [Cancelled].
Proof. vm_compute. repeat split. Qed.

Lemma triple_eta {A B C} (x : A * B * C) : x = (x.1.1, x.1.2, x.2).
Proof. by destruct x as [[]]. Qed.

Lemma after_crash_record : exists r, after_crash.(jobs) = {["j1" := r]} /\ matching after_crash "acme" "" = [r].
Proof. eexists. split; vm_compute; reflexivity. Qed.

Lemma after_crash_reachable : reachable after_crash.
Proof.
  assert (E : exists rec costs, rec.(JPhase) = Pending /\
    after_crash = (InsertJobWithQuota (EnsureProject empty_db 10 "acme").2 10 rec costs).2).
  { destruct after_crash_record as (r & Hr & _).
    exists (mkJobRecord "j1" "acme" "bell" Pending
      (match BuildDocument demo_spec_of demo_cr with Ok x => x | Err _ => ∅ end)
      (match after_crash.(jobs) !! "j1" with Some x => x.(Status) | None => ∅ end) 0 0),
      [("shots", f_of_Z 100)]. split; [reflexivity|]. vm_compute. reflexivity. }
  destruct E as (rec & costs & HP & ->).
  eapply rtc_r; [apply rtc_once, step_project|by apply step_insert_quota].
Qed.

Lemma no_double_run_witness :
  exists cr' r, WStatus cr' ∈ (demo_reconcile 20 "j2" calm demo_cr after_crash).1.2 /\
    cr'.(CRStatus).(QJobID) = r.(JobID) /\ after_crash.(jobs) !! r.(JobID) = Some r /\
    r.(Tenant) = "acme" /\ named "bell" (jobToProto r) = true.
Proof.
  refine (proj2 (no_double_run demo_spec_of (fun _ => None) demo_schema (fun l => l) (mkFleetView [] []) None
    (fun _ => "") (Some demo_operator) demo_operator demo_cr demo_cr 10 "j1" crash empty_db _ _ after_crash
    after_crash 20 "j2" calm _ _ _ eq_refl eq_refl eq_refl eq_refl _
    (triple_eta (demo_reconcile 10 "j1" crash demo_cr empty_db)) _ (rtc_refl _ _) after_crash_reachable _ _
    eq_refl eq_refl eq_refl eq_refl eq_refl eq_refl
    (triple_eta (demo_reconcile 20 "j2" calm demo_cr after_crash)))).
  - discriminate.
  - intros H. apply (f_equal (fun m => m !! "j1")) in H. vm_compute in H. discriminate H.
  - vm_compute. reflexivity.
  - intros r Hr. destruct after_crash_record as (r0 & E1 & E2). rewrite E1, lookup_singleton_Some in Hr.
    destruct Hr as [_ <-]. change (tenantFor demo_cr) with "acme". rewrite E2. left.
Defined.

Definition demo_deleted : QuantumJob :=
  mkQuantumJob "bell" "acme" ∅ ∅ true [Finalizer] "{..}" (mkQJStatus "j1" "PENDING" "" "" "" 0).

Lemma deletion_stops_job_witness :
  gone_or_finished (demo_reconcile 20 "j2" calm demo_deleted demo_pending).2 "j1".
Proof.
  apply (deletion_stops_job demo_spec_of (fun _ => None) demo_schema (fun l => l) (mkFleetView [] []) None
    (fun _ => "") (Some demo_operator) 20 "j2" calm demo_deleted demo_pending
    (demo_reconcile 20 "j2" calm demo_deleted demo_pending).1.2).
  - exact demo_pending_reachable.
  - discriminate.
  - reflexivity.
  - left.
  - discriminate.
  - vm_compute. reflexivity.
Defined.
