(* ===== verification/Evidence.v ===== *)
(** * Evidence — cycle metrics, cost records, shadow reports, the benchmark gate, probes

    The parts that turn what the control plane did into numbers:
    src/internal/dispatch/metrics.go, loadtest/stats.go, accounting/normalize.go,
    shadow/report.go, benchgate/gate.go and [analyze] of probe/probe.go.
    [path_match] is [path.Match] ([None] for a bad pattern), [format_float] the
    shortest decimal that parses back, [intn seed i n] the [i]-th draw below
    [n] of a generator seeded with [seed], [parse_float] [strconv.ParseFloat]. *)

From S2P Require Import Prelude Float64 GoLib Phase Database JobStore Tables.

(** ** metrics.go *)

(** The ring: [buf] and the write index, the live samples, the lifetime count. *)
Record cycleRing := mkRing { buf : list Z; next : nat; count : nat; total : Z }.

Definition newCycleRing (size : Z) : cycleRing :=
  mkRing (replicate (Z.to_nat (if size <=? 0 then 8192 else size)) 0) 0 0 0.

Definition record (c : cycleRing) (d : Z) : cycleRing :=
  mkRing (<[c.(next) := d]> c.(buf)) ((c.(next) + 1) mod length c.(buf))
    (if Nat.ltb c.(count) (length c.(buf)) then S c.(count) else c.(count)) (c.(total) + 1).

(** The nearest-rank quantile of a list of durations. *)
Definition quantile (samples : list Z) (q : float64) : Z :=
  let sorted := sort_by Z.ltb samples in
  let n := Z.of_nat (length sorted) in
  if n =? 0 then 0
  else if fle q f0 then nth 0 sorted 0
  else if fle (f_of_Z 1) q then nth (length sorted - 1) sorted 0
  else
    let rank := f_to_int64 (fadd (fmul q (f_of_Z n)) (f_lit 999999 1000000)) in
    let rank := if rank <? 1 then 1 else rank in
    let rank := if n <? rank then n else rank in
    nth (Z.to_nat (rank - 1)) sorted 0.

Definition percentile (c : cycleRing) (q : float64) : Z := quantile (take c.(count) c.(buf)) q.

Definition CycleP50 (c : cycleRing) : Z := percentile c (f_lit 1 2).
Definition CycleP99 (c : cycleRing) : Z := percentile c (f_lit 99 100).
Definition CycleMax (c : cycleRing) : Z := percentile c (f_of_Z 1).

(** ** stats.go: the same quantile over all samples, and their mean *)

Definition Record_ (l : list Z) (d : Z) : list Z := l ++ [d].
Definition Percentile (l : list Z) (q : float64) : Z := quantile l q.
Definition Mean (l : list Z) : Z :=
  match l with
  | [] => 0
  | _ => Z.quot (fold_left (fun t d => wrap64 (t + d)) l 0) (Z.of_nat (length l))
  end.

(** ** normalize.go *)

Record Rate := mkRate { RtUnit : string; RtTarget : string; RtRate : float64 }.
Record Policy := mkCostPolicy { PVersion : string; PCurrency : string; PRates : list Rate }.

Record CostRecord := mkCost {
  CLedgerID : Z; CJobID : string; CTenant : string; CTarget : string; CUnit : string; CAmount : float64;
  CRate : float64; CCost : float64; CCurrency : string; CVersion : string }.

Inductive cost_error := BadYaml (cause : string) | MissingVersion | BadRate | BadGlob (glob : string).

Section Normalize.
Context (path_match : string -> string -> option bool) (format_float : float64 -> string).

Fixpoint check_rates (rates : list Rate) : option cost_error :=
  match rates with
  | [] => None
  | r :: rest =>
      if String.eqb r.(RtUnit) "" || flt r.(RtRate) f0 then Some BadRate
      else if negb (String.eqb r.(RtTarget) "")
              && match path_match r.(RtTarget) "probe" with None => true | Some _ => false end
      then Some (BadGlob r.(RtTarget))
      else check_rates rest
  end.

(** [ParsePolicy]; [yaml] is the strict YAML decoder. *)
Definition ParsePolicy (yaml : string -> result string Policy) (raw : string) : result cost_error Policy :=
  match yaml raw with
  | Err cause => Err (BadYaml cause)
  | Ok p =>
      if String.eqb p.(PVersion) "" || String.eqb p.(PCurrency) "" then Err MissingVersion
      else match check_rates p.(PRates) with Some e => Err e | None => Ok p end
  end.

Fixpoint rate_in (rates : list Rate) (unit_ target : string) : float64 :=
  match rates with
  | [] => f0
  | r :: rest =>
      if negb (String.eqb r.(RtUnit) unit_) then rate_in rest unit_ target
      else if String.eqb r.(RtTarget) "" then r.(RtRate)
      else if default false (path_match r.(RtTarget) target) then r.(RtRate)
      else rate_in rest unit_ target
  end.

Definition rateFor (p : Policy) (unit_ target : string) : float64 := rate_in p.(PRates) unit_ target.

Definition price (p : Policy) (e : LedgerEntry) : CostRecord :=
  let rate := rateFor p e.(LUnit) e.(LTarget) in
  mkCost e.(LID) e.(LJobID) e.(LTenant) e.(LTarget) e.(LUnit) e.(LAmount) rate (fmul e.(LAmount) rate)
    p.(PCurrency) p.(PVersion).

Definition by_ledger (a b : CostRecord) : bool := a.(CLedgerID) <? b.(CLedgerID).

Definition Normalize (entries : list LedgerEntry) (p : Policy) : list CostRecord :=
  sort_by by_ledger (price p <$> entries).

Definition nl : string := String "010"%char "".

Definition csv_line (r : CostRecord) : string :=
  join [itoa r.(CLedgerID); r.(CJobID); r.(CTenant); r.(CTarget); r.(CUnit); format_float r.(CAmount);
        format_float r.(CRate); format_float r.(CCost); r.(CCurrency); r.(CVersion)] "," +:+ nl.

Definition WriteCSV (records : list CostRecord) : string :=
  fold_left (fun out r => out +:+ csv_line r) records
    ("ledger_id,job_id,tenant,target,unit,amount,rate,cost,currency,policy_version" +:+ nl).
End Normalize.

(** ** report.go *)

Definition DefaultQualityFloor : float64 := f_lit 1 2.
Definition MinSamples : Z := 100.

Record Interval := mkInterval { IMean : float64; CILo : float64; CIHi : float64; IN : Z }.

Record Report := mkReport {
  RpPolicy : string; RpActivePolicy : string; RpSamples : Z; AgreementRate : float64;
  QualityFloor : float64; ESPDelta : Interval; SLODelta : Interval; WaitDelta : Interval;
  ActiveESPMean : float64; ShadowESPMean : float64 }.

Definition boolf (b : bool) : float64 := if b then f_of_Z 1 else f0.

Definition mean (xs : list float64) : float64 :=
  match xs with [] => f0 | _ => fdiv (fold_left fadd xs f0) (f_of_Z (Z.of_nat (length xs))) end.

Definition no_interval : Interval := mkInterval f0 f0 f0 0.

Section Shadow.
Context (intn : Z -> nat -> nat -> nat).

(** [B] resamples; sample [b] takes draws [b * n], ..., [b * n + n - 1]. *)
Definition resample (xs : list float64) (seed : Z) (b : nat) : float64 :=
  let n := length xs in
  fdiv (fold_left (fun s i => fadd s (nth (intn seed (b * n + i) n) xs f0)) (seq 0 n) f0) (f_of_Z (Z.of_nat n)).

Definition bootstrap (xs : list float64) (seed : Z) : Interval :=
  match xs with
  | [] => no_interval
  | _ =>
      let means := sort_float64s (resample xs seed <$> seq 0 2000) in
      mkInterval (mean xs) (nth 50 means f0) (nth 1950 means f0) (Z.of_nat (length xs))
  end.

(** The pairs of values present on both sides. *)
Definition paired (a b : ShadowPlacement -> option float64) (l : list ShadowPlacement)
  : list (float64 * float64) :=
  omap (fun p => match a p, b p with Some x, Some y => Some (x, y) | _, _ => None end) l.

Definition Analyze (placements : list ShadowPlacement) (floor : float64) : Report :=
  let floor := if fle floor f0 then DefaultQualityFloor else floor in
  match placements with
  | [] => mkReport "" "" 0 f0 floor no_interval no_interval no_interval f0 f0
  | p0 :: _ =>
      let n := Z.of_nat (length placements) in
      let agreed := Z.of_nat (length (List.filter SPAgreed placements)) in
      let esp := paired SPActiveESP SPShadowESP placements in
      let wait := paired SPActiveWait SPShadowWait placements in
      mkReport p0.(SPPolicy) p0.(SPActivePolicy) n (fdiv (f_of_Z agreed) (f_of_Z n)) floor
        (bootstrap ((fun x => fsub x.2 x.1) <$> esp) 1)
        (bootstrap ((fun x => fsub (boolf (flt x.2 floor)) (boolf (flt x.1 floor))) <$> esp) 2)
        (bootstrap ((fun x => fsub x.2 x.1) <$> wait) 3)
        (mean (fst <$> esp)) (mean (snd <$> esp))
  end.
End Shadow.

Definition ci_text (iv : Interval) : string :=
  fmt_f 4 iv.(IMean) +:+ " (95% CI " +:+ fmt_f 4 iv.(CILo) +:+ ".." +:+ fmt_f 4 iv.(CIHi).

Definition Promotable (r : Report) : bool * list string :=
  let few := r.(ESPDelta).(IN) <? MinSamples in
  let better := fgt r.(ESPDelta).(CILo) f0 in
  let worse := fgt r.(SLODelta).(CILo) f0 in
  (negb few && better && negb worse,
   (if few then ["insufficient evidence: " +:+ itoa r.(ESPDelta).(IN) +:+ " paired samples < "
                   +:+ itoa MinSamples] else [])
   ++ [if better then "fidelity proxy improved: ESP delta " +:+ ci_text r.(ESPDelta) +:+ " > 0)"
       else "no confident fidelity gain: ESP delta " +:+ ci_text r.(ESPDelta) +:+ " includes/below 0)"]
   ++ [if worse then "SLO regression: violation-rate delta " +:+ ci_text r.(SLODelta) +:+ " > 0)"
       else "no SLO regression: violation-rate delta " +:+ ci_text r.(SLODelta) +:+ ")"]).

(** ** gate.go *)

Record Metrics := mkMetrics {
  MPolicy : string; MeanFidelity : float64; SLOViolationRate : float64; DeadlineMetRate : float64;
  MeanWaitS : float64 }.

Record Regression := mkRegression { RgMetric : string; RgBaseline : float64; RgCurrent : float64; RgDetail : string }.

Definition Regression_String (r : Regression) : string :=
  r.(RgMetric) +:+ " regressed: " +:+ fmt_f 4 r.(RgBaseline) +:+ " -> " +:+ fmt_f 4 r.(RgCurrent)
    +:+ " (" +:+ r.(RgDetail) +:+ ")".

Definition slorRose (baseline current threshold : float64) : bool :=
  if flt baseline (f_lit 1 100) then fgt current (fadd baseline (f_lit 5 100))
  else fgt current (fmul baseline (fadd (f_of_Z 1) threshold)).

Definition Check_ (baseline current : Metrics) (threshold : float64) : list Regression :=
  let dropped := "dropped more than " +:+ fmt_f 0 (fmul threshold (f_of_Z 100)) +:+ "%" in
  let fell b c := flt c (fmul b (fsub (f_of_Z 1) threshold)) in
  (if fell baseline.(MeanFidelity) current.(MeanFidelity)
   then [mkRegression "mean_fidelity" baseline.(MeanFidelity) current.(MeanFidelity) dropped] else [])
  ++ (if fell baseline.(DeadlineMetRate) current.(DeadlineMetRate)
      then [mkRegression "deadline_met_rate" baseline.(DeadlineMetRate) current.(DeadlineMetRate) dropped] else [])
  ++ (if slorRose baseline.(SLOViolationRate) current.(SLOViolationRate) threshold
      then [mkRegression "slo_violation_rate" baseline.(SLOViolationRate) current.(SLOViolationRate)
              "more violations"] else []).

(** ** probe.go *)

(** [analyze], with [order] the keys of [counts] in the order ranged over. *)
Definition analyze (order : doc -> list string) (st : doc) : string * float64 * float64 :=
  let target := str_or_empty (st !! "boundTarget") in
  let predicted := match as_obj (st !! "placement") with
                   | Some placement =>
                       match as_obj (placement !! "predicted") with
                       | Some p => default f0 (as_num (p !! "successProbability"))
                       | None => f0
                       end
                   | None => f0
                   end in
  match arr_or_nil (st !! "tasks") with
  | [] => ("", f0, f0)
  | t0 :: _ =>
      let counts := obj_or_nil (obj_or_nil (obj_or_nil (obj_or_nil (Some t0) !! "result") !! "data") !! "counts") in
      let num k := default f0 (as_num (counts !! k)) in
      if decide (counts = ∅) then ("", f0, f0)
      else
        let total := fold_left (fun t k => fadd t (num k)) (order counts) f0 in
        if feq total f0 then ("", f0, f0)
        else
          let ideal k := if str_in k ["00"; "11"] then f_lit 1 2 else f0 in
          let half x := fdiv x (f_of_Z 2) in
          let tvd := fold_left (fun t k => fadd t (half (fabs (fsub (fdiv (num k) total) (ideal k)))))
                       (order counts) f0 in
          let tvd := fold_left (fun t k => match counts !! k with
                                           | Some _ => t | None => fadd t (half (f_lit 1 2)) end)
                       ["00"; "11"] tvd in
          (target, fsub (f_of_Z 1) tvd, predicted)
  end.

(** ** The ring is a window *)

Lemma quantile_perm l1 l2 q : l1 ≡ₚ l2 -> quantile l1 q = quantile l2 q.
Proof.
  intros P. unfold quantile. assert (sort_by Z.ltb l1 = sort_by Z.ltb l2) as ->; [|done].
  assert (A : forall a b, (a <? b) = true -> (b <? a) = false) by (intros; to_prop; apply Z.ltb_ge; lia).
  assert (N : forall a b c, not_after Z.ltb a b -> not_after Z.ltb b c -> not_after Z.ltb a c).
  { unfold not_after. intros a b c H1 H2. apply Z.ltb_ge in H1, H2. apply Z.ltb_ge. lia. }
  apply (sort_by_unique Z.ltb A N).
  - intros a b _ _ H1 H2. apply Z.ltb_ge in H1, H2. lia.
  - by apply sort_by_sorted.
  - by rewrite sort_by_perm.
Qed.

(** The last [n] of a list. *)
Definition last_n {A} (n : nat) (l : list A) : list A := skipn (length l - n) l.

(** While filling, the buffer starts with the history; once full it is the
    window of the last samples, rotated at the write index. *)
Definition ring_inv (s : nat) (h : list Z) (c : cycleRing) : Prop :=
  c.(total) = Z.of_nat (length h) /\
  ((length h < s)%nat /\ c.(count) = length h /\ c.(next) = length h /\
     c.(buf) = h ++ replicate (s - length h) 0 \/
   (s <= length h)%nat /\ c.(count) = s /\
     exists a b, c.(buf) = a ++ b /\ length a = c.(next) /\ (c.(next) < s)%nat /\
       length (a ++ b) = s /\ b ++ a = last_n s h).

Lemma ring_inv_length s h c : ring_inv s h c -> length c.(buf) = s.
Proof.
  intros [_ [(H & _ & _ & ->)|(_ & _ & a & b & -> & _ & _ & L & _)]]; [|done].
  rewrite length_app, length_replicate. lia.
Qed.

Lemma ring_inv_record s h c d : (0 < s)%nat -> ring_inv s h c -> ring_inv s (h ++ [d]) (record c d).
Proof.
  intros Hs I. pose proof (ring_inv_length _ _ _ I) as HL. unfold record. rewrite HL.
  destruct I as [IT [(H & IC & INx & IB)|(H & IC & a & b & IB & IA & INx & IL & IW)]];
    (split; [cbn [total]; rewrite IT, length_app; simpl; lia|]); cbn [count next buf]; rewrite length_app;
    cbn [length].
  - rewrite IC, INx, IB. rewrite (proj2 (Nat.ltb_lt _ _) H).
    replace (s - length h)%nat with (S (s - length h - 1)) by lia. cbn [replicate].
    rewrite insert_app_r_alt, Nat.sub_diag by lia. cbn [insert list_insert].
    destruct (decide (length h + 1 = s)%nat) as [E|E].
    + right. split_and!; [lia|lia|]. exists [], (h ++ [d]). rewrite app_nil_r.
      replace (s - length h - 1)%nat with 0%nat by lia. cbn [replicate].
      rewrite E, Nat.Div0.mod_same. unfold last_n. rewrite length_app. cbn [length].
      replace (length h + 1 - s)%nat with 0%nat by lia. rewrite ?length_app. simpl. split_and!; try done; rewrite ?length_app; simpl; try lia.
      by replace (length h + 1 - s)%nat with 0%nat by lia.
    + left. split_and!; [lia|lia|by rewrite Nat.mod_small by lia; lia|].
      rewrite <- app_assoc. simpl. do 3 f_equal. lia.
  - rewrite IC, Nat.ltb_irrefl. right. split_and!; [lia|done|].
    rewrite length_app in IL. destruct b as [|x b]; [simpl in IL; lia|]. simpl in IL.
    rewrite IB, insert_app_r_alt by lia. replace (next c - length a)%nat with 0%nat by lia.
    cbn [insert list_insert].
    assert (IW' : b ++ a ++ [d] = last_n s (h ++ [d])).
    { unfold last_n in *. rewrite length_app. cbn [length].
      replace (length h + 1 - s)%nat with (S (length h - s)) by lia.
      rewrite drop_app_le by lia. rewrite app_assoc. f_equal.
      replace (S (length h - s)) with ((length h - s) + 1)%nat by lia. rewrite <- drop_drop, <- IW. done. }
    destruct b as [|y b].
    + exists [], (a ++ [d]). simpl in *. replace (next c + 1)%nat with s by lia. rewrite Nat.Div0.mod_same.
      rewrite length_app, app_nil_r. simpl. split_and!; try done; lia.
    + exists (a ++ [d]), (y :: b). simpl in *. rewrite Nat.mod_small by lia.
      rewrite <- app_assoc, !length_app. simpl. split_and!; try done; lia.
Qed.

(** The ring buffer reports on exactly the most recent cycles: after any
    sequence of durations, every percentile is that of the last [size] of
    them, or of all while there are fewer, and the lifetime count is right. *)
Lemma cycleRing_window size h q :
  let c := fold_left record h (newCycleRing size) in
  let s := Z.to_nat (if size <=? 0 then 8192 else size) in
  percentile c q = quantile (last_n s h) q /\ c.(total) = Z.of_nat (length h).
Proof.
  cbv zeta. set (s := Z.to_nat _). assert (Hs : (0 < s)%nat) by (subst s; destruct (Z.leb_spec size 0); lia).
  assert (I : ring_inv s h (fold_left record h (newCycleRing size))).
  { assert (G : forall l h0 c, ring_inv s h0 c -> ring_inv s (h0 ++ l) (fold_left record l c)).
    { induction l as [|d l IH]; intros h0 c H; simpl; [by rewrite app_nil_r|].
      replace (h0 ++ d :: l) with ((h0 ++ [d]) ++ l) by (by rewrite <- app_assoc).
      by apply IH, ring_inv_record. }
    apply (G h []). split; [done|]. left. simpl. rewrite Nat.sub_0_r. by split_and!. }
  split; [|apply I]. unfold percentile. apply quantile_perm. unfold last_n.
  destruct I as [_ [(H & -> & _ & ->)|(H & -> & a & b & -> & _ & _ & L & W)]].
  - rewrite take_app_length. by replace (length h - s)%nat with 0%nat by lia.
  - rewrite <- L, take_ge by lia. rewrite L. unfold last_n in W. rewrite <- W. apply Permutation_app_comm.
Qed.

Lemma NoDup_LID_inj (l : list LedgerEntry) : NoDup (LID <$> l) ->
  forall x y, x ∈ l -> y ∈ l -> LID x = LID y -> x = y.
Proof.
  induction l as [|a l IH]; simpl; [intros _ x y Hx; by apply elem_of_nil in Hx|].
  intros [Hn N]%NoDup_cons x y [->|Hx]%elem_of_cons [->|Hy]%elem_of_cons E; [done| | |by apply IH];
    destruct Hn; [rewrite E|rewrite <- E]; by apply list_elem_of_fmap_2.
Qed.

(** Cost records are a function of the set of ledger rows: whatever the
    order in which the rows are handed over, the priced records and the CSV
    export come out the same. *)
Lemma Normalize_replay path_match format_float p l1 l2 :
  NoDup (LID <$> l1) -> l1 ≡ₚ l2 ->
  Normalize path_match l1 p = Normalize path_match l2 p /\
  WriteCSV format_float (Normalize path_match l1 p) = WriteCSV format_float (Normalize path_match l2 p).
Proof.
  intros N P. enough (Normalize path_match l1 p = Normalize path_match l2 p) as -> by done. unfold Normalize.
  assert (A : forall a b, by_ledger a b = true -> by_ledger b a = false)
    by (unfold by_ledger; intros; to_prop; apply Z.ltb_ge; lia).
  assert (T : forall a b c, not_after by_ledger a b -> not_after by_ledger b c -> not_after by_ledger a c).
  { unfold not_after, by_ledger. intros a b c H1 H2. apply Z.ltb_ge in H1, H2. apply Z.ltb_ge. lia. }
  apply (sort_by_unique by_ledger A T).
  - intros a b (x & -> & Hx)%list_elem_of_fmap (y & -> & Hy)%list_elem_of_fmap H1 H2. f_equal.
    rewrite <- P in Hx, Hy. unfold by_ledger in H1, H2. simpl in H1, H2. apply Z.ltb_ge in H1, H2.
    apply (NoDup_LID_inj l1 N x y Hx Hy). lia.
  - by apply sort_by_sorted.
  - rewrite sort_by_perm. by rewrite P.
Qed.

Lemma Normalize_replay_witness :
  let m (g t : string) := Some (String.eqb g t) in
  let p := mkCostPolicy "v1" "EUR" [mkRate "shots" "" (f_lit 1 2)] in
  let e i := mkLedgerEntry i "j" "t" "u" "site.q" "shots" (f_of_Z 8) 0 in
  (NoDup (LID <$> [e 2; e 1]) /\ [e 2; e 1] ≡ₚ [e 1; e 2]) /\
  Normalize m [e 2; e 1] p = Normalize m [e 1; e 2] p /\
  WriteCSV (fun _ => "4") (Normalize m [e 2; e 1] p) = WriteCSV (fun _ => "4") (Normalize m [e 1; e 2] p).
Proof.
  intros m p e.
  assert (H : NoDup (LID <$> [e 2; e 1]) /\ [e 2; e 1] ≡ₚ [e 1; e 2])
    by (split; [apply (bool_decide_unpack _); vm_compute; exact I|apply Permutation_swap]).
  split; [exact H|]. exact (Normalize_replay m (fun _ => "4") p _ _ (proj1 H) (proj2 H)).
Defined.
