(* ===== verification/Leader.v ===== *)
(** * Leader election — src/internal/ha/leader.go

    Each elector campaigns on a Postgres session of its own for one
    session-level advisory lock.  The lock service is an interface: its laws
    are what Postgres documents of [pg_try_advisory_lock],
    [pg_advisory_unlock] and the end of a session, and [pg_locks] is a table
    that satisfies them.  Sessions can end and messages can be lost at any
    time; the electors tick in any order.  The three actions of [release] are
    steps of their own, between which the other electors run; a tick is one
    step, as the field it writes is false while it waits for the lock. *)

From S2P Require Import Prelude GoLib.

(** ** Advisory locks *)

Class AdvisoryLocks (L : Type) := {
  holder : L -> Z -> option nat;
  try_lock : L -> nat -> Z -> bool * L;
  unlock : L -> nat -> Z -> L;
  end_session : L -> nat -> L }.

Class AdvisoryLockLaws (L : Type) `{AdvisoryLocks L} := {
  try_lock_granted l s k : (try_lock l s k).1 = bool_decide (holder l k = None \/ holder l k = Some s);
  try_lock_holder l s k k' :
    holder (try_lock l s k).2 k' = if decide (k' = k /\ holder l k = None) then Some s else holder l k';
  unlock_other l s k k' : k' <> k \/ holder l k <> Some s -> holder (unlock l s k) k' = holder l k';
  unlock_own l s k : holder (unlock l s k) k = None \/ holder (unlock l s k) k = holder l k;
  end_session_holder l s k :
    holder (end_session l s) k = if decide (holder l k = Some s) then None else holder l k }.

(** ** One elector *)

Definition DefaultLockKey : Z := 0x7261626921.

(** Where the goroutine of [Campaign] is: in its loop, or in the deferred
    [release], past the unlock, past the closing of the session, or at the end. *)
Inductive stage := Campaigning | Unlocked | Closed | Ended.

(** [conn] is the session; [is_] the field [is]. *)
Record Elector := mkElector { key : Z; interval : Z; conn : nat; is_ : bool; at_ : stage }.

Definition NewElector (session : nat) (key interval : Z) : Elector :=
  mkElector (if key =? 0 then DefaultLockKey else key) (if interval <=? 0 then second else interval)
    session false Campaigning.

Definition IsLeader (e : Elector) : bool := e.(is_).

Definition set_ (v : bool) (e : Elector) : Elector :=
  mkElector e.(key) e.(interval) e.(conn) v e.(at_).

Definition move_to (p : stage) (e : Elector) : Elector := mkElector e.(key) e.(interval) e.(conn) e.(is_) p.

(** What happens to a statement on a session that is alive: it is answered,
    or it fails before or after the server ran it. *)
Inductive outcome := Answered | FailedBefore | FailedAfter.

Section Elector.
Context {L : Type} `{AdvisoryLocks L}.

(** The sessions the server has not ended are [live]. *)
Definition reach (live : gset nat) (e : Elector) (io : outcome) : outcome :=
  if decide (e.(conn) ∈ live) then io else FailedBefore.

Definition tryAcquire (l : L) (live : gset nat) (io : outcome) (e : Elector) : L * Elector :=
  match reach live e io with
  | Answered => let '(ok, l') := try_lock l e.(conn) e.(key) in (l', set_ ok e)
  | FailedBefore => (l, set_ false e)
  | FailedAfter => ((try_lock l e.(conn) e.(key)).2, set_ false e)
  end.

(** One tick of [Campaign]; its first attempt is one too, as [is] is false. *)
Definition Campaign_tick (l : L) (live : gset nat) (io : outcome) (e : Elector) : L * Elector :=
  if IsLeader e then
    match reach live e io with Answered => (l, e) | _ => (l, set_ false e) end
  else tryAcquire l live io e.

(** [release], first action: the unlock, which may fail. *)
Definition release_unlock (l : L) (live : gset nat) (io : outcome) (e : Elector) : L * Elector :=
  (if IsLeader e then match reach live e io with FailedBefore => l | _ => unlock l e.(conn) e.(key) end else l,
   move_to Unlocked e).

(** Second action: the closing of the session, which may fail. *)
Definition release_close (l : L) (live : gset nat) (io : outcome) (e : Elector) : L * gset nat * Elector :=
  match reach live e io with
  | FailedBefore => (l, live, move_to Closed e)
  | _ => (end_session l e.(conn), live ∖ {[e.(conn)]}, move_to Closed e)
  end.

(** Third action: [set(false)]. *)
Definition release_set (e : Elector) : Elector := move_to Ended (set_ false e).

(** ** The electors of a deployment and the database server *)

Record sys := mkSys { locks : L; live : gset nat; next_session : nat; electors : list Elector }.

Definition at_elector (s : sys) (i : nat) (l : L) (live : gset nat) (e : Elector) : sys :=
  mkSys l live s.(next_session) (<[i := e]> s.(electors)).

Definition do_tick (s : sys) (i : nat) (io : outcome) (e : Elector) : sys :=
  let '(l, e') := Campaign_tick s.(locks) s.(live) io e in at_elector s i l s.(live) e'.

Definition do_unlock (s : sys) (i : nat) (io : outcome) (e : Elector) : sys :=
  let '(l, e') := release_unlock s.(locks) s.(live) io e in at_elector s i l s.(live) e'.

Definition do_close (s : sys) (i : nat) (io : outcome) (e : Elector) : sys :=
  let '(l, live, e') := release_close s.(locks) s.(live) io e in at_elector s i l live e'.

Definition do_set (s : sys) (i : nat) (e : Elector) : sys := at_elector s i s.(locks) s.(live) (release_set e).

Definition do_end (s : sys) (n : nat) : sys :=
  mkSys (end_session s.(locks) n) (s.(live) ∖ {[n]}) s.(next_session) s.(electors).

Definition do_new (s : sys) (k iv : Z) : sys :=
  mkSys s.(locks) ({[s.(next_session)]} ∪ s.(live)) (S s.(next_session))
    (s.(electors) ++ [NewElector s.(next_session) k iv]).

Inductive lead_step : sys -> sys -> Prop :=
| ls_new s k iv : lead_step s (do_new s k iv)
| ls_tick s i io e :
    s.(electors) !! i = Some e -> e.(at_) = Campaigning -> lead_step s (do_tick s i io e)
| ls_unlock s i io e :
    s.(electors) !! i = Some e -> e.(at_) = Campaigning -> lead_step s (do_unlock s i io e)
| ls_close s i io e :
    s.(electors) !! i = Some e -> e.(at_) = Unlocked -> lead_step s (do_close s i io e)
| ls_set s i e :
    s.(electors) !! i = Some e -> e.(at_) = Closed -> lead_step s (do_set s i e)
| ls_end s n : lead_step s (do_end s n).
End Elector.

Arguments sys L : clear implicits.

(** ** Invariant *)

Section Laws.
Context {L : Type} `{AdvisoryLockLaws L}.

Definition leads (s : sys L) (e : Elector) : Prop :=
  e.(at_) = Campaigning -> IsLeader e = true -> e.(conn) ∈ s.(live) -> holder s.(locks) e.(key) = Some e.(conn).

Record lead_ok (s : sys L) : Prop := {
  lo_holder k n : holder s.(locks) k = Some n -> n ∈ s.(live);
  lo_fresh n : n ∈ s.(live) -> (n < s.(next_session))%nat;
  lo_conn i e : s.(electors) !! i = Some e -> (e.(conn) < s.(next_session))%nat;
  lo_distinct i j e e' :
    s.(electors) !! i = Some e -> s.(electors) !! j = Some e' -> e.(conn) = e'.(conn) -> i = j;
  lo_leads i e : s.(electors) !! i = Some e -> leads s e }.

(** What one elector's move may do to the locks and the sessions of others. *)
Definition minds_its_session (n : nat) (l l' : L) (live live' : gset nat) : Prop :=
  (forall k m, m <> n -> holder l k = Some m <-> holder l' k = Some m) /\
  (forall k, holder l' k = Some n -> n ∈ live') /\ (forall m, m <> n -> m ∈ live <-> m ∈ live') /\ live' ⊆ live.

Lemma lead_ok_update s i e l v e' :
  lead_ok s -> s.(electors) !! i = Some e -> e'.(conn) = e.(conn) ->
  minds_its_session e.(conn) s.(locks) l s.(live) v ->
  leads (at_elector s i l v e') e' -> lead_ok (at_elector s i l v e').
Proof.
  intros [A B C D F] He Hc (M1 & M2 & M3 & M4) HL.
  assert (X : forall j x, (at_elector s i l v e').(electors) !! j = Some x ->
    exists y, s.(electors) !! j = Some y /\ y.(conn) = x.(conn) /\ (j <> i -> x = y)).
  { intros j x. simpl. intros Hj. destruct (decide (j = i)) as [->|N].
    - rewrite list_lookup_insert_eq in Hj by (by eapply lookup_lt_Some). simplify_eq. by exists e.
    - rewrite list_lookup_insert_ne in Hj by done. by exists x. }
  split; simpl.
  - intros k n Hn. destruct (decide (n = e.(conn))) as [->|N]; [by eapply M2|].
    apply (M1 k n N), A in Hn. by apply (M3 n N).
  - intros n Hn. apply B. set_solver.
  - intros j x Hj. destruct (X j x Hj) as (y & Hy & <- & _). by eapply C.
  - intros j1 j2 x1 x2 H1 H2 E. destruct (X _ _ H1) as (y1 & Y1 & E1 & _), (X _ _ H2) as (y2 & Y2 & E2 & _).
    eapply D; [exact Y1|exact Y2|congruence].
  - intros j x Hj. destruct (decide (j = i)) as [->|N].
    + assert (x = e') as -> by (simpl in Hj; rewrite list_lookup_insert_eq in Hj by (by eapply lookup_lt_Some); congruence).
      exact HL.
    + destruct (X j x Hj) as (y & Hy & Ey & E). specialize (E N) as ->.
      intros Hc' HI Hl. simpl in *. assert (NE : y.(conn) <> e.(conn)) by (intros Q; apply N; by eapply D).
      apply (M1 _ _ NE). apply (F j y Hy Hc' HI). by apply (M3 _ NE).
Qed.

Lemma minds_refl s n : lead_ok s -> minds_its_session n s.(locks) s.(locks) s.(live) s.(live).
Proof. intros OK. unfold minds_its_session. split_and!; try done. intros k. apply (lo_holder _ OK). Qed.

Lemma try_lock_minds n l k live :
  (forall k' m, holder l k' = Some m -> m ∈ live) -> n ∈ live -> minds_its_session n l (try_lock l n k).2 live live.
Proof.
  intros A Hn. unfold minds_its_session. split_and!; try done.
  intros k' m N. rewrite try_lock_holder. destruct (decide _) as [[-> E]|]; [|done].
  rewrite E. split; [done|]. intros [= ->]. done.
Qed.

Lemma tryAcquire_ok s i e io :
  lead_ok s -> s.(electors) !! i = Some e -> IsLeader e = false ->
  let '(l, e') := tryAcquire s.(locks) s.(live) io e in lead_ok (at_elector s i l s.(live) e').
Proof.
  intros OK He HI. unfold tryAcquire, reach. destruct (decide (e.(conn) ∈ s.(live))) as [Hl|Hl]; [destruct io|].
  - pose proof (try_lock_minds e.(conn) s.(locks) e.(key) s.(live) (lo_holder _ OK) Hl) as M.
    pose proof (try_lock_granted s.(locks) e.(conn) e.(key)) as G.
    pose proof (try_lock_holder s.(locks) e.(conn) e.(key) e.(key)) as T.
    destruct (try_lock s.(locks) e.(conn) e.(key)) as [ok l']; simpl in *.
    apply (lead_ok_update s i e); try done. unfold leads, IsLeader. cbn. intros _ -> _. symmetry in G. apply bool_decide_eq_true in G.
    rewrite T. destruct (decide _) as [_|N]; [done|]. destruct G as [G|G]; [by destruct N|done].
  - by apply (lead_ok_update s i e).
  - apply (lead_ok_update s i e); try done. apply try_lock_minds; [apply (lo_holder _ OK)|done].
  - apply (lead_ok_update s i e); try done. by apply minds_refl.
Qed.

Lemma do_tick_ok s i io e : lead_ok s -> s.(electors) !! i = Some e -> lead_ok (do_tick s i io e).
Proof.
  intros OK He. unfold do_tick, Campaign_tick. destruct (IsLeader e) eqn:HI.
  - assert (M : minds_its_session e.(conn) s.(locks) s.(locks) s.(live) s.(live)).
    { by apply minds_refl. }
    unfold reach. destruct (decide _); [destruct io|]; apply (lead_ok_update s i e); try done;
      apply (lo_leads _ OK i e He).
  - pose proof (tryAcquire_ok s i e io OK He HI) as T. by destruct (tryAcquire _ _ _ _).
Qed.

Lemma unlock_minds n l k live :
  (forall k' m, holder l k' = Some m -> m ∈ live) -> holder l k = Some n ->
  minds_its_session n l (unlock l n k) live live.
Proof.
  intros A Hk. unfold minds_its_session. split_and!; try done.
  - intros k' m N. destruct (decide (k' = k)) as [->|NK]; [|rewrite unlock_other by (by left); done].
    rewrite Hk. split; [by intros [= ->]|]. intros E. destruct (unlock_own l n k); congruence.
  - intros k' _. by apply A in Hk.
Qed.

Lemma end_session_minds n l live :
  (forall k' m, holder l k' = Some m -> m ∈ live) -> minds_its_session n l (end_session l n) live (live ∖ {[n]}).
Proof.
  intros A. unfold minds_its_session. split_and!.
  - intros k m N. rewrite end_session_holder. destruct (decide _) as [E|]; [|done]. rewrite E. split; [by intros [= ->]|done].
  - intros k. rewrite end_session_holder. by destruct (decide _).
  - set_solver.
  - set_solver.
Qed.

Lemma do_unlock_ok s i io e :
  lead_ok s -> s.(electors) !! i = Some e -> e.(at_) = Campaigning -> lead_ok (do_unlock s i io e).
Proof.
  intros OK He Hc. unfold do_unlock, release_unlock. apply (lead_ok_update s i e); try done.
  destruct (IsLeader e) eqn:HI; [|by apply minds_refl].
  unfold reach. destruct (decide (e.(conn) ∈ s.(live))) as [Hl|Hl]; [|by apply minds_refl].
  destruct io; try (by apply minds_refl); apply unlock_minds; try apply (lo_holder _ OK); by apply (lo_leads _ OK i e He).
Qed.

Lemma do_close_ok s i io e : lead_ok s -> s.(electors) !! i = Some e -> lead_ok (do_close s i io e).
Proof.
  intros OK He. unfold do_close, release_close, reach. pose proof (minds_refl s e.(conn) OK) as M.
  pose proof (end_session_minds e.(conn) s.(locks) s.(live) (lo_holder _ OK)) as M'.
  destruct (decide _); [destruct io|]; by apply (lead_ok_update s i e).
Qed.

Lemma do_set_ok s i e : lead_ok s -> s.(electors) !! i = Some e -> lead_ok (do_set s i e).
Proof. intros OK He. apply (lead_ok_update s i e); try done. by apply minds_refl. Qed.

Lemma lead_step_ok s s' : lead_ok s -> lead_step s s' -> lead_ok s'.
Proof.
  intros OK Hs. destruct Hs as [s k iv|s i io e He _|s i io e He Hc|s i io e He _|s i e He _|s n];
    [|by apply do_tick_ok|by apply do_unlock_ok|by apply do_close_ok|by apply do_set_ok|].
  - destruct OK as [A B C D F].
    assert (X : forall i e, (s.(electors) ++ [NewElector s.(next_session) k iv]) !! i = Some e ->
      s.(electors) !! i = Some e \/ i = length s.(electors) /\ e = NewElector s.(next_session) k iv).
    { intros i e [?|[? ?]]%lookup_app_Some; [by left|right].
      destruct (i - length s.(electors))%nat eqn:Q; simpl in *; [|done]. split; [lia|congruence]. }
    split; simpl.
    + intros k' n Hn%A. apply elem_of_union. by right.
    + intros n Hn. apply elem_of_union in Hn as [->%elem_of_singleton|Hn%B]; lia.
    + intros i e [Hi%C|[_ ->]]%X; simpl; lia.
    + intros i j e e' [Hi|[-> ->]]%X [Hj|[-> ->]]%X E; simpl in *; try done.
      * by eapply D.
      * apply C in Hi. lia.
      * apply C in Hj. lia.
    + intros i e [Hi|[_ ->]]%X; [|done]. intros Hc HI Hl. apply (F i e Hi Hc HI).
      simpl in Hl. apply elem_of_union in Hl as [Q%elem_of_singleton|Hl]; [|done]. apply C in Hi. lia.
  - destruct OK as [A B C D F]. split; simpl; try done.
    + intros k m. rewrite end_session_holder. destruct (decide _); [done|]. intros Hm. apply A in Hm as Hl.
      apply elem_of_difference. split; [done|]. intros ->%elem_of_singleton. done.
    + intros m [Hm%B _]%elem_of_difference. done.
    + intros i e He Hc HI Hl. simpl in *. apply elem_of_difference in Hl as [Hl N].
      rewrite end_session_holder, (F i e He Hc HI Hl). destruct (decide _) as [E|]; [|done]. destruct N. apply elem_of_singleton. congruence.
Qed.

Definition boots (s : sys L) : Prop := s.(electors) = [] /\ s.(live) = ∅ /\ forall k, holder s.(locks) k = None.

Lemma reachable_lead_ok s0 s : boots s0 -> rtc lead_step s0 s -> lead_ok s.
Proof.
  intros (E & V & HN) R. assert (OK : lead_ok s0).
  { split; rewrite ?V; try rewrite E; try done; try set_solver. intros k n. by rewrite HN. }
  clear E V HN. induction R as [|x y z Hs _ IH]; [done|]. apply IH. by eapply lead_step_ok.
Qed.

(** (C40) One leader at a time: in every reachable state, of all the electors
    that believe to lead under one key, at most one still has its session and
    has not unlocked on its way out.  (Past the unlock, until [release] has set
    its field to false, an elector can believe to lead beside its successor:
    [release_window].) *)
Theorem single_leader s0 s i j e e' :
  boots s0 -> rtc lead_step s0 s -> s.(electors) !! i = Some e -> s.(electors) !! j = Some e' ->
  e.(key) = e'.(key) -> IsLeader e = true -> IsLeader e' = true ->
  e.(conn) ∈ s.(live) -> e'.(conn) ∈ s.(live) -> e.(at_) = Campaigning -> e'.(at_) = Campaigning -> i = j.
Proof.
  intros B R He He' K HI HI' Hl Hl' Hc Hc'. pose proof (reachable_lead_ok s0 s B R) as OK.
  pose proof (lo_leads _ OK i e He Hc HI Hl) as H1. pose proof (lo_leads _ OK j e' He' Hc' HI' Hl') as H2.
  rewrite K, H2 in H1. eapply (lo_distinct _ OK); [exact He|exact He'|congruence].
Qed.

(** Failover: once the leader's session has ended, the first standby
    whose tick is answered leads, and its tick is the truth: whoever believes
    to lead right after a tick of its own holds the lock. *)
Lemma failover s0 s n j e io :
  boots s0 -> rtc lead_step s0 s -> s.(electors) !! j = Some e -> e.(at_) = Campaigning -> e.(conn) ∈ s.(live) ->
  let after := do_tick (do_end s n) j io e in
  (holder s.(locks) e.(key) = Some n -> e.(conn) <> n -> IsLeader e = false -> io = Answered ->
     exists e', after.(electors) !! j = Some e' /\ IsLeader e' = true) /\
  (forall e', after.(electors) !! j = Some e' -> IsLeader e' = true ->
     holder after.(locks) e'.(key) = Some e'.(conn)).
Proof.
  intros B R He Hc Hl after.
  assert (OK : lead_ok (do_end s n)) by (eapply lead_step_ok; [by eapply reachable_lead_ok|constructor]).
  pose proof (do_tick_ok (do_end s n) j io e OK He) as OK'. fold after in OK'.
  assert (V : after.(live) = s.(live) ∖ {[n]}).
  { subst after. unfold do_tick. by destruct (Campaign_tick _ _ _ _). }
  assert (X : after.(electors) !! j = Some (Campaign_tick (do_end s n).(locks) (s.(live) ∖ {[n]}) io e).2).
  { subst after. unfold do_tick. simpl. destruct (Campaign_tick _ _ _ _). simpl.
    apply list_lookup_insert_eq. by eapply lookup_lt_Some. }
  split.
  - intros HH N HI ->. eexists. split; [exact X|]. unfold Campaign_tick. rewrite HI. unfold tryAcquire, reach.
    rewrite decide_True by set_solver. simpl. pose proof (try_lock_granted (end_session s.(locks) n) e.(conn) e.(key)) as G.
    rewrite end_session_holder, HH in G. rewrite decide_True in G by done.
    destruct (try_lock _ _ _). simpl in *. by rewrite G.
  - intros e' He' HI. rewrite X in He'. injection He' as <-. apply (lo_leads _ OK' j _ X); [|exact HI|].
    { unfold Campaign_tick, tryAcquire. by repeat case_match; simplify_eq. }
    revert HI. rewrite V. unfold Campaign_tick, tryAcquire, reach. simpl.
    destruct (decide _) as [D|D]; [|by destruct (IsLeader e)].
    destruct (IsLeader e), io; simpl; try done; by destruct (try_lock _ _ _).
Qed.

(** A dead session stays dead, and its elector a standby. *)
Lemma dead_session_step s s' i e :
  lead_ok s -> lead_step s s' -> s.(electors) !! i = Some e -> e.(conn) ∉ s.(live) -> IsLeader e = false ->
  exists e', s'.(electors) !! i = Some e' /\ e'.(conn) ∉ s'.(live) /\ IsLeader e' = false.
Proof.
  intros OK Hs He Hd HI.
  assert (Up : forall l v x j (y : Elector), s.(electors) !! j = Some x -> y.(conn) = x.(conn) -> v ⊆ s.(live) ->
    (j = i -> IsLeader y = false) -> exists e', (at_elector s j l v y).(electors) !! i = Some e' /\
      e'.(conn) ∉ (at_elector s j l v y).(live) /\ IsLeader e' = false).
  { intros l v x j y Hx Hc Hv HL. simpl. destruct (decide (j = i)) as [->|N].
    - exists y. rewrite list_lookup_insert_eq by (by eapply lookup_lt_Some). simplify_eq. rewrite Hc. set_solver.
    - exists e. rewrite list_lookup_insert_ne by done. set_solver. }
  destruct Hs as [s k iv|s j io x Hx _|s j io x Hx _|s j io x Hx _|s j x Hx _|s n].
  - exists e. simpl. rewrite lookup_app_l by (by eapply lookup_lt_Some). split_and!; try done.
    pose proof (lo_conn _ OK i e He). intros [Q%elem_of_singleton|]%elem_of_union; [lia|done].
  - unfold do_tick. assert (T : ((Campaign_tick s.(locks) s.(live) io x).2).(conn) = x.(conn) /\
      (j = i -> IsLeader (Campaign_tick s.(locks) s.(live) io x).2 = false)).
    { unfold Campaign_tick, tryAcquire, reach. split.
      - destruct (IsLeader x), (decide (x.(conn) ∈ s.(live))), io; simpl; try done; by destruct (try_lock _ _ _).
      - intros ->. simplify_eq. rewrite HI. by rewrite decide_False by done. }
    destruct (Campaign_tick _ _ _ _) as [l y]. simpl in T. eapply Up; [exact Hx|apply T|done|apply T].
  - eapply Up; [exact Hx|done|done|]. intros ->. simplify_eq. exact HI.
  - unfold do_close, release_close, reach. destruct (decide _); [destruct io|]; (eapply Up; [exact Hx|done|set_solver|]);
      intros ->; simplify_eq; exact HI.
  - by eapply Up.
  - exists e. simpl. set_solver.
Qed.

Lemma dead_session_run s s' i :
  rtc lead_step s s' -> lead_ok s ->
  (exists e, s.(electors) !! i = Some e /\ e.(conn) ∉ s.(live) /\ IsLeader e = false) ->
  exists e', s'.(electors) !! i = Some e' /\ IsLeader e' = false.
Proof.
  induction 1 as [s|s t u Hs _ IH]; intros OK (e & He & Hd & HI); [by exists e|].
  apply IH; [by eapply lead_step_ok|]. by eapply dead_session_step.
Qed.

(** A lost session is never replaced: when the session of an elector has
    ended, then from its next tick on it is a standby for ever, however often
    it ticks and even while nobody holds the lock.  [Campaign] keeps calling
    [tryAcquire] on the connection it was created with; after an outage that
    ends every session, no running process leads again. *)
Lemma lost_session_never_leads s0 s i io e s' :
  boots s0 -> rtc lead_step s0 s -> s.(electors) !! i = Some e -> e.(at_) = Campaigning -> e.(conn) ∉ s.(live) ->
  rtc lead_step (do_tick s i io e) s' ->
  exists e', s'.(electors) !! i = Some e' /\ IsLeader e' = false.
Proof.
  intros B R He Hst Hd R'. pose proof (reachable_lead_ok s0 s B R) as OK.
  eapply dead_session_run; [exact R'|by apply do_tick_ok|]. exists (set_ false e).
  unfold do_tick, Campaign_tick, tryAcquire, reach. rewrite decide_False by done.
  destruct (IsLeader e); simpl; (rewrite list_lookup_insert_eq by (by eapply lookup_lt_Some)); done.
Qed.
End Laws.

(** ** A lock table: key to holding session and hold count *)

Abbreviation pg_locks := (gmap Z (nat * nat)).

#[export] Instance pg_advisory : AdvisoryLocks pg_locks := {
  holder l k := fst <$> l !! k;
  try_lock l s k :=
    match l !! k with
    | None => (true, <[k := (s, 1%nat)]> l)
    | Some (s', n) => if decide (s' = s) then (true, <[k := (s, S n)]> l) else (false, l)
    end;
  unlock l s k :=
    match l !! k with
    | Some (s', S (S n)) => if decide (s' = s) then <[k := (s, S n)]> l else l
    | Some (s', _) => if decide (s' = s) then delete k l else l
    | None => l
    end;
  end_session l s := filter (fun kv => kv.2.1 <> s) l }.

#[export] Instance pg_laws : AdvisoryLockLaws pg_locks.
Proof.
  split; intros l s k; simpl.
  - destruct (l !! k) as [[s' n]|]; simpl; [|done]. destruct (decide (s' = s)) as [->|N]; simpl;
      symmetry; [apply bool_decide_eq_true; by right|apply bool_decide_eq_false]. intros [?|[= ?]]; done.
  - intros k'. destruct (l !! k) as [[s' n]|] eqn:E; simpl; [destruct (decide (s' = s)) as [->|N]; simpl|].
    + destruct (decide (k' = k)) as [->|Q]; [rewrite lookup_insert_eq, E|rewrite lookup_insert_ne by done];
        by destruct (decide _) as [[??]|].
    + by destruct (decide _) as [[??]|].
    + destruct (decide (k' = k)) as [->|Q]; [rewrite lookup_insert_eq|rewrite lookup_insert_ne by done];
        destruct (decide _) as [[??]|N]; try done. by destruct N.
  - intros k' H. destruct (l !! k) as [[s' [|[|n]]]|] eqn:E; simpl; try done; destruct (decide (s' = s)) as [->|]; try done;
      (destruct H as [H|[]]; [|done]); (rewrite lookup_delete_ne by done) || (rewrite lookup_insert_ne by done); done.
  - destruct (l !! k) as [[s' [|[|n]]]|] eqn:E; simpl; try (by rewrite E; right);
      (destruct (decide (s' = s)) as [->|]; [|by rewrite E; right]).
    + left. by rewrite lookup_delete_eq.
    + left. by rewrite lookup_delete_eq.
    + right. by rewrite lookup_insert_eq.
  - destruct (l !! k) as [[s' n]|] eqn:E; simpl.
    + destruct (decide (Some s' = Some s)) as [[= ->]|N].
      * rewrite map_lookup_filter, E. simpl. case_guard; done.
      * rewrite map_lookup_filter, E. simpl. case_guard; [done|congruence].
    + rewrite map_lookup_filter, E. done.
Qed.

(** ** Two electors and the loss of the first one's session *)

Definition boot : sys pg_locks := mkSys ∅ ∅ 0 [].
Definition born : sys pg_locks := do_new (do_new boot 0 0) 0 0.
Definition led : sys pg_locks := do_tick born 0 Answered (NewElector 0 0 0).
Definition two : sys pg_locks := do_tick led 1 Answered (NewElector 1 0 0).
Definition first_leader : Elector := set_ true (NewElector 0 0 0).

Example one_leads : IsLeader <$> two.(electors) = [true; false].
Proof. reflexivity. Qed.

Lemma boot_boots : boots boot.
Proof. done. Qed.

Lemma two_reachable : rtc lead_step boot two.
Proof.
  apply (rtc_l _ _ (do_new boot 0 0)); [constructor|]. apply (rtc_l _ _ born); [constructor|].
  apply (rtc_l _ _ led); [by apply ls_tick|]. apply rtc_once. by apply ls_tick.
Qed.

Lemma single_leader_witness :
  two.(electors) !! 0%nat = Some first_leader /\ 0%nat = 0%nat.
Proof.
  split; [reflexivity|].
  apply (single_leader boot two 0 0 first_leader first_leader boot_boots two_reachable eq_refl eq_refl eq_refl
           eq_refl eq_refl); vm_compute; reflexivity.
Defined.

(** The window of [release]: the first leader has unlocked and not yet closed
    its session, the other elector has acquired the lock, and both believe to
    lead on a live session. *)
Lemma release_window :
  exists s e e', rtc lead_step boot s /\ s.(electors) !! 0%nat = Some e /\ s.(electors) !! 1%nat = Some e' /\
    e.(key) = e'.(key) /\ IsLeader e = true /\ IsLeader e' = true /\ e.(conn) ∈ s.(live) /\ e'.(conn) ∈ s.(live).
Proof.
  set (u := do_unlock two 0 Answered first_leader).
  exists (do_tick u 1 Answered (NewElector 1 0 0)), (move_to Unlocked first_leader), (set_ true (NewElector 1 0 0)).
  split_and!; try (vm_compute; reflexivity).
  etrans; [exact two_reachable|]. apply (rtc_l _ _ u); [by apply ls_unlock|]. apply rtc_once. by apply ls_tick.
Qed.

(** The window closes: whatever happens in between, the elector's own next two
    actions end its session, if it can be reached, and its leadership. *)
Lemma release_ends {L} `{AdvisoryLocks L} (l : L) live io e :
  let '(_, live', e') := release_close l live io e in
  IsLeader (release_set e') = false /\ (io <> FailedBefore -> e.(conn) ∉ live').
Proof.
  unfold release_close, reach. destruct (decide (e.(conn) ∈ live)) as [D|D]; [destruct io|]; simpl; (split; [done|]); set_solver.
Qed.

Lemma failover_witness :
  holder two.(locks) DefaultLockKey = Some 0%nat /\
  exists e', (do_tick (do_end two 0) 1 Answered (NewElector 1 0 0)).(electors) !! 1%nat = Some e' /\ IsLeader e' = true.
Proof.
  split; [reflexivity|].
  refine (proj1 (failover boot two 0 1 (NewElector 1 0 0) Answered boot_boots two_reachable eq_refl eq_refl _)
            eq_refl _ eq_refl eq_refl); [vm_compute; reflexivity|discriminate].
Defined.

Lemma lost_session_never_leads_witness :
  let t := do_tick (do_end two 0) 0 Answered first_leader in
  (first_leader.(conn) ∉ (do_end two 0).(live)) /\
  exists e', (do_tick t 0 Answered (set_ false first_leader)).(electors) !! 0%nat = Some e' /\ IsLeader e' = false.
Proof.
  assert (D : first_leader.(conn) ∉ (do_end two 0).(live)) by (apply (bool_decide_unpack _); vm_compute; exact I).
  split; [exact D|].
  apply (lost_session_never_leads boot (do_end two 0) 0 Answered first_leader).
  - exact boot_boots.
  - etrans; [exact two_reachable|]. apply rtc_once, ls_end.
  - reflexivity.
  - reflexivity.
  - exact D.
  - apply rtc_once. by apply ls_tick.
Defined.
