(* ===== verification/Adapter.v ===== *)
(** * The in-memory adapter — src/internal/adaptertest/fake.go

    The adapter the control plane is tested against, as a state machine: its
    RPCs are atomic steps (each holds the mutex), the goroutine [advance] of
    every task is two further steps, and time is part of the state.  A
    dereference of a nil task would kill the process; it is [None] here.
    [GetTask] and [WatchTask] read a status through a pointer after they have
    released the mutex: they are relations that take the adapter from the state
    of the lookup to that of the last read.  The lookup of [CancelTask] and what
    it does under its second lock are one step. *)

From S2P Require Import Prelude Float64 GoLib Auth Prog.

(** ** Messages (generated protobuf types, the fields this code reads) *)

Inductive State := STATE_UNSPECIFIED | QUEUED | RUNNING | SUCCEEDED | FAILED | CANCELLED.

#[export] Instance State_eq_dec : EqDecision State.
Proof. solve_decision. Defined.

Record UsageRecord := mkUsage { UUnit : string; UAmount : float64; URecordedAt : option Z }.

Record Status := mkState {
  StState : State; StUpdatedAt : Z; StResult : option Result_; StUsage : list UsageRecord;
  StError : option ErrorDetail }.

Record TaskHandle := mkHandle { HTarget : string; HTask : string }.
Record SessionHandle := mkSession { ShTarget : string; ShSession : string; ShExpiresAt : option Z }.

Record Metric := mkMetric {
  MetName : string; MetValue : float64; MetQubits : list Z; MetMethodology : string }.
Record Snapshot := mkSnapshot {
  SnSnapshotId : string; SnMeasuredAt : option Z; SnSource : string; SnMetrics : list Metric }.
Record DeviceState := mkDevice {
  DvTarget : string; DvOnline : bool; DvEstimatedWait : Z; DvCalibration : option Snapshot; DvObservedAt : Z }.

Record TargetInfo := mkInfo {
  InTargetId : string; InDisplayName : string; InVendor : string; InModality : string; InTechnology : string;
  InSimulator : bool }.
Record Capabilities := mkCaps {
  CpTarget : TargetInfo; CpNumQubits : Z; CpFormats : list string; CpMaxShots : Z; CpCancellation : bool;
  CpSessions : bool; CpBilling : list string; CpCouplingClass : string; CpCloudQueue : bool }.

(** ** State *)

Record TargetSpec := mkSpec {
  ID : string; Qubits : Z; Formats : list string; MaxShots : Z; SnapshotID : string; Metrics : list Metric;
  FailWith : option ErrorDetail; IgnoreMaxShots : bool; BrokenSessions : bool; StepDelay : Z }.

Record task := mkTask {
  tk_status : Status; tk_cancel : bool; tk_failWith : option ErrorDetail; tk_key : string }.

Definition fakeTaskCap : Z := 8192.

Record Fake := mkFake {
  targets : gmap string TargetSpec; tasks : gmap string task; byKey : gmap string string; order : list string;
  nextID : nat; sessions : gset string; garbage : bool }.

Definition set_tasks (ts : gmap string task) (f : Fake) : Fake :=
  mkFake f.(targets) ts f.(byKey) f.(order) f.(nextID) f.(sessions) f.(garbage).

Definition SetGarbage (on : bool) (f : Fake) : Fake :=
  mkFake f.(targets) f.(tasks) f.(byKey) f.(order) f.(nextID) f.(sessions) on.

Definition AddSession (id : string) (f : Fake) : Fake :=
  mkFake f.(targets) f.(tasks) f.(byKey) f.(order) f.(nextID) ({[id]} ∪ f.(sessions)) f.(garbage).

(** ** New *)

Definition millisecond : Z := 1000000.

Definition default_metrics : list Metric :=
  [mkMetric "gate.2q.cx.error" (f_lit 5 1000) [0; 1] "synthetic-fixture";
   mkMetric "readout.error" (f_lit 1 100) [0] "synthetic-fixture"].

Definition with_defaults (s : TargetSpec) : TargetSpec :=
  mkSpec s.(ID) s.(Qubits) s.(Formats) (if s.(MaxShots) =? 0 then 100000 else s.(MaxShots))
    (if String.eqb s.(SnapshotID) "" then "fake-snap-1" else s.(SnapshotID))
    (match s.(Metrics) with [] => default_metrics | _ => s.(Metrics) end)
    s.(FailWith) s.(IgnoreMaxShots) s.(BrokenSessions)
    (if s.(StepDelay) =? 0 then 10 * millisecond else s.(StepDelay)).

Definition New (specs : list TargetSpec) : Fake :=
  mkFake (fold_left (fun m s => <[s.(ID) := with_defaults s]> m) specs ∅) ∅ ∅ [] 0 ∅ false.

(** ** RPCs *)

Definition targetInfo (id : string) : TargetInfo :=
  mkInfo id ("Fake " +:+ id) "adaptertest" "gate-model" "simulator" true.

Definition not_served (id : string) : status := mkStatus NotFound ("target " +:+ quote id +:+ " not served here").

Definition spec (f : Fake) (id : string) : result status TargetSpec :=
  match f.(targets) !! id with Some s => Ok s | None => Err (not_served id) end.

(** [ListTargets]; [range] is the order in which the map is ranged over. *)
Definition ListTargets (range : gmap string TargetSpec -> list string) (f : Fake) : list TargetInfo :=
  targetInfo <$> range f.(targets).

Definition GetCapabilities (f : Fake) (id : string) : result status Capabilities :=
  let? s := spec f id in
  Ok (mkCaps (targetInfo s.(ID)) s.(Qubits) s.(Formats) s.(MaxShots) true true ["shots"; "tasks"] "loose" false).

(** [OpenSession] at time [now] for [maxDuration] nanoseconds. *)
Definition OpenSession (f : Fake) (now : Z) (target : string) (maxDuration : Z)
  : result status SessionHandle * Fake :=
  let broken := match spec f target with Ok s => s.(BrokenSessions) | Err _ => false end in
  if broken then (Err (mkStatus Unimplemented "sessions declared but not implemented (self-test fixture)"), f)
  else
    let n := S f.(nextID) in
    let id := "fake-sess-" +:+ itoa (Z.of_nat n) in
    let exp := if maxDuration <=? 0 then now + hour else now + maxDuration in
    (Ok (mkSession target id (Some exp)),
     mkFake f.(targets) f.(tasks) f.(byKey) f.(order) n ({[id]} ∪ f.(sessions)) f.(garbage)).

Definition CloseSession (f : Fake) (handle : SessionHandle) : Fake :=
  mkFake f.(targets) f.(tasks) f.(byKey) f.(order) f.(nextID) (f.(sessions) ∖ {[handle.(ShSession)]}) f.(garbage).

Definition GetDeviceState (f : Fake) (now : Z) (id : string) : result status DeviceState :=
  let? s := spec f id in
  Ok (mkDevice s.(ID) true (2 * second)
        (Some (mkSnapshot s.(SnapshotID) (Some now) "adaptertest" s.(Metrics))) now).

(** [bytes.Contains]. *)
Fixpoint contains (s sub : string) : bool :=
  String.prefix sub s || match s with "" => false | String _ s' => contains s' sub end.

Definition isTerminalState (s : State) : bool :=
  match s with SUCCEEDED | FAILED | CANCELLED => true | _ => false end.

(** The task that goes, when its turn comes in the loop of [evictTerminal]:
    a terminal one, while [target] of them have to go. *)
Definition evictable (target : nat) (id : string) (f : Fake) : option (task * nat) :=
  match f.(tasks) !! id, target with
  | Some t, S target' => if isTerminalState t.(tk_status).(StState) then Some (t, target') else None
  | _, _ => None
  end.

Definition drop_task (id : string) (t : task) (f : Fake) : Fake :=
  mkFake f.(targets) (delete id f.(tasks)) (delete t.(tk_key) f.(byKey)) f.(order) f.(nextID) f.(sessions) f.(garbage).

Fixpoint evict_loop (target : nat) (ids : list string) (f : Fake) : list string * Fake :=
  match ids with
  | [] => ([], f)
  | id :: rest =>
      match evictable target id f with
      | Some (t, target') => evict_loop target' rest (drop_task id t f)
      | None => let '(kept, f') := evict_loop target rest f in (id :: kept, f')
      end
  end.

Definition evictTerminal (f : Fake) : Fake :=
  let n := Z.of_nat (length f.(order)) in
  if n <=? fakeTaskCap then f
  else let '(kept, f') := evict_loop (Z.to_nat (n - fakeTaskCap)) f.(order) f in
       mkFake f'.(targets) f'.(tasks) f'.(byKey) kept f'.(nextID) f'.(sessions) f'.(garbage).

(** Why the task will fail, decided at submission. *)
Definition submit_verdict (f : Fake) (s : TargetSpec) (req : SubmitTaskRequest) : option ErrorDetail :=
  if negb (str_in req.(PayloadFormat) s.(Formats)) then
    Some (mkErrorDetail "CAPABILITY_MISMATCH" false "" "undeclared program format")
  else if negb (String.eqb req.(SubSession) "") && negb (bool_decide (req.(SubSession) ∈ f.(sessions))) then
    Some (mkErrorDetail "SESSION_LOST" true "" "unknown or closed session")
  else if contains req.(PayloadInline) "not a program" then
    Some (mkErrorDetail "INVALID_PROGRAM" false "" "unparseable program")
  else if (0 <? s.(MaxShots)) && (s.(MaxShots) <? req.(SubShots)) && negb s.(IgnoreMaxShots) then
    Some (mkErrorDetail "CAPABILITY_MISMATCH" false "" "shots above declared max_shots")
  else None.

Definition task_key (s : TargetSpec) (req : SubmitTaskRequest) : string :=
  s.(ID) +:+ "/" +:+ req.(IdempotencyKey).

(** [SubmitTask] at time [now]; with a new task comes its goroutine, as the
    spec, task and shots it runs on. *)
Definition SubmitTask (f : Fake) (now : Z) (req : SubmitTaskRequest)
  : result status TaskHandle * Fake * option (TargetSpec * string * Z) :=
  match spec f req.(SubTarget) with
  | Err e => (Err e, f, None)
  | Ok s =>
      if String.eqb req.(IdempotencyKey) "" then
        (Err (mkStatus InvalidArgument "idempotency_key is required"), f, None)
      else
        match f.(byKey) !! task_key s req with
        | Some id => (Ok (mkHandle s.(ID) id), f, None)
        | None =>
            let n := S f.(nextID) in
            let id := "fake-task-" +:+ itoa (Z.of_nat n) in
            let tk := mkTask (mkState QUEUED now None [] None) false (submit_verdict f s req) (task_key s req) in
            let f' := mkFake f.(targets) (<[id := tk]> f.(tasks)) (<[task_key s req := id]> f.(byKey))
                        (f.(order) ++ [id]) n f.(sessions) f.(garbage) in
            (Ok (mkHandle s.(ID) id), evictTerminal f', Some (s, id, req.(SubShots)))
        end
  end.

Definition task_not_found (id : string) : status := mkStatus NotFound ("task " +:+ quote id +:+ " not found").

Definition getTask (f : Fake) (id : string) : result status task :=
  match f.(tasks) !! id with Some tk => Ok tk | None => Err (task_not_found id) end.

Definition CancelTask (f : Fake) (id : string) : result status bool * Fake :=
  match getTask f id with
  | Err e => (Err e, f)
  | Ok tk =>
      if isTerminalState tk.(tk_status).(StState) then (Ok false, f)
      else (Ok true, set_tasks (<[id := mkTask tk.(tk_status) true tk.(tk_failWith) tk.(tk_key)]> f.(tasks)) f)
  end.

(** ** The goroutine of a task *)

Definition set_state (st : State) (s : Status) : Status :=
  mkState st s.(StUpdatedAt) s.(StResult) s.(StUsage) s.(StError).

Definition touch (now : Z) (s : Status) : Status :=
  mkState s.(StState) now s.(StResult) s.(StUsage) s.(StError).

Definition with_status (tk : task) (s : Status) : task := mkTask s tk.(tk_cancel) tk.(tk_failWith) tk.(tk_key).

(** [step mut]: [None] is the nil dereference, [false] the end of the goroutine. *)
Definition step (now : Z) (id : string) (mut : Status -> Status) (f : Fake) : option (bool * Fake) :=
  match f.(tasks) !! id with
  | None => None
  | Some tk =>
      if isTerminalState tk.(tk_status).(StState) then Some (false, f)
      else if tk.(tk_cancel) then
        Some (false, set_tasks (<[id := with_status tk (touch now (set_state CANCELLED tk.(tk_status)))]> f.(tasks)) f)
      else Some (true, set_tasks (<[id := with_status tk (touch now (mut tk.(tk_status)))]> f.(tasks)) f)
  end.

Definition fail_with (e : ErrorDetail) (s : Status) : Status :=
  mkState FAILED s.(StUpdatedAt) s.(StResult) s.(StUsage) (Some e).

(** [json.Marshal] of the counts: half of the shots each, as [int]s. *)
Definition half_counts (shots : Z) : Z * Z :=
  let n := wrap64 shots in (Z.quot n 2, wrap64 (n - Z.quot n 2)).

Definition dq : string := String dquote "".
Definition counts_json (shots : Z) : string :=
  let '(a, b) := half_counts shots in
  "{" +:+ dq +:+ "counts" +:+ dq +:+ ":{" +:+ dq +:+ "00" +:+ dq +:+ ":" +:+ itoa a +:+ "," +:+ dq +:+ "11" +:+ dq +:+ ":"
    +:+ itoa b +:+ "}}".

Definition garbage_bytes : string :=
  String "000"%char (String "255"%char (" not json at all " +:+ String "254"%char "")).

(** The second step's mutation, of the task's own failure, the target's
    [FailWith], the garbage mode and the shots. *)
Definition finish (s : TargetSpec) (failWith : option ErrorDetail) (garbage : bool) (shots now : Z) (st : Status)
  : Status :=
  match failWith, s.(FailWith) with
  | Some e, _ => fail_with e st
  | None, Some e => fail_with e st
  | None, None =>
      mkState SUCCEEDED st.(StUpdatedAt)
        (Some (mkResult "counts-json" (if garbage then garbage_bytes else counts_json shots) ""))
        [mkUsage "shots" (f_of_Z shots) (Some now); mkUsage "tasks" f1 (Some now)] st.(StError)
  end.

Definition advance1 (now : Z) (id : string) (f : Fake) : option (bool * Fake) := step now id (set_state RUNNING) f.

Definition advance2 (s : TargetSpec) (shots now : Z) (id : string) (f : Fake) : option (bool * Fake) :=
  step now id (finish s (match f.(tasks) !! id with Some tk => tk.(tk_failWith) | None => None end) f.(garbage) shots now) f.

(** ** The running adapter

    [clock] is the time; every goroutine sleeps until [g_wake] before its next
    step and then runs within [slack], which bounds the scheduling latency:
    time does not pass a goroutine that is overdue. *)
Record routine := mkRoutine { g_spec : TargetSpec; g_id : string; g_shots : Z; g_second : bool; g_wake : Z }.

Record adapter := mkAdapter { clock : Z; fake : Fake; routines : list routine }.

(** The next step of a routine; it ends or sleeps again. *)
Definition advance (now : Z) (g : routine) (f : Fake) : option (list routine * Fake) :=
  if g.(g_second) then
    match advance2 g.(g_spec) g.(g_shots) now g.(g_id) f with
    | None => None
    | Some (_, f') => Some ([], f')
    end
  else
    match advance1 now g.(g_id) f with
    | None => None
    | Some (true, f') => Some ([mkRoutine g.(g_spec) g.(g_id) g.(g_shots) true (now + g.(g_spec).(StepDelay))], f')
    | Some (false, f') => Some ([], f')
    end.

(** [SubmitTask] on the running adapter starts the goroutine. *)
Definition do_submit (a : adapter) (req : SubmitTaskRequest) : result status TaskHandle * adapter :=
  let '(r, f, g) := SubmitTask a.(fake) a.(clock) req in
  (r, mkAdapter a.(clock) f
        (a.(routines) ++ match g with
                         | Some (s, id, shots) => [mkRoutine s id shots false (a.(clock) + s.(StepDelay))]
                         | None => []
                         end)).

Definition on_fake (h : Fake -> Fake) (a : adapter) : adapter := mkAdapter a.(clock) (h a.(fake)) a.(routines).

(** ** Reads of a live status

    [GetTask] and [WatchTask] take a pointer to the status under the mutex and
    use it after the unlock, while the task's goroutine writes to it. *)

(** The status in the table. *)
Definition look (a : adapter) (id : string) : option Status := tk_status <$> a.(fake).(tasks) !! id.

Section Reads.
Context (meanwhile : adapter -> adapter -> Prop) (id : string).

(** The pointer to the status, which is [st] in [a], shows the contents [l]
    one after the other until, in [a'], it shows [st'].  Eviction takes the
    task out of the table, not the status from the holder of the pointer. *)
Inductive pointed : adapter -> Status -> list Status -> adapter -> Status -> Prop :=
| pt_here a st : pointed a st [st] a st
| pt_step a st a1 l a' st' :
    meanwhile a a1 -> pointed a1 (default st (look a1 id)) l a' st' -> pointed a st (st :: l) a' st'.

(** [m] has each of its fields from one of the contents. *)
Definition torn (l : list Status) (m : Status) : Prop :=
  (exists s, s ∈ l /\ m.(StState) = s.(StState)) /\ (exists s, s ∈ l /\ m.(StUpdatedAt) = s.(StUpdatedAt)) /\
  (exists s, s ∈ l /\ m.(StResult) = s.(StResult)) /\ (exists s, s ∈ l /\ m.(StUsage) = s.(StUsage)) /\
  (exists s, s ∈ l /\ m.(StError) = s.(StError)).

(** gRPC marshals what the pointer shows, field by field; a message that
    changes under the marshaller may also fail to marshal. *)
Inductive marshalled (l : list Status) : result status Status -> Prop :=
| ma_ok m : torn l m -> marshalled l (Ok m)
| ma_error e x y : x ∈ l -> y ∈ l -> x <> y -> marshalled l (Err e).

(** [GetTask]: the lookup, and the reply marshalled after the unlock. *)
Inductive GetTask : adapter -> result status Status -> adapter -> Prop :=
| gt_missing a e : getTask a.(fake) id = Err e -> GetTask a (Err e) a
| gt_found a tk l a' st' r :
    getTask a.(fake) id = Ok tk -> pointed a tk.(tk_status) l a' st' -> marshalled l r -> GetTask a r a'.

(** What one turn of [WatchTask]'s loop does. *)
Inductive turn :=
| Unchanged
| Sent (m : Status) (last : State)
| SendFailed (e : status)
| NilTask.

(** The turn: the lookup under the mutex, then through the pointer the
    comparison with [last] (nothing sent yet: [None]), the [Send], and the
    state that is remembered, read for a second time. *)
Inductive WatchTask_turn (last : option State) : adapter -> turn -> adapter -> Prop :=
| wt_nil a : look a id = None -> WatchTask_turn last a NilTask a
| wt_same a st l a1 st1 :
    look a id = Some st -> pointed a st l a1 st1 -> last = Some st1.(StState) -> WatchTask_turn last a Unchanged a1
| wt_failed a st l a1 st1 l1 a2 st2 e :
    look a id = Some st -> pointed a st l a1 st1 -> last <> Some st1.(StState) -> pointed a1 st1 l1 a2 st2 ->
    marshalled l1 (Err e) -> WatchTask_turn last a (SendFailed e) a2
| wt_sent a st l a1 st1 l1 a2 st2 l2 a3 st3 m :
    look a id = Some st -> pointed a st l a1 st1 -> last <> Some st1.(StState) -> pointed a1 st1 l1 a2 st2 ->
    marshalled l1 (Ok m) -> pointed a2 st2 l2 a3 st3 -> WatchTask_turn last a (Sent m st3.(StState)) a3.
End Reads.

Section Steps.
Context (slack : Z).

(** What happens without a call: time passes, or a goroutine takes a step. *)
Inductive background : adapter -> adapter -> Prop :=
| bg_tick t f gs t' :
    t <= t' -> (forall g, g ∈ gs -> t' <= g.(g_wake) + slack) -> background (mkAdapter t f gs) (mkAdapter t' f gs)
| bg_advance t f l1 g l2 gs f' :
    g.(g_wake) <= t -> advance t g f = Some (gs, f') ->
    background (mkAdapter t f (l1 ++ g :: l2)) (mkAdapter t f' (l1 ++ gs ++ l2)).

(** With the RPCs that change the state, and the test's own switches. *)
Inductive adapter_step : adapter -> adapter -> Prop :=
| as_background a a' : background a a' -> adapter_step a a'
| as_submit a req : adapter_step a (do_submit a req).2
| as_cancel a id : adapter_step a (on_fake (fun f => (CancelTask f id).2) a)
| as_open a target d : adapter_step a (on_fake (fun f => (OpenSession f a.(clock) target d).2) a)
| as_close a h : adapter_step a (on_fake (fun f => CloseSession f h) a)
| as_session a id : adapter_step a (on_fake (AddSession id) a)
| as_garbage a b : adapter_step a (on_fake (SetGarbage b) a).
End Steps.

(** The goroutine of task [id] does not run: its status does not change. *)
Definition undisturbed (slack : Z) (id : string) (a a' : adapter) : Prop :=
  background slack a a' /\ look a' id = look a id.

Definition start (specs : list TargetSpec) (now : Z) : adapter := mkAdapter now (New specs) [].

Definition runs_to (slack : Z) (a a' : adapter) : Prop := rtc (adapter_step slack) a a'.
