(* ===== verification/AdapterProps.v ===== *)
(** * Properties of the in-memory adapter

    The invariant of every reachable adapter, what eviction removes, and the
    behaviour of tasks: they only move forward, their results are immutable,
    keys are idempotent while the task is retained, and every goroutine ends. *)

From S2P Require Import Prelude Float64 GoLib Auth Prog Adapter.

(** ** Identifiers *)

Definition task_id (n : nat) : string := "fake-task-" +:+ itoa (Z.of_nat n).

Lemma itoa_inj a b : 0 < a -> 0 < b -> itoa a = itoa b -> a = b.
Proof.
  intros Ha Hb. destruct (itoa_cases a) as [[? _]|[_ ->]]; [lia|lia|]. destruct (itoa_cases b) as [[? _]|[_ ->]]; [lia|lia|].
  intros E. pose proof (parse_nat_digits a Ha) as H. rewrite E, (parse_nat_digits b Hb) in H. congruence.
Qed.

Lemma task_id_inj n m : (0 < n)%nat -> (0 < m)%nat -> task_id n = task_id m -> n = m.
Proof. intros Hn Hm E%append_inj%itoa_inj; lia. Qed.

(** ** The invariant *)

Record fake_ok (f : Fake) : Prop := {
  fo_id id : is_Some (f.(tasks) !! id) -> exists n, (0 < n <= f.(nextID))%nat /\ id = task_id n;
  fo_keys k id : f.(byKey) !! k = Some id <-> exists tk, f.(tasks) !! id = Some tk /\ tk.(tk_key) = k;
  fo_nodup : NoDup f.(order);
  fo_order id : id ∈ f.(order) <-> is_Some (f.(tasks) !! id) }.

(** What a status carries in each state. *)
Definition status_wf (s : Status) : Prop :=
  match s.(StState) with
  | QUEUED | RUNNING | CANCELLED => s.(StResult) = None /\ s.(StUsage) = [] /\ s.(StError) = None
  | SUCCEEDED => is_Some s.(StResult) /\ UUnit <$> s.(StUsage) = ["shots"; "tasks"] /\ s.(StError) = None
  | FAILED => s.(StResult) = None /\ s.(StUsage) = [] /\ is_Some s.(StError)
  | STATE_UNSPECIFIED => False
  end.

Definition is_live (f : Fake) (id : string) : Prop :=
  exists tk, f.(tasks) !! id = Some tk /\ isTerminalState tk.(tk_status).(StState) = false.

Record adapter_ok (a : adapter) : Prop := {
  ao_fake : fake_ok a.(fake);
  ao_status id tk : a.(fake).(tasks) !! id = Some tk -> status_wf tk.(tk_status);
  ao_nodup : NoDup (g_id <$> a.(routines));
  ao_state g : g ∈ a.(routines) -> exists tk, a.(fake).(tasks) !! g.(g_id) = Some tk /\
    tk.(tk_status).(StState) = if g.(g_second) then RUNNING else QUEUED;
  ao_live id : is_live a.(fake) id -> exists g, g ∈ a.(routines) /\ g.(g_id) = id }.

(** ** Eviction *)

Lemma existsb_ext_in {A} (p q : A -> bool) (l : list A) : (forall x, x ∈ l -> p x = q x) -> existsb p l = existsb q l.
Proof. induction l as [|x l IH]; intros E; simpl; [done|]. rewrite (E x) by left. f_equal. apply IH. intros y Hy. apply E. by right. Qed.

Lemma list_filter_iff' {A} (P Q : A -> Prop) `{!forall x, Decision (P x), !forall x, Decision (Q x)} (l : list A) :
  (forall x, x ∈ l -> P x <-> Q x) -> filter P l = filter Q l.
Proof.
  induction l as [|x l IH]; intros E; [done|]. rewrite !filter_cons, IH by (intros; apply E; by right).
  destruct (decide (P x)), (decide (Q x)); try done; exfalso; specialize (E x ltac:(left)); tauto.
Qed.

Definition is_terminal (f : Fake) (id : string) : bool :=
  match f.(tasks) !! id with Some t => isTerminalState t.(tk_status).(StState) | None => false end.

Definition evicted (target : nat) (ids : list string) (f : Fake) : list string :=
  take target (List.filter (is_terminal f) ids).

Definition key_of (f : Fake) (k id : string) : bool :=
  match f.(tasks) !! id with Some t => String.eqb t.(tk_key) k | None => false end.

Lemma evictable_some target id f t target' :
  evictable target id f = Some (t, target') ->
  target = S target' /\ f.(tasks) !! id = Some t /\ is_terminal f id = true.
Proof. unfold evictable, is_terminal. intros E. crush. Qed.

Lemma evictable_none target id f : evictable target id f = None -> target = 0%nat \/ is_terminal f id = false.
Proof. unfold evictable, is_terminal. intros E. crush; auto. Qed.

Lemma drop_task_lookup id t f x : x <> id -> (drop_task id t f).(tasks) !! x = f.(tasks) !! x.
Proof. intros H. simpl. by rewrite lookup_delete_ne. Qed.

Lemma not_in_evicted target id ids f : id ∉ ids -> id ∉ evicted target ids f.
Proof.
  intros H (i & Hi & _)%elem_of_take. apply H, list_elem_of_In.
  apply list_elem_of_lookup_2, list_elem_of_In, List.filter_In in Hi. apply Hi.
Qed.

Lemma evicted_drop target id t ids f : id ∉ ids -> evicted target ids (drop_task id t f) = evicted target ids f.
Proof.
  intros H. unfold evicted. f_equal. apply List.filter_ext_in. intros x Hx. unfold is_terminal.
  rewrite drop_task_lookup; [done|]. intros ->. by apply H, list_elem_of_In.
Qed.

(** The loop removes the first [target] terminal tasks of its list, keeps the
    others in order, and touches nothing else. *)
Lemma evict_loop_spec target ids f :
  NoDup ids ->
  let gone := evicted target ids f in let f' := (evict_loop target ids f).2 in
  (evict_loop target ids f).1 = filter (fun id => id ∉ gone) ids /\
  (forall id, f'.(tasks) !! id = if decide (id ∈ gone) then None else f.(tasks) !! id) /\
  (forall k, f'.(byKey) !! k = if existsb (key_of f k) gone then None else f.(byKey) !! k) /\
  (f'.(targets), f'.(nextID), f'.(sessions), f'.(garbage)) = (f.(targets), f.(nextID), f.(sessions), f.(garbage)).
Proof.
  revert target f. induction ids as [|id ids IH]; intros target f N gone.
  { subst gone. unfold evicted. simpl. rewrite take_nil. by split_and!. }
  apply NoDup_cons in N as [Hn N]. cbn [evict_loop]. destruct (evictable target id f) as [[t target']|] eqn:Ev.
  - apply evictable_some in Ev as (-> & L & T).
    assert (E : gone = id :: evicted target' ids f) by (subst gone; unfold evicted; cbn [List.filter]; by rewrite T).
    destruct (IH target' (drop_task id t f) N) as (-> & IT & IK & IR). rewrite (evicted_drop _ _ _ _ _ Hn) in *.
    pose proof (not_in_evicted target' id ids f Hn) as Ho. split_and!; [| | |by rewrite IR].
    + rewrite E, filter_cons_False by (intros H; apply H; left).
      apply list_filter_iff'. intros x Hx. rewrite elem_of_cons. assert (x <> id) by congruence. tauto.
    + intros x. rewrite IT, E. destruct (decide (x = id)) as [->|Ne].
      * rewrite (decide_True (P := id ∈ id :: _)) by left. simpl. rewrite lookup_delete_eq. by destruct (decide _).
      * rewrite drop_task_lookup by done. destruct (decide (x ∈ evicted target' ids f)) as [H|H].
        -- by rewrite decide_True by (by right).
        -- by rewrite decide_False by (rewrite elem_of_cons; tauto).
    + intros k. rewrite IK, E. cbn [existsb]. rewrite (existsb_ext_in _ (key_of f k)).
      * unfold key_of at 2. rewrite L. simpl. destruct (String.eqb_spec t.(tk_key) k) as [->|Ne]; simpl.
        -- rewrite lookup_delete_eq. by destruct (existsb _ _).
        -- by rewrite lookup_delete_ne by done.
      * intros x Hx. unfold key_of. rewrite drop_task_lookup; [done|]. intros ->. by apply Ho.
  - assert (E : gone = evicted target ids f).
    { subst gone. unfold evicted. cbn [List.filter]. destruct (evictable_none _ _ _ Ev) as [->|T]; [|by rewrite T].
      destruct (is_terminal f id); reflexivity. }
    specialize (IH target f N). rewrite <- E in IH. destruct (evict_loop target ids f) as [kept f'].
    destruct IH as (IH1 & IH). split; [|exact IH]. simpl in *. rewrite IH1.
    rewrite filter_cons_True; [done|]. rewrite E. by apply not_in_evicted.
Qed.

(** How many tasks have to go. *)
Definition excess (f : Fake) : nat := Z.to_nat (Z.of_nat (length f.(order)) - fakeTaskCap).

Definition gone (f : Fake) : list string := evicted (excess f) f.(order) f.

Lemma evictTerminal_eq f :
  NoDup f.(order) ->
  let f' := evictTerminal f in
  f'.(order) = filter (fun id => id ∉ gone f) f.(order) /\
  (forall id, f'.(tasks) !! id = if decide (id ∈ gone f) then None else f.(tasks) !! id) /\
  (forall k, f'.(byKey) !! k = if existsb (key_of f k) (gone f) then None else f.(byKey) !! k) /\
  (f'.(targets), f'.(nextID), f'.(sessions), f'.(garbage)) = (f.(targets), f.(nextID), f.(sessions), f.(garbage)).
Proof.
  intros N. unfold evictTerminal. destruct (Z.leb_spec (Z.of_nat (length f.(order))) fakeTaskCap) as [H|H].
  - assert (E : gone f = []) by (unfold gone, evicted, excess; by replace (Z.to_nat _) with 0%nat by lia).
    rewrite E. split_and!; try done. symmetry. clear. induction (order f) as [|x l IH]; [done|].
    rewrite filter_cons_True by apply not_elem_of_nil. by rewrite IH.
  - destruct (evict_loop_spec (excess f) f.(order) f N) as (E1 & E). fold (gone f) in E, E1.
    unfold excess in *. destruct (evict_loop _ _ _) as [kept f']. simpl in *. by rewrite E1.
Qed.

Lemma gone_terminal f id : id ∈ gone f -> id ∈ f.(order) /\ is_terminal f id = true.
Proof.
  unfold gone, evicted. intros (i & Hi & _)%elem_of_take.
  apply list_elem_of_lookup_2, list_elem_of_In, List.filter_In in Hi as [Hi T]. by rewrite <- list_elem_of_In in Hi.
Qed.

Lemma key_of_spec f k id : fake_ok f -> key_of f k id = true <-> f.(byKey) !! k = Some id.
Proof.
  intros OK. unfold key_of. rewrite (fo_keys _ OK). destruct (f.(tasks) !! id) as [t|].
  - rewrite String.eqb_eq. split; [by eauto|]. by intros (t' & [= ->] & E).
  - split; [done|]. by intros (t' & ? & _).
Qed.

Lemma key_gone f k : fake_ok f -> existsb (key_of f k) (gone f) = true <-> exists id, id ∈ gone f /\ f.(byKey) !! k = Some id.
Proof.
  intros OK. rewrite existsb_exists. split; intros (id & H1 & H2); exists id.
  - split; [by apply list_elem_of_In|by apply key_of_spec].
  - split; [by apply list_elem_of_In|by apply key_of_spec].
Qed.

Lemma evictTerminal_ok f : fake_ok f -> fake_ok (evictTerminal f).
Proof.
  intros OK. destruct (evictTerminal_eq f (fo_nodup _ OK)) as (EO & ET & EK & ER).
  injection ER as _ EN _ _. split.
  - intros id. rewrite ET, EN. destruct (decide _); [intros []; done|apply (fo_id _ OK)].
  - intros k id. rewrite EK. setoid_rewrite ET. destruct (existsb (key_of f k) (gone f)) eqn:X.
    + apply (key_gone _ _ OK) in X as (id' & Hg & Hk). split; [done|]. intros (t & H & Ht).
      destruct (decide (id ∈ gone f)) as [|N]; [done|]. destruct N.
      assert (f.(byKey) !! k = Some id) as Hk' by (apply (fo_keys _ OK); by exists t). congruence.
    + rewrite (fo_keys _ OK). destruct (decide (id ∈ gone f)) as [Hg|Hg]; [|done].
      split; [|by intros (? & ? & _)]. intros H. exfalso. apply not_true_iff_false in X. apply X.
      apply (key_gone _ _ OK). exists id. split; [done|]. by apply (fo_keys _ OK).
  - rewrite EO. apply NoDup_filter, (fo_nodup _ OK).
  - intros id. rewrite EO, ET, list_elem_of_filter, (fo_order _ OK). destruct (decide (id ∈ gone f)) as [Hg|Hg].
    + split; [tauto|]. intros []; done.
    + tauto.
Qed.

(** ** Steps that replace one task *)

Lemma fake_ok_update f id tk tk' :
  fake_ok f -> f.(tasks) !! id = Some tk -> tk'.(tk_key) = tk.(tk_key) -> fake_ok (set_tasks (<[id := tk']> f.(tasks)) f).
Proof.
  intros OK L K. assert (S : forall x, is_Some (<[id := tk']> f.(tasks) !! x) <-> is_Some (f.(tasks) !! x)).
  { intros x. rewrite lookup_insert_is_Some'. split; [|by right]. intros [->|]; [by eexists|done]. }
  split; simpl.
  - intros x H%S. by apply (fo_id _ OK).
  - intros k x. rewrite (fo_keys _ OK). destruct (decide (x = id)) as [->|N].
    + rewrite lookup_insert_eq, L. split; intros (t & [= <-] & <-); eauto.
    + by rewrite lookup_insert_ne by done.
  - apply (fo_nodup _ OK).
  - intros x. rewrite S. apply (fo_order _ OK).
Qed.

(** Nothing but the clock, the sessions and the garbage switch. *)
Lemma adapter_ok_same a a' :
  adapter_ok a -> a'.(routines) = a.(routines) -> a'.(fake).(tasks) = a.(fake).(tasks) -> a'.(fake).(byKey) = a.(fake).(byKey) ->
  a'.(fake).(order) = a.(fake).(order) -> (a.(fake).(nextID) <= a'.(fake).(nextID))%nat -> adapter_ok a'.
Proof.
  intros OK ER ET EK EO EN. destruct (ao_fake _ OK) as [F1 F2 F3 F4]. split.
  - split; rewrite ?ET, ?EK, ?EO; try done. intros id H. destruct (F1 id H) as (n & Hn & ->).
    exists n. split; [lia|done].
  - rewrite ET. apply (ao_status _ OK).
  - rewrite ER. apply (ao_nodup _ OK).
  - rewrite ER, ET. apply (ao_state _ OK).
  - intros id. unfold is_live. rewrite ER, ET. apply (ao_live _ OK).
Qed.

(** ** Submission *)

Lemma fresh_id f : fake_ok f -> f.(tasks) !! task_id (S f.(nextID)) = None.
Proof.
  intros OK. apply eq_None_not_Some. intros H. destruct (fo_id _ OK _ H) as (n & Hn & E).
  apply task_id_inj in E; lia.
Qed.

(** The adapter before the eviction of a submission. *)
Definition submitted (f : Fake) (now : Z) (s : TargetSpec) (req : SubmitTaskRequest) : Fake :=
  let id := task_id (S f.(nextID)) in
  mkFake f.(targets)
    (<[id := mkTask (mkState QUEUED now None [] None) false (submit_verdict f s req) (task_key s req)]> f.(tasks))
    (<[task_key s req := id]> f.(byKey)) (f.(order) ++ [id]) (S f.(nextID)) f.(sessions) f.(garbage).

Lemma submitted_ok f now s req :
  fake_ok f -> f.(byKey) !! task_key s req = None -> fake_ok (submitted f now s req).
Proof.
  intros OK K. pose proof (fresh_id f OK) as Fr. set (id := task_id (S f.(nextID))) in *. split; simpl; fold id.
  - intros x Hx. apply lookup_insert_is_Some' in Hx as [<-|Hx]; [by exists (S f.(nextID)); split; [lia|]|].
    destruct (fo_id _ OK x Hx) as (n & Hn & ->). exists n. split; [lia|done].
  - intros k x. destruct (decide (x = id)) as [->|N].
    + rewrite lookup_insert_eq. split.
      * destruct (decide (k = task_key s req)) as [->|Nk]; [by eexists|]. rewrite lookup_insert_ne by done.
        intros (t & Ht & _)%(fo_keys _ OK). congruence.
      * intros (t & [= <-] & <-). by rewrite lookup_insert_eq.
    + rewrite (lookup_insert_ne (tasks f)) by done. destruct (decide (k = task_key s req)) as [->|Nk].
      * rewrite lookup_insert_eq. split; [by intros [= ?]|]. intros Ht. apply (fo_keys _ OK) in Ht. congruence.
      * rewrite lookup_insert_ne by done. apply (fo_keys _ OK).
  - apply NoDup_app. split_and!; [apply (fo_nodup _ OK)| |apply NoDup_singleton].
    intros x Hx%(fo_order _ OK) ->%list_elem_of_singleton. rewrite Fr in Hx. by destruct Hx.
  - intros x. rewrite elem_of_app, list_elem_of_singleton, (fo_order _ OK), lookup_insert_is_Some'.
    split; intros [E|E]; subst; auto.
Qed.

Lemma SubmitTask_cases f now req :
  let '(r, f', g) := SubmitTask f now req in
  (exists e, r = Err e /\ f' = f /\ g = None) \/
  (exists s id, f.(targets) !! req.(SubTarget) = Some s /\ r = Ok (mkHandle s.(ID) id) /\
     f.(byKey) !! task_key s req = Some id /\ f' = f /\ g = None) \/
  (exists s, f.(targets) !! req.(SubTarget) = Some s /\ r = Ok (mkHandle s.(ID) (task_id (S f.(nextID)))) /\
     f.(byKey) !! task_key s req = None /\ f' = evictTerminal (submitted f now s req) /\
     g = Some (s, task_id (S f.(nextID)), req.(SubShots))).
Proof.
  unfold SubmitTask, spec. destruct (f.(targets) !! req.(SubTarget)) as [s|] eqn:T; [|left; by eexists].
  destruct (String.eqb _ ""); [left; by eexists|]. destruct (f.(byKey) !! task_key s req) as [id|] eqn:K.
  - right; left. by exists s, id.
  - right; right. by exists s.
Qed.

Lemma do_submit_ok a req : adapter_ok a -> adapter_ok (do_submit a req).2.
Proof.
  intros OK. pose proof (ao_fake _ OK) as FO. unfold do_submit.
  pose proof (SubmitTask_cases a.(fake) a.(clock) req) as C. destruct (SubmitTask _ _ _) as [[r f'] g]. simpl.
  assert (Same : adapter_ok (mkAdapter a.(clock) a.(fake) (a.(routines) ++ []))).
  { rewrite app_nil_r. by destruct a. }
  destruct C as [(e & -> & -> & ->)|[(s & id & _ & -> & _ & -> & ->)|(s & _ & -> & K & -> & ->)]]; [done|done|].
  set (f := a.(fake)) in *. set (id := task_id (S f.(nextID))).
  pose proof (submitted_ok f a.(clock) s req FO K) as SO. pose proof (fresh_id f FO) as Fr. fold id in Fr.
  destruct (evictTerminal_eq _ (fo_nodup _ SO)) as (_ & ET & _ & _).
  set (f1 := submitted f a.(clock) s req) in *.
  assert (EL : forall x tk, f1.(tasks) !! x = Some tk -> isTerminalState tk.(tk_status).(StState) = false ->
    (evictTerminal f1).(tasks) !! x = Some tk).
  { intros x tk Hx Ht. rewrite ET, decide_False; [done|]. intros (_ & T)%gone_terminal. unfold is_terminal in T.
    rewrite Hx in T. congruence. }
  assert (Own : forall g, g ∈ a.(routines) -> g.(g_id) <> id).
  { intros g Hg E. destruct (ao_state _ OK g Hg) as (tk & Hk & _). fold f in Hk. congruence. }
  split; simpl.
  - by apply evictTerminal_ok.
  - intros x tk. rewrite ET. destruct (decide _); [done|]. simpl. fold id.
    destruct (decide (x = id)) as [->|N]; [rewrite lookup_insert_eq; by intros [= <-]|].
    rewrite lookup_insert_ne by done. apply (ao_status _ OK).
  - rewrite fmap_app. apply NoDup_app. split_and!; [apply (ao_nodup _ OK)| |apply NoDup_singleton].
    intros x (g & -> & Hg)%list_elem_of_fmap E%list_elem_of_singleton. by apply (Own g Hg).
  - intros g Hg. apply elem_of_app in Hg as [Hg|Hg]; [|apply list_elem_of_singleton in Hg as ->].
    + destruct (ao_state _ OK g Hg) as (tk & Hk & St). exists tk. split; [|done]. apply EL.
      * simpl. fold id. rewrite lookup_insert_ne; [done|]. intros E. by apply (Own g Hg).
      * rewrite St. by destruct (g_second g).
    + eexists. split; [apply EL; [simpl; apply lookup_insert_eq|done]|done].
  - intros x (tk & Hx & Ht). simpl in Hx. rewrite ET in Hx. destruct (decide _); [done|]. simpl in Hx. fold id in Hx.
    destruct (decide (x = id)) as [->|N].
    + eexists. split; [apply elem_of_app; right; by apply list_elem_of_singleton|done].
    + rewrite lookup_insert_ne in Hx by done.
      destruct (ao_live _ OK x) as (g & Hg & <-); [by exists tk|]. exists g. split; [apply elem_of_app; by left|done].
Qed.

(** ** Goroutines *)

(** A routine's step: its task gets a new status, and the routine goes on
    exactly while that is not terminal. *)
Lemma routine_ok t t' f l1 g l2 gs tk st :
  adapter_ok (mkAdapter t f (l1 ++ g :: l2)) -> f.(tasks) !! g.(g_id) = Some tk -> status_wf st ->
  (gs = [] /\ isTerminalState st.(StState) = true \/
   exists g', gs = [g'] /\ g'.(g_id) = g.(g_id) /\ st.(StState) = if g'.(g_second) then RUNNING else QUEUED) ->
  adapter_ok (mkAdapter t' (set_tasks (<[g.(g_id) := with_status tk st]> f.(tasks)) f) (l1 ++ gs ++ l2)).
Proof.
  intros OK L W HG. pose proof (ao_nodup _ OK) as N. simpl in N. rewrite fmap_app, fmap_cons in N.
  assert (Hid : g.(g_id) ∉ g_id <$> l1 ++ l2).
  { rewrite fmap_app, elem_of_app. apply NoDup_app in N as (_ & N2 & N3). apply NoDup_cons in N3 as [N3 _].
    intros [H|H]; [|done]. apply (N2 _ H). left. }
  assert (Out : forall x, x ∈ l1 \/ x ∈ l2 -> x ∈ l1 ++ g :: l2 /\ x.(g_id) <> g.(g_id)).
  { intros x Hx. split; [rewrite elem_of_app, elem_of_cons; tauto|]. intros E. apply Hid. rewrite <- E.
    apply list_elem_of_fmap_2, elem_of_app. done. }
  split; simpl.
  - by apply (fake_ok_update f g.(g_id) tk); [apply (ao_fake _ OK)|..].
  - intros id x. destruct (decide (id = g.(g_id))) as [->|Ne]; [rewrite lookup_insert_eq; by intros [= <-]|].
    rewrite lookup_insert_ne by done. apply (ao_status _ OK).
  - destruct HG as [[-> _]|(g' & -> & E & _)]; simpl; rewrite fmap_app; [|rewrite fmap_cons, E; done].
    apply NoDup_app in N as (N1 & N2 & N3). apply NoDup_cons in N3 as [_ N3]. apply NoDup_app.
    split_and!; try done. intros x Hx H2. apply (N2 x Hx). by right.
  - intros x Hx. rewrite !elem_of_app in Hx.
    assert (HO : x ∈ l1 \/ x ∈ l2 -> exists tk0, <[g.(g_id) := with_status tk st]> f.(tasks) !! x.(g_id) = Some tk0 /\
      tk0.(tk_status).(StState) = if x.(g_second) then RUNNING else QUEUED).
    { intros [H1 H2]%Out. rewrite lookup_insert_ne by congruence. by apply (ao_state _ OK). }
    destruct Hx as [Hx|[Hx|Hx]]; [apply HO; by left| |apply HO; by right].
    destruct HG as [[-> _]|(g' & -> & E & S)]; [by apply elem_of_nil in Hx|].
    apply list_elem_of_singleton in Hx as ->. eexists. rewrite E, lookup_insert_eq. by split.
  - intros id (x & Hx & HT). simpl in Hx. destruct (decide (id = g.(g_id))) as [->|Ne].
    + rewrite lookup_insert_eq in Hx. injection Hx as <-. simpl in HT.
      destruct HG as [[-> T]|(g' & -> & E & _)]; [congruence|]. exists g'. split; [|done].
      rewrite !elem_of_app. right; left. by apply list_elem_of_singleton.
    + rewrite lookup_insert_ne in Hx by done. destruct (ao_live _ OK id) as (y & Hy & <-); [by exists x|].
      exists y. split; [|done]. simpl in Hy. rewrite !elem_of_app. rewrite elem_of_app, elem_of_cons in Hy.
      destruct Hy as [?|[->|?]]; auto. done.
Qed.

(** The step that a routine takes, in full. *)
Definition next_status (t : Z) (g : routine) (tk : task) (garbage : bool) : Status :=
  touch t (if tk.(tk_cancel) then set_state CANCELLED tk.(tk_status)
           else if g.(g_second) then finish g.(g_spec) tk.(tk_failWith) garbage g.(g_shots) t tk.(tk_status)
           else set_state RUNNING tk.(tk_status)).

Definition continues (t : Z) (g : routine) (tk : task) : list routine :=
  if negb tk.(tk_cancel) && negb g.(g_second)
  then [mkRoutine g.(g_spec) g.(g_id) g.(g_shots) true (t + g.(g_spec).(StepDelay))] else [].

Lemma advance_eq t g f tk :
  f.(tasks) !! g.(g_id) = Some tk -> isTerminalState tk.(tk_status).(StState) = false ->
  advance t g f = Some (continues t g tk,
    set_tasks (<[g.(g_id) := with_status tk (next_status t g tk f.(garbage))]> f.(tasks)) f).
Proof.
  intros L T. unfold advance, advance1, advance2, step, continues, next_status. rewrite L, T.
  by destruct (g_second g), (tk_cancel tk).
Qed.

Lemma finish_wf s e gb shots now st :
  st.(StResult) = None /\ st.(StUsage) = [] /\ st.(StError) = None ->
  status_wf (finish s e gb shots now st) /\ isTerminalState (finish s e gb shots now st).(StState) = true.
Proof.
  intros (E1 & E2 & E3). unfold finish, fail_with, status_wf.
  destruct e, (FailWith s); simpl; rewrite ?E1, ?E2, ?E3; split_and!; by eauto.
Qed.

Lemma next_status_wf t g tk gb :
  status_wf tk.(tk_status) -> tk.(tk_status).(StState) = (if g.(g_second) then RUNNING else QUEUED) ->
  status_wf (next_status t g tk gb) /\
  (continues t g tk = [] /\ isTerminalState (next_status t g tk gb).(StState) = true \/
   exists g', continues t g tk = [g'] /\ g'.(g_id) = g.(g_id) /\
     (next_status t g tk gb).(StState) = if g'.(g_second) then RUNNING else QUEUED).
Proof.
  intros W S. assert (P : (tk_status tk).(StResult) = None /\ (tk_status tk).(StUsage) = [] /\ (tk_status tk).(StError) = None).
  { unfold status_wf in W. rewrite S in W. by destruct (g_second g). }
  unfold next_status, continues. destruct (tk_cancel tk); simpl; [split; [exact P|by left]|].
  destruct (g_second g); simpl.
  - destruct (finish_wf g.(g_spec) tk.(tk_failWith) gb g.(g_shots) t tk.(tk_status) P) as [F1 F2].
    split; [|by left]. unfold status_wf in *. simpl. done.
  - split; [exact P|]. right. by eexists.
Qed.

(** A goroutine never dereferences a missing task, whatever was submitted,
    cancelled and evicted before its turn. *)
Lemma advance_ok t t' f l1 g l2 :
  adapter_ok (mkAdapter t f (l1 ++ g :: l2)) ->
  exists gs f', advance t' g f = Some (gs, f') /\ adapter_ok (mkAdapter t' f' (l1 ++ gs ++ l2)).
Proof.
  intros OK. destruct (ao_state _ OK g) as (tk & L & S); [simpl; rewrite elem_of_app, elem_of_cons; tauto|]. simpl in L.
  assert (T : isTerminalState tk.(tk_status).(StState) = false) by (rewrite S; by destruct (g_second g)).
  destruct (next_status_wf t' g tk f.(garbage) (ao_status _ OK _ _ L) S) as [W C].
  do 2 eexists. split; [by apply advance_eq|]. by eapply routine_ok.
Qed.

Lemma cancel_ok a id : adapter_ok a -> adapter_ok (on_fake (fun f => (CancelTask f id).2) a).
Proof.
  intros OK. unfold on_fake, CancelTask, getTask. destruct a as [t f gs]. simpl.
  destruct (f.(tasks) !! id) as [tk|] eqn:L; simpl; [|done].
  destruct (isTerminalState _) eqn:T; simpl; [done|].
  set (tk' := mkTask tk.(tk_status) true tk.(tk_failWith) tk.(tk_key)).
  assert (X : forall x tk0, <[id := tk']> f.(tasks) !! x = Some tk0 -> exists tk1, f.(tasks) !! x = Some tk1 /\ tk1.(tk_status) = tk0.(tk_status)).
  { intros x tk0. destruct (decide (x = id)) as [->|N]; [rewrite lookup_insert_eq; intros [= <-]; by exists tk|].
    rewrite lookup_insert_ne by done. by exists tk0. }
  split; simpl.
  - by apply (fake_ok_update f id tk); [apply (ao_fake _ OK)|..].
  - intros x tk0 (tk1 & H1 & <-)%X. by eapply (ao_status _ OK).
  - apply (ao_nodup _ OK).
  - intros g Hg. destruct (ao_state _ OK g Hg) as (tk1 & H1 & S). simpl in *. destruct (decide (g.(g_id) = id)) as [E|N].
    + exists tk'. rewrite E, lookup_insert_eq. split; [done|]. simpl. congruence.
    + exists tk1. by rewrite lookup_insert_ne by done.
  - intros x (tk0 & Hx & HT). simpl in Hx. apply X in Hx as (tk1 & H1 & E). apply (ao_live _ OK). exists tk1.
    split; [done|]. by rewrite E.
Qed.

Lemma adapter_step_ok slack a a' : adapter_ok a -> adapter_step slack a a' -> adapter_ok a'.
Proof.
  intros OK Hs. destruct Hs as [a a' [t f gs t' _ _|t f l1 g l2 gs f' _ HA]|a req|a id|a target d|a h|a id|a b].
  - by apply (adapter_ok_same (mkAdapter t f gs)).
  - destruct (advance_ok t t f l1 g l2 OK) as (gs' & f'' & E & OK'). by rewrite HA in E; injection E as <- <-.
  - by apply do_submit_ok.
  - by apply cancel_ok.
  - apply (adapter_ok_same a); try done; simpl; unfold OpenSession;
      repeat (match goal with |- context [if ?b then _ else _] => destruct b end); simpl; done || lia.
  - by apply (adapter_ok_same a).
  - by apply (adapter_ok_same a).
  - by apply (adapter_ok_same a).
Qed.

Lemma start_ok specs now : adapter_ok (start specs now).
Proof.
  split; [split| | | |]; simpl; try done.
  - intros id [? H]. done.
  - intros k id. split; [done|]. by intros (? & ? & _).
  - apply NoDup_nil_2.
  - intros id. split; [by intros ?%elem_of_nil|]. by intros [? ?].
  - apply NoDup_nil_2.
  - by intros g ?%elem_of_nil.
  - by intros id (? & ? & _).
Qed.

Lemma reachable_adapter_ok slack specs now a : runs_to slack (start specs now) a -> adapter_ok a.
Proof.
  intros R. generalize (start_ok specs now). revert R. generalize (start specs now).
  induction 1 as [x|x y z Hs _ IH]; [done|]. intros OK. apply IH. by eapply adapter_step_ok.
Qed.

(** ** What the invariant gives *)

(** (C38) The adapter's data stays well formed: in every reachable state each
    task's status carries the result, usage and error that belong to its
    state, the idempotency index and the table of tasks are inverse to each
    other, exactly the unfinished tasks have a goroutine, one each, and no
    goroutine's next step dereferences a missing task. *)
Theorem adapter_well_typed slack specs now a :
  runs_to slack (start specs now) a ->
  (forall id tk, a.(fake).(tasks) !! id = Some tk -> status_wf tk.(tk_status)) /\
  (forall k id, a.(fake).(byKey) !! k = Some id <-> exists tk, a.(fake).(tasks) !! id = Some tk /\ tk.(tk_key) = k) /\
  NoDup (g_id <$> a.(routines)) /\ (forall id, is_live a.(fake) id <-> id ∈ g_id <$> a.(routines)) /\
  (forall g t, g ∈ a.(routines) -> is_Some (advance t g a.(fake))).
Proof.
  intros R. pose proof (reachable_adapter_ok _ _ _ _ R) as OK.
  split_and!; [apply (ao_status _ OK)|apply (fo_keys _ (ao_fake _ OK))|apply (ao_nodup _ OK)| |].
  - intros id. rewrite list_elem_of_fmap. split.
    + intros (g & Hg & <-)%(ao_live _ OK). by exists g.
    + intros (g & -> & Hg). destruct (ao_state _ OK g Hg) as (tk & L & S). exists tk. split; [done|].
      rewrite S. by destruct (g_second g).
  - intros g t Hg. destruct (list_elem_of_split _ _ Hg) as (l1 & l2 & E). destruct a as [c f gs]; simpl in *; subst gs.
    destruct (advance_ok c t f l1 g l2 OK) as (gs & f' & -> & _). by eexists.
Qed.

(** ** Tasks move forward *)

Definition rank (s : State) : nat :=
  match s with STATE_UNSPECIFIED | QUEUED => 0 | RUNNING => 1 | SUCCEEDED | FAILED | CANCELLED => 2 end.

Definition forward (tk tk' : task) : Prop :=
  tk'.(tk_key) = tk.(tk_key) /\ (rank tk.(tk_status).(StState) <= rank tk'.(tk_status).(StState))%nat /\
  (isTerminalState tk.(tk_status).(StState) = true -> tk'.(tk_status) = tk.(tk_status)).

#[export] Instance forward_preorder : PreOrder forward.
Proof.
  split; [by intros x|]. intros x y z (A1 & A2 & A3) (B1 & B2 & B3). split_and!; [congruence|lia|].
  intros T. rewrite B3; [by apply A3|]. by rewrite A3.
Qed.

Definition known (a : adapter) (id : string) : Prop := exists n, (0 < n <= a.(fake).(nextID))%nat /\ id = task_id n.

Lemma step_forward slack a a' id :
  adapter_ok a -> adapter_step slack a a' -> known a id ->
  known a' id /\ forall tk', a'.(fake).(tasks) !! id = Some tk' ->
    exists tk, a.(fake).(tasks) !! id = Some tk /\ forward tk tk'.
Proof.
  intros OK Hs (n & Hn & ->).
  assert (Same : forall a', (a.(fake).(nextID) <= a'.(fake).(nextID))%nat -> a'.(fake).(tasks) = a.(fake).(tasks) ->
    known a' (task_id n) /\ forall tk', a'.(fake).(tasks) !! task_id n = Some tk' ->
      exists tk, a.(fake).(tasks) !! task_id n = Some tk /\ forward tk tk').
  { intros b E ->. split; [exists n; split; [lia|done]|]. intros tk H. by exists tk. }
  destruct Hs as [a a' [t f gs t' _ _|t f l1 g l2 gs f' _ HA]|a req|a id|a target d|a h|a id|a b];
    try (by apply Same); clear Same.
  - destruct (ao_state _ OK g) as (tk & L & S); [simpl; rewrite elem_of_app, elem_of_cons; tauto|]. simpl in L.
    assert (T : isTerminalState tk.(tk_status).(StState) = false) by (rewrite S; by destruct (g_second g)).
    rewrite (advance_eq _ _ _ _ L T) in HA. injection HA as _ <-. split; [by exists n|]. simpl.
    intros tk'. destruct (decide (task_id n = g.(g_id))) as [->|N]; [|rewrite lookup_insert_ne by done; by exists tk'].
    rewrite lookup_insert_eq. intros [= <-]. exists tk. split; [done|]. split_and!; [done| |by rewrite T].
    simpl. unfold next_status. rewrite S. destruct (tk_cancel tk), (g_second g); simpl; try lia.
    unfold finish. destruct (tk_failWith tk), (FailWith (g_spec g)); simpl; lia.
  - unfold do_submit. pose proof (SubmitTask_cases a.(fake) a.(clock) req) as C.
    destruct (SubmitTask _ _ _) as [[r f'] g]. simpl.
    destruct C as [(e & -> & -> & ->)|[(s & id & _ & -> & _ & -> & ->)|(s & _ & -> & K & -> & ->)]];
      [split; [by exists n|intros tk ?; by exists tk]|split; [by exists n|intros tk ?; by exists tk]|].
    pose proof (submitted_ok _ a.(clock) s req (ao_fake _ OK) K) as SO.
    destruct (evictTerminal_eq _ (fo_nodup _ SO)) as (_ & ET & _ & [= _ EN _ _]). split.
    + exists n. simpl. rewrite EN. simpl. split; [lia|done].
    + intros tk'. simpl. rewrite ET. destruct (decide _); [done|]. simpl.
      rewrite lookup_insert_ne; [by exists tk'|]. intros E%task_id_inj; lia.
  - unfold on_fake, CancelTask, getTask. simpl. destruct (a.(fake).(tasks) !! id) as [tk|] eqn:L;
      [|simpl; split; [by exists n|intros tk ?; by exists tk]].
    destruct (isTerminalState _) eqn:T; simpl; split; try (by exists n); [intros x ?; by exists x|].
    intros tk'. destruct (decide (task_id n = id)) as [->|N]; [|rewrite lookup_insert_ne by done; by exists tk'].
    rewrite lookup_insert_eq. intros [= <-]. exists tk. split; [done|]. by split_and!.
  - unfold on_fake, OpenSession, known. simpl. destruct (spec _ _) as [s|]; [destruct (BrokenSessions s)|]; simpl;
      (split; [exists n; split; [lia|done]|intros tk ?; by exists tk]).
Qed.

Lemma run_forward slack a a' id tk' :
  adapter_ok a -> runs_to slack a a' -> known a id -> a'.(fake).(tasks) !! id = Some tk' ->
  exists tk, a.(fake).(tasks) !! id = Some tk /\ forward tk tk'.
Proof.
  intros OK R. revert OK. induction R as [a|a b c Hs R IH]; intros OK Kn H; [by exists tk'|].
  destruct (step_forward _ _ _ _ OK Hs Kn) as [Kn' Hf].
  destruct IH as (tk1 & H1 & F1); [by eapply adapter_step_ok|done|done|].
  destruct (Hf _ H1) as (tk & H0 & F0). exists tk. split; [done|]. by etrans.
Qed.

Lemma look_some a id st : look a id = Some st -> exists tk, a.(fake).(tasks) !! id = Some tk /\ tk.(tk_status) = st.
Proof. unfold look. intros (tk & -> & L)%fmap_Some. by exists tk. Qed.

(** Tasks only move forward, and terminal states are final: whatever
    happens after a task has a status, as long as the adapter still answers
    for it, its state never goes back, and once it has finished its status,
    result and usage never change again. *)
Lemma task_progress slack specs now a a' id s s' :
  runs_to slack (start specs now) a -> runs_to slack a a' ->
  look a id = Some s -> look a' id = Some s' ->
  (rank s.(StState) <= rank s'.(StState))%nat /\ (isTerminalState s.(StState) = true -> s' = s).
Proof.
  intros R R' H H'. pose proof (reachable_adapter_ok _ _ _ _ R) as OK.
  apply look_some in H as (tk & L & <-). apply look_some in H' as (tk' & L' & <-).
  destruct (run_forward slack a a' id tk' OK R') as (tk0 & L0 & F); [apply (fo_id _ (ao_fake _ OK)); by rewrite L|done|].
  rewrite L in L0. injection L0 as <-. split; apply F.
Qed.

(** No step adds, removes or changes a target. *)
Lemma evict_targets f : (evictTerminal f).(targets) = f.(targets).
Proof.
  unfold evictTerminal. destruct (_ <=? _); [done|].
  assert (E : forall ids n g, (evict_loop n ids g).2.(targets) = g.(targets)).
  { induction ids as [|id ids IH]; intros n g; [done|]. cbn [evict_loop]. destruct (evictable n id g) as [[t n']|].
    - by rewrite IH.
    - specialize (IH n g). by destruct (evict_loop n ids g). }
  specialize (E f.(order) (Z.to_nat (Z.of_nat (length f.(order)) - fakeTaskCap)) f). by destruct (evict_loop _ _ _).
Qed.

Lemma step_targets slack a a' : adapter_step slack a a' -> a'.(fake).(targets) = a.(fake).(targets).
Proof.
  intros Hs. destruct Hs as [a a' [|t f l1 g l2 gs f' _ HA]|a req|a id|a target d| | |]; try done; simpl.
  - unfold advance, advance1, advance2, step in HA. repeat (case_match; simplify_eq); done.
  - unfold do_submit. pose proof (SubmitTask_cases a.(fake) a.(clock) req) as C. destruct (SubmitTask _ _ _) as [[r f'] g].
    destruct C as [(e & -> & -> & ->)|[(s & id & _ & -> & _ & -> & ->)|(s & _ & -> & K & -> & ->)]]; try done.
    simpl. by rewrite evict_targets.
  - unfold CancelTask. by repeat case_match.
  - unfold OpenSession. by repeat case_match.
Qed.

Lemma run_targets slack a a' : runs_to slack a a' -> a'.(fake).(targets) = a.(fake).(targets).
Proof. induction 1 as [|x y z Hs _ IH]; [done|]. rewrite IH. by eapply step_targets. Qed.

Lemma rtc_join {A} (R : A -> A -> Prop) x y z : rtc R x y -> rtc R y z -> rtc R x z.
Proof. intros ??. by etrans. Qed.

Lemma run_ok slack a a' : adapter_ok a -> runs_to slack a a' -> adapter_ok a'.
Proof. intros OK. induction 1 as [|x y z Hs _ IH]; [done|]. apply IH. by eapply adapter_step_ok. Qed.

(** What an answered submission leaves. *)
Lemma do_submit_answered a req h :
  adapter_ok a -> (do_submit a req).1 = Ok h ->
  exists s tk, a.(fake).(targets) !! req.(SubTarget) = Some s /\ h = mkHandle s.(ID) h.(HTask) /\
    (do_submit a req).2.(fake).(tasks) !! h.(HTask) = Some tk /\ tk.(tk_key) = task_key s req.
Proof.
  intros OK. unfold do_submit. pose proof (SubmitTask_cases a.(fake) a.(clock) req) as C.
  destruct (SubmitTask _ _ _) as [[r f'] g]. simpl.
  destruct C as [(e & -> & -> & ->)|[(s & id & T & -> & K & -> & ->)|(s & T & -> & K & -> & ->)]]; [done|..]; intros [= <-].
  - apply (fo_keys _ (ao_fake _ OK)) in K as (tk & L & E). by exists s, tk.
  - pose proof (submitted_ok _ a.(clock) s req (ao_fake _ OK) K) as SO.
    destruct (evictTerminal_eq _ (fo_nodup _ SO)) as (_ & ET & _ & _).
    eexists s, _. split_and!; [done|done| |].
    + simpl. rewrite ET, decide_False; [simpl; apply lookup_insert_eq|].
      intros (_ & X)%gone_terminal. unfold is_terminal in X. simpl in X. by rewrite lookup_insert_eq in X.
    + done.
Qed.

(** Idempotency: once a submission has been answered with a task, then
    as long as the adapter retains that task every further submission under
    the same key for the same target gets that very task, starts nothing and
    changes nothing. *)
Lemma resubmission_same_task slack specs now a req h a' req' :
  runs_to slack (start specs now) a -> (do_submit a req).1 = Ok h ->
  runs_to slack (do_submit a req).2 a' -> is_Some (a'.(fake).(tasks) !! h.(HTask)) ->
  req'.(SubTarget) = req.(SubTarget) -> req'.(IdempotencyKey) = req.(IdempotencyKey) ->
  do_submit a' req' = (Ok h, a').
Proof.
  intros R H R' [tk' L'] ET EK. pose proof (reachable_adapter_ok _ _ _ _ R) as OK.
  pose proof (do_submit_ok a req OK) as OK1.
  destruct (do_submit_answered a req h OK H) as (s & tk & T & Eh & L & K).
  assert (Kn : known (do_submit a req).2 h.(HTask)) by (apply (fo_id _ (ao_fake _ OK1)); by rewrite L).
  destruct (run_forward slack _ a' _ tk' OK1 R' Kn L') as (tk0 & L0 & F & _). rewrite L in L0. injection L0 as <-.
  assert (T' : a'.(fake).(targets) !! req'.(SubTarget) = Some s).
  { rewrite ET, (run_targets _ _ _ R'), (step_targets slack a _ (as_submit slack a req)). exact T. }
  assert (K' : a'.(fake).(byKey) !! task_key s req' = Some h.(HTask)).
  { apply (fo_keys _ (ao_fake _ (run_ok _ _ _ OK1 R'))). exists tk'. split; [done|]. rewrite F, K.
    unfold task_key. by rewrite EK. }
  assert (NE : String.eqb req'.(IdempotencyKey) "" = false).
  { rewrite EK. revert H. unfold do_submit, SubmitTask, spec. rewrite T. by destruct (String.eqb _ ""). }
  unfold do_submit, SubmitTask, spec. rewrite T', NE, K'. rewrite app_nil_r, <- Eh. by destruct a'.
Qed.

(** ** Time *)

Definition delays_ok (a : adapter) : Prop := forall id s, a.(fake).(targets) !! id = Some s -> 0 <= s.(StepDelay).

(** Every routine sleeps since its task's last change, on its target's delay,
    and is not overdue by more than [slack]. *)
Definition timely (slack : Z) (a : adapter) : Prop :=
  forall g, g ∈ a.(routines) -> a.(clock) <= g.(g_wake) + slack /\
    (exists id, a.(fake).(targets) !! id = Some g.(g_spec)) /\
    exists tk, a.(fake).(tasks) !! g.(g_id) = Some tk /\ g.(g_wake) = tk.(tk_status).(StUpdatedAt) + g.(g_spec).(StepDelay).

Lemma timely_fake slack a f :
  timely slack a -> f.(targets) = a.(fake).(targets) ->
  (forall id tk, a.(fake).(tasks) !! id = Some tk -> is_live a.(fake) id ->
     exists tk', f.(tasks) !! id = Some tk' /\ tk'.(tk_status).(StUpdatedAt) = tk.(tk_status).(StUpdatedAt)) ->
  adapter_ok a -> timely slack (mkAdapter a.(clock) f a.(routines)).
Proof.
  intros T ET HT OK g Hg. destruct (T g Hg) as (H1 & H2 & tk & L & E). simpl. rewrite ET. split_and!; [done|done|].
  destruct (HT _ _ L) as (tk' & L' & E'); [|exists tk'; by rewrite E'].
  destruct (ao_state _ OK g Hg) as (tk0 & L0 & S). exists tk0. split; [done|]. rewrite S. by destruct (g_second g).
Qed.

Lemma timely_background slack a a' :
  0 <= slack -> delays_ok a -> adapter_ok a -> timely slack a -> background slack a a' -> timely slack a'.
Proof.
  intros Hs HD OK T B. destruct B as [t f gs t' _ Hu|t f l1 g l2 gs f' _ HA].
  - intros g Hg. destruct (T g Hg) as (_ & H). split; [by apply Hu|exact H].
  - destruct (ao_state _ OK g) as (tk & L & S); [simpl; rewrite elem_of_app, elem_of_cons; tauto|]. simpl in L.
    assert (NT : isTerminalState tk.(tk_status).(StState) = false) by (rewrite S; by destruct (g_second g)).
    rewrite (advance_eq _ _ _ _ L NT) in HA. injection HA as <- <-. pose proof (ao_nodup _ OK) as N. simpl in N.
    intros x Hx. simpl in Hx. rewrite !elem_of_app in Hx.
    assert (HO : x ∈ l1 \/ x ∈ l2 -> x.(g_id) <> g.(g_id) /\ x ∈ l1 ++ g :: l2).
    { intros H. split; [|rewrite elem_of_app, elem_of_cons; tauto]. intros E.
      rewrite fmap_app, fmap_cons in N. apply NoDup_app in N as (_ & N2 & N3). apply NoDup_cons in N3 as [N3 _].
      destruct H as [H|H]; apply (list_elem_of_fmap_2 g_id) in H; rewrite E in H; [|done]. apply (N2 _ H). left. }
    assert (HX : x ∈ l1 \/ x ∈ l2 \/ x ∈ continues t g tk) by tauto. clear Hx.
    assert (D : (exists id, f.(targets) !! id = Some g.(g_spec)) /\ 0 <= g.(g_spec).(StepDelay)).
    { destruct (T g) as (_ & (id & Hid) & _); [simpl; rewrite elem_of_app, elem_of_cons; tauto|].
      split; [by exists id|]. by eapply (HD id). }
    destruct HX as [HX|[HX|HX]].
    1-2: destruct HO as [Ne Hin]; [tauto|]; destruct (T x Hin) as (H1 & H2 & tk' & L' & E'); simpl;
      (split_and!; [done|done|]); exists tk'; rewrite lookup_insert_ne by done; done.
    unfold continues in HX. destruct (_ && _) eqn:C; [|by apply elem_of_nil in HX].
    apply list_elem_of_singleton in HX as ->. simpl. split_and!; [lia|apply D|].
    eexists. rewrite lookup_insert_eq. split; [done|]. simpl. unfold next_status. simpl. reflexivity.
Qed.

Lemma timely_step slack a a' :
  0 <= slack -> delays_ok a -> adapter_ok a -> timely slack a -> adapter_step slack a a' -> timely slack a'.
Proof.
  intros Hs HD OK T St. destruct St as [a a' B|a req|a id|a target d|a h|a id|a b].
  - by eapply timely_background.
  - unfold do_submit. pose proof (SubmitTask_cases a.(fake) a.(clock) req) as C.
    destruct (SubmitTask _ _ _) as [[r f'] g]. simpl.
    destruct C as [(e & -> & -> & ->)|[(s & id & _ & -> & _ & -> & ->)|(s & TS & -> & K & -> & ->)]];
      [by rewrite app_nil_r; destruct a|by rewrite app_nil_r; destruct a|].
    pose proof (submitted_ok _ a.(clock) s req (ao_fake _ OK) K) as SO. pose proof (fresh_id _ (ao_fake _ OK)) as Fr.
    destruct (evictTerminal_eq _ (fo_nodup _ SO)) as (_ & ET & _ & [= EG _ _ _]).
    assert (Keep : forall id tk, (submitted a.(fake) a.(clock) s req).(tasks) !! id = Some tk ->
      isTerminalState tk.(tk_status).(StState) = false ->
      (evictTerminal (submitted a.(fake) a.(clock) s req)).(tasks) !! id = Some tk).
    { intros id tk L X. rewrite ET, decide_False; [done|]. intros (_ & Y)%gone_terminal. unfold is_terminal in Y.
      rewrite L in Y. congruence. }
    assert (T1 : timely slack (mkAdapter a.(clock) (evictTerminal (submitted a.(fake) a.(clock) s req)) a.(routines))).
    { apply timely_fake; try done. intros id tk L (tk0 & L0 & X). rewrite L in L0. injection L0 as <-. exists tk.
      split; [|done]. apply Keep; [|done]. simpl. rewrite lookup_insert_ne; [done|]. intros <-. congruence. }
    intros g Hg. simpl in Hg. apply elem_of_app in Hg as [Hg|Hg]; [by apply (T1 g)|].
    apply list_elem_of_singleton in Hg as ->. simpl. pose proof (HD _ _ TS). split_and!; [lia| |].
    + exists req.(SubTarget). rewrite EG. exact TS.
    + eexists. split; [apply Keep; [simpl; apply lookup_insert_eq|done]|done].
  - unfold on_fake. apply timely_fake; try done.
    + unfold CancelTask. by repeat case_match.
    + intros x tk L _. unfold CancelTask, getTask. destruct (a.(fake).(tasks) !! id) as [tk1|] eqn:L1; [|by exists tk].
      simpl. destruct (isTerminalState _); simpl; [by exists tk|]. destruct (decide (x = id)) as [->|N].
      * rewrite lookup_insert_eq. eexists. split; [done|]. simpl. congruence.
      * rewrite lookup_insert_ne by done. by exists tk.
  - unfold on_fake. apply timely_fake; try done; unfold OpenSession; repeat case_match; simpl; eauto.
  - apply timely_fake; try done; eauto.
  - apply timely_fake; try done; eauto.
  - apply timely_fake; try done; eauto.
Qed.

Lemma New_targets specs id s :
  (New specs).(targets) !! id = Some s -> exists s0, s0 ∈ specs /\ s = with_defaults s0 /\ id = s0.(ID).
Proof.
  unfold New. simpl. assert (G : forall m : gmap string TargetSpec, fold_left (fun m s => <[s.(ID) := with_defaults s]> m) specs m !! id = Some s ->
    m !! id = Some s \/ exists s0, s0 ∈ specs /\ s = with_defaults s0 /\ id = s0.(ID)).
  { induction specs as [|x specs IH]; intros m H; simpl in *; [by left|].
    apply IH in H as [H|(s0 & H & E)]; [|right; exists s0; split; [by right|done]].
    destruct (decide (id = x.(ID))) as [->|N]; [|rewrite lookup_insert_ne in H by done; by left].
    rewrite lookup_insert_eq in H. injection H as <-. right. exists x. split; [left|done]. }
  intros H. destruct (G ∅ H) as [?|]; [done|done].
Qed.

Lemma start_delays specs now :
  Forall (fun s => 0 <= s.(StepDelay)) specs -> delays_ok (start specs now).
Proof.
  intros F id s H. destruct (New_targets _ _ _ H) as (s0 & Hs & -> & _). rewrite Forall_forall in F.
  specialize (F s0 Hs). simpl. unfold millisecond. destruct (Z.eqb_spec (StepDelay s0) 0); lia.
Qed.

Lemma reachable_timely slack specs now a :
  0 <= slack -> Forall (fun s => 0 <= s.(StepDelay)) specs -> runs_to slack (start specs now) a ->
  delays_ok a /\ timely slack a.
Proof.
  intros Hs HF R. pose proof (start_ok specs now) as OK. pose proof (start_delays specs now HF) as D.
  assert (T : timely slack (start specs now)) by (by intros g ?%elem_of_nil).
  revert OK D T. generalize dependent (start specs now). intros a0 R. induction R as [|x y z St _ IH]; [done|].
  intros OK D T. apply IH.
  - by eapply adapter_step_ok.
  - intros id s. rewrite (step_targets _ _ _ St). apply D.
  - by eapply timely_step.
Qed.

(** (C39) No task is stuck: if every goroutine runs within [slack] of its
    wake-up, then in every reachable state a task that is not finished last
    changed its state at most one step delay and [slack] ago.  As there are
    only two changes, every accepted task finishes in bounded time. *)
Theorem task_never_stuck slack specs now a id tk :
  0 <= slack -> Forall (fun s => 0 <= s.(StepDelay)) specs -> runs_to slack (start specs now) a ->
  a.(fake).(tasks) !! id = Some tk -> isTerminalState tk.(tk_status).(StState) = false ->
  exists s, (exists t, a.(fake).(targets) !! t = Some s) /\ a.(clock) <= tk.(tk_status).(StUpdatedAt) + s.(StepDelay) + slack.
Proof.
  intros Hs HF R L NT. destruct (reachable_timely _ _ _ _ Hs HF R) as [_ T].
  destruct (ao_live _ (reachable_adapter_ok _ _ _ _ R) id) as (g & Hg & <-); [by exists tk|].
  destruct (T g Hg) as (H1 & H2 & tk' & L' & E). rewrite L in L'. injection L' as <-.
  exists g.(g_spec). split; [done|lia].
Qed.

(** ** A watcher whose task is evicted *)

Definition calm (f : Fake) : Prop := forall id, is_terminal f id = false.

Lemma calm_gone f : calm f -> gone f = [].
Proof.
  intros C. unfold gone, evicted. assert (E : List.filter (is_terminal f) f.(order) = []); [|by rewrite E, take_nil].
  induction (order f) as [|x l IH]; [done|]. simpl. by rewrite C.
Qed.

Definition probe_request (target key : string) : SubmitTaskRequest := mkSubmit target key "openqasm3" "" 1 "" "".

Lemma fresh_key f s : exists k, k <> "" /\ f.(byKey) !! task_key s (probe_request s.(ID) k) = None.
Proof.
  set (used := {[""]} ∪ set_map (D := gset string) (drop (String.length (s.(ID) +:+ "/"))) (dom f.(byKey))).
  exists (fresh used). pose proof (is_fresh used) as Fr. split; [intros E; apply Fr; rewrite E; set_solver|].
  apply not_elem_of_dom. intros H. apply Fr. apply elem_of_union. right. apply elem_of_map. eexists. split; [|exact H].
  unfold task_key, probe_request. cbn [IdempotencyKey].
  by rewrite <- append_assoc, drop_append.
Qed.

(** One more submission to a target while nothing has finished. *)
Lemma submit_calm a s :
  adapter_ok a -> calm a.(fake) -> a.(fake).(targets) !! s.(ID) = Some s ->
  exists req, let a' := (do_submit a req).2 in
    calm a'.(fake) /\ length a'.(fake).(order) = S (length a.(fake).(order)) /\
    (forall id tk, a.(fake).(tasks) !! id = Some tk -> a'.(fake).(tasks) !! id = Some tk) /\
    a'.(clock) = a.(clock) /\ exists g tk, a'.(routines) = a.(routines) ++ [g] /\ a.(clock) + s.(StepDelay) = g.(g_wake) /\
      g.(g_spec) = s /\ g.(g_second) = false /\ a'.(fake).(tasks) !! g.(g_id) = Some tk /\ tk.(tk_cancel) = false.
Proof.
  intros OK C T. destruct (fresh_key a.(fake) s) as (k & Hk & K). exists (probe_request s.(ID) k).
  unfold do_submit. pose proof (SubmitTask_cases a.(fake) a.(clock) (probe_request s.(ID) k)) as X.
  assert (NE : forall e f g, SubmitTask a.(fake) a.(clock) (probe_request s.(ID) k) <> (Err e, f, g)).
  { intros e f g. unfold SubmitTask, spec. cbn [SubTarget probe_request]. rewrite T. cbn [IdempotencyKey probe_request].
    rewrite (proj2 (String.eqb_neq k "")) by done. by destruct (byKey _ !! _). }
  destruct (SubmitTask _ _ _) as [[r f'] g].
  destruct X as [(e & -> & _)|[(s0 & id & T0 & _ & K0 & _)|(s0 & T0 & -> & _ & -> & ->)]]; [by edestruct NE|simpl in *; congruence|].
  simpl in T0. rewrite T in T0. injection T0 as <-.
  set (f1 := submitted a.(fake) a.(clock) s (probe_request s.(ID) k)).
  pose proof (fresh_id _ (ao_fake _ OK)) as Fr.
  pose proof (submitted_ok _ a.(clock) s _ (ao_fake _ OK) K) as SO. fold f1 in SO.
  assert (C1 : calm f1).
  { intros id. unfold is_terminal, f1. simpl. destruct (decide (id = task_id (S (nextID (fake a))))) as [->|N].
    - by rewrite lookup_insert_eq.
    - rewrite lookup_insert_ne by done. apply C. }
  destruct (evictTerminal_eq f1 (fo_nodup _ SO)) as (EO & ET & _ & _). rewrite (calm_gone _ C1) in EO, ET. simpl.
  assert (ET' : forall id, (evictTerminal f1).(tasks) !! id = f1.(tasks) !! id) by (intros id; by rewrite ET).
  assert (EO' : (evictTerminal f1).(order) = f1.(order)).
  { rewrite EO. clear. induction (order f1) as [|x l IH]; [done|]. rewrite filter_cons_True by apply not_elem_of_nil. by rewrite IH. }
  split_and!.
  - intros id. unfold is_terminal. rewrite ET'. apply C1.
  - rewrite EO'. unfold f1. simpl. rewrite length_app. simpl. lia.
  - intros id tk L. rewrite ET'. unfold f1. simpl. rewrite lookup_insert_ne; [done|]. intros <-. congruence.
  - done.
  - eexists _, _. do 4 (split; [done|]). split; [cbn [g_id]; rewrite ET'; unfold f1; simpl; apply lookup_insert_eq|done].
Qed.

Lemma submit_many slack n a s :
  adapter_ok a -> calm a.(fake) -> a.(fake).(targets) !! s.(ID) = Some s ->
  exists a' gs, runs_to slack a a' /\ calm a'.(fake) /\ length a'.(fake).(order) = (n + length a.(fake).(order))%nat /\
    (forall id tk, a.(fake).(tasks) !! id = Some tk -> a'.(fake).(tasks) !! id = Some tk) /\
    a'.(clock) = a.(clock) /\ a'.(routines) = a.(routines) ++ gs /\ Forall (fun g => a.(clock) + s.(StepDelay) <= g.(g_wake)) gs.
Proof.
  intros OK C T. induction n as [|n (a1 & gs & R & C1 & Len & Keep & Ck & Ro & F)].
  { exists a, []. rewrite app_nil_r. split_and!; try done. apply rtc_refl. }
  assert (T1 : a1.(fake).(targets) !! s.(ID) = Some s) by (by rewrite (run_targets _ _ _ R)).
  destruct (submit_calm a1 s (run_ok _ _ _ OK R) C1 T1) as (req & C2 & L2 & K2 & Ck2 & g & tk & Ro2 & W & _).
  exists (do_submit a1 req).2, (gs ++ [g]). split_and!; [|done|lia|eauto|congruence|by rewrite Ro2, Ro, <- app_assoc|].
  - eapply rtc_r; [exact R|apply as_submit].
  - apply Forall_app. split; [done|]. constructor; [|done]. rewrite <- W, Ck. lia.
Qed.

(** The first goroutine's next two steps, at the times it sleeps until. *)
Lemma run_first slack t f g gs tk :
  0 <= slack -> f.(tasks) !! g.(g_id) = Some tk -> isTerminalState tk.(tk_status).(StState) = false ->
  t <= g.(g_wake) -> Forall (fun x => g.(g_wake) <= x.(g_wake)) gs ->
  let t' := g.(g_wake) in
  runs_to slack (mkAdapter t f (g :: gs))
    (mkAdapter t' (set_tasks (<[g.(g_id) := with_status tk (next_status t' g tk f.(garbage))]> f.(tasks)) f)
       (continues t' g tk ++ gs)).
Proof.
  intros Hs L NT Ht F t'. eapply rtc_l; [apply as_background, (bg_tick _ _ _ _ t'); [done|]|].
  - intros x [->|Hx]%elem_of_cons; [lia|]. rewrite Forall_forall in F. specialize (F x Hx). unfold t'. lia.
  - apply rtc_once, as_background. apply (bg_advance slack t' f [] g gs); [done|]. by apply advance_eq.
Qed.

Lemma filter_singleton {A} (p : A -> bool) (l : list A) x :
  NoDup l -> x ∈ l -> p x = true -> (forall y, y <> x -> p y = false) -> List.filter p l = [x].
Proof.
  intros N Hx Px Hp. induction N as [|y l Hy N IH]; [by apply elem_of_nil in Hx|]. simpl.
  assert (Z : x ∉ l -> List.filter p l = []).
  { clear -Hp. induction l as [|z l IH]; [done|]. intros Hx. simpl. rewrite Hp, IH; set_solver. }
  apply elem_of_cons in Hx as [<-|Hx]; [by rewrite Px, Z|]. rewrite Hp by (by intros ->). by apply IH.
Qed.

(** With the table full of unfinished tasks, the first one's last step and one
    more submission evict it. *)
Lemma evicted_after_step slack a s g gs tk :
  0 <= slack -> adapter_ok a -> calm a.(fake) -> a.(fake).(targets) !! s.(ID) = Some s ->
  a.(routines) = g :: gs -> g.(g_second) = true -> a.(clock) <= g.(g_wake) -> Forall (fun x => g.(g_wake) <= x.(g_wake)) gs ->
  a.(fake).(tasks) !! g.(g_id) = Some tk -> fakeTaskCap <= Z.of_nat (length a.(fake).(order)) ->
  exists a', runs_to slack a a' /\ a'.(fake).(tasks) !! g.(g_id) = None.
Proof.
  intros Hs OK C T Ro Sd Ck F L Len. pose proof (C g.(g_id)) as NT. unfold is_terminal in NT. rewrite L in NT.
  pose proof (run_first slack a.(clock) a.(fake) g gs tk Hs L NT Ck F) as R. cbv zeta in R.
  set (a1 := mkAdapter g.(g_wake) _ _) in R.
  assert (R' : runs_to slack a a1) by (destruct a; simpl in *; subst; exact R). clear R.
  pose proof (run_ok slack _ _ OK R') as OK1.
  set (st := next_status g.(g_wake) g tk a.(fake).(garbage)) in a1.
  assert (TT : isTerminalState st.(StState) = true).
  { unfold st, next_status. rewrite Sd. destruct (tk_cancel tk); simpl; [done|].
    unfold finish. by destruct (tk_failWith tk), (FailWith (g_spec g)). }
  destruct (fresh_key a1.(fake) s) as (k & Hk & K).
  exists (do_submit a1 (probe_request s.(ID) k)).2. split; [by eapply rtc_r; [exact R'|apply as_submit]|].
  unfold do_submit, SubmitTask, spec. cbn [SubTarget probe_request]. change (targets (fake a1)) with (targets (fake a)). rewrite T.
  cbn [IdempotencyKey probe_request]. rewrite (proj2 (String.eqb_neq k "")) by done. rewrite K. cbn [fst snd fake].
  pose proof (submitted_ok a1.(fake) a1.(clock) s (probe_request s.(ID) k) (ao_fake _ OK1) K) as SO.
  destruct (evictTerminal_eq _ (fo_nodup _ SO)) as (_ & ET & _ & _). fold (submitted a1.(fake) a1.(clock) s (probe_request s.(ID) k)).
  set (f1 := submitted _ _ _ _) in *. rewrite ET. rewrite decide_True; [done|].
  pose proof (fresh_id _ (ao_fake _ OK1)) as Fr.
  assert (L1 : a1.(fake).(tasks) !! g.(g_id) = Some (with_status tk st)) by (simpl; by rewrite lookup_insert_eq).
  assert (Lf : f1.(tasks) !! g.(g_id) = Some (with_status tk st)).
  { unfold f1, submitted. cbn [tasks]. rewrite lookup_insert_ne; [exact L1|]. intros E. rewrite E in Fr. congruence. }
  unfold gone, evicted. rewrite (filter_singleton _ _ g.(g_id)).
  - unfold excess. assert (0 < Z.of_nat (length f1.(order)) - fakeTaskCap).
    { unfold f1, submitted. cbn [order]. rewrite length_app. simpl in *. lia. }
    destruct (Z.to_nat _) as [|n] eqn:E; [lia|]. simpl. left.
  - apply (fo_nodup _ SO).
  - apply (fo_order _ SO). by rewrite Lf.
  - unfold is_terminal. by rewrite Lf.
  - intros y Ny. unfold is_terminal, f1, submitted. cbn [tasks].
    destruct (decide (y = task_id (S a1.(fake).(nextID)))) as [->|Nn]; [by rewrite lookup_insert_eq|].
    rewrite lookup_insert_ne by done. simpl. rewrite lookup_insert_ne by done. apply C.
Qed.

(** ** Reads of a live status *)

Lemma torn_here st : torn [st] st.
Proof. unfold torn. split_and!; exists st; (split; [by left|reflexivity]). Qed.

(** A turn during which nothing happens. *)
Lemma turn_at_once R id last a st :
  look a id = Some st -> last <> Some st.(StState) -> WatchTask_turn R id last a (Sent st st.(StState)) a.
Proof.
  intros L N. eapply wt_sent; [exact L|apply pt_here|exact N|apply pt_here|apply ma_ok, torn_here|apply pt_here].
Qed.

Section Undisturbed.
Context (slack : Z) (id : string).
Abbreviation rest := (undisturbed slack id).

Lemma pointed_still a st l a' st' :
  pointed rest id a st l a' st' -> look a id = Some st ->
  rtc (background slack) a a' /\ st' = st /\ look a' id = Some st /\ Forall (fun x => x = st) l.
Proof.
  induction 1 as [a st|a st a1 l a' st' [B E] _ IH]; intros L.
  - split_and!; [apply rtc_refl|done|done|by constructor].
  - rewrite E, L in IH. destruct IH as (R & -> & L' & F); [done|].
    split_and!; [by eapply rtc_l|done|done|by constructor].
Qed.

Lemma marshalled_still l st r : Forall (fun x => x = st) l -> marshalled l r -> r = Ok st.
Proof.
  rewrite Forall_forall. intros F [m ((? & H1%F & E1) & (? & H2%F & E2) & (? & H3%F & E3) & (? & H4%F & E4) & (? & H5%F & E5))|e x y Hx Hy N].
  - destruct m, st. simpl in *. by subst.
  - apply F in Hx as ->, Hy as ->. done.
Qed.

Lemma GetTask_still a r a' :
  GetTask rest id a r a' ->
  rtc (background slack) a a' /\
  match look a id with Some st => r = Ok st /\ look a' id = Some st | None => r = Err (task_not_found id) /\ a' = a end.
Proof.
  unfold look. intros [a0 e G|a0 tk l a1 st r0 G P M]; unfold getTask in G; destruct (_ !! id) as [tk0|] eqn:L; simplify_eq.
  - split; [apply rtc_refl|]. by split.
  - apply pointed_still in P as (R & _ & L' & F); [|unfold look; by rewrite L].
    split; [done|]. split; [by eapply marshalled_still|done].
Qed.

Lemma turn_still last a o a' :
  WatchTask_turn rest id last a o a' ->
  rtc (background slack) a a' /\
  match o with
  | NilTask => look a' id = None
  | Unchanged => exists st, look a' id = Some st /\ last = Some st.(StState)
  | Sent m st => look a' id = Some m /\ st = m.(StState) /\ last <> Some st
  | SendFailed _ => False
  end.
Proof.
  intros [a0 L|a0 st l a1 st1 L P E|a0 st l a1 st1 l1 a2 st2 e L P N P1 M|a0 st l a1 st1 l1 a2 st2 l2 a3 st3 m L P N P1 M P2].
  - split; [apply rtc_refl|done].
  - destruct (pointed_still _ _ _ _ _ P L) as (R & -> & L1 & _). split; [done|by exists st].
  - destruct (pointed_still _ _ _ _ _ P L) as (R & -> & L1 & _). destruct (pointed_still _ _ _ _ _ P1 L1) as (_ & _ & _ & F).
    by apply (marshalled_still _ _ _ F) in M.
  - destruct (pointed_still _ _ _ _ _ P L) as (R & -> & L1 & _). destruct (pointed_still _ _ _ _ _ P1 L1) as (R1 & -> & L2 & F).
    destruct (pointed_still _ _ _ _ _ P2 L2) as (R2 & -> & L3 & _). apply (marshalled_still _ _ _ F) in M as [= ->].
    split; [|by split_and!]. etrans; [exact R|]. by etrans.
Qed.
End Undisturbed.

(** Retention can strand a watcher.  A task can finish and be evicted
    between two polls of [WatchTask]: the loop has just reported the task as
    RUNNING, 8192 others were submitted meanwhile, and after the task's own
    last step and one more submission the loop looks it up and finds nothing,
    which in the source is the dereference of a nil pointer.  This happens
    for every target without injected failure. *)
Lemma watcher_of_evicted_task slack specs now s :
  0 <= slack -> 0 <= s.(StepDelay) -> (New specs).(targets) !! s.(ID) = Some s ->
  exists id a1 a2 st, runs_to slack (start specs now) a1 /\ runs_to slack a1 a2 /\
    WatchTask_turn (adapter_step slack) id None a1 (Sent st RUNNING) a1 /\ st.(StState) = RUNNING /\
    WatchTask_turn (adapter_step slack) id (Some RUNNING) a2 NilTask a2.
Proof.
  intros Hs Hd T. pose proof (start_ok specs now) as OK0.
  destruct (submit_calm (start specs now) s OK0 (fun _ => eq_refl) T) as (r1 & C1 & N1 & _ & Ck1 & g & tk & Ro1 & W & Sp & Sd & L1 & Cn).
  set (a1 := (do_submit (start specs now) r1).2) in *. assert (R1 : runs_to slack (start specs now) a1) by apply rtc_once, as_submit.
  pose proof (run_ok slack _ _ OK0 R1) as OK1. pose proof (C1 g.(g_id)) as NT. unfold is_terminal in NT. rewrite L1 in NT.
  pose proof (run_first slack a1.(clock) a1.(fake) g [] tk Hs L1 NT ltac:(simpl in *; lia) (Forall_nil_2 _)) as R2.
  cbv zeta in R2. assert (Cont : continues g.(g_wake) g tk
    = [mkRoutine g.(g_spec) g.(g_id) g.(g_shots) true (g.(g_wake) + g.(g_spec).(StepDelay))]) by (unfold continues; by rewrite Cn, Sd).
  rewrite Cont in R2. cbn [app] in R2. set (a2 := mkAdapter g.(g_wake) _ _) in R2.
  assert (R2' : runs_to slack a1 a2) by (simpl in Ro1; destruct a1; simpl in *; subst; exact R2). clear R2.
  set (st := next_status g.(g_wake) g tk a1.(fake).(garbage)) in a2.
  assert (St : st.(StState) = RUNNING) by (unfold st, next_status; by rewrite Cn, Sd).
  pose proof (run_ok slack _ _ OK1 R2') as OK2.
  assert (L2 : a2.(fake).(tasks) !! g.(g_id) = Some (with_status tk st)) by (simpl; by rewrite lookup_insert_eq).
  assert (C2 : calm a2.(fake)).
  { intros x. unfold is_terminal. destruct (decide (x = g.(g_id))) as [->|Ne]; [rewrite L2; cbn [tk_status with_status]; by rewrite St|].
    simpl. rewrite lookup_insert_ne by done. apply C1. }
  assert (T2 : a2.(fake).(targets) !! s.(ID) = Some s) by (by rewrite (run_targets _ _ _ R2'), (run_targets _ _ _ R1)).
  destruct (submit_many slack (Z.to_nat fakeTaskCap) a2 s OK2 C2 T2) as (a3 & gs & R3 & C3 & N3 & K3 & Ck3 & Ro3 & F3).
  pose proof (run_ok slack _ _ OK2 R3) as OK3. specialize (K3 _ _ L2).
  destruct (evicted_after_step slack a3 s (mkRoutine g.(g_spec) g.(g_id) g.(g_shots) true (g.(g_wake) + g.(g_spec).(StepDelay)))
    gs (with_status tk st)) as (a4 & R4 & E4); try done.
  - by rewrite (run_targets _ _ _ R3).
  - rewrite Ck3. simpl. rewrite Sp. lia.
  - simpl. rewrite Sp. exact F3.
  - rewrite N3, Nat2Z.inj_add, Z2Nat.id by done. lia.
  - exists g.(g_id), a2, a4, st. split_and!; [by eapply rtc_join|by eapply rtc_join| |done|].
    + rewrite <- St. apply turn_at_once; [|done]. unfold look. by rewrite L2.
    + apply wt_nil. unfold look. simpl in E4. by rewrite E4.
Qed.

(** ** A concrete adapter *)

Definition demo_spec : TargetSpec := mkSpec "q" 5 ["openqasm3"] 1000 "" [] None false false 0.
Definition demo_start : adapter := start [demo_spec] 0.
Definition demo_request : SubmitTaskRequest := mkSubmit "q" "k1" "openqasm3" "OPENQASM 3.0;" 101 "" "".
Definition demo_submitted : adapter := (do_submit demo_start demo_request).2.

Definition demo_routine (second : bool) (wake : Z) : routine :=
  mkRoutine (with_defaults demo_spec) "fake-task-1" 101 second wake.
Definition demo_running : adapter :=
  mkAdapter 10000000 (default demo_submitted.(fake) (snd <$> advance 10000000 (demo_routine false 10000000) demo_submitted.(fake)))
    [demo_routine true 20000000].
Definition demo_done : adapter :=
  mkAdapter 20000000 (default demo_running.(fake) (snd <$> advance 20000000 (demo_routine true 20000000) demo_running.(fake))) [].

Lemma demo_submitted_run : runs_to 0 demo_start demo_submitted.
Proof. apply rtc_once, as_submit. Qed.

Lemma adapter_well_typed_witness :
  runs_to 0 demo_start demo_submitted /\ NoDup (g_id <$> demo_submitted.(routines)).
Proof. split; [exact demo_submitted_run|]. apply (adapter_well_typed 0 [demo_spec] 0 _ demo_submitted_run). Defined.

Lemma demo_running_run : runs_to 0 demo_submitted demo_running.
Proof.
  eapply rtc_l; [apply as_background, (bg_tick 0 0 demo_submitted.(fake) [demo_routine false 10000000] 10000000)|].
  - done.
  - intros g ->%list_elem_of_singleton. done.
  - apply rtc_once, as_background. apply (bg_advance 0 10000000 demo_submitted.(fake) [] (demo_routine false 10000000) [] [demo_routine true 20000000]); done.
Qed.

Lemma demo_done_run : runs_to 0 demo_running demo_done.
Proof.
  eapply rtc_l; [apply as_background, (bg_tick 0 10000000 demo_running.(fake) [demo_routine true 20000000] 20000000)|].
  - done.
  - intros g ->%list_elem_of_singleton. done.
  - apply rtc_once, as_background. apply (bg_advance 0 20000000 demo_running.(fake) [] (demo_routine true 20000000) [] []); done.
Qed.

Definition status_of (a : adapter) : Status :=
  default (mkState STATE_UNSPECIFIED 0 None [] None) (look a "fake-task-1").

Example demo_succeeds :
  (status_of demo_done).(StState) = SUCCEEDED /\
  ResInline <$> (status_of demo_done).(StResult) = Some (counts_json 101).
Proof. vm_compute. by split. Qed.

Lemma task_progress_witness :
  runs_to 0 demo_start demo_running /\ (rank (status_of demo_running).(StState) <= rank (status_of demo_done).(StState))%nat.
Proof.
  assert (R : runs_to 0 demo_start demo_running) by (eapply rtc_join; [exact demo_submitted_run|exact demo_running_run]).
  split; [exact R|].
  apply (task_progress 0 [demo_spec] 0 demo_running demo_done "fake-task-1" _ _ R demo_done_run); vm_compute; reflexivity.
Defined.

Lemma resubmission_same_task_witness :
  (do_submit demo_start demo_request).1 = Ok (mkHandle "q" "fake-task-1") /\
  do_submit demo_done demo_request = (Ok (mkHandle "q" "fake-task-1"), demo_done).
Proof.
  split; [vm_compute; reflexivity|].
  apply (resubmission_same_task 0 [demo_spec] 0 demo_start demo_request (mkHandle "q" "fake-task-1") demo_done demo_request);
    try reflexivity; try (vm_compute; reflexivity).
  - eapply rtc_join; [exact demo_running_run|exact demo_done_run].
  - vm_compute. by eexists.
Defined.

Lemma task_never_stuck_witness :
  isTerminalState (status_of demo_running).(StState) = false /\
  exists s, (exists t, demo_running.(fake).(targets) !! t = Some s) /\
    demo_running.(clock) <= (status_of demo_running).(StUpdatedAt) + s.(StepDelay) + 0.
Proof.
  split; [vm_compute; reflexivity|].
  apply (task_never_stuck 0 [demo_spec] 0 demo_running "fake-task-1"
           (mkTask (status_of demo_running) false None "q/k1")); try (vm_compute; reflexivity).
  - done.
  - by constructor.
  - eapply rtc_join; [exact demo_submitted_run|exact demo_running_run].
Defined.

Lemma watcher_of_evicted_task_witness :
  (New [demo_spec]).(targets) !! "q" = Some (with_defaults demo_spec) /\
  exists id a1 a2 st, runs_to 0 (start [demo_spec] 0) a1 /\ runs_to 0 a1 a2 /\
    WatchTask_turn (adapter_step 0) id None a1 (Sent st RUNNING) a1 /\ st.(StState) = RUNNING /\
    WatchTask_turn (adapter_step 0) id (Some RUNNING) a2 NilTask a2.
Proof.
  split; [vm_compute; reflexivity|].
  apply (watcher_of_evicted_task 0 [demo_spec] 0 (with_defaults demo_spec)); [done|done|vm_compute; reflexivity].
Defined.
