(* ===== verification/Delivery.v ===== *)
(** * One run on the device per job

    The executors of [Dispatch] against the adapter of [Adapter]: what a
    process asks an adapter to run is a function of the job's rows, so a
    process that takes over after a crash asks for the same thing under the
    same key, and the adapter answers with the task it already has. *)

From S2P Require Import Prelude Float64 GoLib Phase Database JobStore Tables Lifecycle Prog Dispatch DispatchProps Adapter AdapterProps.

Section Delivery.
Context (errtext : libcall -> string -> string) (jd : string -> option (option doc)) (b64 : string -> string).

(** ** What is submitted

    A request, but for its session, is determined by the job's row and its
    task's: the task's identifier as the key, the task's target, the job's
    payload and tenant. *)
Record submission (id site : string) (req : SubmitTaskRequest) (d : db) : Prop := mkSubmission {
  sub_task : exists target, task_row d req.(IdempotencyKey) id target /\ cut_target target = (site, req.(SubTarget));
  sub_job : exists r payload shots, d.(jobs) !! id = Some r /\ payloadFor errtext r.(Doc) = Ok (payload, shots) /\
    (req.(PayloadFormat), req.(PayloadInline), req.(SubShots), req.(TenantHint)) =
    (payload.(PlFormat), payload.(PlInline), shots, r.(Tenant)) }.

Lemma submission_step id site req d d' : store_step d d' -> submission id site req d -> submission id site req d'.
Proof.
  intros St [(target & T & C) (r & pl & shots & Hr & P & E)]. split.
  - exists target. split; [exact (task_row_step _ _ _ _ _ St T)|exact C].
  - destruct (step_evolves _ _ _ _ St Hr) as (r' & Hr' & _ & ET & _ & ED & _).
    exists r', pl, shots. by rewrite ED, ET.
Qed.

Lemma submission_run id site req d d' : rtc store_step d d' -> submission id site req d -> submission id site req d'.
Proof. induction 1; eauto using submission_step. Qed.

Definition same_request (req req' : SubmitTaskRequest) : Prop :=
  req' = mkSubmit req.(SubTarget) req.(IdempotencyKey) req.(PayloadFormat) req.(PayloadInline)
           req.(SubShots) req'.(SubSession) req.(TenantHint).

Lemma submission_unique id site site' req req' d :
  Inv d -> submission id site req d -> submission id site' req' d -> site' = site /\ same_request req req'.
Proof.
  intros I [(g & (x & Hx & Ej & <-) & C) (r & pl & shots & Hr & P & E)] [(g' & (x' & Hx' & Ej' & <-) & C') (r' & pl' & shots' & Hr' & P' & E')].
  rewrite Hr in Hr'. injection Hr' as <-. rewrite P in P'. injection P' as <- <-.
  assert (K : req.(IdempotencyKey) = req'.(IdempotencyKey)) by (eapply (inv_task_one d I); [exact Hx|exact Hx'|congruence]).
  rewrite K, Hx' in Hx. injection Hx as ->. rewrite C in C'. injection C' as -> T.
  split; [done|]. unfold same_request. destruct req, req'. cbn in *. congruence.
Qed.

(** ** Executors submit nothing else *)

Definition asks (id : string) (a : ask) (d : db) : Prop :=
  match a with AskSubmit site req => submission id site req d | AskSpawn _ _ _ => False end.

Lemma asks_quiet {A} id (p : prog A) d : quiet p -> obeys (asks id) (fun _ _ => True) p d.
Proof. intros Q. apply (obeys_quiet _ (fun _ => True)); by intros. Qed.

Lemma execute_asks n rec t g d :
  handed rec t g d -> obeys (asks rec.(JobID)) (fun _ _ => True) (execute errtext jd b64 n rec t g) d.
Proof.
  intros H. unfold execute. destruct (cut_target g) as [site tid] eqn:G.
  intros d1 R1. apply (handed_run _ _ _ _ _ R1) in H. intros []; cbn [negb]; [|apply asks_quiet, fails_quiet].
  destruct (payloadFor errtext rec.(Doc)) as [[pl shots]|e] eqn:P; [|apply asks_quiet, fails_quiet].
  eapply obeys_bind; [eapply (obeys_quiet _ (handed rec t g)); [by apply handed_step|apply sessionForExecution_quiet|exact H]|].
  clear d1 R1 H. intros [s|] d1 H; [|by apply asks_quiet].
  intros d2 R2. apply (handed_run _ _ _ _ _ R2) in H.
  destruct H as [B (r & Hr & ED & ET) T]. split.
  - split; [by exists g|]. exists r, pl, shots. by rewrite ED, ET.
  - intros [at_|e]; apply asks_quiet; intros h; cbn [always].
    + intros _. split; [split; [apply target_Submitted|done]|]. intros [r'|e]; [apply follow_quiet|]. cbn [always].
      intros [c|e']; [destruct (Terminal c.(JPhase)); [done|apply follow_quiet]|done].
    + intros []; [done|apply fails_quiet].
Qed.

Definition delivering (s : proc) : Prop :=
  proc_handing s /\ Forall (fun x => obeys (asks x.1) (fun _ _ => True) x.2 s.(pdb)) s.(execs).

Lemma delivering_step s s' : proc_step errtext jd b64 s s' -> delivering s -> delivering s'.
Proof.
  intros St [P D]. split; [by eapply proc_handing_step|]. destruct P as ((Hr & _ & _ & He & [h Hm]) & M).
  assert (Env : forall d d' l, rtc store_step d d' -> Forall (fun x : string * prog executor_end => obeys (asks x.1) (fun _ _ => True) x.2 d) l ->
    Forall (fun x => obeys (asks x.1) (fun _ _ => True) x.2 d') l).
  { intros d d' l R H. eapply Forall_impl; [exact H|]. intros x. by apply obeys_env. }
  destruct St as [d d' fl es m Hs|d d' fl es m m' Hs|rounds d fl es rec t g k|d d' fl l1 id p p' l2 m Hs
    |d fl l1 id e l2 m]; cbn [main pdb execs] in *.
  - apply (Env d); [by apply rtc_once|done].
  - exact (Env _ _ _ (pstep_store _ _ _ _ _ Hs Hm) D).
  - destruct (M d (rtc_refl _ _)) as [B _]. unfold startExecutor. cbn [inFlight pdb execs].
    case_decide; cbn [pdb execs]; [done|]. apply Forall_app. split; [done|]. constructor; [|done]. by apply execute_asks.
  - rewrite Forall_app, Forall_cons in *. destruct He as (_ & [h' He] & _), D as (D1 & D & D2).
    pose proof (pstep_store _ _ _ _ _ Hs He) as R. split_and!; [exact (Env _ _ _ R D1)|exact (obeys_step _ _ _ _ _ _ Hs D)|exact (Env _ _ _ R D2)].
  - rewrite Forall_app, Forall_cons in *. tauto.
Qed.

(** A process started on a reachable database, in any of its states. *)
Definition some_process (s : proc) : Prop :=
  exists gate rounds ps d0, reachable d0 /\
    rtc (proc_step errtext jd b64) (mkProc d0 ∅ [] (Run errtext gate rounds ps)) s.

(** An executor of job [id] is about to submit [req] to [site]'s adapter. *)
Definition submitting (s : proc) (id site : string) (req : SubmitTaskRequest) : Prop :=
  exists k, (id, SubmitTask_cmd site req k) ∈ s.(execs).

Lemma running_submission s id site req :
  some_process s -> submitting s id site req -> reachable s.(pdb) /\ submission id site req s.(pdb).
Proof.
  intros (gate & rounds & ps & d0 & Hr & H) [k Hin]. assert (delivering s) as [[[R _] _] D].
  { revert H. apply rtc_invariant; [|apply delivering_step]. split; [by apply proc_handing_start|by apply Forall_nil]. }
  apply (proj1 (Forall_forall _ _) D) in Hin. destruct (Hin _ (rtc_refl _ _)) as [S _]. by split.
Qed.
End Delivery.

(** ** Exactly one run *)

(** (C11) Every job runs at most once on its device, across crashes: whatever a
    process, or any process that took over on a later state of the database,
    submits for a job goes to one adapter, and once that adapter has answered
    a submission with a task, every later one gets the same task back, starts
    nothing and changes nothing, as long as the adapter retains the task. *)
Theorem job_runs_once_on_device errtext jd b64 slack specs now a a' h s s' id site site' req req' :
  some_process errtext jd b64 s -> some_process errtext jd b64 s' -> rtc store_step s.(pdb) s'.(pdb) ->
  submitting s id site req -> submitting s' id site' req' ->
  runs_to slack (start specs now) a -> (do_submit a req).1 = Ok h ->
  runs_to slack (do_submit a req).2 a' -> is_Some (a'.(fake).(Adapter.tasks) !! h.(HTask)) ->
  site' = site /\ do_submit a' req' = (Ok h, a').
Proof.
  intros P P' R S S' A1 A2 A3 A4. destruct (running_submission _ _ _ _ _ _ _ P S) as [_ Sub].
  destruct (running_submission _ _ _ _ _ _ _ P' S') as [HR Sub']. apply (submission_run _ _ _ _ _ _ R) in Sub.
  destruct (submission_unique _ _ _ _ _ _ _ (reachable_Inv _ HR) Sub Sub') as [Es Er]. split; [done|].
  eapply resubmission_same_task; [exact A1|exact A2|exact A3|exact A4|by rewrite Er..].
Qed.

(** ** A run *)

Definition next_submission (p : prog executor_end) : option (string * SubmitTaskRequest) :=
  match p with SubmitTask_cmd site req _ => Some (site, req) | _ => None end.

Lemma next_submission_ok p site req : next_submission p = Some (site, req) -> exists k, p = SubmitTask_cmd site req k.
Proof. destruct p; try done. intros [= -> ->]. by eexists. Qed.

Definition demo_circuit : doc :=
  mkdoc [("spec", jobj [("workload", jobj [("kind", JStr "gate-model");
    ("gateModel", jobj [("shots", JNum (f_of_Z 101));
      ("program", jobj [("format", JStr "openqasm3"); ("inline", JStr "T1BFTlFBU00gMy4wOw==")])])])])].

Definition demo_queued : db := (InsertJob empty_db 10 (mkJobRecord "j1" "acme/chem" "bell" Pending demo_circuit ∅ 0 0)).2.
Definition demo_placed : db := (BindJob demo_queued 20 false "j1" "t1" "lab/q" (mkdoc [("policy", JStr "fifo")])).2.
Definition demo_placed_rec : JobRecord :=
  match GetJob demo_placed "j1" with Ok r => r | Err _ => mkJobRecord "" "" "" "" ∅ ∅ 0 0 end.

Definition demo_asked : SubmitTaskRequest := mkSubmit "q" "t1" "openqasm3" "OPENQASM 3.0;" 101 "" "acme/chem".

Lemma demo_placed_reachable : reachable demo_placed.
Proof.
  eapply reachable_store_step; [|apply step_bind]. eapply reachable_store_step; [apply rtc_refl|]. by apply step_insert.
Qed.

Definition demo_executor : prog executor_end :=
  match execute no_text no_json id 5 demo_placed_rec "t1" "lab/q" with HasClient_cmd _ k => k true | p => p end.

(** The process that resumes the job, at the point where it submits it. *)
Definition demo_process : proc :=
  mkProc demo_placed ({["j1"]} ∪ ∅) [("j1", demo_executor)] (run_cycles no_text None 1 demo_policies).

Lemma demo_process_running : some_process no_text no_json id demo_process.
Proof.
  exists None, 1%nat, demo_policies, demo_placed. split; [exact demo_placed_reachable|]. etrans.
  { eapply (resume_one no_text no_json id None 1 5 demo_policies demo_placed (new_task "t1" "j1" "lab/q" 20) demo_placed_rec);
      vm_compute; reflexivity. }
  cbn [JobID TTarget TaskID new_task]. eapply rtc_l; [|apply rtc_refl].
  eapply (pr_exec _ _ _ demo_placed _ _ [] _ _ _ []), (ps_client _ _ true).
Qed.

Lemma demo_process_submitting : submitting demo_process "j1" "lab" demo_asked.
Proof. destruct (next_submission_ok demo_executor "lab" demo_asked) as [k E]; [vm_compute; reflexivity|]. exists k. rewrite <- E. left. Qed.

Lemma job_runs_once_on_device_witness :
  (do_submit demo_start demo_asked).1 = Ok (mkHandle "q" "fake-task-1") /\
  do_submit (do_submit demo_start demo_asked).2 demo_asked = (Ok (mkHandle "q" "fake-task-1"), (do_submit demo_start demo_asked).2).
Proof.
  split; [vm_compute; reflexivity|].
  apply (job_runs_once_on_device no_text no_json id 0 [demo_spec] 0 demo_start (do_submit demo_start demo_asked).2
    (mkHandle "q" "fake-task-1") demo_process demo_process "j1" "lab" "lab" demo_asked demo_asked);
    try exact demo_process_running; try exact demo_process_submitting; try apply rtc_refl; [vm_compute; reflexivity|].
  vm_compute. by eexists.
Defined.

(** ** What a takeover can lose

    Executions of one program, played from a list of replies. *)
Inductive reply :=
| Says (b : bool)
| At (now : Z)
| Draws (s : string)
| Submits (r : result string string)
| Opens (r : result string (string * option Z)).

Definition play {A} (x : db * prog A) (a : reply) : db * prog A :=
  let '(d, p) := x in
  match p, a with
  | HasClient_cmd _ k, Says b => (d, k b)
  | Done_cmd k, Says b => (d, k b)
  | Now_cmd k, At t => (d, k t)
  | Uuid_cmd k, Draws s => (d, k s)
  | SubmitTask_cmd _ _ k, Submits r => (d, k r)
  | OpenSession_cmd _ _ _ _ k, Opens r => (d, k r)
  | GetSession_cmd id k, At _ => (d, k (GetSession d id))
  | UpdateTask_cmd t a s e r k, At now => ((UpdateTask d now t a s e r).2, k (UpdateTask d now t a s e r).1)
  | TransitionJob_cmd id to m k, At now => ((TransitionJob d now id to m).2, k (TransitionJob d now id to m).1)
  | SetJobCondition_cmd id c k, At now => ((SetJobCondition d now id c).2, k (SetJobCondition d now id c).1)
  | InsertSession_cmd s k, At now => ((InsertSession d now s).2, k (InsertSession d now s).1)
  | StampSession_cmd id s k, At now => (stamp_session_sql d now id s, k tt)
  | _, _ => x
  end.

Lemma play_step {A} (x : db * prog A) a : rtc istep x (play x a).
Proof. destruct x as [d p]. destruct p, a; cbn [play]; try apply rtc_refl; apply rtc_once, is_prog; constructor. Qed.

Lemma play_all {A} l (x : db * prog A) : rtc istep x (fold_left play l x).
Proof. revert x. induction l as [|a l IH]; intros x; [apply rtc_refl|]. etrans; [apply play_step|apply IH]. Qed.

Definition phase_in (d : db) (id : string) : option Phase := JPhase <$> d.(jobs) !! id.

Definition started (d : db) (now : Z) : db :=
  (TransitionJob (TransitionJob d now "j1" Submitted None).2 now "j1" Running None).2.

(** The executor that resumes job j1 of a database, after the replies. *)
Definition resumed (d : db) (l : list reply) : db * prog executor_end :=
  match GetJob d "j1" with
  | Ok rec => fold_left play l (d, execute no_text no_json id 5 rec "t1" "lab/q")
  | Err _ => (d, Ret Stopped)
  end.

Definition returned (x : db * prog executor_end) (e : executor_end) : Prop := x.2 = Ret e.

(** The process restarts while the job runs on its device, and the adapter
    cannot be reached when the submission is repeated: the job is failed, and
    nobody tells the device. *)
Lemma takeover_fails_running_job :
  let d := started demo_placed 30 in
  let x := resumed d [Says true; Submits (Err "Unavailable"); Says false; At 50; At 51] in
  phase_in d "j1" = Some Running /\ returned x (Finished None) /\ phase_in x.1 "j1" = Some Failed.
Proof. vm_compute. by split_and!. Qed.

Definition with_spec (fields : list (string * any)) : doc :=
  match demo_circuit !! "spec" with
  | Some (JObj spec) => mkdoc [("spec", JObj (mkdoc fields ∪ spec))]
  | _ => demo_circuit
  end.

Definition placed (circuit : doc) (d : db) : db :=
  (BindJob (InsertJob d 10 (mkJobRecord "j1" "acme/chem" "bell" Pending circuit ∅ 0 0)).2 20 false "j1" "t1" "lab/q"
     (mkdoc [("policy", JStr "fifo")])).2.

(** A job that runs in a session that has expired meanwhile: the session is
    looked up again, before the submission that was made long ago. *)
Lemma takeover_loses_session :
  let session := mkSessionRecord "s1" "acme/chem" "lab/q" "a1" "j0" (Some 100) None 0 in
  let d := started (placed (with_spec [("session", jobj [("join", JStr "s1")])]) (InsertSession empty_db 5 session).2) 30 in
  let x := resumed d [Says true; At 200; At 200; At 201; At 202] in
  phase_in d "j1" = Some Running /\ returned x (Finished None) /\ phase_in x.1 "j1" = Some Failed.
Proof. vm_compute. by split_and!. Qed.

(** A job that opened a session opens another one when it is resumed. *)
Lemma takeover_opens_second_session :
  let d := placed (with_spec [("session", jobj [("maxDuration", JStr "1h")])]) empty_db in
  let opening sid adapter := [Says true; Says true; Opens (Ok (adapter, None)); Draws sid; At 30; At 31; At 32] in
  let x := resumed d (opening "s1" "a1" ++ [Submits (Ok "dev-1"); At 33; At 34]) in
  let y := resumed x.1 (opening "s2" "a2") in
  phase_in x.1 "j1" = Some Submitted /\
  (fun s => s.(AdapterSessionID)) <$> (y.1).(Database.sessions) = list_to_map [("s1", "a1"); ("s2", "a2")].
Proof. vm_compute. by split_and!. Qed.
