(* ===== verification/Conformance.v ===== *)
(** * The adapter certification suite — src/conformance/conformance.go, report.go

    Each category is a program whose nodes are the calls it makes to the
    adapter and the clock, the messages it records, and the ways it ends:
    normally, with [Fatalf] (only the category stops), or with a Go panic,
    which [Recorder.Run] passes on and which kills the harness.  [error_text]
    is the text of a gRPC error, [detail_text] of an [ErrorDetail], [time_text]
    of a time;
    [watch_rounds] bounds the messages read from a watch stream. *)

From S2P Require Import Prelude Float64 GoLib Auth Prog Adapter.

(** ** Programs *)

Inductive recv := Message (st : Status) | EOF | Broken (e : status).

Inductive call : Type -> Type :=
| Submit_call (req : SubmitTaskRequest) (parameters : list (string * string)) : call (result status TaskHandle)
| GetTask_call (target task : string) : call (result status Status)
| WatchTask_call (target task : string) : call (result status unit)
| Recv_call : call recv
| CancelTask_call (target task : string) : call (result status bool)
| GetDeviceState_call (target : string) : call (result status DeviceState)
| OpenSession_call (target : string) (maxDuration : Z) : call (result status SessionHandle)
| CloseSession_call (h : SessionHandle) : call (result status unit)
| Now_call : call Z
| Sleep_call (d : Z) : call unit.

Inductive conf (A : Type) : Type :=
| Done (a : A)
| Fatalf (msg : string)
| Panic (msg : string)
| OutOfRounds
| Errorf (msg : string) (k : conf A)
| Logf (msg : string) (k : conf A)
| Call {R} (c : call R) (k : R -> conf A).
Arguments Done {A} a.
Arguments Fatalf {A} msg.
Arguments Panic {A} msg.
Arguments OutOfRounds {A}.
Arguments Errorf {A} msg k.
Arguments Logf {A} msg k.
Arguments Call {A R} c k.

Fixpoint cbind {A B} (p : conf A) (f : A -> conf B) : conf B :=
  match p with
  | Done a => f a
  | Fatalf m => Fatalf m
  | Panic m => Panic m
  | OutOfRounds => OutOfRounds
  | Errorf m k => Errorf m (cbind k f)
  | Logf m k => Logf m (cbind k f)
  | Call c k => Call c (fun r => cbind (k r) f)
  end.

Notation "'call!' x := c 'in' k" := (Call c (fun x => k))
  (at level 10, x pattern, c at level 100, k at level 200) : rabi_scope.
Notation "'do!' x := p 'in' k" := (cbind p (fun x => k))
  (at level 10, x pattern, p at level 100, k at level 200) : rabi_scope.

(** [if b { t.Errorf(msg) }], and then [k]. *)
Definition error_if {A} (b : bool) (msg : string) (k : conf A) : conf A := if b then Errorf msg k else k.

(** ** The suite *)

Record Suite := mkSuite { TargetID : string; Caps : Capabilities; KeyPrefix : string; TaskTimeout : Z }.

Definition nl : string := String "010"%char "".

Definition validQASM : string :=
  nl +:+ "OPENQASM 3.0;" +:+ nl +:+ "include " +:+ dq +:+ "stdgates.inc" +:+ dq +:+ ";" +:+ nl +:+ "qubit[2] q;" +:+ nl
  +:+ "bit[2] c;" +:+ nl +:+ "h q[0];" +:+ nl +:+ "cx q[0], q[1];" +:+ nl +:+ "c = measure q;" +:+ nl.
Definition invalidQASM : string := "OPENQASM 3.0; definitely not a program;".
Definition delayParam : string := "rabi.sim/delay-ms".

Definition technologyRegistry : list string :=
  ["superconducting"; "trapped-ion"; "neutral-atom"; "photonic"; "annealer"; "spin-semiconductor"; "nv-center";
   "simulator"].

Definition state_text (s : State) : string :=
  match s with
  | STATE_UNSPECIFIED => "STATE_UNSPECIFIED" | QUEUED => "QUEUED" | RUNNING => "RUNNING"
  | SUCCEEDED => "SUCCEEDED" | FAILED => "FAILED" | CANCELLED => "CANCELLED"
  end.

(** [st.GetError().GetCategory()]. *)
Definition category (e : option ErrorDetail) : string :=
  match e with Some e => e.(ECategory) | None => "CATEGORY_UNSPECIFIED" end.

(** How Go's [%v] prints errors, messages, times and floats. *)
Record texts := mkTexts {
  error_text : status -> string; detail_text : option ErrorDetail -> string; time_text : Z -> string;
  usage_text : list UsageRecord -> string; handle_text : SessionHandle -> string; float_text : float64 -> string }.

#[export] Instance codes_eq_dec : EqDecision codes.
Proof. solve_decision. Defined.

(** [status.Code(err)], [None] being OK. *)
Definition code_text (c : option codes) : string :=
  match c with
  | None => "OK" | Some Unauthenticated => "Unauthenticated" | Some PermissionDenied => "PermissionDenied"
  | Some InvalidArgument => "InvalidArgument" | Some NotFound => "NotFound"
  | Some FailedPrecondition => "FailedPrecondition" | Some Unimplemented => "Unimplemented"
  | Some ResourceExhausted => "ResourceExhausted" | Some Internal => "Internal"
  end.

Definition code_of {A} (r : result status A) : option codes :=
  match r with Ok _ => None | Err e => Some e.(StCode) end.

Section Suite.
Context (tx : texts) (watch_rounds : nat) (s : Suite).

Definition request (key format program session : string) (shots : Z) : SubmitTaskRequest :=
  mkSubmit s.(TargetID) (s.(KeyPrefix) +:+ key) format program shots session "".

Definition submit {A} (key format program : string) (shots : Z) (params : list (string * string))
  (k : result status TaskHandle -> conf A) : conf A :=
  Call (Submit_call (request key format program "" shots) params) k.

(** [s.Caps.GetProgramFormats()[0]] *)
Definition first_format {A} (k : string -> conf A) : conf A :=
  match s.(Caps).(CpFormats) with
  | f :: _ => k f
  | [] => Panic "runtime error: index out of range [0] with length 0"
  end.

Definition poll_every : Z := 100 * millisecond.
Definition task_timeout : Z := if s.(TaskTimeout) <=? 0 then 60 * second else s.(TaskTimeout).

Fixpoint await_loop (rounds : nat) (deadline : Z) (h : TaskHandle) : conf Status :=
  match rounds with
  | O => OutOfRounds
  | S n =>
      call! now := Now_call in
      if now <? deadline then
        call! r := GetTask_call h.(HTarget) h.(HTask) in
        match r with
        | Err e => Fatalf ("GetTask: " +:+ error_text tx e)
        | Ok st =>
            if isTerminalState st.(StState) then Done st
            else call! _ := Sleep_call poll_every in await_loop n deadline h
        end
      else Fatalf ("task " +:+ h.(HTask) +:+ " never reached a terminal state")
  end.

(** Every round sleeps, so the timeout bounds their number. *)
Definition await_rounds : nat := S (S (Z.to_nat (task_timeout / poll_every))).

Definition awaitTerminal (h : TaskHandle) : conf Status :=
  call! now := Now_call in await_loop await_rounds (now + task_timeout) h.

(** *** Category 1 *)
Definition CapabilityHonesty : conf unit :=
  let tech := s.(Caps).(CpTarget).(InTechnology) in
  let k0 :=
    match s.(Caps).(CpFormats) with
    | [] => Fatalf "adapter declares no program formats"
    | format :: _ =>
        match s.(Caps).(CpBilling) with
        | [] => Fatalf "adapter declares no billing units"
        | _ =>
            submit "cap-valid" format validQASM 100 [] (fun r =>
              match r with
              | Err e => Fatalf ("valid program rejected at submit: " +:+ error_text tx e)
              | Ok h =>
                  do! st := awaitTerminal h in
                  if negb (bool_decide (st.(StState) = SUCCEEDED)) then
                    Fatalf ("valid program did not succeed: " +:+ state_text st.(StState) +:+ " ("
                            +:+ detail_text tx st.(StError) +:+ ")")
                  else
                    submit "cap-invalid" format invalidQASM 100 [] (fun r =>
                      do! _ := match r with
                               | Err _ => Done tt
                               | Ok h =>
                                   do! st := awaitTerminal h in
                                   error_if (negb (bool_decide (st.(StState) = FAILED))
                                             || negb (String.eqb (category st.(StError)) "INVALID_PROGRAM"))
                                     ("invalid program: want FAILED/INVALID_PROGRAM, got " +:+ state_text st.(StState)
                                      +:+ "/" +:+ category st.(StError)) (Done tt)
                               end in
                      let maxShots := s.(Caps).(CpMaxShots) in
                      if 0 <? maxShots then
                        submit "cap-shots" format validQASM ((maxShots + 1) mod 2 ^ 64) [] (fun r =>
                          match r with
                          | Err _ => Done tt
                          | Ok h =>
                              do! st := awaitTerminal h in
                              error_if (negb (bool_decide (st.(StState) = FAILED)))
                                ("shots above max_shots must fail, got " +:+ state_text st.(StState)) (Done tt)
                          end)
                      else Done tt)
              end)
        end
    end in
  if String.eqb tech "" then
    Errorf "TargetInfo.technology is empty (RFC-0001; extension-only declarations fail conformance from spec v0.3)" k0
  else if negb (str_in tech technologyRegistry) then
    Logf ("warning: technology " +:+ quote tech
          +:+ " is not in the spec registry (novel strings SHOULD be proposed upstream)") k0
  else k0.

(** *** Category 2 *)
Definition rank_of (st : State) : option Z :=
  match st with
  | QUEUED => Some 0 | RUNNING => Some 1 | SUCCEEDED | FAILED | CANCELLED => Some 2
  | STATE_UNSPECIFIED => None
  end.

Fixpoint watch_loop (rounds : nat) (last lastTS : Z) (final : option Status) : conf (option Status) :=
  match rounds with
  | O => OutOfRounds
  | S n =>
      call! m := Recv_call in
      match m with
      | EOF => Done final
      | Broken e => Fatalf ("watch recv: " +:+ error_text tx e)
      | Message st =>
          match rank_of st.(StState) with
          | None => Fatalf ("unknown state " +:+ state_text st.(StState))
          | Some r =>
              error_if (r <? last) ("state moved backwards: " +:+ state_text st.(StState) +:+ " after rank " +:+ itoa last)
                (error_if (st.(StUpdatedAt) <? lastTS) ("updated_at moved backwards: " +:+ time_text tx st.(StUpdatedAt) +:+ " < " +:+ time_text tx lastTS)
                   (if r =? 2 then Done (Some st) else watch_loop n r st.(StUpdatedAt) (Some st)))
          end
      end
  end.

Fixpoint poll_same (n : nat) (h : TaskHandle) (final : Status) : conf unit :=
  match n with
  | O => Done tt
  | S n =>
      call! r := GetTask_call h.(HTarget) h.(HTask) in
      match r with
      | Err e => Fatalf ("GetTask: " +:+ error_text tx e)
      | Ok polled =>
          error_if (negb (bool_decide (polled.(StState) = final.(StState))))
            ("GetTask " +:+ state_text polled.(StState) +:+ " != watched terminal " +:+ state_text final.(StState))
            (call! _ := Sleep_call (50 * millisecond) in poll_same n h final)
      end
  end.

Definition StateMachine : conf unit :=
  first_format (fun format =>
    submit "fsm" format validQASM 200 [(delayParam, "300")] (fun r =>
      match r with
      | Err e => Fatalf ("submit: " +:+ error_text tx e)
      | Ok h =>
          call! w := WatchTask_call h.(HTarget) h.(HTask) in
          match w with
          | Err e => Fatalf ("WatchTask: " +:+ error_text tx e)
          | Ok _ =>
              do! final := watch_loop watch_rounds (-1) time_zero None in
              match final with
              | None => Fatalf "watch delivered nothing"
              | Some final => poll_same 3 h final
              end
          end
      end)).

(** *** Category 3

    The goroutines make one call each and the same one, so their interleavings
    are the sequences of these calls. *)
Definition idem_n : nat := Z.to_nat 1000.

Fixpoint submit_all (n : nat) (format : string) (ids : list string) : conf (list string) :=
  match n with
  | O => Done ids
  | S n =>
      submit "idem" format validQASM 100 [] (fun r =>
        match r with
        | Err e => Errorf ("submit: " +:+ error_text tx e) (submit_all n format ids)
        | Ok h => submit_all n format (ids ++ [h.(HTask)])
        end)
  end.

(** The units seen, each with its number of records. *)
Definition per_unit (usage : list UsageRecord) : gmap string Z :=
  fold_left (fun m u => <[u.(UUnit) := default 0 (m !! u.(UUnit)) + 1]> m) usage ∅.

Fixpoint check_units (l : list (string * Z)) : conf unit :=
  match l with
  | [] => Done tt
  | (unit_, count) :: rest =>
      error_if (negb (count =? 1)) ("unit " +:+ unit_ +:+ " recorded " +:+ itoa count +:+ " times, want 1")
        (check_units rest)
  end.

Definition Idempotency : conf unit :=
  first_format (fun format =>
    do! ids := submit_all idem_n format [] in
    let distinct : gset string := list_to_set ids in
    if negb (Z.of_nat (size distinct) =? 1) then
      Fatalf (itoa (Z.of_nat idem_n) +:+ " concurrent submissions produced " +:+ itoa (Z.of_nat (size distinct))
              +:+ " distinct tasks, want 1")
    else
      do! st := awaitTerminal (mkHandle s.(TargetID) (default "" (last ids))) in
      if negb (bool_decide (st.(StState) = SUCCEEDED)) then
        Fatalf ("idempotent task failed: " +:+ detail_text tx st.(StError))
      else check_units (map_to_list (per_unit st.(StUsage)))).

(** *** Category 4 *)
Definition Cancellation : conf unit :=
  first_format (fun format =>
    submit "cancel-slow" format validQASM 100 [(delayParam, "1500")] (fun r =>
      match r with
      | Err e => Fatalf ("submit slow: " +:+ error_text tx e)
      | Ok slow =>
          submit "cancel-queued" format validQASM 100 [] (fun r =>
            match r with
            | Err e => Fatalf ("submit queued: " +:+ error_text tx e)
            | Ok queued =>
                call! r := CancelTask_call queued.(HTarget) queued.(HTask) in
                match r with
                | Err e => Fatalf ("CancelTask: " +:+ error_text tx e)
                | Ok accepted =>
                    if negb accepted then Fatalf "cancel of QUEUED task not accepted"
                    else
                      do! st := awaitTerminal queued in
                      error_if (negb (bool_decide (st.(StState) = CANCELLED)))
                        ("queued+cancelled task must be CANCELLED, got " +:+ state_text st.(StState))
                        (error_if (match st.(StUsage) with [] => false | _ => true end)
                           ("never-run cancel must report zero usage, got " +:+ usage_text tx st.(StUsage))
                           (do! st := awaitTerminal slow in
                            error_if (bool_decide (st.(StState) = QUEUED)) "slow task never converged" (Done tt)))
                end
            end)
      end)).

(** *** Category 5 *)
Fixpoint check_metrics (l : list Metric) (k : conf unit) : conf unit :=
  match l with
  | [] => k
  | m :: rest =>
      error_if (String.eqb m.(MetMethodology) "") ("metric " +:+ m.(MetName) +:+ " lacks methodology")
        (error_if (String.eqb m.(MetName) "") "metric with empty name" (check_metrics rest k))
  end.

(** [state.GetCalibration().GetSnapshotId()] *)
Definition snapshot_id (cal : option Snapshot) : string := match cal with Some c => c.(SnSnapshotId) | None => "" end.

Definition Provenance : conf unit :=
  call! r := GetDeviceState_call s.(TargetID) in
  match r with
  | Err e => Fatalf ("GetDeviceState: " +:+ error_text tx e)
  | Ok state1 =>
      let cal := state1.(DvCalibration) in
      if String.eqb (snapshot_id cal) "" then Fatalf "snapshot_id empty"
      else
        error_if (bool_decide ((cal ≫= SnMeasuredAt) = None)) "snapshot lacks measured_at"
          (error_if (String.eqb (default "" (SnSource <$> cal)) "") "snapshot lacks source"
             (match default [] (SnMetrics <$> cal) with
              | [] => Fatalf "snapshot has no metrics"
              | metrics =>
                  check_metrics metrics
                    (call! r := GetDeviceState_call s.(TargetID) in
                     match r with
                     | Err e => Fatalf ("GetDeviceState: " +:+ error_text tx e)
                     | Ok state2 =>
                         error_if (negb (String.eqb (snapshot_id state2.(DvCalibration)) (snapshot_id cal)))
                           ("snapshot_id changed with identical data: " +:+ snapshot_id cal +:+ " → "
                            +:+ snapshot_id state2.(DvCalibration)) (Done tt)
                     end)
              end))
  end.

(** *** Category 6 *)
Fixpoint check_usage (declared : list string) (l : list UsageRecord) : conf unit :=
  match l with
  | [] => Done tt
  | u :: rest =>
      error_if (negb (str_in u.(UUnit) declared)) ("usage unit " +:+ quote u.(UUnit) +:+ " not in declared billing_units")
        (error_if (fle u.(UAmount) f0) ("executed work must report nonzero usage, got " +:+ float_text tx u.(UAmount) +:+ " " +:+ u.(UUnit))
           (error_if (bool_decide (u.(URecordedAt) = None)) "usage record lacks recorded_at" (check_usage declared rest)))
  end.

Definition Usage : conf unit :=
  first_format (fun format =>
    submit "usage" format validQASM 321 [] (fun r =>
      match r with
      | Err e => Fatalf ("submit: " +:+ error_text tx e)
      | Ok h =>
          do! st := awaitTerminal h in
          if negb (bool_decide (st.(StState) = SUCCEEDED)) then
            Fatalf ("usage probe failed: " +:+ detail_text tx st.(StError))
          else match st.(StUsage) with
               | [] => Fatalf "terminal SUCCEEDED task reports no usage"
               | usage => check_usage s.(Caps).(CpBilling) usage
               end
      end)).

(** *** Category 7 *)
Definition vendor_message (e : option ErrorDetail) : string :=
  match e with Some e => e.(EVendorMessage) | None => "" end.

Definition ErrorTaxonomy : conf unit :=
  first_format (fun format =>
    submit "tax-bad" format invalidQASM 100 [] (fun r =>
      do! _ := match r with
               | Err _ => Done tt
               | Ok h =>
                   do! st := awaitTerminal h in
                   let e := st.(StError) in
                   error_if (negb (String.eqb (category e) "INVALID_PROGRAM"))
                     ("bad program: want INVALID_PROGRAM, got " +:+ category e +:+ " (" +:+ vendor_message e +:+ ")") (Done tt)
               end in
      submit "tax-format" "no-such-format" validQASM 100 [] (fun r =>
        do! _ := match r with
                 | Err _ => Done tt
                 | Ok h =>
                     do! st := awaitTerminal h in
                     let c := category st.(StError) in
                     error_if (negb (String.eqb c "CAPABILITY_MISMATCH") && negb (String.eqb c "INVALID_PROGRAM"))
                       ("undeclared format: want CAPABILITY_MISMATCH, got " +:+ c)
                       (error_if (String.eqb c "CATEGORY_UNSPECIFIED") "bare/unspecified category on induced failure"
                          (Done tt))
                 end in
        call! r := GetDeviceState_call "no-such-target" in
        error_if (negb (bool_decide (code_of r = Some NotFound)))
          ("unknown target: want NotFound, got " +:+ code_text (code_of r)) (Done tt)))).

(** *** Category 8 *)
Definition submit_in {A} (key session : string) (format : string) (k : result status TaskHandle -> conf A) : conf A :=
  Call (Submit_call (request key format validQASM session 100) []) k.

Definition want_lost (what : string) (r : result status TaskHandle) : conf unit :=
  match r with
  | Err _ => Done tt
  | Ok h =>
      do! st := awaitTerminal h in
      error_if (negb (bool_decide (st.(StState) = FAILED)) || negb (String.eqb (category st.(StError)) "SESSION_LOST"))
        (what +:+ ": want FAILED/SESSION_LOST, got " +:+ state_text st.(StState) +:+ "/" +:+ category st.(StError)) (Done tt)
  end.

Definition Sessions : conf unit :=
  call! r := OpenSession_call s.(TargetID) (5 * minute) in
  match r with
  | Err e => Fatalf ("OpenSession on declaring adapter: " +:+ error_text tx e)
  | Ok handle =>
      if String.eqb handle.(ShSession) "" || bool_decide (handle.(ShExpiresAt) = None) then
        Fatalf ("session handle incomplete: " +:+ handle_text tx handle)
      else
        first_format (fun format =>
          submit_in "sess-live" handle.(ShSession) format (fun r =>
            match r with
            | Err e => Fatalf ("in-session submit: " +:+ error_text tx e)
            | Ok inSession =>
                do! st := awaitTerminal inSession in
                if negb (bool_decide (st.(StState) = SUCCEEDED)) then
                  Fatalf ("in-session task must succeed, got " +:+ state_text st.(StState) +:+ " ("
                          +:+ detail_text tx st.(StError) +:+ ")")
                else
                  call! r := CloseSession_call handle in
                  match r with
                  | Err e => Fatalf ("CloseSession: " +:+ error_text tx e)
                  | Ok _ =>
                      submit_in "sess-dead" handle.(ShSession) format (fun r =>
                        do! _ := want_lost "submit after close" r in
                        submit_in "sess-ghost" "no-such-session" format (fun r => want_lost "unknown session" r))
                  end
            end))
  end.

Definition SessionsUndeclared : conf unit :=
  call! r := OpenSession_call s.(TargetID) 0 in
  error_if (negb (bool_decide (code_of r = Some Unimplemented)))
    ("OpenSession on sessionless adapter: want Unimplemented, got " +:+ code_text (code_of r))
    (Done tt).

(** [Run]: the applicable categories, in order. *)
Definition categories : list (string * conf unit) :=
  [("cat1-capability-honesty", CapabilityHonesty); ("cat2-state-machine", StateMachine); ("cat3-idempotency", Idempotency)]
  ++ (if s.(Caps).(CpCancellation) then [("cat4-cancellation", Cancellation)] else [])
  ++ [("cat5-provenance", Provenance); ("cat6-usage", Usage); ("cat7-error-taxonomy", ErrorTaxonomy)]
  ++ (if s.(Caps).(CpSessions) then [("cat8-sessions", Sessions)]
      else [("cat8-sessions-undeclared", SessionsUndeclared)]).
End Suite.

(** [Dial], once connected: [capabilities] is the adapter's answer and
    [nanos] the clock. *)
Definition Dial (tx : texts) (capabilities : result status Capabilities) (targetID : string) (nanos : Z)
  : result string Suite :=
  match capabilities with
  | Err e => Err ("GetCapabilities(" +:+ targetID +:+ "): " +:+ error_text tx e)
  | Ok caps => Ok (mkSuite targetID caps ("conf-" +:+ itoa nanos +:+ "-") 0)
  end.

(** ** report.go *)

Definition SpecVersion : string := "v0.2".

Record CategoryResult := mkCategory { CName : string; CPassed : bool; CFailures : list string; CLogs : list string }.

Definition new_category (name : string) : CategoryResult := mkCategory name true [] [].

(** [catT.Fatalf] (before its panic) and [catT.Errorf]; [catT.Logf]. *)
Definition add_failure (c : CategoryResult) (msg : string) : CategoryResult :=
  mkCategory c.(CName) false (c.(CFailures) ++ [msg]) c.(CLogs).
Definition add_log (c : CategoryResult) (msg : string) : CategoryResult :=
  mkCategory c.(CName) c.(CPassed) c.(CFailures) (c.(CLogs) ++ [msg]).

(** [Recorder.Passed]. *)
Definition Passed (cats : list CategoryResult) : bool := forallb CPassed cats.

Inductive cap_value := CapInt (z : Z) | CapBool (b : bool) | CapStr (x : string) | CapStrs (l : list string).

Record Report := mkReport {
  HarnessVersion : string; RSpecVersion : string; GeneratedAt : Z; AdapterAddr : string; RTargetID : string;
  RCapabilities : list (string * cap_value); Categories : list CategoryResult; RPassed : bool; Notes : list string }.

Definition BuildReport (harnessVersion addr : string) (s : Suite) (cats : list CategoryResult) (generatedAt : Z)
  (notes : list string) : Report :=
  let c := s.(Caps) in
  mkReport harnessVersion SpecVersion generatedAt addr s.(TargetID)
    [("numQubits", CapInt c.(CpNumQubits)); ("programFormats", CapStrs c.(CpFormats)); ("maxShots", CapInt c.(CpMaxShots));
     ("sessions", CapBool c.(CpSessions)); ("cancellation", CapBool c.(CpCancellation));
     ("billingUnits", CapStrs c.(CpBilling)); ("technology", CapStr c.(CpTarget).(InTechnology));
     ("cloudQueue", CapBool c.(CpCloudQueue)); ("vendor", CapStr c.(CpTarget).(InVendor));
     ("modality", CapStr c.(CpTarget).(InModality)); ("simulator", CapBool c.(CpTarget).(InSimulator))]
    cats (Passed cats) notes.

Section Signing.
Context {Key Pub Sig : Type} (marshal : Report -> option string)
  (ed25519_sign : Key -> string -> Sig) (ed25519_verify : Pub -> string -> Sig -> bool).

(** [CanonicalJSON] is json.MarshalIndent, [None] its error. *)
Definition CanonicalJSON (r : Report) : option string := marshal r.

Definition Sign (r : Report) (key : Key) : option Sig :=
  match CanonicalJSON r with Some doc => Some (ed25519_sign key doc) | None => None end.

Definition Verify (r : Report) (pub : Pub) (sig : Sig) : bool :=
  match CanonicalJSON r with Some doc => ed25519_verify pub doc sig | None => false end.
End Signing.

Definition md_result (c : CategoryResult) : string :=
  "| " +:+ c.(CName) +:+ " | " +:+ (if c.(CPassed) then "pass" else "**FAIL**") +:+ " |" +:+ nl.

Definition md_details (c : CategoryResult) : string :=
  match c.(CFailures), c.(CLogs) with
  | [], [] => ""
  | fs, ls =>
      nl +:+ "## " +:+ c.(CName) +:+ nl
      +:+ String.concat "" ((fun f => "- FAIL: " +:+ f +:+ nl) <$> fs)
      +:+ String.concat "" ((fun l => "- log: " +:+ l +:+ nl) <$> ls)
  end.

Definition Markdown (r : Report) : string :=
  "# Rabi adapter conformance report — " +:+ (if r.(RPassed) then "PASSED" else "FAILED") +:+ nl +:+ nl
  +:+ "- Harness: " +:+ r.(HarnessVersion) +:+ " (spec " +:+ r.(RSpecVersion) +:+ ")" +:+ nl
  +:+ "- Generated: " +:+ fmt_rfc3339 r.(GeneratedAt) +:+ nl
  +:+ "- Adapter: " +:+ r.(AdapterAddr) +:+ nl +:+ "- Target: " +:+ r.(RTargetID) +:+ nl
  +:+ String.concat "" ((fun n => "- Note: " +:+ n +:+ nl) <$> r.(Notes))
  +:+ nl +:+ "| Category | Result |" +:+ nl +:+ "|---|---|" +:+ nl
  +:+ String.concat "" (md_result <$> r.(Categories))
  +:+ String.concat "" (md_details <$> r.(Categories)).

(** ** Executions

    An adapter to certify: while a call is on its way it can do [transit], and
    it [serve]s each call with an answer.  The suite sees nothing else. *)
Class Service (S : Type) := {
  transit : S -> S -> Prop;
  serve : forall R, call R -> S -> R -> S -> Prop }.
Arguments serve {S _ R} c s r s'.

Inductive outcome (A : Type) := Returned (a : A) | Stopped | Crashed (msg : string) | Unfinished.
Arguments Returned {A} a.
Arguments Stopped {A}.
Arguments Crashed {A} msg.
Arguments Unfinished {A}.

(** What was called, with the answers. *)
Inductive event := Event (R : Type) (c : call R) (r : R).
Arguments Event {R} c r.

Section Runs.
Context {S : Type} `{Service S}.

(** [runs p c s t o c' s']: the category [p], recording in [c], can take the
    adapter from [s] to [s'] through the calls [t] and end with [o] and [c']. *)
Fixpoint runs {A} (p : conf A) (c : CategoryResult) (s : S) (t : list event) (o : outcome A) (c' : CategoryResult) (s' : S)
  : Prop :=
  match p with
  | Done a => t = [] /\ o = Returned a /\ c' = c /\ s' = s
  | Fatalf m => t = [] /\ o = Stopped /\ c' = add_failure c m /\ s' = s
  | Panic m => t = [] /\ o = Crashed m /\ c' = c /\ s' = s
  | OutOfRounds => t = [] /\ o = Unfinished /\ c' = c /\ s' = s
  | Errorf m k => runs k (add_failure c m) s t o c' s'
  | Logf m k => runs k (add_log c m) s t o c' s'
  | Call x k =>
      exists s1 r s2 t', t = Event x r :: t' /\ transit s s1 /\ serve x s1 r s2 /\ runs (k r) c s2 t' o c' s'
  end.

(** [Recorder.Run] over the categories: a panic other than [Fatalf]'s own
    ends the harness without a report. *)
Inductive suite_runs : list (string * conf unit) -> S -> option (list CategoryResult) -> S -> Prop :=
| s_nil s : suite_runs [] s (Some []) s
| s_cons name p rest s t o c s1 cats s2 :
    runs p (new_category name) s t o c s1 -> (o = Returned tt \/ o = Stopped) -> suite_runs rest s1 cats s2 ->
    suite_runs ((name, p) :: rest) s (cons c <$> cats) s2
| s_crash name p rest s t m c s1 :
    runs p (new_category name) s t (Crashed m) c s1 -> suite_runs ((name, p) :: rest) s None s1.

(** ** A judgement about every run

    [passes QD QF p c s]: from [s] the program can always go on, it ends, and
    however the adapter answers it ends in [QD] or, by [Fatalf], in [QF]. *)
Fixpoint passes {A} (QD : A -> CategoryResult -> S -> Prop) (QF : CategoryResult -> S -> Prop)
    (p : conf A) (c : CategoryResult) (s : S) : Prop :=
  match p with
  | Done a => QD a c s
  | Fatalf m => QF (add_failure c m) s
  | Panic _ | OutOfRounds => False
  | Errorf m k => passes QD QF k (add_failure c m) s
  | Logf m k => passes QD QF k (add_log c m) s
  | Call x k =>
      (exists s1 r s2, transit s s1 /\ serve x s1 r s2) /\
      forall s1 r s2, transit s s1 -> serve x s1 r s2 -> passes QD QF (k r) c s2
  end.

Lemma passes_sound {A} QD QF (p : conf A) c s t o c' s' :
  runs p c s t o c' s' -> passes QD QF p c s ->
  match o with Returned a => QD a c' s' | Stopped => QF c' s' | _ => False end.
Proof.
  revert c s t. induction p as [a|m|m| |m k IH|m k IH|R x k IH]; intros c s t; cbn [runs passes].
  1-4: by intros (_ & -> & -> & ->).
  1-2: apply IH.
  intros (s1 & r & s2 & t' & _ & T & V & HR) [_ X]. eapply IH; [exact HR|by eapply X].
Qed.

Lemma passes_complete {A} QD QF (p : conf A) c s :
  passes QD QF p c s -> exists t o c' s', runs p c s t o c' s' /\ ((exists a, o = Returned a) \/ o = Stopped).
Proof.
  revert c s. induction p as [a|m|m| |m k IH|m k IH|R x k IH]; intros c s; simpl; try done; eauto.
  - intros _. do 4 eexists. split; [by split_and!|]. left. by eexists.
  - intros _. do 4 eexists. split; [by split_and!|]. by right.
  - intros [(s1 & r & s2 & T & V) X]. destruct (IH r _ _ (X _ _ _ T V)) as (t & o & c' & s' & Y & Z).
    exists (Event x r :: t), o, c', s'. split; [|done]. by exists s1, r, s2, t.
Qed.

Lemma passes_bind {A B} (QD : B -> CategoryResult -> S -> Prop) QF (QM : A -> CategoryResult -> S -> Prop)
    (p : conf A) (f : A -> conf B) c s :
  passes QM QF p c s -> (forall a c s, QM a c s -> passes QD QF (f a) c s) -> passes QD QF (cbind p f) c s.
Proof.
  intros Hp Hf. revert c s Hp. induction p as [a|m|m| |m k IH|m k IH|R x k IH]; intros c s; simpl; eauto.
  intros [E X]. split; [done|]. intros s1 r s2 T V. apply IH. by eapply X.
Qed.

Lemma passes_mono {A} (QD QD' : A -> CategoryResult -> S -> Prop) QF QF' (p : conf A) c s :
  (forall a c s, QD a c s -> QD' a c s) -> (forall c s, QF c s -> QF' c s) -> passes QD QF p c s -> passes QD' QF' p c s.
Proof.
  intros H1 H2. revert c s. induction p as [a|m|m| |m k IH|m k IH|R x k IH]; intros c s; simpl; eauto.
  intros [E X]. split; [done|]. intros s1 r s2 T V. eapply IH. by eapply X.
Qed.
End Runs.
