(* ===== verification/FakeConforms.v ===== *)
(** * The in-memory adapter under the certification suite

    The fake of [Adapter] as a service: calls take at most [lat], goroutines
    run within [slack] of their wake-up, a watch stream remembers the state it
    sent last.  Every category of [Conformance] is evaluated on a fresh fake,
    for every way in which calls, time and goroutines can interleave, except
    that the goroutine of a task stands still while a reply reads the task's
    status without the mutex: what it can do otherwise is shown at the end. *)

From S2P Require Import Prelude Float64 GoLib Auth Prog Adapter AdapterProps Conformance.

(** ** The fake as a service *)

Record server := mkServer { ad : adapter; stream : option (string * option State) }.

Section Service.
Context (slack lat : Z).

(** What can happen while a reply reads the status of a task. *)
Context (meanwhile : string -> adapter -> adapter -> Prop).

Definition serve_fake {R} (c : call R) : server -> R -> server -> Prop :=
  match c in call R return server -> R -> server -> Prop with
  | Submit_call req _ => fun s r s' => r = (do_submit s.(ad) req).1 /\ s' = mkServer (do_submit s.(ad) req).2 s.(stream)
  | GetTask_call _ id => fun s r s' =>
      GetTask (meanwhile id) id s.(ad) r s'.(ad) /\ s'.(stream) = s.(stream) /\ s'.(ad).(clock) <= s.(ad).(clock) + lat
  | WatchTask_call _ id => fun s r s' => r = Ok tt /\ s' = mkServer s.(ad) (Some (id, None))
  | Recv_call => fun s r s' =>
      match s.(stream) with
      | None => False
      | Some (id, last) =>
          if match last with Some st => isTerminalState st | None => false end then r = EOF /\ s' = s
          else exists a o a', rtc (background slack) s.(ad) a /\ WatchTask_turn (meanwhile id) id last a o a' /\
            match o with
            | Sent m st => r = Message m /\ s' = mkServer a' (Some (id, Some st))
            | Unchanged => False
            | SendFailed e => r = Broken e /\ s' = mkServer a' None
            | NilTask => (exists e, r = Broken e) /\ s' = mkServer a' None
            end
      end
  | CancelTask_call _ id => fun s r s' =>
      r = (CancelTask s.(ad).(fake) id).1 /\ s' = mkServer (on_fake (fun f => (CancelTask f id).2) s.(ad)) s.(stream)
  | GetDeviceState_call target => fun s r s' => r = GetDeviceState s.(ad).(fake) s.(ad).(clock) target /\ s' = s
  | OpenSession_call target d => fun s r s' =>
      r = (OpenSession s.(ad).(fake) s.(ad).(clock) target d).1 /\
      s' = mkServer (on_fake (fun f => (OpenSession f s.(ad).(clock) target d).2) s.(ad)) s.(stream)
  | CloseSession_call h => fun s r s' => r = Ok tt /\ s' = mkServer (on_fake (fun f => CloseSession f h) s.(ad)) s.(stream)
  | Now_call => fun s r s' => r = s.(ad).(clock) /\ s' = s
  | Sleep_call d => fun s _ s' =>
      rtc (background slack) s.(ad) s'.(ad) /\ s'.(stream) = s.(stream) /\
      s.(ad).(clock) + d <= s'.(ad).(clock) <= s.(ad).(clock) + d + slack
  end.

Definition fake_service : Service server := {|
  transit s s' := rtc (background slack) s.(ad) s'.(ad) /\ s'.(stream) = s.(stream) /\
    s'.(ad).(clock) <= s.(ad).(clock) + lat;
  serve R c := serve_fake c |}.
End Service.

(** ** Time can always pass *)

Lemma background_clock slack a a' : background slack a a' -> a.(clock) <= a'.(clock).
Proof. by destruct 1. Qed.

Lemma background_run_clock slack a a' : rtc (background slack) a a' -> a.(clock) <= a'.(clock).
Proof. induction 1 as [|x y z Hs _ IH]; [done|]. apply background_clock in Hs. lia. Qed.

Lemma background_runs_to slack a a' : rtc (background slack) a a' -> runs_to slack a a'.
Proof. induction 1 as [|x y z Hs _ IH]; [apply rtc_refl|]. eapply rtc_l; [by apply as_background|done]. Qed.

Lemma background_ok slack a a' :
  0 <= slack -> delays_ok a -> adapter_ok a -> timely slack a -> rtc (background slack) a a' ->
  delays_ok a' /\ adapter_ok a' /\ timely slack a'.
Proof.
  intros Hs D OK T R. revert D OK T. induction R as [|x y z St _ IH]; intros D OK T; [done|]. apply IH.
  - intros id s. rewrite (step_targets slack x y (as_background _ _ _ St)). apply D.
  - eapply adapter_step_ok; [done|by apply as_background].
  - by eapply timely_background.
Qed.

(** The steps that the goroutines still have to take. *)
Fixpoint work (gs : list routine) : nat :=
  match gs with [] => 0 | g :: gs => (if g.(g_second) then 1 else 2) + work gs end.

Lemma work_app l1 l2 : work (l1 ++ l2) = (work l1 + work l2)%nat.
Proof. induction l1 as [|g l1 IH]; simpl; [done|]. rewrite IH. lia. Qed.

Lemma work_continues t g tk : (work (continues t g tk) < work [g])%nat.
Proof. unfold continues. simpl. destruct (tk_cancel tk), (g_second g); simpl; lia. Qed.

(** The routine that wakes first. *)
Lemma earliest (gs : list routine) : gs <> [] -> exists l1 g l2, gs = l1 ++ g :: l2 /\ forall x, x ∈ gs -> g.(g_wake) <= x.(g_wake).
Proof.
  induction gs as [|x gs IH]; [done|]. intros _. destruct gs as [|y gs].
  { exists [], x, []. split; [done|]. by intros z ->%list_elem_of_singleton. }
  destruct IH as (l1 & g & l2 & E & H); [done|]. rewrite E in *. destruct (Z.le_gt_cases x.(g_wake) g.(g_wake)).
  - exists [], x, (l1 ++ g :: l2). split; [done|]. intros z [->|Hz]%elem_of_cons; [done|]. specialize (H z Hz). lia.
  - exists (x :: l1), g, l2. split; [done|]. intros z [->|Hz]%elem_of_cons; [lia|by apply H].
Qed.

Lemma time_passes slack n a t :
  0 <= slack -> delays_ok a -> adapter_ok a -> timely slack a -> (work a.(routines) <= n)%nat -> a.(clock) <= t ->
  exists a', rtc (background slack) a a' /\ a'.(clock) = t.
Proof.
  intros Hs. revert a. induction n as [|n IH]; intros a D OK T W Ht; destruct a as [c f gs]; simpl in *.
  - assert (gs = []) as -> by (destruct gs as [|g gs]; [done|]; simpl in W; destruct (g_second g); lia).
    exists (mkAdapter t f []). split; [|done]. apply rtc_once, bg_tick; [done|]. by intros g ?%elem_of_nil.
  - destruct gs as [|g0 gs'] eqn:Eg.
    { exists (mkAdapter t f []). split; [|done]. apply rtc_once, bg_tick; [done|]. by intros g ?%elem_of_nil. }
    rewrite <- Eg in *. destruct (earliest gs) as (l1 & g & l2 & E & H); [by rewrite Eg|]. clear Eg.
    destruct (Z.le_gt_cases t (g.(g_wake) + slack)) as [Hle|Hgt].
    { exists (mkAdapter t f gs). split; [|done]. apply rtc_once, bg_tick; [done|]. intros x Hx. specialize (H x Hx). lia. }
    set (c1 := Z.max c g.(g_wake)).
    assert (B1 : background slack (mkAdapter c f gs) (mkAdapter c1 f gs)).
    { apply bg_tick; [lia|]. intros x Hx. destruct (T x Hx) as [T1 _]. specialize (H x Hx). simpl in T1. lia. }
    destruct (background_ok slack _ _ Hs D OK T (rtc_once _ _ B1)) as (D1 & OK1 & T1).
    subst gs. destruct (ao_state _ OK1 g) as (tk & L & St); [simpl; rewrite elem_of_app, elem_of_cons; tauto|].
    assert (NT : isTerminalState tk.(tk_status).(StState) = false) by (rewrite St; by destruct (g_second g)).
    pose proof (advance_eq c1 g f tk L NT) as A.
    assert (B2 := bg_advance slack c1 f l1 g l2 _ _ ltac:(lia) A).
    destruct (background_ok slack _ _ Hs D1 OK1 T1 (rtc_once _ _ B2)) as (D2 & OK2 & T2).
    destruct (T g) as [Tg _]; [simpl; rewrite elem_of_app, elem_of_cons; tauto|]. simpl in Tg.
    destruct (IH _ D2 OK2 T2) as (a' & R & C).
    + simpl. pose proof (work_continues c1 g tk). change (g :: l2) with ([g] ++ l2) in W. rewrite !work_app in *. lia.
    + simpl. lia.
    + exists a'. split; [|done]. eapply rtc_l; [exact B1|]. by eapply rtc_l; [exact B2|].
Qed.

(** ** What the suite can rely on *)

Section Certify.
Context (slack lat : Z) (sp : TargetSpec) (prefix : string).
Hypotheses (slack_nonneg : 0 <= slack) (lat_nonneg : 0 <= lat) (delay_nonneg : 0 <= sp.(StepDelay))
  (no_failure : sp.(FailWith) = None).

(** The invariant between calls; [used] are the key suffixes submitted. *)
Record certifying (used : list string) (a : adapter) : Prop := {
  ce_ok : adapter_ok a;
  ce_timely : timely slack a;
  ce_targets : a.(fake).(targets) = {[sp.(ID) := sp]};
  ce_keys k : k ∉ used -> a.(fake).(byKey) !! (sp.(ID) +:+ "/" +:+ (prefix +:+ k)) = None;
  ce_order : (length a.(fake).(order) <= length used)%nat;
  ce_ghost : "no-such-session" ∉ a.(fake).(sessions);
  ce_clock : 0 <= a.(clock);
  ce_time id tk : a.(fake).(tasks) !! id = Some tk -> 0 <= tk.(tk_status).(StUpdatedAt) <= a.(clock) }.

(** How a task ends, given its verdict, whether it was cancelled, its shots. *)
Definition ends_as (fw : option ErrorDetail) (cancelled : bool) (shots : Z) (st : Status) : Prop :=
  if cancelled then st.(StState) = CANCELLED /\ st.(StUsage) = []
  else match fw with
       | Some e => st.(StState) = FAILED /\ st.(StError) = Some e
       | None => st.(StState) = SUCCEEDED /\
                 exists t, st.(StUsage) = [mkUsage "shots" (f_of_Z shots) (Some t); mkUsage "tasks" f1 (Some t)]
       end.

(** A retained task that finishes between the times [lo] and [hi]. *)
Definition tracked (id : string) (fw : option ErrorDetail) (cancelled : bool) (shots lo hi : Z) (a : adapter) : Prop :=
  exists tk, a.(fake).(tasks) !! id = Some tk /\ tk.(tk_failWith) = fw /\ tk.(tk_cancel) = cancelled /\
    if isTerminalState tk.(tk_status).(StState)
    then ends_as fw cancelled shots tk.(tk_status) /\ (cancelled = false -> lo <= a.(clock))
    else forall g, g ∈ a.(routines) -> g.(g_id) = id -> g.(g_spec) = sp /\ g.(g_shots) = shots /\
      if g.(g_second) then lo <= g.(g_wake) /\ g.(g_wake) + slack <= hi
      else lo <= g.(g_wake) + sp.(StepDelay) /\ g.(g_wake) + sp.(StepDelay) + 2 * slack <= hi.

Lemma certifying_delays used a : certifying used a -> delays_ok a.
Proof. intros C id s. rewrite (ce_targets _ _ C). intros [_ <-]%lookup_singleton_Some. done. Qed.

(** A goroutine's step, seen from the task table. *)
Lemma background_cases used a a' :
  certifying used a -> background slack a a' ->
  (a'.(fake) = a.(fake) /\ a'.(routines) = a.(routines) /\ a.(clock) <= a'.(clock)) \/
  exists l1 g l2 tk, a.(routines) = l1 ++ g :: l2 /\ a.(fake).(tasks) !! g.(g_id) = Some tk /\
    tk.(tk_status).(StState) = (if g.(g_second) then RUNNING else QUEUED) /\ g.(g_wake) <= a.(clock) <= g.(g_wake) + slack /\
    a' = mkAdapter a.(clock)
           (set_tasks (<[g.(g_id) := with_status tk (next_status a.(clock) g tk a.(fake).(garbage))]> a.(fake).(tasks)) a.(fake))
           (l1 ++ continues a.(clock) g tk ++ l2) /\
    forall x, x ∈ l1 \/ x ∈ l2 -> x ∈ a.(routines) /\ x.(g_id) <> g.(g_id).
Proof.
  intros C B. destruct B as [t f gs t' Ht Hu|t f l1 g l2 gs f' Hw HA]; [by left|right].
  destruct C as [OK T _ _ _ _ _ _].
  assert (Hg : g ∈ l1 ++ g :: l2) by (rewrite elem_of_app, elem_of_cons; tauto).
  destruct (ao_state _ OK g Hg) as (tk & L & St). destruct (T g Hg) as [Tg _]. simpl in *.
  assert (NT : isTerminalState tk.(tk_status).(StState) = false) by (rewrite St; by destruct (g_second g)).
  rewrite (advance_eq _ _ _ _ L NT) in HA. injection HA as <- <-.
  exists l1, g, l2, tk. split_and!; try done. intros x Hx.
  split; [rewrite elem_of_app, elem_of_cons; tauto|]. intros E. pose proof (ao_nodup _ OK) as N. simpl in N.
  rewrite fmap_app, fmap_cons in N. apply NoDup_app in N as (_ & N2 & N3). apply NoDup_cons in N3 as [N3 _].
  destruct Hx as [Hx|Hx]; apply (list_elem_of_fmap_2 g_id) in Hx; rewrite E in Hx; [|done]. apply (N2 _ Hx). left.
Qed.

Lemma certifying_background used a a' : certifying used a -> background slack a a' -> certifying used a'.
Proof.
  intros C B. destruct (background_ok slack a a' slack_nonneg (certifying_delays _ _ C) (ce_ok _ _ C) (ce_timely _ _ C)
    (rtc_once _ _ B)) as (_ & OK & T).
  destruct (background_cases _ _ _ C B) as [(E1 & E2 & E3)|(l1 & g & l2 & tk & _ & L & _ & Hw & -> & _)].
  - destruct C. split; rewrite ?E1; try done; [lia|]. intros id tk L. specialize (ce_time0 id tk L). lia.
  - destruct C. split; simpl; try done. intros id x. destruct (decide (id = g.(g_id))) as [->|N].
    + rewrite lookup_insert_eq. intros [= <-]. simpl. lia.
    + rewrite lookup_insert_ne by done. apply ce_time0.
Qed.

Lemma tracked_background used a a' id fw cn sh lo hi :
  certifying used a -> background slack a a' -> tracked id fw cn sh lo hi a -> tracked id fw cn sh lo hi a'.
Proof.
  intros C B (tk & L & F & Cn & H).
  destruct (background_cases _ _ _ C B) as [(E1 & E2 & E3)|(l1 & g & l2 & tk1 & Er & L1 & St & Hw & -> & Hx)].
  - exists tk. rewrite E1. split_and!; try done. rewrite E2. destruct (isTerminalState _); [|done].
    destruct H as [H1 H2]. split; [done|]. intros E. specialize (H2 E). lia.
  - assert (Hg : g ∈ a.(routines)) by (rewrite Er, elem_of_app, elem_of_cons; tauto).
    destruct (decide (g.(g_id) = id)) as [E|N].
    + rewrite E in L1. rewrite L in L1. injection L1 as <-.
      assert (NT : isTerminalState tk.(tk_status).(StState) = false) by (rewrite St; by destruct (g_second g)).
      rewrite NT in H. destruct (H g Hg E) as (Hs & Hsh & Hb).
      eexists. simpl. rewrite E, lookup_insert_eq. split_and!; try done. simpl. unfold next_status, continues.
      rewrite Cn. destruct cn; simpl.
      * split; [|done]. unfold ends_as. simpl. split; [done|].
        pose proof (ao_status _ (ce_ok _ _ C) _ _ L) as W. unfold status_wf in W. rewrite St in W. by destruct (g_second g), W as (_ & ? & _).
      * destruct (g_second g) eqn:Sd; simpl.
        -- unfold finish. rewrite F, Hs, no_failure, Hsh. destruct fw as [e|]; simpl; (split; [unfold ends_as; simpl; eauto|intros _; lia]).
        -- intros x Hx' Ex. rewrite elem_of_app, elem_of_cons in Hx'. destruct Hx' as [Hx'|[->|Hx']].
           ++ by destruct (Hx x) as [_ []]; [left|congruence].
           ++ simpl. rewrite Hs. split_and!; try done; lia.
           ++ by destruct (Hx x) as [_ []]; [right|congruence].
    + exists tk. simpl. rewrite lookup_insert_ne by done. split_and!; try done. destruct (isTerminalState _); [done|].
      intros x Hx' Ex. rewrite !elem_of_app in Hx'. destruct Hx' as [Hx'|[Hx'|Hx']].
      * apply H; [|done]. apply Hx. by left.
      * unfold continues in Hx'. destruct (_ && _); [|by apply elem_of_nil in Hx'].
        apply list_elem_of_singleton in Hx' as ->. done.
      * apply H; [|done]. apply Hx. by right.
Qed.

Lemma certifying_run used a a' : certifying used a -> rtc (background slack) a a' -> certifying used a'.
Proof. intros C R. induction R as [|x y z B _ IH]; [done|]. apply IH. by eapply certifying_background. Qed.

Lemma tracked_run used a a' id fw cn sh lo hi :
  certifying used a -> rtc (background slack) a a' -> tracked id fw cn sh lo hi a -> tracked id fw cn sh lo hi a'.
Proof.
  intros C R. revert C. induction R as [|x y z B _ IH]; [done|]. intros C T. apply IH.
  - by eapply certifying_background.
  - by eapply tracked_background.
Qed.

(** Once the time is past [hi], it has finished; before [lo] it has not. *)
Lemma tracked_status used a id fw cn sh lo hi :
  certifying used a -> tracked id fw cn sh lo hi a ->
  exists st, look a id = Some st /\
    if isTerminalState st.(StState) then ends_as fw cn sh st /\ (cn = false -> lo <= a.(clock)) else a.(clock) <= hi.
Proof.
  intros C (tk & L & F & Cn & H). exists tk.(tk_status). split.
  { unfold look. by rewrite L. }
  destruct (isTerminalState _) eqn:NT; [done|].
  destruct (ao_live _ (ce_ok _ _ C) id) as (g & Hg & E); [by exists tk|].
  destruct (H g Hg E) as (_ & _ & Hb). destruct (ce_timely _ _ C g Hg) as [Hc _]. destruct (g_second g); lia.
Qed.

(** What a watcher sees of a task: its state and time only grow. *)
Definition seen (id : string) (r ts : Z) (a : adapter) : Prop :=
  exists tk, a.(fake).(tasks) !! id = Some tk /\ ts <= tk.(tk_status).(StUpdatedAt) /\
    exists n, rank_of tk.(tk_status).(StState) = Some n /\ r <= n.

Lemma seen_background used a a' id r ts : certifying used a -> background slack a a' -> seen id r ts a -> seen id r ts a'.
Proof.
  intros C B (tk & L & Ht & n & Hn & Hr).
  destruct (background_cases _ _ _ C B) as [(E1 & _)|(l1 & g & l2 & tk1 & Er & L1 & St & Hw & -> & Hx)].
  { exists tk. rewrite E1. split_and!; [done|done|by exists n]. }
  destruct (decide (g.(g_id) = id)) as [E|N].
  - rewrite E, L in L1. injection L1 as <-. eexists. simpl. rewrite E, lookup_insert_eq. split; [done|].
    simpl. split; [pose proof (ce_time _ _ C _ _ L); unfold next_status; simpl; lia|].
    rewrite St in Hn. unfold next_status, touch, finish, fail_with. simpl.
    destruct (tk_cancel tk), (g_second g), (tk_failWith tk), (FailWith (g_spec g)); simpl in *; simplify_eq; eexists; (split; [reflexivity|lia]).
  - exists tk. simpl. rewrite lookup_insert_ne by done. split_and!; [done|done|by exists n].
Qed.

Lemma seen_run used a a' id r ts : certifying used a -> rtc (background slack) a a' -> seen id r ts a -> seen id r ts a'.
Proof.
  intros C R. revert C. induction R as [|x y z B _ IH]; [done|]. intros C T. apply IH.
  - by eapply certifying_background.
  - by eapply seen_background.
Qed.

(** ** Calls *)

Definition keeps (a a' : adapter) : Prop :=
  a.(clock) <= a'.(clock) /\ a'.(fake).(sessions) = a.(fake).(sessions) /\
  (forall k id, a.(fake).(byKey) !! k = Some id -> a'.(fake).(byKey) !! k = Some id) /\
  (forall id fw cn sh lo hi, tracked id fw cn sh lo hi a -> tracked id fw cn sh lo hi a') /\
  (forall id r ts, seen id r ts a -> seen id r ts a').

Lemma keeps_trans a b c : keeps a b -> keeps b c -> keeps a c.
Proof. intros (A1 & A2 & A3 & A4 & A5) (B1 & B2 & B3 & B4 & B5). split_and!; [lia|congruence|eauto..]. Qed.

Lemma kept_tracked a a' id fw cn sh lo hi : keeps a a' -> tracked id fw cn sh lo hi a -> tracked id fw cn sh lo hi a'.
Proof. intros (_ & _ & _ & K & _). apply K. Qed.

Lemma keeps_run used a a' : certifying used a -> rtc (background slack) a a' -> keeps a a'.
Proof.
  intros C R. split_and!; [by eapply background_run_clock| | |intros; by eapply tracked_run|intros; by eapply seen_run].
  - clear C. induction R as [|x y z B _ IH]; [done|]. rewrite IH. destruct B as [|t f l1 g l2 gs f' _ HA]; [done|]. simpl.
    unfold advance, advance1, advance2, step in HA. repeat (case_match; simplify_eq); done.
  - clear C. induction R as [|x y z B _ IH]; [done|]. intros k id H. apply IH. revert H.
    destruct B as [|t f l1 g l2 gs f' _ HA]; [done|]. simpl.
    unfold advance, advance1, advance2, step in HA. repeat (case_match; simplify_eq); done.
Qed.

Definition key_name (k : string) : string := sp.(ID) +:+ "/" +:+ (prefix +:+ k).

Definition suite_request (k format program session : string) (shots : Z) : SubmitTaskRequest :=
  mkSubmit sp.(ID) (prefix +:+ k) format program shots session "".

Lemma targets_self used a : certifying used a -> a.(fake).(targets) !! sp.(ID) = Some sp.
Proof. intros C. rewrite (ce_targets _ _ C). apply lookup_singleton_eq. Qed.

Lemma not_evicted f : Z.of_nat (length f.(order)) <= fakeTaskCap -> evictTerminal f = f.
Proof. intros H. unfold evictTerminal. by rewrite (proj2 (Z.leb_le _ _) H). Qed.

Lemma do_submit_new used a k format program session shots :
  certifying used a -> k ∉ used -> Z.of_nat (length used) < fakeTaskCap -> prefix +:+ k <> "" ->
  let req := suite_request k format program session shots in
  let id := task_id (S a.(fake).(nextID)) in
  do_submit a req = (Ok (mkHandle sp.(ID) id),
    mkAdapter a.(clock) (submitted a.(fake) a.(clock) sp req)
      (a.(routines) ++ [mkRoutine sp id shots false (a.(clock) + sp.(StepDelay))])).
Proof.
  intros C Hk Hl Hp req id. unfold do_submit, SubmitTask, spec. cbn [SubTarget req suite_request].
  rewrite (targets_self _ _ C). cbn [IdempotencyKey req suite_request]. rewrite (proj2 (String.eqb_neq _ _) Hp).
  unfold task_key. cbn [IdempotencyKey req suite_request]. rewrite (ce_keys _ _ C k Hk).
  rewrite not_evicted; [done|]. cbn [order]. rewrite length_app. simpl. pose proof (ce_order _ _ C). lia.
Qed.

Lemma do_submit_again used a k id format program session shots :
  certifying used a -> prefix +:+ k <> "" -> a.(fake).(byKey) !! key_name k = Some id ->
  do_submit a (suite_request k format program session shots) = (Ok (mkHandle sp.(ID) id), a).
Proof.
  intros C Hp K. unfold do_submit, SubmitTask, spec. cbn [SubTarget suite_request]. rewrite (targets_self _ _ C).
  cbn [IdempotencyKey suite_request]. rewrite (proj2 (String.eqb_neq _ _) Hp). unfold task_key.
  cbn [IdempotencyKey suite_request]. unfold key_name in K. rewrite K. rewrite app_nil_r. by destruct a.
Qed.

Lemma key_name_inj k k' : key_name k = key_name k' -> k = k'.
Proof. unfold key_name. intros E%append_inj%append_inj%append_inj. done. Qed.

Lemma submitted_certifying used a k format program session shots :
  certifying used a -> k ∉ used -> Z.of_nat (length used) < fakeTaskCap -> prefix +:+ k <> "" ->
  let req := suite_request k format program session shots in
  let a' := (do_submit a req).2 in let id := task_id (S a.(fake).(nextID)) in
  certifying (k :: used) a' /\ keeps a a' /\ a'.(fake).(byKey) !! key_name k = Some id /\ a'.(clock) = a.(clock) /\
  tracked id (submit_verdict a.(fake) sp req) false shots (a.(clock) + 2 * sp.(StepDelay))
    (a.(clock) + 2 * (sp.(StepDelay) + slack)) a'.
Proof.
  intros C Hk Hl Hp req a' id. pose proof (do_submit_new used a k format program session shots C Hk Hl Hp) as E.
  fold req id in E. pose proof (fresh_id _ (ao_fake _ (ce_ok _ _ C))) as Fr. fold id in Fr.
  assert (OK : adapter_ok a') by (apply do_submit_ok, (ce_ok _ _ C)).
  assert (T : timely slack a').
  { eapply timely_step; [exact slack_nonneg|by eapply certifying_delays|apply (ce_ok _ _ C)|apply (ce_timely _ _ C)|apply as_submit]. }
  assert (Own : forall g, g ∈ a.(routines) -> g.(g_id) <> id).
  { intros g Hg Eg. destruct (ao_state _ (ce_ok _ _ C) g Hg) as (tk & Hx & _). congruence. }
  unfold a' in *. rewrite E in *. cbn [snd] in *. split_and!; [split|split_and!| | |].
  - exact OK.
  - exact T.
  - apply (ce_targets _ _ C).
  - intros k' Hk'. simpl. rewrite lookup_insert_ne; [apply (ce_keys _ _ C); intros H; apply Hk'; by right|].
    intros Ek. apply Hk'. apply (key_name_inj k k') in Ek as <-. left.
  - simpl. rewrite length_app. simpl. pose proof (ce_order _ _ C). lia.
  - apply (ce_ghost _ _ C).
  - apply (ce_clock _ _ C).
  - pose proof (ce_clock _ _ C) as Hc. intros x tk. simpl.
    destruct (decide (x = id)) as [->|N]; [rewrite lookup_insert_eq; intros [= <-]; simpl; lia|].
    rewrite lookup_insert_ne by done. apply (ce_time _ _ C).
  - done.
  - done.
  - intros k' x Hx. simpl. rewrite lookup_insert_ne; [done|]. intros Ek. rewrite <- Ek in Hx.
    pose proof (ce_keys _ _ C k Hk) as Hn. unfold task_key in Hx. cbn [IdempotencyKey req suite_request] in Hx. congruence.
  - intros x fw cn sh lo hi (tk & L & F & Cn & H). exists tk. simpl.
    assert (x <> id) by congruence. rewrite lookup_insert_ne by done. split_and!; try done.
    destruct (isTerminalState _); [done|]. intros g [Hg|Hg]%elem_of_app Eg; [by apply H|].
    apply list_elem_of_singleton in Hg as ->. done.
  - intros x r ts (tk & L & H). exists tk. simpl. assert (x <> id) by congruence. by rewrite lookup_insert_ne by done.
  - simpl. apply lookup_insert_eq.
  - done.
  - eexists. simpl. rewrite lookup_insert_eq. split_and!; try done. simpl.
    intros g [Hg|Hg]%elem_of_app Eg; [by destruct (Own g Hg)|].
    apply list_elem_of_singleton in Hg as ->. simpl. split_and!; try done; lia.
Qed.

(** ** Programs against the fake *)

#[local] Instance svc : Service server := fake_service slack lat (undisturbed slack).

Context (tx : texts) (rounds : nat).
Let caps : Capabilities :=
  mkCaps (targetInfo sp.(ID)) sp.(Qubits) sp.(Formats) sp.(MaxShots) true true ["shots"; "tasks"] "loose" false.
Let su : Suite := mkSuite sp.(ID) caps prefix 0.
Hypothesis timing : 2 * (sp.(StepDelay) + slack) + 3 * lat + poll_every + slack < 60 * second.
Hypothesis prefix_ne : prefix <> "".

Lemma prefixed k : prefix +:+ k <> "".
Proof. destruct prefix; [done|]. by rewrite append_cons. Qed.

Section Passes.
Context {A : Type} (QD : A -> CategoryResult -> server -> Prop) (QF : CategoryResult -> server -> Prop).
Abbreviation ok := (passes QD QF).

Lemma transit_refl (s : server) : transit s s.
Proof. simpl. split_and!; [apply rtc_refl|done|lia]. Qed.

(** What the adapter may have done when a call reaches it. *)
Lemma transit_keeps used s s' :
  certifying used s.(ad) -> transit s s' ->
  certifying used s'.(ad) /\ keeps s.(ad) s'.(ad) /\ s'.(stream) = s.(stream) /\ s'.(ad).(clock) <= s.(ad).(clock) + lat.
Proof.
  intros C (R & E & L). split_and!; [by eapply certifying_run|by eapply keeps_run|done|done].
Qed.

(** A call that the adapter answers by a function of its state. *)
Lemma passes_call {R} used (x : call R) (f : server -> R) (g : server -> server) k c s :
  certifying used s.(ad) -> (forall s r s', serve x s r s' <-> r = f s /\ s' = g s) ->
  (forall s', certifying used s'.(ad) -> keeps s.(ad) s'.(ad) -> s'.(stream) = s.(stream) ->
     s'.(ad).(clock) <= s.(ad).(clock) + lat -> ok (k (f s')) c (g s')) ->
  ok (Call x k) c s.
Proof.
  intros C Hx H. simpl. split.
  - exists s, (f s), (g s). split; [apply transit_refl|]. by apply Hx.
  - intros s1 r s2 T [-> ->]%Hx. destruct (transit_keeps _ _ _ C T) as (C' & K & E & L). by apply H.
Qed.

Lemma passes_submit used k format program session shots params kont c s :
  certifying used s.(ad) -> k ∉ used -> Z.of_nat (length used) < fakeTaskCap ->
  (forall s' id, certifying (k :: used) s'.(ad) -> keeps s.(ad) s'.(ad) -> s'.(stream) = s.(stream) ->
     s'.(ad).(fake).(byKey) !! key_name k = Some id -> s'.(ad).(clock) <= s.(ad).(clock) + lat ->
     tracked id (submit_verdict s.(ad).(fake) sp (suite_request k format program session shots)) false shots
       (s'.(ad).(clock) + 2 * sp.(StepDelay)) (s'.(ad).(clock) + 2 * (sp.(StepDelay) + slack)) s'.(ad) ->
     ok (kont (Ok (mkHandle sp.(ID) id))) c s') ->
  ok (Call (Submit_call (request su k format program session shots) params) kont) c s.
Proof.
  intros C Hk Hl H.
  apply (passes_call used _ (fun s => (do_submit s.(ad) (suite_request k format program session shots)).1)
    (fun s => mkServer (do_submit s.(ad) (suite_request k format program session shots)).2 s.(stream))); [done|done|].
  intros s1 C1 K1 E1 L1.
  change (request su k format program session shots) with (suite_request k format program session shots).
  pose proof (do_submit_new used s1.(ad) k format program session shots C1 Hk Hl (prefixed k)) as D.
  cbv zeta in D. pose proof (submitted_certifying used s1.(ad) k format program session shots C1 Hk Hl (prefixed k)) as (C2 & K2 & B2 & Ck & T2).
  set (s2 := mkServer (do_submit s1.(ad) (suite_request k format program session shots)).2 s1.(stream)).
  assert (D1 : (do_submit s1.(ad) (suite_request k format program session shots)).1
    = Ok (mkHandle sp.(ID) (task_id (S s1.(ad).(fake).(nextID))))) by (rewrite D; reflexivity).
  rewrite D1.
  apply H; try done.
  - by eapply keeps_trans.
  - simpl. rewrite Ck. done.
  - simpl. rewrite Ck. assert (V : submit_verdict s.(ad).(fake) sp (suite_request k format program session shots)
      = submit_verdict s1.(ad).(fake) sp (suite_request k format program session shots)).
    { unfold submit_verdict. by rewrite (proj1 (proj2 K1)). }
    rewrite V. exact T2.
Qed.

Lemma passes_sleep used d kont c s :
  certifying used s.(ad) -> 0 <= d ->
  (forall s', certifying used s'.(ad) -> keeps s.(ad) s'.(ad) -> s'.(stream) = s.(stream) ->
     s.(ad).(clock) + d <= s'.(ad).(clock) <= s.(ad).(clock) + lat + d + slack -> ok (kont tt) c s') ->
  ok (Call (Sleep_call d) kont) c s.
Proof.
  intros C Hd H. simpl. split.
  - destruct (time_passes slack _ s.(ad) (s.(ad).(clock) + d) slack_nonneg (certifying_delays _ _ C) (ce_ok _ _ C)
      (ce_timely _ _ C) (le_n _)) as (a & R & E); [lia|].
    exists s, tt, (mkServer a s.(stream)). split; [apply transit_refl|]. simpl. split_and!; [done|done|lia|lia].
  - intros s1 [] s2 T (R & E & L). destruct (transit_keeps _ _ _ C T) as (C1 & K1 & E1 & L1). apply H.
    + by eapply certifying_run.
    + eapply keeps_trans; [exact K1|by eapply keeps_run].
    + congruence.
    + destruct K1 as [? _]. lia.
Qed.

(** The reply to [GetTask]. *)
Lemma passes_get used id fw cn sh lo hi tgt kont c s :
  certifying used s.(ad) -> tracked id fw cn sh lo hi s.(ad) ->
  (forall s' tk, certifying used s'.(ad) -> keeps s.(ad) s'.(ad) -> s'.(stream) = s.(stream) ->
     s'.(ad).(clock) <= s.(ad).(clock) + 2 * lat -> s'.(ad).(fake).(tasks) !! id = Some tk ->
     (isTerminalState tk.(tk_status).(StState) = false -> s.(ad).(clock) <= hi /\ s'.(ad).(clock) <= hi + lat) ->
     (isTerminalState tk.(tk_status).(StState) = true -> ends_as fw cn sh tk.(tk_status)) ->
     ok (kont (Ok tk.(tk_status))) c s') ->
  ok (Call (GetTask_call tgt id) kont) c s.
Proof.
  intros C T H. simpl. split.
  - pose proof T as (tk & L & _). exists s, (Ok tk.(tk_status)), s. split; [apply transit_refl|]. split_and!; [|done|lia].
    eapply (gt_found _ _ _ tk); [by unfold getTask; rewrite L|apply pt_here|apply ma_ok, torn_here].
  - intros s1 r s2 Tr (G & E2 & L2). destruct (transit_keeps _ _ _ C Tr) as (C1 & K1 & E1 & L1).
    pose proof (kept_tracked _ _ _ _ _ _ _ _ K1 T) as T1. apply GetTask_still in G as [R G].
    destruct (tracked_status used _ _ _ _ _ _ _ C1 T1) as (st & E & D). rewrite E in G. destruct G as [-> G].
    apply look_some in G as (tk & L & <-). apply H; try done.
    + by eapply certifying_run.
    + eapply keeps_trans; [exact K1|by eapply keeps_run].
    + congruence.
    + lia.
    + intros N. rewrite N in D. destruct K1 as [K1 _]. lia.
    + intros N. rewrite N in D. apply D.
Qed.

(** *** Waiting for a task *)
Lemma passes_await_loop n used id fw cn sh lo hi deadline tgt c s (kont : Status -> conf A) :
  certifying used s.(ad) -> tracked id fw cn sh lo hi s.(ad) ->
  hi < s.(ad).(clock) + Z.of_nat (n - 1) * poll_every -> (0 < n)%nat ->
  Z.max s.(ad).(clock) (hi + 2 * lat + poll_every + slack) + lat < deadline ->
  (forall st s', certifying used s'.(ad) -> keeps s.(ad) s'.(ad) -> s'.(stream) = s.(stream) ->
     isTerminalState st.(StState) = true -> ends_as fw cn sh st -> ok (kont st) c s') ->
  ok (cbind (await_loop tx n deadline (mkHandle tgt id)) kont) c s.
Proof.
  revert s. induction n as [|n IH]; intros s C T Hn Hp Hd H; [lia|]. cbn [await_loop cbind].
  apply (passes_call used _ (fun s => s.(ad).(clock)) (fun s => s)); [done|done|]. intros s1 C1 K1 E1 L1. cbn [cbind].
  destruct (Z.ltb_spec s1.(ad).(clock) deadline) as [_|]; [|lia]. cbn [cbind HTarget HTask].
  eapply (passes_get used id); [done|by eapply kept_tracked|]. intros s2 tk C2 K2 E2 L2 _ Lo Fi. cbn [cbind].
  pose proof (keeps_trans _ _ _ K1 K2) as K12. pose proof (kept_tracked _ _ _ _ _ _ _ _ K12 T) as T2.
  destruct (isTerminalState (StState (tk_status tk))) eqn:NT; [cbn [cbind]; apply H; try done; [congruence|by apply Fi]|].
  destruct (Lo eq_refl). cbn [cbind].
  apply (passes_sleep used); [done|by vm_compute|]. intros s3 C3 K3 E3 L3.
  assert (poll_every = 100000000) as P by reflexivity. rewrite P in *. destruct K1 as [K1c _], K2 as [K2c _].
  apply (IH s3 C3); [apply (kept_tracked _ _ _ _ _ _ _ _ K3), T2|lia..|].
  intros st' s' C' K' E' NT' F'. apply H; try done; [|congruence]. by eapply keeps_trans; [|eapply keeps_trans].
Qed.

Lemma passes_await used id fw cn sh lo hi tgt c s (kont : Status -> conf A) :
  certifying used s.(ad) -> tracked id fw cn sh lo hi s.(ad) -> hi <= s.(ad).(clock) + 2 * (sp.(StepDelay) + slack) ->
  (forall st s', certifying used s'.(ad) -> keeps s.(ad) s'.(ad) -> s'.(stream) = s.(stream) ->
     isTerminalState st.(StState) = true -> ends_as fw cn sh st -> ok (kont st) c s') ->
  ok (cbind (awaitTerminal tx su (mkHandle tgt id)) kont) c s.
Proof.
  intros C T Hh H. cbn [awaitTerminal cbind].
  apply (passes_call used _ (fun s => s.(ad).(clock)) (fun s => s)); [done|done|]. intros s1 C1 K1 E1 L1.
  change (task_timeout su) with (60 * second). change (await_rounds su) with 602%nat.
  pose proof (kept_tracked _ _ _ _ _ _ _ _ K1 T) as T1. destruct K1 as [K1c K1'].
  assert (poll_every = 100000000) as P by reflexivity. assert (second = 1000000000) as Q by reflexivity.
  eapply (passes_await_loop 602 used); [exact C1|exact T1|simpl; lia|lia|lia|].
  intros st s' C' K' E' NT F. apply H; try done; [|congruence]. by eapply keeps_trans.
Qed.

(** *** The other calls *)
Lemma passes_again used k id format program session shots params kont c s :
  certifying used s.(ad) -> s.(ad).(fake).(byKey) !! key_name k = Some id ->
  (forall s', certifying used s'.(ad) -> keeps s.(ad) s'.(ad) -> s'.(stream) = s.(stream) ->
     s'.(ad).(clock) <= s.(ad).(clock) + lat -> ok (kont (Ok (mkHandle sp.(ID) id))) c s') ->
  ok (Call (Submit_call (request su k format program session shots) params) kont) c s.
Proof.
  intros C B H.
  apply (passes_call used _ (fun s => (do_submit s.(ad) (suite_request k format program session shots)).1)
    (fun s => mkServer (do_submit s.(ad) (suite_request k format program session shots)).2 s.(stream))); [done|done|].
  intros s1 C1 K1 E1 L1. rewrite (do_submit_again used _ _ id _ _ _ _ C1 (prefixed k)) by (by apply K1).
  destruct s1. by apply H.
Qed.

Lemma passes_cancel used id fw sh lo hi tgt kont c s :
  certifying used s.(ad) -> tracked id fw false sh lo hi s.(ad) -> s.(ad).(clock) + lat < lo ->
  (forall s', certifying used s'.(ad) -> s'.(stream) = s.(stream) -> s.(ad).(clock) <= s'.(ad).(clock) ->
     (forall id' fw' cn' sh' lo' hi', id' <> id -> tracked id' fw' cn' sh' lo' hi' s.(ad) ->
        tracked id' fw' cn' sh' lo' hi' s'.(ad)) ->
     tracked id fw true sh lo hi s'.(ad) -> ok (kont (Ok true)) c s') ->
  ok (Call (CancelTask_call tgt id) kont) c s.
Proof.
  intros C T Hlo H.
  apply (passes_call used _ (fun s => (CancelTask s.(ad).(fake) id).1)
    (fun s => mkServer (on_fake (fun f => (CancelTask f id).2) s.(ad)) s.(stream))); [done|done|].
  intros s1 C1 (K1 & _ & _ & K4 & _) E1 L1. pose proof (K4 _ _ _ _ _ _ T) as (tk & L & F & Cn & X).
  destruct (isTerminalState _) eqn:NT; [destruct X as [_ X]; specialize (X eq_refl); lia|].
  assert (E : CancelTask s1.(ad).(fake) id
    = (Ok true, set_tasks (<[id := mkTask tk.(tk_status) true tk.(tk_failWith) tk.(tk_key)]> s1.(ad).(fake).(tasks)) s1.(ad).(fake))).
  { unfold CancelTask, getTask. by rewrite L, NT. }
  pose proof (cancel_ok _ id (ce_ok _ _ C1)) as OK.
  pose proof (timely_step slack _ _ slack_nonneg (certifying_delays _ _ C1) (ce_ok _ _ C1) (ce_timely _ _ C1) (as_cancel _ _ id)) as Ti.
  unfold on_fake in *. rewrite E in *. cbn [fst snd] in *.
  apply H; [|done|simpl; lia| |].
  - destruct C1. split; simpl; try done. intros x y. destruct (decide (x = id)) as [->|N].
    + rewrite lookup_insert_eq. intros [= <-]. exact (ce_time0 id tk L).
    + rewrite lookup_insert_ne by done. apply ce_time0.
  - intros id' fw' cn' sh' lo' hi' N (tk' & L' & R)%K4. exists tk'. simpl. rewrite lookup_insert_ne by done. exact (conj L' R).
  - eexists. simpl. rewrite lookup_insert_eq. split_and!; try done. simpl. by rewrite NT.
Qed.

Lemma passes_open used d kont c s :
  certifying used s.(ad) -> sp.(BrokenSessions) = false ->
  (forall s' id exp, certifying used s'.(ad) -> s'.(stream) = s.(stream) -> id ∈ s'.(ad).(fake).(sessions) ->
     id <> "" -> ok (kont (Ok (mkSession sp.(ID) id (Some exp)))) c s') ->
  ok (Call (OpenSession_call sp.(ID) d) kont) c s.
Proof.
  intros C B H.
  apply (passes_call used _ (fun s => (OpenSession s.(ad).(fake) s.(ad).(clock) sp.(ID) d).1)
    (fun s => mkServer (on_fake (fun f => (OpenSession f s.(ad).(clock) sp.(ID) d).2) s.(ad)) s.(stream))); [done|done|].
  intros s1 C1 K1 E1 L1. pose proof (as_open slack s1.(ad) sp.(ID) d) as St.
  pose proof (adapter_step_ok slack _ _ (ce_ok _ _ C1) St) as OK.
  pose proof (timely_step slack _ _ slack_nonneg (certifying_delays _ _ C1) (ce_ok _ _ C1) (ce_timely _ _ C1) St) as Ti.
  unfold on_fake, OpenSession, spec in *. cbv beta in *. rewrite (targets_self _ _ C1), B in *. cbn [fst snd] in *.
  apply H; [|done|by apply elem_of_union_l, elem_of_singleton_2|done].
  destruct C1. split; simpl; try done. rewrite elem_of_union, elem_of_singleton. by intros [?|?].
Qed.

Lemma passes_close used h kont c s :
  certifying used s.(ad) ->
  (forall s', certifying used s'.(ad) -> s'.(stream) = s.(stream) -> h.(ShSession) ∉ s'.(ad).(fake).(sessions) ->
     ok (kont (Ok tt)) c s') ->
  ok (Call (CloseSession_call h) kont) c s.
Proof.
  intros C H.
  apply (passes_call used _ (fun _ => Ok tt) (fun s => mkServer (on_fake (fun f => CloseSession f h) s.(ad)) s.(stream))); [done|done|].
  intros s1 C1 K1 E1 L1. pose proof (as_close slack s1.(ad) h) as St.
  pose proof (adapter_step_ok slack _ _ (ce_ok _ _ C1) St) as OK.
  pose proof (timely_step slack _ _ slack_nonneg (certifying_delays _ _ C1) (ce_ok _ _ C1) (ce_timely _ _ C1) St) as Ti.
  apply H; [|done|by intros [_ []%not_elem_of_singleton]%elem_of_difference].
  destruct C1. split; simpl; try done. by intros [? _]%elem_of_difference.
Qed.

Lemma passes_device used tgt kont c s :
  certifying used s.(ad) ->
  (forall s', certifying used s'.(ad) ->
     ok (kont (GetDeviceState s'.(ad).(fake) s'.(ad).(clock) tgt)) c s') ->
  ok (Call (GetDeviceState_call tgt) kont) c s.
Proof.
  intros C H. apply (passes_call used _ (fun s => GetDeviceState s.(ad).(fake) s.(ad).(clock) tgt) (fun s => s)); [done|done|].
  intros s1 C1 K1 E1 L1. by apply H.
Qed.

(** *** Watching a task *)
Lemma passes_watch used id tgt kont c s :
  certifying used s.(ad) ->
  (forall s', certifying used s'.(ad) -> keeps s.(ad) s'.(ad) -> s'.(stream) = Some (id, None) -> ok (kont (Ok tt)) c s') ->
  ok (Call (WatchTask_call tgt id) kont) c s.
Proof.
  intros C H. apply (passes_call used _ (fun _ => Ok tt) (fun s => mkServer s.(ad) (Some (id, None)))); [done|done|].
  intros s1 C1 K1 E1 L1. by apply H.
Qed.

(** The next message is the task's status, in a state not seen yet. *)
Lemma passes_recv used id fw cn sh lo hi last r ts kont c s :
  certifying used s.(ad) -> tracked id fw cn sh lo hi s.(ad) -> seen id r ts s.(ad) -> s.(stream) = Some (id, last) ->
  match last with Some st => isTerminalState st = false /\ rank_of st = Some r | None => True end ->
  (forall st s' n, certifying used s'.(ad) -> keeps s.(ad) s'.(ad) -> s'.(stream) = Some (id, Some st.(StState)) ->
     rank_of st.(StState) = Some n -> r <= n -> (last <> None -> r < n) -> ts <= st.(StUpdatedAt) ->
     seen id n st.(StUpdatedAt) s'.(ad) -> (isTerminalState st.(StState) = true -> ends_as fw cn sh st) ->
     ok (kont (Message st)) c s') ->
  ok (Call Recv_call kont) c s.
Proof.
  intros C T Sn ES Hl H. simpl.
  assert (NT : match last with Some st => isTerminalState st | None => false end = false) by (by destruct last as [st|]; [destruct Hl|]).
  split.
  - destruct (time_passes slack _ s.(ad) (Z.max s.(ad).(clock) (hi + 1)) slack_nonneg (certifying_delays _ _ C) (ce_ok _ _ C)
      (ce_timely _ _ C) (le_n _)) as (a & R & E); [lia|].
    pose proof (certifying_run _ _ _ C R) as C'. pose proof (tracked_run _ _ _ _ _ _ _ _ _ C R T) as T'.
    destruct (tracked_status _ _ _ _ _ _ _ _ C' T') as (st & G & D).
    destruct (isTerminalState (StState st)) eqn:D'; [|lia].
    exists s, (Message st), (mkServer a (Some (id, Some st.(StState)))).
    split; [apply transit_refl|]. rewrite ES, NT. exists a, (Sent st st.(StState)), a. split; [done|]. split; [|done].
    apply turn_at_once; [done|]. intros ->. congruence.
  - intros s1 m s2 Tr V. destruct (transit_keeps _ _ _ C Tr) as (C1 & K1 & E1 & _). rewrite E1, ES, NT in V.
    destruct V as (a0 & o & a & R0 & W & V). apply turn_still in W as [R1 W].
    assert (R : rtc (background slack) s1.(ad) a) by (by etrans). clear R0 R1.
    pose proof (seen_run _ _ _ _ _ _ C1 R (seen_run _ _ _ _ _ _ C (proj1 Tr) Sn)) as (tk & L & Ht & n & Hn & Hr).
    pose proof (certifying_run _ _ _ C1 R) as C2.
    pose proof (tracked_run _ _ _ _ _ _ _ _ _ C1 R (tracked_run _ _ _ _ _ _ _ _ _ C (proj1 Tr) T)) as (tk' & L' & F & Cn & X).
    rewrite L in L'. injection L' as <-.
    assert (Lk : look a id = Some tk.(tk_status)) by (unfold look; by rewrite L).
    destruct o as [|m' st'|e|]; [done| |done|congruence]. destruct W as (Lm & -> & N), V as [-> ->].
    rewrite Lk in Lm. injection Lm as <-.
    apply (H _ _ n); try done; simpl.
    + eapply keeps_trans; [exact K1|by eapply keeps_run].
    + intros Nl. destruct last as [st|]; [|done]. destruct Hl as [Hl1 Hl2]. destruct (decide (r = n)) as [->|]; [|lia].
      exfalso. apply N. f_equal. destruct st, (StState (tk_status tk)); simpl in *; congruence.
    + exists tk. split_and!; [done|lia|by exists n].
    + intros Te. by rewrite Te in X; destruct X.
Qed.

Lemma passes_watch_loop n used id sh lo hi last r ts final (kont : option Status -> conf A) c s :
  certifying used s.(ad) -> tracked id None false sh lo hi s.(ad) -> seen id r ts s.(ad) -> s.(stream) = Some (id, last) ->
  match last with Some st => isTerminalState st = false /\ rank_of st = Some r | None => r = -1 end ->
  2 - r <= Z.of_nat n ->
  (forall st s', certifying used s'.(ad) -> tracked id None false sh lo hi s'.(ad) ->
     seen id 2 st.(StUpdatedAt) s'.(ad) -> st.(StState) = SUCCEEDED -> ok (kont (Some st)) c s') ->
  ok (cbind (watch_loop tx n r ts final) kont) c s.
Proof.
  revert last r ts final s. induction n as [|n IH]; intros last r ts final s C T Sn ES Hl Hn H.
  { exfalso. destruct last as [[]|]; [destruct Hl as [Ht Hl]; simpl in Ht, Hl; simplify_eq; simpl in Hn; lia..|lia]. }
  cbn [watch_loop cbind]. eapply (passes_recv used id _ _ _ _ _ last r ts); try done.
  { destruct last; [done|done]. }
  intros st s' m C' K' E' Hm Hr Hr' Ht Sn' Te. rewrite Hm.
  assert (r < m) by (destruct last; [by apply Hr'|destruct (StState st); simpl in Hm; simplify_eq; lia]).
  unfold error_if. rewrite (proj2 (Z.ltb_ge _ _)) by lia. rewrite (proj2 (Z.ltb_ge _ _)) by lia.
  pose proof (kept_tracked _ _ _ _ _ _ _ _ K' T) as T'.
  destruct (Z.eqb_spec m 2) as [->|N].
  - cbn [cbind]. apply H; [done|done|done|].
    assert (Tm : isTerminalState (StState st) = true) by (destruct (StState st); simpl in *; congruence).
    apply (Te Tm).
  - apply (IH (Some st.(StState)) m st.(StUpdatedAt) (Some st)); try done; [|lia].
    split; [|done]. destruct (StState st); simpl in *; congruence.
Qed.

Lemma passes_poll_same n used id sh lo hi ts tgt final (kont : unit -> conf A) c s :
  certifying used s.(ad) -> tracked id None false sh lo hi s.(ad) -> seen id 2 ts s.(ad) -> final.(StState) = SUCCEEDED ->
  (forall s', certifying used s'.(ad) -> ok (kont tt) c s') ->
  ok (cbind (poll_same tx n (mkHandle tgt id) final) kont) c s.
Proof.
  revert s. induction n as [|n IH]; intros s C T Sn Hf H; [by apply H|]. cbn [poll_same cbind HTarget HTask].
  eapply (passes_get used id); [done|exact T|]. intros s1 tk C1 K1 E1 L1 L _ D.
  destruct (proj2 (proj2 (proj2 (proj2 K1))) _ _ _ Sn) as (tk' & L' & _ & m & Hm & Hle).
  rewrite L in L'. injection L' as <-.
  assert (Tm : isTerminalState (StState (tk_status tk)) = true) by (destruct (StState (tk_status tk)); simpl in *; simplify_eq; lia || done).
  destruct (D Tm) as [Ds _]. unfold error_if. rewrite Ds, Hf, bool_decide_true by done. cbn [negb].
  apply (passes_sleep used); [done|by vm_compute|]. intros s2 C2 K2 E2 L2.
  pose proof (keeps_trans _ _ _ K1 K2) as K. apply IH; try done.
  - by eapply kept_tracked.
  - by apply K.
Qed.
End Passes.

(** ** The categories *)

Context (format : string) (formats : list string).
Hypotheses (declares : sp.(Formats) = format :: formats) (undeclared : "no-such-format" ∉ sp.(Formats))
  (shots_bounds : 321 <= sp.(MaxShots) < 2 ^ 64 - 1) (quick : lat < 2 * sp.(StepDelay)) (named : sp.(ID) <> "no-such-target")
  (snapshot : sp.(SnapshotID) <> "") (measured : sp.(Metrics) <> [])
  (described : Forall (fun m => m.(MetName) <> "" /\ m.(MetMethodology) <> "") sp.(Metrics)) (enough : (3 <= rounds)%nat).

Lemma declared : str_in format sp.(Formats) = true.
Proof. apply str_in_elem. rewrite declares. left. Qed.

Lemma verdict_ok f k session shots :
  (session = "" \/ session ∈ f.(sessions)) -> shots <= sp.(MaxShots) ->
  submit_verdict f sp (suite_request k format validQASM session shots) = None.
Proof.
  intros Hs Hm. unfold submit_verdict. cbn [PayloadFormat SubSession PayloadInline SubShots suite_request].
  rewrite declared. cbn [negb].
  replace (negb (String.eqb session "") && negb (bool_decide (session ∈ f.(sessions)))) with false.
  - change (contains validQASM "not a program") with false. rewrite (proj2 (Z.ltb_ge sp.(MaxShots) shots)) by done.
    by rewrite andb_false_r.
  - destruct Hs as [->|Hs]; [done|]. rewrite bool_decide_true by done. by rewrite andb_false_r.
Qed.

Lemma verdict_invalid f k :
  exists e, submit_verdict f sp (suite_request k format invalidQASM "" 100) = Some e /\ e.(ECategory) = "INVALID_PROGRAM".
Proof.
  unfold submit_verdict. cbn [PayloadFormat SubSession PayloadInline SubShots suite_request].
  rewrite declared. by eexists.
Qed.

Lemma verdict_format f k :
  exists e, submit_verdict f sp (suite_request k "no-such-format" validQASM "" 100) = Some e /\ e.(ECategory) = "CAPABILITY_MISMATCH".
Proof.
  unfold submit_verdict. cbn [PayloadFormat suite_request].
  destruct (str_in "no-such-format" sp.(Formats)) eqn:E; [by apply str_in_elem in E|by eexists].
Qed.

Lemma verdict_lost f k session :
  session <> "" -> session ∉ f.(sessions) ->
  exists e, submit_verdict f sp (suite_request k format validQASM session 100) = Some e /\ e.(ECategory) = "SESSION_LOST".
Proof.
  intros H1 H2. unfold submit_verdict. cbn [PayloadFormat SubSession suite_request].
  rewrite declared. rewrite (proj2 (String.eqb_neq _ _) H1), bool_decide_false by done.
  by eexists.
Qed.

Lemma verdict_shots f k :
  match submit_verdict f sp (suite_request k format validQASM "" ((sp.(MaxShots) + 1) mod 2 ^ 64)) with
  | Some _ => sp.(IgnoreMaxShots) = false
  | None => sp.(IgnoreMaxShots) = true
  end.
Proof.
  unfold submit_verdict. cbn [PayloadFormat SubSession PayloadInline SubShots suite_request].
  rewrite declared. cbn [negb String.eqb andb].
  change (contains validQASM "not a program") with false. cbv iota. rewrite Z.mod_small by lia.
  rewrite (proj2 (Z.ltb_lt 0 _)), (proj2 (Z.ltb_lt _ (_ + 1))) by lia. by destruct (IgnoreMaxShots sp).
Qed.

(** [keys] can still be submitted. *)
Definition fresh (keys used : list string) : Prop :=
  Forall (fun k => k ∉ used) keys /\ Z.of_nat (length used + length keys) <= fakeTaskCap.

(** A category's verdict, and what it leaves to the next one. *)
Definition judged (b : bool) (used : list string) (c : CategoryResult) (s : server) : Prop :=
  c.(CPassed) = b /\ certifying used s.(ad).
Definition certifies (b : bool) (keys used : list string) (p : conf unit) : Prop :=
  forall name s, fresh keys used -> certifying used s.(ad) ->
    passes (fun _ => judged b (keys ++ used)) (judged b (keys ++ used)) p (new_category name) s.

Lemma passes_assoc {A B D} (QD : D -> CategoryResult -> server -> Prop) QF (p : conf A) (f : A -> conf B) g c s :
  passes QD QF (cbind p (fun a => cbind (f a) g)) c s -> passes QD QF (cbind (cbind p f) g) c s.
Proof.
  revert c s. induction p as [a|m|m| |m q IH|m q IH|R x q IH]; intros c s; simpl; auto.
  intros [E X]. split; [done|]. intros s1 r s2 T V. apply IH. by eapply X.
Qed.

Lemma passes_done {A} (QD : A -> CategoryResult -> server -> Prop) QF (p : conf A) c s :
  passes QD QF (cbind p Done) c s -> passes QD QF p c s.
Proof.
  revert c s. induction p as [a|m|m| |m q IH|m q IH|R x q IH]; intros c s; simpl; auto.
  intros [E X]. split; [done|]. intros s1 r s2 T V. apply IH. by eapply X.
Qed.

(** A submission that the category waits for. *)
Lemma passes_task {A} QD QF used k format' program session shots params (kont : result status TaskHandle -> conf A) f c s :
  certifying used s.(ad) -> k ∉ used -> Z.of_nat (length used) < fakeTaskCap ->
  (forall h c s, passes QD QF (cbind (awaitTerminal tx su h) f) c s -> passes QD QF (kont (Ok h)) c s) ->
  (forall s' st, certifying (k :: used) s'.(ad) -> s'.(ad).(fake).(sessions) = s.(ad).(fake).(sessions) ->
     ends_as (submit_verdict s.(ad).(fake) sp (suite_request k format' program session shots)) false shots st ->
     passes QD QF (f st) c s') ->
  passes QD QF (Call (Submit_call (request su k format' program session shots) params) kont) c s.
Proof.
  intros C Hk Hl E H. apply (passes_submit _ _ used); [done..|]. intros s1 id C1 K1 E1 B1 L1 T1. apply E.
  eapply (passes_await _ _ (k :: used)); [done|exact T1|lia|]. intros st s2 C2 K2 E2 Te En. apply H; [done| |done].
  destruct K1 as (_ & <- & _), K2 as (_ & K2 & _). done.
Qed.

Ltac fresh_key F := clear -F; rewrite ?Forall_cons in F; rewrite ?not_elem_of_cons; repeat split; try done; tauto.
Ltac room Hl := clear -Hl; simpl in *; lia.

Ltac nested := intros ? ? ? X; first [exact X|apply passes_assoc; exact X].
Ltac submit_and_wait F Hl used :=
  eapply (passes_task _ _ used); [done|fresh_key F|room Hl|nested|].

Lemma CapabilityHonesty_certified used :
  certifies (negb sp.(IgnoreMaxShots)) ["cap-shots"; "cap-invalid"; "cap-valid"] used (CapabilityHonesty tx su).
Proof.
  intros name s [F Hl] C. unfold CapabilityHonesty. cbn [Caps su caps CpFormats CpBilling CpTarget CpMaxShots targetInfo InTechnology].
  change (String.eqb "simulator" "") with false. change (str_in "simulator" technologyRegistry) with true. cbn [negb].
  rewrite declares. submit_and_wait F Hl used. intros s1 st C1 S1. rewrite verdict_ok by (lia || by left).
  intros (Es & _). rewrite Es. rewrite bool_decide_true by done. cbn [negb].
  submit_and_wait F Hl ("cap-valid" :: used). clear st Es. intros s2 st C2 S2. destruct (verdict_invalid s1.(ad).(fake) "cap-invalid") as (e & -> & Ee).
  intros (Es & E). rewrite Es, E. cbn [category]. rewrite Ee. cbn [cbind error_if].
  change (cbind (Done ()) ?f) with (f ()).
  rewrite (proj2 (Z.ltb_lt 0 _)) by lia.
  submit_and_wait F Hl ("cap-invalid" :: "cap-valid" :: used). clear st Es E. intros s3 st C3 S3. pose proof (verdict_shots s2.(ad).(fake) "cap-shots") as V.
  destruct (submit_verdict _ _ _); rewrite V; intros (Es & _); rewrite Es; by split.
Qed.

Lemma Usage_certified used : certifies true ["usage"] used (Usage tx su).
Proof.
  intros name s [F Hl] C. unfold Usage, first_format. cbn [Caps su caps CpFormats]. rewrite declares.
  submit_and_wait F Hl used. intros s1 st C1 S1.
  rewrite verdict_ok by (lia || by left). intros (-> & t & ->). by split.
Qed.

Lemma StateMachine_certified used : certifies true ["fsm"] used (StateMachine tx rounds su).
Proof.
  intros name s [F Hl] C. unfold StateMachine, first_format. cbn [Caps su caps CpFormats]. rewrite declares.
  apply (passes_submit _ _ used); [done|fresh_key F|room Hl|]. intros s1 id C1 K1 E1 B1 L1 T1.
  rewrite verdict_ok in T1 by (lia || by left). cbn [HTarget HTask].
  apply (passes_watch _ _ ("fsm" :: used)); [done|]. intros s2 C2 K2 E2.
  pose proof (kept_tracked _ _ _ _ _ _ _ _ K2 T1) as T2.
  assert (Sn : seen id (-1) time_zero s2.(ad)).
  { pose proof T2 as (tk & L & _). exists tk. split; [done|]. split; [apply (ce_time _ _ C2 id tk L)|].
    pose proof (ao_status _ (ce_ok _ _ C2) id tk L) as W. unfold status_wf in W.
    destruct (StState (tk_status tk)); [done|..]; eexists; (split; [reflexivity|lia]). }
  eapply (passes_watch_loop _ _ rounds ("fsm" :: used) id _ _ _ None); [done|exact T2|exact Sn|done|done|lia|].
  intros st s3 C3 T3 Sn3 Es. cbv beta iota.
  apply passes_done. eapply (passes_poll_same _ _ 3 ("fsm" :: used)); [done|exact T3|exact Sn3|done|]. intros s4 C4. by split.
Qed.

Lemma passes_metrics (QD : unit -> CategoryResult -> server -> Prop) QF l k c s :
  Forall (fun m => m.(MetName) <> "" /\ m.(MetMethodology) <> "") l -> passes QD QF k c s ->
  passes QD QF (check_metrics l k) c s.
Proof.
  intros F P. induction F as [|x l [Hx Hy] _ IH]; [done|]. simpl. unfold error_if.
  by rewrite (proj2 (String.eqb_neq _ _) Hx), (proj2 (String.eqb_neq _ _) Hy).
Qed.

Lemma Provenance_certified used : certifies true [] used (Provenance tx su).
Proof.
  intros name s [F Hl] C. unfold Provenance. cbn [TargetID su].
  assert (D : forall s', certifying used s'.(ad) -> exists d, GetDeviceState s'.(ad).(fake) s'.(ad).(clock) sp.(ID) = Ok d /\
    exists t, d.(DvCalibration) = Some (mkSnapshot sp.(SnapshotID) (Some t) "adaptertest" sp.(Metrics))).
  { intros s' C'. unfold GetDeviceState, spec. rewrite (targets_self _ _ C'). simpl. eexists. split; [reflexivity|]. by eexists. }
  apply (passes_device _ _ used); [done|]. intros s1 C1. destruct (D s1 C1) as (d & -> & t & Ed). rewrite Ed.
  cbn [snapshot_id SnSnapshotId]. rewrite (proj2 (String.eqb_neq _ _) snapshot). unfold error_if.
  rewrite bool_decide_false by done. cbn [fmap option_fmap option_map from_option id SnSource SnMetrics]. change (String.eqb "adaptertest" "") with false. cbv iota.
  destruct (Metrics sp) as [|m ms] eqn:Em; [done|]. rewrite <- Em in *. clear m ms Em.
  apply passes_metrics; [done|]. apply (passes_device _ _ used); [done|]. intros s2 C2.
  destruct (D s2 C2) as (d' & -> & t' & Ed'). rewrite Ed'. cbn [snapshot_id SnSnapshotId]. rewrite String.eqb_refl. by split.
Qed.

Lemma ErrorTaxonomy_certified used : certifies true ["tax-format"; "tax-bad"] used (ErrorTaxonomy tx su).
Proof.
  intros name s [F Hl] C. unfold ErrorTaxonomy, first_format. cbn [Caps su caps CpFormats]. rewrite declares.
  submit_and_wait F Hl used. intros s1 st C1 S1. destruct (verdict_invalid s.(ad).(fake) "tax-bad") as (e & -> & Ee).
  intros (Es & E). rewrite E. cbn [category]. rewrite Ee. cbn [negb String.eqb error_if Ascii.eqb Bool.eqb].
  change (cbind (Done ()) ?f) with (f ()). cbv beta.
  submit_and_wait F Hl ("tax-bad" :: used). clear st Es e Ee E. intros s2 st C2 S2.
  destruct (verdict_format s1.(ad).(fake) "tax-format") as (e & -> & Ee).
  intros (Es & E). rewrite E. cbn [category]. rewrite Ee.
  change (cbind (Done ()) ?f) with (f ()). cbv beta.
  apply (passes_device _ _ ("tax-format" :: "tax-bad" :: used)); [done|]. intros s3 C3.
  assert (G : code_of (GetDeviceState s3.(ad).(fake) s3.(ad).(clock) "no-such-target") = Some NotFound).
  { unfold GetDeviceState, spec. rewrite (ce_targets _ _ C3), lookup_singleton_ne by done. done. }
  rewrite G. by split.
Qed.

Lemma passes_resubmit {A} QD QF n used id ids (kont : list string -> conf A) c s :
  certifying used s.(ad) -> s.(ad).(fake).(byKey) !! key_name "idem" = Some id ->
  (forall s', certifying used s'.(ad) -> keeps s.(ad) s'.(ad) -> passes QD QF (kont (ids ++ replicate n id)) c s') ->
  passes QD QF (cbind (submit_all tx su n format ids) kont) c s.
Proof.
  revert ids s. induction n as [|n IH]; intros ids s C B H.
  { simpl. rewrite <- (app_nil_r ids). apply (H s C). eapply keeps_run; [exact C|apply rtc_refl]. }
  cbn [submit_all cbind]. apply (passes_again _ _ used _ id); [done|done|]. intros s1 C1 K1 E1 L1. cbn [HTask].
  apply IH; [done|by apply K1|]. intros s2 C2 K2. rewrite <- app_assoc. apply H; [done|by eapply keeps_trans].
Qed.

Lemma units_once x y t : check_units (map_to_list (per_unit [mkUsage "shots" x t; mkUsage "tasks" y t])) = Done tt.
Proof. vm_compute. reflexivity. Qed.

Lemma Idempotency_certified used : certifies true ["idem"] used (Idempotency tx su).
Proof.
  intros name s [F Hl] C. unfold Idempotency, first_format. cbn [Caps su caps CpFormats]. rewrite declares.
  assert (exists n, idem_n = S n) as [n N] by (exists 999%nat; by vm_compute). rewrite N. cbn [submit_all cbind].
  apply (passes_submit _ _ used); [done|fresh_key F|room Hl|]. intros s1 id C1 K1 E1 B1 L1 T1.
  rewrite verdict_ok in T1 by (lia || by left). cbn [HTask app].
  apply (passes_resubmit _ _ n ("idem" :: used) id); [done|done|]. intros s2 C2 K2. cbv zeta.
  pose proof (kept_tracked _ _ _ _ _ _ _ _ K2 T1) as T2. destruct K2 as [K2 _].
  assert (E : list_to_set ([id] ++ replicate n id) = ({[id]} : gset string)).
  { clear. apply set_eq. intros x. rewrite elem_of_list_to_set, elem_of_app, elem_of_replicate, elem_of_singleton.
    rewrite list_elem_of_singleton. tauto. }
  rewrite E, size_singleton. change (negb (Z.of_nat 1 =? 1)) with false. cbv iota.
  assert (La : default "" (last ([id] ++ replicate n id)) = id).
  { clear. replace ([id] ++ replicate n id) with (replicate n id ++ [id]); [by rewrite last_snoc|].
    by rewrite <- (replicate_cons_app n id). }
  rewrite La. eapply (passes_await _ _ ("idem" :: used)); [done|exact T2|lia|].
  intros st s3 C3 K3 E3 Te (-> & t & ->). rewrite bool_decide_true by done. cbn [negb]. rewrite units_once. by split.
Qed.

Lemma Cancellation_certified used : certifies true ["cancel-queued"; "cancel-slow"] used (Cancellation tx su).
Proof.
  intros name s [F Hl] C. unfold Cancellation, first_format. cbn [Caps su caps CpFormats]. rewrite declares.
  apply (passes_submit _ _ used); [done|fresh_key F|room Hl|]. intros s1 slow C1 K1 E1 B1 L1 T1.
  rewrite verdict_ok in T1 by (lia || by left).
  apply (passes_submit _ _ ("cancel-slow" :: used)); [done|fresh_key F|room Hl|]. intros s2 queued C2 K2 E2 B2 L2 T2.
  rewrite verdict_ok in T2 by (lia || by left). pose proof (kept_tracked _ _ _ _ _ _ _ _ K2 T1) as T1'.
  assert (N : slow <> queued).
  { intros <-. pose proof (proj1 (proj2 (proj2 K2)) _ _ B1) as B1'.
    apply (fo_keys _ (ao_fake _ (ce_ok _ _ C2))) in B1' as (tk & L & Ek), B2 as (tk' & L' & Ek').
    rewrite L in L'. injection L' as <-. rewrite Ek in Ek'. by apply key_name_inj in Ek'. }
  destruct K2 as [K2 _]. cbn [HTarget HTask].
  eapply (passes_cancel _ _ ("cancel-queued" :: "cancel-slow" :: used)); [done|exact T2|lia|].
  intros s3 C3 E3 L3 Ot T3. cbn [negb]. pose proof (Ot _ _ _ _ _ _ N T1') as T1''.
  eapply (passes_await _ _ ("cancel-queued" :: "cancel-slow" :: used)); [done|exact T3|lia|].
  intros st s4 C4 K4 E4 Te (-> & ->). cbn [negb error_if]. rewrite bool_decide_true by done. cbn [negb error_if].
  pose proof (kept_tracked _ _ _ _ _ _ _ _ K4 T1'') as T4. destruct K4 as [K4 _].
  eapply (passes_await _ _ ("cancel-queued" :: "cancel-slow" :: used)); [done|exact T4|lia|].
  intros st' s5 C5 K5 E5 Te' (-> & _). by split.
Qed.

Lemma Sessions_certified used : sp.(BrokenSessions) = false ->
  certifies true ["sess-ghost"; "sess-dead"; "sess-live"] used (Sessions tx su).
Proof.
  intros Bs name s [F Hl] C. unfold Sessions, submit_in. cbn [TargetID su].
  apply (passes_open _ _ used); [done|done|]. intros s1 sess exp C1 E1 In1 Ne. cbn [ShSession ShExpiresAt].
  rewrite (proj2 (String.eqb_neq _ _) Ne), bool_decide_false by done. cbn [orb].
  unfold first_format. cbn [Caps su caps CpFormats]. rewrite declares.
  submit_and_wait F Hl used. intros s2 st C2 S2. rewrite verdict_ok by (lia || by right). intros (-> & _).
  rewrite bool_decide_true by done. cbn [negb].
  apply (passes_close _ _ ("sess-live" :: used)); [done|]. intros s3 C3 E3 Cl. cbn [ShSession] in Cl.
  submit_and_wait F Hl ("sess-live" :: used). intros s4 st' C4 S4.
  destruct (verdict_lost s3.(ad).(fake) "sess-dead" sess Ne Cl) as (e & -> & Ee). intros (-> & ->). cbn [category]. rewrite Ee.
  rewrite bool_decide_true by done. cbn [negb orb String.eqb Ascii.eqb Bool.eqb error_if cbind].
  submit_and_wait F Hl ("sess-dead" :: "sess-live" :: used). intros s5 st'' C5 S5.
  destruct (verdict_lost s4.(ad).(fake) "sess-ghost" "no-such-session" ltac:(done) (ce_ghost _ _ C4)) as (e' & -> & Ee').
  intros (-> & ->). cbn [category]. rewrite Ee'. by split.
Qed.

Lemma Sessions_broken used : sp.(BrokenSessions) = true -> certifies false [] used (Sessions tx su).
Proof.
  intros Bs name s [F Hl] C. unfold Sessions. cbn [TargetID su].
  apply (passes_call _ _ used _ (fun s => (OpenSession s.(ad).(fake) s.(ad).(clock) sp.(ID) (5 * minute)).1)
    (fun s => mkServer (on_fake (fun f => (OpenSession f s.(ad).(clock) sp.(ID) (5 * minute)).2) s.(ad)) s.(stream))); [done|done|].
  intros s1 C1 K1 E1 L1. unfold on_fake, OpenSession, spec. rewrite (targets_self _ _ C1), Bs. cbn [fst snd].
  split; [done|]. by destruct s1 as [[]].
Qed.
End Certify.

(** ** The whole suite *)

(** Categories that leave each other in a good state, with their verdicts. *)
Inductive certified {S} `{Service S} : list (string * conf unit) -> (S -> Prop) -> list bool -> Prop :=
| cd_nil P : certified [] P []
| cd_cons name p rest b bs (P Q : S -> Prop) :
    (forall s, P s -> passes (fun _ c s => c.(CPassed) = b /\ Q s) (fun c s => c.(CPassed) = b /\ Q s) p (new_category name) s) ->
    certified rest Q bs -> certified ((name, p) :: rest) P (b :: bs).

Lemma runs_name {S} `{Service S} {A} (p : conf A) c s t o c' s' : runs p c s t o c' s' -> c'.(CName) = c.(CName).
Proof.
  revert c s t. induction p as [a|m|m| |m k IH|m k IH|R x k IH]; intros c s t; cbn [runs].
  1-4: by intros (_ & _ & -> & _).
  1-2: by intros ->%IH.
  by intros (s1 & r & s2 & t' & _ & _ & _ & ->%IH).
Qed.

Lemma certified_sound {S} `{Service S} l (P : S -> Prop) bs s r s' :
  certified l P bs -> P s -> suite_runs l s r s' ->
  exists cats, r = Some cats /\ CName <$> cats = l.*1 /\ CPassed <$> cats = bs.
Proof.
  intros D Hs R. revert P bs D Hs. induction R as [s|name p rest s t o c s1 cats s2 Hr Ho R IH|name p rest s t m c s1 Hr];
    intros P bs D Hs; inversion D as [|? ? ? b bs' ? Q Hp D']; subst.
  - by exists [].
  - pose proof (passes_sound _ _ _ _ _ _ _ _ _ Hr (Hp s Hs)) as X. assert (c.(CPassed) = b /\ Q s1) as [Eb HQ] by (by destruct Ho as [-> | ->]).
    destruct (IH _ _ D' HQ) as (cats' & -> & En & Ep). exists (c :: cats'). split; [done|].
    pose proof (runs_name _ _ _ _ _ _ _ Hr) as Nm. rewrite !fmap_cons, En, Ep, Eb, Nm. done.
  - by pose proof (passes_sound _ _ _ _ _ _ _ _ _ Hr (Hp s Hs)).
Qed.

Lemma certified_complete {S} `{Service S} l (P : S -> Prop) bs s :
  certified l P bs -> P s -> exists r s', suite_runs l s r s'.
Proof.
  intros D. revert s. induction D as [P|name p rest b bs P Q Hp D IH]; intros s Hs; [by exists (Some []), s; constructor|].
  destruct (passes_complete _ _ _ _ _ (Hp s Hs)) as (t & o & c & s1 & R & Ho).
  pose proof (passes_sound _ _ _ _ _ _ _ _ _ R (Hp s Hs)) as X.
  assert (Q s1 /\ (o = Returned tt \/ o = Stopped)) as [HQ Ho'].
  { destruct Ho as [[[] ->]| ->]; destruct X; auto. }
  destruct (IH s1 HQ) as (r & s2 & R2). exists (cons c <$> r), s2. by eapply s_cons.
Qed.

(** What the self-test's fixtures have in common: a target with the defaults
    of the fake, whose steps are slower than one call and fast enough for the
    suite's timeout. *)
Record fixture (slack lat : Z) (sp : TargetSpec) : Prop := {
  fx_slack : 0 <= slack;
  fx_lat : 0 <= lat < 2 * sp.(StepDelay);
  fx_timing : 2 * (sp.(StepDelay) + slack) + 3 * lat + poll_every + slack < 60 * second;
  fx_failure : sp.(FailWith) = None;
  fx_formats : sp.(Formats) <> [] /\ "no-such-format" ∉ sp.(Formats);
  fx_shots : 321 <= sp.(MaxShots) < 2 ^ 64 - 1;
  fx_named : sp.(ID) <> "no-such-target";
  fx_metrics : Forall (fun m => m.(MetName) <> "" /\ m.(MetMethodology) <> "") sp.(Metrics) }.

Lemma start_certifying slack spec now prefix :
  0 <= now -> certifying slack (with_defaults spec) prefix [] (start [spec] now).
Proof.
  intros Hn. split; simpl; try done.
  - apply start_ok.
  - by intros g ?%elem_of_nil.
Qed.

Lemma prefix_not_empty nanos : "conf-" +:+ itoa nanos +:+ "-" <> "".
Proof. done. Qed.

Lemma defaults_snapshot spec : (with_defaults spec).(SnapshotID) <> "" /\ (with_defaults spec).(Metrics) <> [].
Proof.
  unfold with_defaults. cbn [SnapshotID Metrics]. split; [|by destruct (Metrics spec)].
  destruct (String.eqb_spec (SnapshotID spec) ""); done.
Qed.

Lemma certifies_step slack lat sp prefix b keys used name p rest bs :
  fresh keys used -> certifies slack lat sp prefix b keys used p ->
  @certified _ (fake_service slack lat (undisturbed slack)) rest (fun s => certifying slack sp prefix (keys ++ used) s.(ad)) bs ->
  @certified _ (fake_service slack lat (undisturbed slack)) ((name, p) :: rest) (fun s => certifying slack sp prefix used s.(ad)) (b :: bs).
Proof.
  intros F H R. eapply cd_cons; [|exact R]. intros s C. exact (H name s F C).
Qed.

Lemma suite_certified slack lat spec tx rounds nanos :
  let sp := with_defaults spec in
  fixture slack lat sp -> (3 <= rounds)%nat ->
  forall su, Dial tx (GetCapabilities (New [spec]) sp.(ID)) sp.(ID) nanos = Ok su ->
  @certified _ (fake_service slack lat (undisturbed slack)) (categories tx rounds su)
    (fun s => certifying slack sp su.(KeyPrefix) [] s.(ad))
    [negb sp.(IgnoreMaxShots); true; true; true; true; true; true; negb sp.(BrokenSessions)].
Proof.
  intros sp [Hs [Hl0 Hl] Ht Hf [Hne Hno] Hsh Hn Hm] Hr su E.
  assert (0 <= sp.(StepDelay)) as Hd by lia. destruct (defaults_snapshot spec) as [Sn Me].
  unfold GetCapabilities, Adapter.spec in E. change (New [spec]).(targets) with ({[sp.(ID) := sp]} : gmap string TargetSpec) in E.
  rewrite lookup_singleton_eq in E. injection E as <-. destruct (Formats sp) as [|format formats] eqn:Fm; [done|].
  rewrite <- Fm in Hno.
  assert (P := prefix_not_empty nanos). set (prefix := "conf-" +:+ itoa nanos +:+ "-") in *.
  assert (Fr : forall keys used, forallb (fun k => negb (str_in k used)) keys = true ->
    Z.of_nat (length used + length keys) <= fakeTaskCap -> fresh keys used).
  { intros keys used H1 H2. split; [|done]. apply Forall_forall. intros k Hk Hu%str_in_elem.
    apply list_elem_of_In, (proj1 (forallb_forall _ _) H1 k) in Hk. by rewrite Hu in Hk. }
  cbn [categories Caps CpCancellation CpSessions app].
  eapply certifies_step; [|by eapply (CapabilityHonesty_certified slack lat sp prefix)|]; [apply Fr; [reflexivity|by vm_compute]|].
  eapply certifies_step; [|by eapply (StateMachine_certified slack lat sp prefix)|]; [apply Fr; [reflexivity|by vm_compute]|].
  eapply certifies_step; [|by eapply (Idempotency_certified slack lat sp prefix)|]; [apply Fr; [reflexivity|by vm_compute]|].
  eapply certifies_step; [|by eapply (Cancellation_certified slack lat sp prefix)|]; [apply Fr; [reflexivity|by vm_compute]|].
  eapply certifies_step; [|by eapply (Provenance_certified slack lat sp prefix)|]; [apply Fr; [reflexivity|by vm_compute]|].
  eapply certifies_step; [|by eapply (Usage_certified slack lat sp prefix)|]; [apply Fr; [reflexivity|by vm_compute]|].
  eapply certifies_step; [|by eapply (ErrorTaxonomy_certified slack lat sp prefix)|]; [apply Fr; [reflexivity|by vm_compute]|].
  destruct (BrokenSessions sp) eqn:B; (eapply certifies_step; [| |constructor]).
  2: by eapply (Sessions_broken slack lat sp prefix). 3: by eapply (Sessions_certified slack lat sp prefix).
  all: apply Fr; [reflexivity|by vm_compute].
Qed.

(** Every run of the suite against a fresh fake, and that there is one. *)
Lemma fake_certified slack lat spec tx rounds nanos now su :
  let sp := with_defaults spec in
  let fake := fake_service slack lat (undisturbed slack) in
  fixture slack lat sp -> (3 <= rounds)%nat -> 0 <= now ->
  Dial tx (GetCapabilities (New [spec]) sp.(ID)) sp.(ID) nanos = Ok su ->
  let s := mkServer (start [spec] now) None in
  (forall r s', suite_runs (categories tx rounds su) s r s' ->
     exists cats, r = Some cats /\
       CName <$> cats = ["cat1-capability-honesty"; "cat2-state-machine"; "cat3-idempotency"; "cat4-cancellation";
                         "cat5-provenance"; "cat6-usage"; "cat7-error-taxonomy"; "cat8-sessions"] /\
       CPassed <$> cats = [negb sp.(IgnoreMaxShots); true; true; true; true; true; true; negb sp.(BrokenSessions)]) /\
  (exists r s', suite_runs (categories tx rounds su) s r s').
Proof.
  intros sp fake F Hr Hn E s. pose proof (suite_certified slack lat spec tx rounds nanos F Hr su E) as D.
  assert (P : certifying slack sp su.(KeyPrefix) [] s.(ad)) by (by apply start_certifying).
  split; [|by eapply certified_complete]. intros r s' R.
  destruct (certified_sound _ _ _ _ _ _ D P R) as (cats & -> & En & Ep). exists cats. split_and!; [done| |done].
  rewrite En. unfold GetCapabilities, Adapter.spec in E. change (New [spec]).(targets) with ({[sp.(ID) := sp]} : gmap string TargetSpec) in E.
  rewrite lookup_singleton_eq in E. injection E as <-. reflexivity.
Qed.

(** (C37) The suite certifies the fake, and detects its two fixtures: against
    a fresh fake that serves one target as [fixture] describes it (no injected
    failure, a format, a shot limit of at least 321, described metrics, steps
    slower than a call and fast enough for the suite's timeout), however calls,
    time and goroutines interleave, so long as the goroutine of a task takes no step between the
    lookup of a GetTask or WatchTask reply for it and the reply's last read of
    its status, every run of the suite ends with a report, in which the first
    category fails exactly when the target ignores its shot limit, the eighth
    exactly when its sessions are broken, and every other one passes; and the
    suite has such a run.  Those reads are not synchronised, and a step between
    them can fail the second category ([racing_watch_fails]). *)
Theorem fake_certification slack lat spec tx rounds nanos now su :
  let sp := with_defaults spec in
  let fake := fake_service slack lat (undisturbed slack) in
  fixture slack lat sp -> (3 <= rounds)%nat -> 0 <= now ->
  Dial tx (GetCapabilities (New [spec]) sp.(ID)) sp.(ID) nanos = Ok su ->
  let s := mkServer (start [spec] now) None in
  (forall r s', suite_runs (categories tx rounds su) s r s' ->
     exists cats, r = Some cats /\
       CName <$> cats = ["cat1-capability-honesty"; "cat2-state-machine"; "cat3-idempotency"; "cat4-cancellation";
                         "cat5-provenance"; "cat6-usage"; "cat7-error-taxonomy"; "cat8-sessions"] /\
       CPassed <$> cats = [negb sp.(IgnoreMaxShots); true; true; true; true; true; true; negb sp.(BrokenSessions)]) /\
  (exists r s', suite_runs (categories tx rounds su) s r s').
Proof. apply fake_certified. Qed.

(** ** What a verdict means for any adapter *)

Lemma runs_failed {S} `{Service S} {A} (p : conf A) c s t o c' s' :
  runs p c s t o c' s' -> c.(CPassed) = false -> c'.(CPassed) = false.
Proof.
  revert c s t. induction p as [a|m|m| |m k IH|m k IH|R x k IH]; intros c s t; cbn [runs].
  1-4: by intros (_ & _ & -> & _).
  - intros X _. by apply (IH _ _ _ X).
  - intros X E. by apply (IH _ _ _ X).
  - intros (s1 & r & s2 & t' & _ & _ & _ & X) E. by apply (IH _ _ _ _ X).
Qed.

Definition answered_with (id : string) (e : event) : Prop :=
  exists req params target, e = Event (Submit_call req params) (Ok (mkHandle target id)).

Lemma submit_all_runs {S} `{Service S} {A} tx su n format ids (k : list string -> conf A) c s t o c' s' :
  runs (cbind (submit_all tx su n format ids) k) c s t o c' s' -> c'.(CPassed) = true ->
  exists new t1 t2 c1 s1, t = t1 ++ t2 /\ length new = n /\ Forall2 answered_with new t1 /\
    runs (k (ids ++ new)) c1 s1 t2 o c' s'.
Proof.
  revert ids c s t. induction n as [|n IH]; intros ids c s t.
  { simpl. intros R _. exists [], [], t, c, s. rewrite app_nil_r. by split_and!. }
  cbn [submit_all cbind runs]. intros (s1 & r & s2 & t' & -> & _ & _ & R) P. destruct r as [h|e].
  - destruct (IH _ _ _ _ R P) as (new & t1 & t2 & c1 & s3 & -> & L & F & R').
    exists (h.(HTask) :: new), (Event (Submit_call (request su "idem" format validQASM "" 100) []) (Ok h) :: t1), t2, c1, s3. rewrite <- app_assoc in R'.
    split_and!; [done|simpl; by rewrite L| |done]. constructor; [|done]. destruct h. by do 3 eexists.
  - cbn [cbind runs] in R. by rewrite (runs_failed _ _ _ _ _ _ _ R eq_refl) in P.
Qed.

(** The idempotency verdict is sound for every adapter: whatever the
    adapter is, a run of the category that passes begins with a thousand
    submissions under one key, each of which was accepted, and all of them
    with the same task. *)
Lemma idempotency_verdict_sound {S} `{Service S} tx su c s t c' s' :
  runs (Idempotency tx su) c s t (Returned tt) c' s' -> c'.(CPassed) = true ->
  exists id t1 t2, t = t1 ++ t2 /\ length t1 = 1000%nat /\ Forall (answered_with id) t1.
Proof.
  unfold Idempotency, first_format. destruct (CpFormats (Caps su)) as [|format fs]; [by intros (_ & ? & _)|].
  intros R P. destruct (submit_all_runs _ _ _ _ _ _ _ _ _ _ _ _ R P) as (new & t1 & t2 & c1 & s1 & -> & L & F & R').
  cbv zeta in R'. rewrite app_nil_l in R'. destruct (Z.eqb_spec (Z.of_nat (size (list_to_set new : gset string))) 1) as [E|];
    [clear R'|by destruct R' as (_ & ? & _)].
  assert (exists id, (list_to_set new : gset string) ≡ {[id]}) as [id Hid] by (apply size_1_elem_of; lia).
  exists id, t1, t2. split; [done|]. split; [rewrite <- (Forall2_length _ _ _ F), L; by vm_compute|].
  apply Forall_forall. intros e He. apply list_elem_of_lookup in He as [i Hi].
  destruct (Forall2_lookup_r _ _ _ _ _ F Hi) as (x & Hx & A). apply list_elem_of_lookup_2 in Hx.
  assert (x ∈ (list_to_set new : gset string)) as Hs by (by apply elem_of_list_to_set). rewrite Hid in Hs.
  by apply elem_of_singleton in Hs as ->.
Qed.

(** An adapter that declares no program format, which the first category
    is there to reject, never gets a report: the second category indexes the
    empty list, and the panic ends the harness. *)
Lemma no_formats_no_report {S} `{Service S} tx rounds su s r s' :
  su.(Caps).(CpFormats) = [] -> suite_runs (categories tx rounds su) s r s' -> r = None.
Proof.
  intros E R. unfold categories in R. inversion R as [|? ? ? ? ? ? ? ? ? ? _ _ R2|]; subst; [|done].
  inversion R2 as [|? ? ? ? ? ? ? ? ? ? R3 Ho _|]; subst; [|done].
  unfold StateMachine, first_format in R3. rewrite E in R3. destruct R3 as (_ & -> & _). by destruct Ho.
Qed.

(** ** Concrete runs *)

Definition demo_texts : texts := mkTexts (fun _ => "") (fun _ => "") (fun _ => "") (fun _ => "") (fun _ => "") (fun _ => "").

(** The self-test's target, and the one that ignores its shot limit. *)
Definition selftest_spec (ignore : bool) : TargetSpec := mkSpec "q" 5 ["openqasm3"] 0 "" [] None ignore false 0.

Definition selftest_suite (ignore : bool) : Suite :=
  match Dial demo_texts (GetCapabilities (New [selftest_spec ignore]) "q") "q" 7 with
  | Ok su => su
  | Err _ => mkSuite "" (mkCaps (targetInfo "") 0 [] 0 false false [] "" false) "" 0
  end.

Lemma selftest_fixture ignore : fixture 0 0 (with_defaults (selftest_spec ignore)).
Proof.
  split; try (by vm_compute); simpl.
  - split; [done|]. by intros ?%list_elem_of_singleton.
  - repeat constructor; done.
Qed.

Lemma fake_certification_witness :
  exists cats s', @suite_runs _ (fake_service 0 0 (undisturbed 0)) (categories demo_texts 3 (selftest_suite true))
    (mkServer (start [selftest_spec true] 0) None) (Some cats) s' /\
    CPassed <$> cats = [false; true; true; true; true; true; true; true].
Proof.
  destruct (fake_certification 0 0 (selftest_spec true) demo_texts 3 7 0 (selftest_suite true)
    (selftest_fixture true) (le_n _) ltac:(lia) eq_refl) as [H (r & s' & R)].
  destruct (H r s' R) as (cats & -> & _ & E). exists cats, s'. by split.
Defined.

Lemma stopped_failed {S} `{Service S} {A} (p : conf A) c s t c' s' : runs p c s t Stopped c' s' -> c'.(CPassed) = false.
Proof.
  revert c s t. induction p as [a|m|m| |m k IH|m k IH|X x k IH]; intros c s t; cbn [runs].
  1-4: by intros (_ & ? & -> & _).
  1-2: apply IH.
  intros (s1 & r & s2 & t' & _ & _ & _ & R). by eapply IH.
Qed.

(** ** What the unsynchronised reads allow

    Without the restriction to a goroutine that stands still, a run of the
    self-test's own target in which the second category fails. *)

(** The only goroutine takes its next step when it wakes. *)
Definition wakes (a : adapter) : adapter :=
  match a.(routines) with
  | [g] => match advance g.(g_wake) g a.(fake) with Some (gs, f) => mkAdapter g.(g_wake) f gs | None => a end
  | _ => a
  end.

Lemma wakes_steps a g gs f :
  a.(routines) = [g] -> a.(clock) <= g.(g_wake) -> advance g.(g_wake) g a.(fake) = Some (gs, f) ->
  exists b, background 0 a b /\ background 0 b (wakes a).
Proof.
  intros E Ht A. unfold wakes. rewrite E, A. destruct a as [t f0 gs0]. simpl in *. subst gs0.
  exists (mkAdapter g.(g_wake) f0 [g]). split.
  - apply bg_tick; [done|]. intros x ->%list_elem_of_singleton. lia.
  - pose proof (bg_advance 0 g.(g_wake) f0 [] g [] gs f (Z.le_refl _) A) as B. by rewrite app_nil_r in B.
Qed.

Lemma pointed_two R id a st a1 a2 st2 :
  R a a1 -> R a1 a2 -> look a2 id = Some st2 -> exists l, pointed R id a st l a2 st2.
Proof.
  intros R1 R2 L. eexists. eapply pt_step; [exact R1|]. eapply pt_step; [exact R2|]. rewrite L. apply pt_here.
Qed.

Definition racing : Service server := fake_service 0 0 (fun _ => background 0).

(** The target's task as it is submitted, running and done. *)
Definition race_suite : Suite := selftest_suite false.
Definition race_request : SubmitTaskRequest := request race_suite "fsm" "openqasm3" validQASM "" 200.
Definition race_submitted : adapter := (do_submit (start [selftest_spec false] 0) race_request).2.
Definition race_running : adapter := wakes race_submitted.
Definition race_done : adapter := wakes race_running.
Definition race_status (a : adapter) : Status := default (mkState STATE_UNSPECIFIED 0 None [] None) (look a "fake-task-1").

Lemma poll_differs tx n tgt id final st c s :
  s.(ad).(routines) = [] -> look s.(ad) id = Some st -> st.(StState) <> final.(StState) ->
  exists t c' s', @runs _ racing _ (poll_same tx n (mkHandle tgt id) final) c s t (Returned tt) c' s' /\
    (CPassed c' = true -> n = 0%nat).
Proof.
  revert c s. induction n as [|n IH]; intros c s Hr L N; [exists [], c, s; split; [by split_and!|done]|].
  destruct s as [[t f gs] w]. simpl in Hr. subst gs.
  set (c1 := add_failure c ("GetTask " +:+ state_text st.(StState) +:+ " != watched terminal " +:+ state_text final.(StState))).
  destruct (IH c1 (mkServer (mkAdapter (t + 50 * millisecond) f []) w) eq_refl L N) as (tr & c' & s' & R & _).
  do 2 eexists. exists s'. split; [|intros P; by rewrite (@runs_failed _ racing _ _ _ _ _ _ _ _ R eq_refl) in P].
  cbn [poll_same runs]. set (s0 := mkServer _ w).
  assert (T : @transit _ racing s0 s0) by (split_and!; [apply rtc_refl|done|simpl; lia]).
  assert (Tk : exists tk, f.(tasks) !! id = Some tk /\ tk.(tk_status) = st) by (by apply (look_some (mkAdapter t f []))).
  destruct Tk as (tk & Lt & Et).
  exists s0, (Ok st), s0. eexists. split; [reflexivity|]. split; [exact T|]. split.
  { simpl. split_and!; [|done|lia]. eapply (gt_found _ _ _ tk); [by unfold getTask; simpl; rewrite Lt|apply pt_here|].
    rewrite Et. apply ma_ok, torn_here. }
  unfold error_if. rewrite bool_decide_false by done. cbn [negb runs].
  exists s0, tt. do 2 eexists. split; [reflexivity|]. split; [exact T|]. split; [|exact R].
  assert (50 * millisecond = 50000000) as Ms by reflexivity. rewrite Ms. simpl. split_and!; [|done|lia|lia].
  apply rtc_once, bg_tick; [lia|]. by intros x ?%elem_of_nil.
Qed.

(** The watcher compares and sends the task's status while it is RUNNING, and
    remembers it when it is SUCCEEDED: the stream ends without the terminal
    state, and the category's check of the last state against GetTask fails. *)
Lemma racing_watch_fails :
  exists t c' s', @runs _ racing _ (StateMachine demo_texts 3 race_suite) (new_category "cat2-state-machine")
    (mkServer (start [selftest_spec false] 0) None) t (Returned tt) c' s' /\ CPassed c' = false.
Proof.
  destruct (wakes_steps race_submitted _ _ _ eq_refl ltac:(by vm_compute) eq_refl) as (b1 & B1 & B2).
  destruct (wakes_steps race_running _ _ _ eq_refl ltac:(by vm_compute) eq_refl) as (b2 & B3 & B4).
  fold race_running in B2. fold race_done in B4.
  destruct (pointed_two (background 0) "fake-task-1" race_running (race_status race_running) b2 race_done (race_status race_done)
    B3 B4 eq_refl) as [l P].
  set (w1 := mkServer race_done (Some ("fake-task-1", Some SUCCEEDED))).
  destruct (poll_differs demo_texts 3 "q" "fake-task-1" (race_status race_running) (race_status race_done)
    (new_category "cat2-state-machine") w1 eq_refl eq_refl ltac:(by vm_compute)) as (t & c' & s' & R & F).
  assert (T : forall s, @transit _ racing s s) by (intros s; split_and!; [apply rtc_refl|done|lia]).
  eexists. exists c', s'. split; [|destruct (CPassed c'); [by specialize (F eq_refl)|reflexivity]].
  eexists _, (Ok (mkHandle "q" "fake-task-1")), (mkServer race_submitted None), _. split; [reflexivity|].
  split; [apply T|]. split; [by split|].
  eexists _, (Ok tt), (mkServer race_submitted (Some ("fake-task-1", None))), _. split; [reflexivity|].
  split; [apply T|]. split; [by split|].
  eexists _, (Message (race_status race_running)), w1, _. split; [reflexivity|]. split; [apply T|]. split.
  { exists race_running, (Sent (race_status race_running) SUCCEEDED), race_done. split; [|split; [|by split]].
    - eapply rtc_l; [exact B1|]. by apply rtc_once.
    - change SUCCEEDED with (StState (race_status race_done)).
      eapply wt_sent; [reflexivity|apply pt_here|done|apply pt_here|apply ma_ok, torn_here|exact P]. }
  eexists w1, EOF, w1, _. split; [reflexivity|]. split; [apply T|]. split; [by split|]. exact R.
Qed.

Lemma idempotency_verdict_sound_witness :
  exists t c' s', @runs _ (fake_service 0 0 (undisturbed 0)) _ (Idempotency demo_texts (selftest_suite false)) (new_category "cat3-idempotency")
      (mkServer (start [selftest_spec false] 0) None) t (Returned tt) c' s' /\
    exists id t1 t2, t = t1 ++ t2 /\ length t1 = 1000%nat /\ Forall (answered_with id) t1.
Proof.
  set (sp := with_defaults (selftest_spec false)). set (s := mkServer (start [selftest_spec false] 0) None).
  assert (P : @passes _ (fake_service 0 0 (undisturbed 0)) _ (fun _ => judged 0 sp "conf-7-" true ["idem"]) (judged 0 sp "conf-7-" true ["idem"])
    (Idempotency demo_texts (selftest_suite false)) (new_category "cat3-idempotency") s).
  { refine (Idempotency_certified 0 0 sp "conf-7-" _ _ _ _ demo_texts 3 _ _ "openqasm3" [] _ _ _ [] "cat3-idempotency" s _ _);
      try (by vm_compute).
    - split; [|by vm_compute]. constructor; [by intros ?%elem_of_nil|done].
    - by apply start_certifying. }
  destruct (@passes_complete _ (fake_service 0 0 (undisturbed 0)) _ _ _ _ _ _ P) as (t & o & c' & s' & R & Ho).
  pose proof (@passes_sound _ (fake_service 0 0 (undisturbed 0)) _ _ _ _ _ _ _ _ _ _ R P) as J.
  destruct Ho as [[[] ->]| ->]; destruct J as [J _].
  - exists t, c', s'. split; [exact R|]. exact (@idempotency_verdict_sound _ (fake_service 0 0 (undisturbed 0)) _ _ _ _ _ _ _ R J).
  - exfalso. rewrite (@stopped_failed _ (fake_service 0 0 (undisturbed 0)) _ _ _ _ _ _ _ R) in J. done.
Defined.

Definition no_formats_suite : Suite :=
  mkSuite "q" (mkCaps (targetInfo "q") 5 [] 100 true true ["shots"] "" false) "conf-7-" 0.

Lemma no_formats_no_report_witness :
  exists r s', @suite_runs _ (fake_service 0 0 (undisturbed 0)) (categories demo_texts 3 no_formats_suite)
    (mkServer (start [selftest_spec false] 0) None) r s' /\ r = None.
Proof.
  set (s := mkServer (start [selftest_spec false] 0) None).
  assert (R : @suite_runs _ (fake_service 0 0 (undisturbed 0)) (categories demo_texts 3 no_formats_suite) s None s).
  { eapply (@s_cons _ (fake_service 0 0 (undisturbed 0)) _ _ _ s [] Stopped _ s None); [by split_and!|by right|].
    eapply (@s_crash _ (fake_service 0 0 (undisturbed 0)) _ _ _ s []). by split_and!. }
  exists None, s. split; [exact R|]. exact (@no_formats_no_report _ (fake_service 0 0 (undisturbed 0)) demo_texts 3 no_formats_suite s None s eq_refl R).
Defined.
