(* ===== verification/Probe.v ===== *)
(** * Probes and what the control plane says about itself

    src/internal/probe/probe.go, status/status.go and api/metrics.go: Bell
    circuits are run on every target under a system tenant, their counts are
    harvested into the table [probe_results], and the status page and the
    metrics endpoint summarise that table and the store.  [order] is the order
    in which an unordered query yields its rows, [uuid] the random identifier
    drawn for a target's probe, [order_keys] the order of a ranged-over map,
    [format_g] Go's [%g] of a float. *)

From S2P Require Import Prelude Float64 GoLib Phase Database JobStore Tables Lifecycle Qasm Views Filter Evidence Registry.

(** ** encoding/base64 *)

Definition b64_char (v : Z) : ascii :=
  if v <? 26 then byte_of (v + 65)
  else if v <? 52 then byte_of (v + 71)
  else if v <? 62 then byte_of (v - 4)
  else if v =? 62 then "+"%char else "/"%char.

Fixpoint base64_encode (s : string) : string :=
  match s with
  | "" => ""
  | String a "" =>
      String (b64_char (code a / 4)) (String (b64_char (code a mod 4 * 16)) "==")
  | String a (String b "") =>
      String (b64_char (code a / 4)) (String (b64_char (code a mod 4 * 16 + code b / 16))
        (String (b64_char (code b mod 16 * 4)) "="))
  | String a (String b (String c rest)) =>
      String (b64_char (code a / 4)) (String (b64_char (code a mod 4 * 16 + code b / 16))
        (String (b64_char (code b mod 16 * 4 + code c / 64)) (String (b64_char (code c mod 64)) (base64_encode rest))))
  end.

(** ** probe.go: the probes *)

Definition probe_tenant : string := "system/probes".

Definition nl : string := String newline "".
Definition dq : string := String dquote "".

Definition bellQASM : string :=
  nl +:+ "OPENQASM 3.0;" +:+ nl +:+ "include " +:+ dq +:+ "stdgates.inc" +:+ dq +:+ ";" +:+ nl +:+ "qubit[2] q;" +:+ nl
  +:+ "bit[2] c;" +:+ nl +:+ "h q[0];" +:+ nl +:+ "cx q[0], q[1];" +:+ nl +:+ "c = measure q;" +:+ nl.

Definition probeShots : float64 := f_of_Z 400.

Definition probe_doc (target : string) : doc :=
  mkdoc [("apiVersion", JStr "tangle.dev/v1alpha1"); ("kind", JStr "QuantumJob");
         ("metadata", jobj [("name", JStr "probe"); ("tenant", JStr probe_tenant);
                            ("labels", jobj [("rabi.dev/probe", JStr "true")])]);
         ("spec", jobj
            [("workload", jobj
                [("kind", JStr "gate-model");
                 ("gateModel", jobj
                    [("program", jobj [("format", JStr "openqasm3"); ("inline", JStr (base64_encode bellQASM))]);
                     ("shots", JNum probeShots)])]);
             ("backendSelector", jobj
                [("requireTargets", JArr [JStr target]); ("allowCloudBurst", JArr [JStr target])])])].

Definition probe_record (id target : string) : JobRecord :=
  mkJobRecord id probe_tenant ("probe-" +:+ target) Pending (probe_doc target)
    (mkdoc [("phase", JStr "PENDING"); ("conditions", JArr [])]) time_zero time_zero.

Definition submitProbe (now : Z) (uuid : string -> string) (d : db) (target : string) : db :=
  (InsertJob d now (probe_record (uuid target) target)).2.

(** [probeAll]: a failed submission is logged and the next target probed. *)
Definition probeAll (now : Z) (uuid : string -> string) (targets : list string) (d : db) : db :=
  match EnsureProject d now probe_tenant with
  | (Err _, d') => d'
  | (Ok _, d') => fold_left (submitProbe now uuid) targets d'
  end.

(** ** The table [probe_results] *)

Record ProbeResult := mkProbe {
  PrAt : Z; PrTarget : string; PrJobID : string; PrFidelity : float64; PrPredicted : option float64;
  PrAbsError : option float64 }.

(** The store with that table, which only this package reads and writes. *)
Record probe_db := mkPdb { core : db; probe_results : list ProbeResult }.

Definition recorded (p : probe_db) (id : string) : bool := existsb (fun r => String.eqb r.(PrJobID) id) p.(probe_results).

(** The [WHERE] clause of [Harvest]'s query. *)
Definition unharvested (p : probe_db) (j : JobRecord) : bool :=
  String.eqb j.(Tenant) probe_tenant && String.eqb j.(JPhase) Succeeded && negb (recorded p j.(JobID)).

Definition candidates (p : probe_db) : list JobRecord := List.filter (unharvested p) (all_jobs p.(core)).

Definition harvest_limit : nat := 100.

Section Harvest.
Context (order : list JobRecord -> list JobRecord) (order_keys : doc -> list string).

Definition harvest_select (p : probe_db) : list (string * doc) :=
  (fun j => (j.(JobID), j.(Status))) <$> take harvest_limit (order (candidates p)).

(** The row of one finished job; none if it has no counts. *)
Definition probe_row (now : Z) (f : string * doc) : option ProbeResult :=
  let '(target, fidelity, predicted) := analyze order_keys f.2 in
  if String.eqb target "" then None
  else
    let known := fgt predicted f0 in
    Some (mkProbe now target f.1 fidelity (if known then Some predicted else None)
            (if known then Some (fabs (fsub predicted fidelity)) else None)).

Definition harvest_insert (now : Z) (done : list (string * doc)) (p : probe_db) : probe_db :=
  fold_left (fun p f => match probe_row now f with
                        | None => p
                        | Some r => mkPdb p.(core) (p.(probe_results) ++ [r])
                        end) done p.

Definition Harvest (now : Z) (p : probe_db) : probe_db := harvest_insert now (harvest_select p) p.

(** One tick of [Run], when it is enabled. *)
Definition Run_tick (every now : Z) (uuid : string -> string) (targets : list string) (p : probe_db) : probe_db :=
  if every <=? 0 then p
  else Harvest now (mkPdb (probeAll now uuid targets p.(core)) p.(probe_results)).
End Harvest.

(** ** Health *)

(** [ORDER BY target, at DESC]. *)
Definition newest_of_target (a b : ProbeResult) : bool :=
  str_lt a.(PrTarget) b.(PrTarget) || (String.eqb a.(PrTarget) b.(PrTarget) && (b.(PrAt) <? a.(PrAt))).

(** [DISTINCT ON (target)]: the first row of each target. *)
Fixpoint distinct_on (seen : list string) (l : list ProbeResult) : list ProbeResult :=
  match l with
  | [] => []
  | r :: l => if str_in r.(PrTarget) seen then distinct_on seen l else r :: distinct_on (r.(PrTarget) :: seen) l
  end.

Definition LatestHealth (p : probe_db) : list ProbeResult := distinct_on [] (sort_by newest_of_target p.(probe_results)).

(** ** status.go *)

Definition probeSuccessFidelity : float64 := f_lit 1 2.

(** [Duration.Hours]. *)
Definition Hours (d : Z) : float64 :=
  fadd (f_of_Z (Z.quot d hour)) (fdiv (f_of_Z (Z.rem d hour)) (f_of_Z hour)).

Definition clampDays (d : Z) : float64 :=
  let days := fdiv (Hours d) (f_of_Z 24) in if flt days f0 then f0 else days.

Record Data := mkData {
  GeneratedAt : Z; UptimeDays : float64; OperationDays : float64; JobsLost : Z; DaysSinceJobLost : float64;
  NeverLost : bool; ProbesConsidered : Z; ProbeSuccessRate : float64; MedianCalibErr : option float64;
  ReconciliationOK : bool; ReconciliationAt : Z; ReconciliationMis : Z; LastGameDay_ : option GameDay;
  Healthy : bool }.

Definition lostAfter : Z := 24 * hour.

(** [min(created_at)] and [max(created_at)], NULL on no rows. *)
Definition agg_time (pick : Z -> Z -> Z) (l : list JobRecord) : option Z :=
  fold_left (fun acc j => Some (match acc with None => j.(CreatedAt) | Some t => pick t j.(CreatedAt) end)) l None.

Definition lost_jobs (d : db) (cutoff : Z) : list JobRecord :=
  List.filter (fun j => not_terminal_sql j.(JPhase) && (j.(CreatedAt) <? cutoff)) (all_jobs d).

Definition Gather (p : probe_db) (started now : Z) : Data :=
  let d := p.(core) in
  let operation := match agg_time Z.min (all_jobs d) with Some t => clampDays (time_sub now t) | None => f0 end in
  let lost := lost_jobs d (now - lostAfter) in
  let jobsLost := Z.of_nat (length lost) in
  let since := if jobsLost =? 0 then operation
               else match agg_time Z.max lost with Some t => clampDays (time_sub now t) | None => f0 end in
  let health := LatestHealth p in
  let considered := Z.of_nat (length health) in
  let success := Z.of_nat (length (List.filter (fun h => fle probeSuccessFidelity h.(PrFidelity)) health)) in
  let rate := match health with [] => f0 | _ => fdiv (f_of_Z success) (f_of_Z considered) end in
  let calErrs := sort_float64s (omap PrAbsError health) in
  let '(recOK, recAt, mis) := match LastReconciliation d with
                              | Some (_, mis, at_) => (mis =? 0, at_, mis)
                              | None => (true, time_zero, 0)
                              end in
  mkData now (clampDays (time_sub now started)) operation jobsLost since (jobsLost =? 0) considered rate
    (calErrs !! (length calErrs / 2)%nat) recOK recAt mis (LastGameDay d)
    ((jobsLost =? 0) && recOK && ((considered =? 0) || fle (f_lit 1 2) rate)).

(** [formatFloat] of template.go. *)
Definition formatFloat (f : float64) : string :=
  let s := fmt_f 1 f in if Nat.ltb 2 (String.length s) then trim_suffix s ".0" else s.

(** ** api/metrics.go *)

Section Metrics.
Context (format_g : float64 -> string).

Definition line (s : string) : string := s +:+ nl.

Definition phase_count (p : probe_db) (phase : string) : nat :=
  length (List.filter (fun j => String.eqb j.(JPhase) phase) (all_jobs p.(core))).

Definition phase_line (p : probe_db) (phase : string) : string :=
  line ("rabi_jobs_total{phase=" +:+ quote phase +:+ "} " +:+ itoa (Z.of_nat (phase_count p phase))).

Definition by_target (a b : ProbeResult) : bool := str_lt a.(PrTarget) b.(PrTarget).

Definition metricsHandler (p : probe_db) (now : Z) : string :=
  let health := sort_by by_target (LatestHealth p) in
  line "# HELP rabi_jobs_total Jobs by phase." +:+ line "# TYPE rabi_jobs_total gauge"
  +:+ String.concat "" (phase_line p <$> Phases)
  +:+ line "# HELP rabi_probe_fidelity Latest probe fidelity (1-TVD vs ideal) per target."
  +:+ line "# TYPE rabi_probe_fidelity gauge"
  +:+ String.concat "" ((fun h => line ("rabi_probe_fidelity{target=" +:+ quote h.(PrTarget) +:+ "} " +:+ format_g h.(PrFidelity))) <$> health)
  +:+ line "# HELP rabi_probe_estimator_abs_error |predicted ESP - measured| per target (pilot SLO: median <= 0.10)."
  +:+ line "# TYPE rabi_probe_estimator_abs_error gauge"
  +:+ String.concat "" ((fun h => match h.(PrAbsError) with
                                  | Some e => line ("rabi_probe_estimator_abs_error{target=" +:+ quote h.(PrTarget) +:+ "} " +:+ format_g e)
                                  | None => "" end) <$> health)
  +:+ line "# HELP rabi_probe_age_seconds Seconds since each target's latest probe."
  +:+ line "# TYPE rabi_probe_age_seconds gauge"
  +:+ String.concat "" ((fun h => line ("rabi_probe_age_seconds{target=" +:+ quote h.(PrTarget) +:+ "} "
                                        +:+ format_g (Seconds (time_sub now h.(PrAt))))) <$> health).
End Metrics.

Example base64_hello : base64_encode "hello" = "aGVsbG8=" /\ base64_decode (base64_encode bellQASM) = Some bellQASM.
Proof. vm_compute. by split. Qed.

(** ** A probe measures its own target *)

(** The probe of a target is accepted by that target alone: its document
    parses to a Bell circuit of two qubits and 400 shots, and a target is
    feasible for it exactly when it has the probe's name, is online and out of
    maintenance, takes OpenQASM 3 gate-model programs and at least 400 shots,
    cloud targets and calibration of any age included. *)
Lemma probe_pinned id target t now :
  exists j, ParseJob id probe_tenant (probe_doc target) = Ok j /\ j.(Shots) = 400 /\
    j.(Profile) = Some (mkProfile 2 1 1 2) /\
    (FilterTarget j t now = "" <->
     t.(TName) = target /\ t.(Online) = true /\ InMaintenance t now = false /\ t.(Modality) = "gate-model" /\
     "openqasm3" ∈ t.(Formats) /\ (t.(MaxShots) <= 0 \/ 400 <= t.(MaxShots))).
Proof.
  eexists. split; [vm_compute; reflexivity|]. split; [reflexivity|]. split; [reflexivity|].
  rewrite FilterTarget_spec. split.
  - intros ([A B C D _ F _] & _ & [_ G _ _]). simpl in *. rewrite InMaintenance_spec. split_and!; try done.
    + destruct G as [G|G]; [done|by apply list_elem_of_singleton in G].
    + by destruct D.
    + destruct F as [?|[?|?]]; [lia|by left|by right].
  - intros (A & B & C & D & F & G). rewrite InMaintenance_spec in C. split_and!; constructor; simpl; try done.
    + by right.
    + by left.
    + tauto.
    + by left.
    + by intros ?%elem_of_nil.
    + right. rewrite A. left.
    + right. rewrite A. left.
    + by intros u ?%elem_of_nil.
Qed.

(** ** Harvesting *)

Lemma all_jobs_ids d : Inv d -> JobID <$> all_jobs d = (map_to_list d.(jobs)).*1.
Proof.
  intros I. unfold all_jobs. rewrite <- list_fmap_compose. apply list_fmap_ext. intros i [k r] H. simpl.
  apply list_elem_of_lookup_2, elem_of_map_to_list in H. by apply (job_of_inv d k r I).
Qed.

Lemma NoDup_job_ids d : Inv d -> NoDup (JobID <$> all_jobs d).
Proof. intros I. rewrite (all_jobs_ids d I). apply NoDup_fst_map_to_list. Qed.

Lemma elem_of_all_jobs d j : Inv d -> j ∈ all_jobs d <-> d.(jobs) !! j.(JobID) = Some j.
Proof.
  intros I. unfold all_jobs. rewrite list_elem_of_fmap. split.
  - intros ([k r] & -> & H%elem_of_map_to_list). simpl in *. by destruct (job_of_inv d k r I H) as [-> _].
  - intros H. exists (j.(JobID), j). split; [done|by apply elem_of_map_to_list].
Qed.

Lemma elem_of_filter {A} (f : A -> bool) l x : x ∈ List.filter f l <-> f x = true /\ x ∈ l.
Proof. rewrite !list_elem_of_In, List.filter_In. tauto. Qed.

Lemma filter_sublist {A} (f : A -> bool) l : List.filter f l `sublist_of` l.
Proof. induction l as [|x l IH]; simpl; [done|]. destruct (f x); by constructor. Qed.

Lemma filter_perm {A} (f : A -> bool) l1 l2 : l1 ≡ₚ l2 -> List.filter f l1 ≡ₚ List.filter f l2.
Proof. induction 1; simpl; repeat case_match; auto; [constructor|by etrans]. Qed.

Lemma filter_filter {A} (f g : A -> bool) l : List.filter f (List.filter g l) = List.filter (fun x => g x && f x) l.
Proof. induction l as [|x l IH]; simpl; [done|]. destruct (g x); simpl; [|done]. destruct (f x); by rewrite IH. Qed.

Lemma candidates_ids p : Inv p.(core) -> NoDup (JobID <$> candidates p).
Proof.
  intros I. eapply sublist_NoDup; [apply (NoDup_job_ids _ I)|]. apply fmap_sublist, filter_sublist.
Qed.

Section Harvesting.
Context (order : list JobRecord -> list JobRecord) (order_keys : doc -> list string).
Hypothesis order_perm : forall l, order l ≡ₚ l.

Definition row_of (now : Z) (j : JobRecord) : option ProbeResult := probe_row order_keys now (j.(JobID), j.(Status)).

Lemma row_job now j r : row_of now j = Some r -> r.(PrJobID) = j.(JobID).
Proof. unfold row_of, probe_row. destruct (analyze _ _) as [[t f] pr]. case_match; [done|]. by intros [= <-]. Qed.

Lemma harvest_insert_eq now l p :
  harvest_insert order_keys now l p = mkPdb p.(core) (p.(probe_results) ++ omap (probe_row order_keys now) l).
Proof.
  unfold harvest_insert. revert p. induction l as [|f l IH]; intros [c rs]; simpl; [by rewrite app_nil_r|].
  rewrite IH. destruct (probe_row _ _ _); simpl; [by rewrite <- app_assoc|done].
Qed.

Lemma omap_fmap {A B D} (f : A -> B) (g : B -> option D) (l : list A) : omap g (f <$> l) = omap (fun x => g (f x)) l.
Proof. induction l as [|x l IH]; csimpl; [done|]. by rewrite IH. Qed.

Lemma Harvest_eq now p :
  Harvest order order_keys now p
  = mkPdb p.(core) (p.(probe_results) ++ omap (row_of now) (take harvest_limit (order (candidates p)))).
Proof. unfold Harvest, harvest_select. rewrite harvest_insert_eq. by rewrite omap_fmap. Qed.

Lemma recorded_app c rs new id :
  recorded (mkPdb c (rs ++ new)) id = recorded (mkPdb c rs) id || existsb (fun r => String.eqb r.(PrJobID) id) new.
Proof. unfold recorded. simpl. apply existsb_app. Qed.

Definition no_row (now : Z) (j : JobRecord) : bool := match row_of now j with None => true | Some _ => false end.

(** What a harvest leaves: it takes at most a hundred of the finished
    probes that have no row yet, whichever the database yields first, records
    each of them that has counts, and nothing else; so exactly the others
    are left for the next tick. *)
Lemma Harvest_progress now p :
  Inv p.(core) ->
  let p' := Harvest order order_keys now p in
  let rows := order (candidates p) in
  p'.(core) = p.(core) /\
  p'.(probe_results) = p.(probe_results) ++ omap (row_of now) (take 100 rows) /\
  candidates p' ≡ₚ skipn 100 rows ++ List.filter (no_row now) (take 100 rows).
Proof.
  intros I p' rows. unfold p'. rewrite Harvest_eq. fold rows. change harvest_limit with 100%nat. split_and!; [done|done|].
  set (new := omap (row_of now) (take 100 rows)).
  assert (P : rows ≡ₚ candidates p) by apply order_perm.
  assert (N : NoDup (JobID <$> rows)) by (rewrite P; by apply candidates_ids).
  assert (E : candidates (mkPdb p.(core) (p.(probe_results) ++ new))
    = List.filter (fun j => negb (existsb (fun r => String.eqb r.(PrJobID) j.(JobID)) new)) (candidates p)).
  { unfold candidates. simpl. rewrite filter_filter. apply List.filter_ext. intros j. unfold unharvested.
    rewrite recorded_app. destruct p. simpl. by rewrite negb_orb, andb_assoc. }
  rewrite E. clear E. rewrite <- (filter_perm _ _ _ P). rewrite <- (take_drop 100 rows) in N |- * at 1.
  rewrite fmap_app in N. apply NoDup_app in N as (N1 & N2 & N3). rewrite List.filter_app.
  rewrite Permutation_app_comm. f_equiv.
  - rewrite forallb_filter_id; [done|]. apply forallb_forall. intros j Hj. apply negb_true_iff, not_true_iff_false.
    intros (r & Hr & Ej)%existsb_exists. apply list_elem_of_In, list_elem_of_omap in Hr as (j' & Hj' & Hr).
    apply String.eqb_eq in Ej. rewrite (row_job _ _ _ Hr) in Ej.
    apply (N2 (j'.(JobID))); [by apply list_elem_of_fmap_2|]. rewrite Ej. by apply list_elem_of_fmap_2, list_elem_of_In.
  - apply reflexive_eq, filter_ext_in. intros j Hj%list_elem_of_In. unfold no_row. destruct (row_of now j) as [r|] eqn:Er.
    + apply negb_false_iff, existsb_exists. exists r. split; [|by rewrite (row_job _ _ _ Er), String.eqb_refl].
      apply list_elem_of_In, list_elem_of_omap. by exists j.
    + apply negb_true_iff, not_true_iff_false. intros (r & Hr & Ej)%existsb_exists.
      apply list_elem_of_In, list_elem_of_omap in Hr as (j' & Hj' & Hr). apply String.eqb_eq in Ej.
      rewrite (row_job _ _ _ Hr) in Ej. assert (j' = j) as ->; [|congruence].
      apply list_elem_of_lookup in Hj as [i Hi], Hj' as [i' Hi'].
      assert (i' = i) as ->; [|congruence]. eapply (NoDup_lookup _ i' i (j.(JobID)) N1);
        [by rewrite list_lookup_fmap, Hi'; simpl; rewrite Ej|by rewrite list_lookup_fmap, Hi].
Qed.

(** A hundred finished probes without counts, if the database yields them
    first, keep every other probe from being recorded. *)
Lemma harvest_starves now p :
  Forall (fun j => no_row now j = true) (take 100 (order (candidates p))) -> Harvest order order_keys now p = p.
Proof.
  intros F. rewrite Harvest_eq. change harvest_limit with 100%nat. destruct p as [c rs]. f_equal. simpl.
  induction F as [|j l Hj _ IH]; simpl; [by rewrite app_nil_r|]. unfold no_row in Hj. by destruct (row_of now j).
Qed.

(** Two processes that harvest at once both record what both selected. *)
Lemma concurrent_harvests_record_twice now now' p j r :
  j ∈ take 100 (order (candidates p)) -> row_of now j = Some r ->
  let rows := harvest_select order p in
  exists r' l1 l2 l3, r'.(PrJobID) = r.(PrJobID) /\
    (harvest_insert order_keys now' rows (harvest_insert order_keys now rows p)).(probe_results) ≡ₚ l1 ++ r :: l2 ++ r' :: l3.
Proof.
  intros Hj Hr rows. unfold rows, harvest_select. rewrite !harvest_insert_eq. simpl. rewrite !omap_fmap.
  assert (exists r', row_of now' j = Some r') as [r' Hr'].
  { revert Hr. unfold row_of, probe_row. destruct (analyze _ _) as [[t f] pr]. case_match; [done|]. intros _. by eexists. }
  assert (In1 : r ∈ omap (row_of now) (take 100 (order (candidates p)))) by (apply list_elem_of_omap; by exists j).
  assert (In2 : r' ∈ omap (row_of now') (take 100 (order (candidates p)))) by (apply list_elem_of_omap; by exists j).
  apply list_elem_of_split in In1 as (a1 & a2 & E1), In2 as (b1 & b2 & E2).
  unfold row_of in E1, E2. exists r', (p.(probe_results) ++ a1), (a2 ++ b1), b2.
  split; [by rewrite (row_job _ _ _ Hr), (row_job _ _ _ Hr')|].
  change harvest_limit with 100%nat. rewrite E1, E2. apply reflexive_eq. by list_simplifier.
Qed.
End Harvesting.

(** ** The table over time *)

(** The store changes, or the one harvester of the deployment runs. *)
Inductive probe_step (order_keys : doc -> list string) (p : probe_db) : probe_db -> Prop :=
| ps_store d' : store_step p.(core) d' -> probe_step order_keys p (mkPdb d' p.(probe_results))
| ps_harvest now order :
    (forall l, order l ≡ₚ l) -> probe_step order_keys p (Harvest order order_keys now p).

Record probes_ok (p : probe_db) : Prop := {
  po_core : reachable p.(core);
  po_once : NoDup (PrJobID <$> p.(probe_results));
  po_rows r : r ∈ p.(probe_results) -> exists j, p.(core).(jobs) !! r.(PrJobID) = Some j /\
    j.(Tenant) = probe_tenant /\ j.(JPhase) = Succeeded }.

Lemma probes_ok_step order_keys p p' : probes_ok p -> probe_step order_keys p p' -> probes_ok p'.
Proof.
  intros [R O W] [d' St|now order P].
  - split; simpl; [by eapply rtc_r|done|]. intros r Hr. destruct (W r Hr) as (j & L & T & Ph).
    destruct (run_job _ _ _ _ (rtc_once _ _ St) L) as (j' & L' & _ & T' & _ & _ & F). exists j'.
    split_and!; [done|congruence|]. rewrite F; [done|by rewrite Ph].
  - pose proof (reachable_Inv _ R) as I. rewrite Harvest_eq. set (rows := take harvest_limit (order (candidates p))).
    assert (Sub : forall j, j ∈ rows -> j ∈ candidates p).
    { intros j Hj. rewrite <- (P (candidates p)), <- (take_drop harvest_limit (order _)), elem_of_app. by left. }
    assert (N : NoDup (JobID <$> rows)).
    { eapply sublist_NoDup; [|apply fmap_sublist, sublist_take]. rewrite (P (candidates p)). by apply candidates_ids. }
    split; simpl; [done| |].
    + rewrite fmap_app. apply NoDup_app. split_and!; [done| |].
      * intros id Ho (r & -> & Hr)%list_elem_of_fmap. apply list_elem_of_omap in Hr as (j & Hj & Hr).
        apply Sub in Hj. unfold candidates, unharvested in Hj. apply elem_of_filter in Hj as [Hj _]. to_prop.
        rewrite <- (row_job _ _ _ _ Hr) in *. apply list_elem_of_fmap in Ho as (r' & E & Hr').
        assert (recorded p r.(PrJobID) = true); [|congruence]. apply existsb_exists. exists r'.
        split; [by apply list_elem_of_In|]. by apply String.eqb_eq.
      * clear -N. induction rows as [|j rows IH]; csimpl; [constructor|]. apply NoDup_cons in N as [N1 N2].
        destruct (row_of _ now j) as [r|] eqn:Er; csimpl; [|by apply IH]. constructor; [|by apply IH].
        intros (r' & E & Hr')%list_elem_of_fmap. apply list_elem_of_omap in Hr' as (j' & Hj' & Er').
        apply N1. rewrite <- (row_job _ _ _ _ Er), E, (row_job _ _ _ _ Er'). by apply list_elem_of_fmap_2.
    + intros r [Hr|Hr]%elem_of_app; [by apply W|]. apply list_elem_of_omap in Hr as (j & Hj & Hr).
      apply Sub in Hj. unfold candidates, unharvested in Hj. apply elem_of_filter in Hj as [Hj Hin]. to_prop.
      exists j. rewrite (row_job _ _ _ _ Hr). split_and!; [by apply elem_of_all_jobs|done|done].
Qed.

Lemma probeAll_steps now uuid targets d : rtc store_step d (probeAll now uuid targets d).
Proof.
  unfold probeAll. pose proof (step_project d now probe_tenant) as S. destruct (EnsureProject d now probe_tenant) as [[pr|] d1];
    simpl in S; [|by apply rtc_once]. eapply rtc_l; [exact S|]. clear S. revert d1.
  induction targets as [|t l IH]; intros d1; simpl; [done|]. eapply rtc_l; [|apply IH]. by apply step_insert.
Qed.

(** Each finished probe is measured once: whatever the rest of the
    control plane does between the ticks of the one harvester, no job ever has
    two rows in the table, and every row is that of a job of the probe tenant
    which succeeded. *)
Lemma probes_recorded_once order_keys p :
  rtc (probe_step order_keys) (mkPdb empty_db []) p ->
  NoDup (PrJobID <$> p.(probe_results)) /\
  forall r, r ∈ p.(probe_results) -> exists j, GetJob p.(core) r.(PrJobID) = Ok j /\
    j.(Tenant) = probe_tenant /\ j.(JPhase) = Succeeded.
Proof.
  intros R. assert (probes_ok p) as [_ O W].
  { eapply (rtc_invariant (probe_step order_keys) probes_ok); [|intros; by eapply probes_ok_step|exact R].
    split; simpl; [apply rtc_refl|constructor|]. by intros r ?%elem_of_nil. }
  split; [done|]. intros r Hr. destruct (W r Hr) as (j & L & H). exists j. split; [|done].
  unfold GetJob, scanJob. by rewrite L.
Qed.

(** ** The newest row of each target *)

Lemma distinct_on_spec seen l :
  NoDup (PrTarget <$> distinct_on seen l) /\
  (forall r, r ∈ distinct_on seen l -> (r.(PrTarget) ∉ seen) /\
     exists l1 l2, l = l1 ++ r :: l2 /\ r.(PrTarget) ∉ (PrTarget <$> l1)) /\
  (forall r, r ∈ l -> r.(PrTarget) ∉ seen -> exists r', r' ∈ distinct_on seen l /\ r'.(PrTarget) = r.(PrTarget)).
Proof.
  revert seen. induction l as [|x l IH]; intros seen; simpl; [split_and!; [constructor|by intros r ?%elem_of_nil..]|].
  destruct (str_in x.(PrTarget) seen) eqn:E.
  - apply str_in_elem in E. destruct (IH seen) as (N & A & B). split_and!; [done| |].
    + intros r Hr. destruct (A r Hr) as (Hs & l1 & l2 & -> & Hl). split; [done|]. exists (x :: l1), l2. split; [done|].
      csimpl. rewrite not_elem_of_cons. split; [congruence|done].
    + intros r [->|Hr]%elem_of_cons Hs; [done|by apply B].
  - assert (x.(PrTarget) ∉ seen) as Hx by (intros H%str_in_elem; congruence).
    destruct (IH (x.(PrTarget) :: seen)) as (N & A & B). split_and!; csimpl.
    + constructor; [|done]. intros (r & Er & Hr)%list_elem_of_fmap. destruct (A r Hr) as [Hs _]. apply Hs. rewrite Er. left.
    + intros r [->|Hr]%elem_of_cons; [split; [done|]; exists [], l; split; [done|apply not_elem_of_nil]|].
      destruct (A r Hr) as ([H1 H2]%not_elem_of_cons & l1 & l2 & -> & Hl). split; [done|]. exists (x :: l1), l2. split; [done|].
      csimpl. by rewrite not_elem_of_cons.
    + intros r [->|Hr]%elem_of_cons Hs; [exists x; split; [left|done]|]. destruct (decide (r.(PrTarget) = x.(PrTarget))) as [Ex|Nx].
      * exists x. split; [left|done].
      * destruct (B r Hr) as (r' & Hr' & E'); [by apply not_elem_of_cons|]. exists r'. split; [by right|done].
Qed.

Lemma newest_asym a b : newest_of_target a b = true -> newest_of_target b a = false.
Proof.
  unfold newest_of_target. intros H. apply orb_false_iff. apply orb_true_iff in H as [H|H].
  - rewrite (str_lt_asym _ _ H). split; [done|]. destruct (String.eqb_spec (PrTarget b) (PrTarget a)) as [E|]; [|done].
    rewrite E, str_lt_irrefl in H. done.
  - apply andb_true_iff in H as [E%String.eqb_eq H]. rewrite E, str_lt_irrefl. split; [done|]. rewrite String.eqb_refl. simpl.
    apply Z.ltb_ge. apply Z.ltb_lt in H. lia.
Qed.

Lemma newest_neg_trans a b c :
  newest_of_target b a = false -> newest_of_target c b = false -> newest_of_target c a = false.
Proof.
  unfold newest_of_target. intros [A1 A2]%orb_false_iff [B1 B2]%orb_false_iff. apply orb_false_iff.
  split; [by eapply str_lt_neg_trans|]. destruct (String.eqb_spec (PrTarget c) (PrTarget a)) as [E|]; [|done]. simpl.
  assert (PrTarget b = PrTarget a) as Eb by (apply str_lt_total; [done|by rewrite <- E]).
  rewrite Eb, E, String.eqb_refl in *. simpl in *. apply Z.ltb_ge in A2, B2. apply Z.ltb_ge. lia.
Qed.

Lemma LatestHealth_spec p :
  NoDup (PrTarget <$> LatestHealth p) /\
  (forall r, r ∈ LatestHealth p -> r ∈ p.(probe_results) /\
     forall r', r' ∈ p.(probe_results) -> r'.(PrTarget) = r.(PrTarget) -> r'.(PrAt) <= r.(PrAt)) /\
  (forall r, r ∈ p.(probe_results) -> exists r', r' ∈ LatestHealth p /\ r'.(PrTarget) = r.(PrTarget)).
Proof.
  unfold LatestHealth. set (l := sort_by newest_of_target p.(probe_results)).
  assert (P : forall r, r ∈ l <-> r ∈ p.(probe_results)) by (intros r; apply elem_of_sort_by).
  assert (S : StronglySorted (not_after newest_of_target) l).
  { apply sort_by_sorted; [exact newest_asym|]. unfold not_after. intros a b c. by apply newest_neg_trans. }
  destruct (distinct_on_spec [] l) as (N & A & B). split_and!; [done| |].
  - intros r Hr. destruct (A r Hr) as (_ & l1 & l2 & E & Hl). split; [apply P; rewrite E, elem_of_app; right; left|].
    intros r' Hr'%P Et. rewrite E in Hr'. apply elem_of_app in Hr' as [Hr'|[->|Hr']%elem_of_cons]; [|done|].
    + destruct Hl. rewrite <- Et. by apply list_elem_of_fmap_2.
    + rewrite E in S. assert (G : newest_of_target r' r = false).
      { clear -S Hr'. induction l1 as [|x l1 IH]; inversion S as [|? ? S' F]; subst; [|by apply IH].
        rewrite Forall_forall in F. by apply F. }
      unfold newest_of_target in G. rewrite Et, str_lt_irrefl, String.eqb_refl in G. simpl in G. by apply Z.ltb_ge in G.
  - intros r Hr%P. apply B; [done|]. by intros ?%elem_of_nil.
Qed.

(** ** What the status page claims *)

Lemma not_terminal_spec ph : Valid ph = true -> not_terminal_sql ph = negb (Terminal ph).
Proof. intros H. apply Valid_cases in H. by destruct_or! H; subst. Qed.

Lemma length_0 {A} (l : list A) : (Z.of_nat (length l) =? 0) = true <-> l = [].
Proof. rewrite Z.eqb_eq. destruct l; simpl; split; done. Qed.

(** The status page tells the truth: in every reachable state it says
    healthy exactly when no job has been unfinished for a day, the last
    reconciliation found every job billed as reported, and, if there are
    probes, at least half of the targets' newest ones succeeded; each target
    is counted once, with a newest row of its own. *)
Lemma Gather_healthy p started now :
  reachable p.(core) ->
  let s := Gather p started now in
  (s.(Healthy) = true <->
   (forall id j, p.(core).(jobs) !! id = Some j -> Terminal j.(JPhase) = false -> now - 24 * hour <= j.(CreatedAt)) /\
   (forall run, last p.(core).(reconciliation_runs) = Some run -> run.(RMismatches) = []) /\
   (p.(probe_results) = [] \/ fle (f_lit 1 2) s.(ProbeSuccessRate) = true)) /\
  (forall r, r ∈ LatestHealth p -> forall r', r' ∈ p.(probe_results) -> r'.(PrTarget) = r.(PrTarget) -> r'.(PrAt) <= r.(PrAt)) /\
  NoDup (PrTarget <$> LatestHealth p).
Proof.
  intros R s. pose proof (reachable_Inv _ R) as I. destruct (LatestHealth_spec p) as (N & A & B). split; [|split; [|done]].
  2: intros r Hr; by apply A.
  assert (E1 : lost_jobs p.(core) (now - lostAfter) = [] <->
    forall id j, p.(core).(jobs) !! id = Some j -> Terminal j.(JPhase) = false -> now - 24 * hour <= j.(CreatedAt)).
  { unfold lost_jobs. split.
    - intros E id j L T. destruct (job_of_inv _ _ _ I L) as [K V]. apply Z.nlt_ge. intros Lt.
      assert (j ∈ ([] : list JobRecord)) as []%not_elem_of_nil. rewrite <- E. apply elem_of_filter.
      rewrite (not_terminal_spec _ V), T. split; [by apply Z.ltb_lt|]. apply elem_of_all_jobs; [done|by rewrite K].
    - intros H. destruct (List.filter _ _) as [|j l] eqn:E; [done|]. exfalso.
      assert (Hj : j ∈ j :: l) by left. rewrite <- E in Hj. apply elem_of_filter in Hj as [Hj Hin].
      apply elem_of_all_jobs in Hin; [|done]. destruct (job_of_inv _ _ _ I Hin) as [_ V].
      rewrite (not_terminal_spec _ V) in Hj. apply andb_true_iff in Hj as [Ht%negb_true_iff Hc%Z.ltb_lt].
      specialize (H _ _ Hin Ht). unfold lostAfter in *. lia. }
  assert (E2 : LatestHealth p = [] <-> p.(probe_results) = []).
  { split; intros E; [|unfold LatestHealth; by rewrite E]. destruct p.(probe_results) as [|r l] eqn:El; [done|].
    destruct (B r) as (r' & Hr & _); [left|]. rewrite E in Hr. by apply elem_of_nil in Hr. }
  unfold s, Gather. unfold LastReconciliation. destruct (last _) as [run|]; cbn [Healthy ProbeSuccessRate];
    rewrite !andb_true_iff, orb_true_iff, !length_0, E1, E2.
  - split; [intros ((? & ?) & ?); split_and!; [done|by intros ? [= <-]|done]|].
    intros (? & Hr & ?). split_and!; [done|by apply Hr|done].
  - split; [intros ((? & ?) & ?)|intros (? & ? & ?)]; by split_and!.
Qed.

(** The gauge [rabi_jobs_total] counts every job once. *)
Lemma phase_gauge_total p :
  reachable p.(core) -> sum_list (phase_count p <$> Phases) = size p.(core).(jobs).
Proof.
  intros R%reachable_Inv. unfold phase_count. transitivity (length (all_jobs p.(core))).
  2: { unfold all_jobs. by rewrite length_fmap, length_map_to_list. }
  assert (V : forall j, j ∈ all_jobs p.(core) -> Valid j.(JPhase) = true).
  { intros j Hj. apply elem_of_all_jobs in Hj; [|done]. by apply (job_of_inv _ _ _ R) in Hj as [_ ?]. }
  induction (all_jobs p.(core)) as [|j l IH]; [done|]. simpl in *.
  rewrite <- IH by (intros x Hx; apply V; by right). specialize (V j (list_elem_of_here _ _)).
  apply Valid_cases in V. destruct_or! V; rewrite V; simpl; lia.
Qed.

(** ** Concrete runs *)

Definition demo_keys (m : doc) : list string := (map_to_list m).*1.

Definition demo_uuid (target : string) : string := "uuid-" +:+ target.

Definition counts_status (target : string) : doc :=
  mkdoc [("boundTarget", JStr target);
         ("placement", jobj [("predicted", jobj [("successProbability", JNum (f_lit 9 10))])]);
         ("tasks", JArr [jobj [("result", jobj [("data", jobj [("counts", jobj
            [("00", JNum (f_of_Z 200)); ("11", JNum (f_of_Z 200))])])])]])].

Definition demo_fleet : list string := ["sim/q"].

Definition demo_probed : db := probeAll 10 demo_uuid demo_fleet empty_db.

Definition demo_bound : db := (BindJob demo_probed 20 false "uuid-sim/q" "t1" "sim/q" ∅).2.

Definition demo_ran : db :=
  (TransitionJob (TransitionJob (TransitionJob demo_bound 30 "uuid-sim/q" Submitted None).2 40 "uuid-sim/q" Running None).2
     50 "uuid-sim/q" Succeeded (Some (fun _ => counts_status "sim/q"))).2.

Definition demo_pdb : probe_db := mkPdb demo_ran [].

Definition demo_harvested : probe_db := Harvest id demo_keys 60 demo_pdb.

Example demo_row :
  demo_harvested.(probe_results) = [mkProbe 60 "sim/q" "uuid-sim/q" f1 (Some (f_lit 9 10)) (Some (fsub f1 (f_lit 9 10)))].
Proof. vm_compute. reflexivity. Qed.

Lemma demo_ran_reachable : reachable demo_ran.
Proof.
  eapply rtc_r; [eapply rtc_r; [eapply rtc_r; [eapply rtc_r; [apply (probeAll_steps 10 demo_uuid demo_fleet)|]|]|]|].
  - apply (step_bind _ 20 false "uuid-sim/q" "t1" "sim/q" ∅).
  - apply (step_transition _ 30 "uuid-sim/q" Submitted None). unfold transition_targets. set_solver.
  - apply (step_transition _ 40 "uuid-sim/q" Running None). unfold transition_targets. set_solver.
  - apply (step_transition _ 50 "uuid-sim/q" Succeeded). unfold transition_targets. set_solver.
Qed.

Lemma Harvest_progress_witness : candidates demo_harvested ≡ₚ [] /\ length (candidates demo_pdb) = 1%nat.
Proof.
  destruct (Harvest_progress id demo_keys (fun l => reflexivity l) 60 demo_pdb (reachable_Inv _ demo_ran_reachable))
    as (_ & _ & H). split; [|vm_compute; reflexivity].
  unfold demo_harvested. etrans; [exact H|]. vm_compute. reflexivity.
Defined.

Lemma demo_harvest_run : rtc (probe_step demo_keys) (mkPdb empty_db []) demo_harvested.
Proof.
  transitivity demo_pdb.
  - assert (G : forall d d', rtc store_step d d' -> rtc (probe_step demo_keys) (mkPdb d []) (mkPdb d' [])).
    { intros d d' R. induction R as [|x y z S _ IH]; [apply rtc_refl|]. eapply rtc_l; [|exact IH]. by apply (ps_store _ (mkPdb x [])). }
    apply G, demo_ran_reachable.
  - apply rtc_once, ps_harvest. done.
Qed.

Lemma probes_recorded_once_witness :
  PrJobID <$> demo_harvested.(probe_results) = ["uuid-sim/q"] /\ NoDup (PrJobID <$> demo_harvested.(probe_results)).
Proof. split; [vm_compute; reflexivity|]. exact (proj1 (probes_recorded_once demo_keys demo_harvested demo_harvest_run)). Defined.

Lemma demo_harvested_core : demo_harvested.(core) = demo_ran.
Proof. unfold demo_harvested. by rewrite Harvest_eq. Qed.

Lemma Gather_healthy_witness : (Gather demo_harvested 0 70).(Healthy) = true.
Proof.
  assert (R : reachable demo_harvested.(core)) by (rewrite demo_harvested_core; apply demo_ran_reachable).
  apply (proj1 (Gather_healthy demo_harvested 0 70 R)). split_and!.
  - intros i j L T. rewrite demo_harvested_core in L.
    assert (F : forallb (fun j => Terminal j.(JPhase)) (all_jobs demo_ran) = true) by (vm_compute; reflexivity).
    pose proof (reachable_Inv _ demo_ran_reachable) as I.
    revert F I L. generalize demo_ran. intros d F I L. destruct (job_of_inv _ _ _ I L) as [K _].
    assert (Hj : In j (all_jobs d)) by (apply list_elem_of_In, elem_of_all_jobs; [done|by rewrite K]).
    apply (proj1 (forallb_forall _ _) F) in Hj. congruence.
  - intros run H. rewrite demo_harvested_core in H.
    assert (last demo_ran.(reconciliation_runs) = None) as E by (vm_compute; reflexivity). congruence.
  - right. vm_compute. reflexivity.
Defined.
