(* ===== verification/StatusPage.v ===== *)
(** * The status page — src/internal/status/template.go, api/status_handler.go

    The page as html/template renders it: the nodes of the template, the
    values its actions print, and the escaping of every one of them.  All the
    actions of this template stand in element text, the one context whose
    escaper the model needs. *)

From S2P Require Import Prelude Float64 GoLib Phase Database JobStore Tables Lifecycle Probe.

(** ** html/template *)

Inductive node := Text (markup : string) | Action (value : string).

(** The escaper of element text. *)
Definition escape_char (c : ascii) : string :=
  if Ascii.eqb c "<" then "&lt;"
  else if Ascii.eqb c ">" then "&gt;"
  else if Ascii.eqb c "&" then "&amp;"
  else if Ascii.eqb c "'" then "&#39;"
  else if Ascii.eqb c dquote then "&#34;"
  else if Ascii.eqb c "+" then "&#43;"
  else if Ascii.eqb c "000" then "�"
  else String c "".

Fixpoint html_escape (s : string) : string :=
  match s with "" => "" | String c s => escape_char c +:+ html_escape s end.

(** The attributes of the template are written with single quotes here. *)
Fixpoint quotes (s : string) : string :=
  match s with "" => "" | String c s => String (if Ascii.eqb c "'" then dquote else c) (quotes s) end.

Definition render_node (n : node) : string := match n with Text s => quotes s | Action v => html_escape v end.

(** ** template.go *)

Definition minute_utc (t : Z) : string :=
  String.substring 0 10 (fmt_rfc3339 t) +:+ " " +:+ String.substring 11 5 (fmt_rfc3339 t) +:+ " UTC".

Definition days (f : float64) : string := formatFloat f.
Definition pct (f : float64) : string := formatFloat (fmul f (f_of_Z 100)) +:+ "%".
Definition mul100 (f : option float64) : float64 := match f with Some f => fmul f (f_of_Z 100) | None => f0 end.

Definition CalibrationCaveat : string :=
  "Calibration error is measured only on a two-qubit Bell probe circuit; it is a health signal, not a guarantee for arbitrary workloads.".

Definition statusHTML (d : Data) : list node :=
  [Text "<!DOCTYPE html>
<html lang='en'>
<head>
<meta charset='utf-8'>
<meta name='viewport' content='width=device-width, initial-scale=1'>
<title>Rabi — status</title>
<style>
 :root { color-scheme: light dark; }
 body { font: 16px/1.5 system-ui, sans-serif; max-width: 46rem; margin: 2rem auto; padding: 0 1rem; }
 h1 { margin-bottom: .25rem; }
 .badge { display: inline-block; padding: .2rem .7rem; border-radius: 1rem; font-weight: 600; color: #fff; }
 .ok { background: #178a3f; } .bad { background: #b3261e; }
 .grid { display: grid; grid-template-columns: 1fr 1fr; gap: 1rem; margin: 1.5rem 0; }
 .card { border: 1px solid #8884; border-radius: .5rem; padding: 1rem; }
 .metric { font-size: 1.8rem; font-weight: 700; }
 .label { font-size: .85rem; opacity: .7; text-transform: uppercase; letter-spacing: .03em; }
 .caveat { font-size: .85rem; opacity: .75; font-style: italic; }
 footer { margin-top: 2rem; font-size: .8rem; opacity: .6; }
 @media (max-width: 32rem) { .grid { grid-template-columns: 1fr; } }
</style>
</head>
<body>
<h1>Rabi status</h1>
<p>"]
  ++ (if d.(Healthy)
     then [Text "<span class='badge ok'>Healthy</span>"]
     else [Text "<span class='badge bad'>Degraded</span>"])
  ++ [Text "
   &nbsp;<span class='caveat'>generated "; Action (minute_utc d.(GeneratedAt)); Text "</span></p>

<div class='grid'>
  <div class='card'>
    <div class='label'>Days since a job was lost</div>
    <div class='metric'>"; Action (days d.(DaysSinceJobLost)); Text "</div>
    <div class='caveat'>"]
  ++ (if d.(NeverLost)
     then [Text "0 jobs lost in "; Action (days d.(OperationDays)); Text " days of operation"]
     else [Action (itoa d.(JobsLost)); Text " job(s) currently unaccounted"])
  ++ [Text "</div>
  </div>
  <div class='card'>
    <div class='label'>Uptime (this process)</div>
    <div class='metric'>"; Action (days d.(UptimeDays)); Text " d</div>
    <div class='caveat'>operation window: "; Action (days d.(OperationDays)); Text " days</div>
  </div>
  <div class='card'>
    <div class='label'>Probe success rate</div>
    <div class='metric'>"]
  ++ (if negb (d.(ProbesConsidered) =? 0)
     then [Action (pct d.(ProbeSuccessRate))]
     else [Text "—"])
  ++ [Text "</div>
    <div class='caveat'>"; Action (itoa d.(ProbesConsidered)); Text " target(s) probed</div>
  </div>
  <div class='card'>
    <div class='label'>Estimator calibration error (median)</div>
    <div class='metric'>"]
  ++ (if match d.(MedianCalibErr) with Some _ => true | None => false end
     then [Action (days (mul100 d.(MedianCalibErr))); Text "%"]
     else [Text "—"])
  ++ [Text "</div>
    <div class='caveat'>"; Action (CalibrationCaveat); Text "</div>
  </div>
</div>

<div class='card'>
  <div class='label'>Accounting reconciliation</div>
  <p>"]
  ++ (if d.(ReconciliationOK)
     then [Text "Clean"]
     else [Text "<b>"; Action (itoa d.(ReconciliationMis)); Text " mismatch(es)</b>"])
  ++ (if negb (d.(ReconciliationAt) =? time_zero)
     then [Text " — last audit "; Action (minute_utc d.(ReconciliationAt))]
     else [])
  ++ [Text ". The usage ledger, audit log, and job-event stream are append-only at the database-grant level.</p>
</div>

<div class='card' style='margin-top:1rem'>
  <div class='label'>Last game-day drill</div>
  "]
  ++ match d.(LastGameDay_) with
     | Some g => ([Text "
  <p><b>"; Action (g.(GScenario)); Text "</b> on <b>"; Action (g.(GTarget)); Text "</b> — "]
    ++ (if g.(InvariantsGreen)
       then [Text "invariants green"]
       else [Text "<b>invariants RED ("; Action (itoa g.(Violations)); Text " violation(s))</b>"])
    ++ [Text ", "; Action (minute_utc g.(GFinishedAt))]
    ++ (if negb (String.eqb g.(Note) "")
       then [Text " ("; Action (g.(Note)); Text ")"]
       else [])
    ++ [Text ".</p>
  "])
     | None => [Text "
  <p>No game-day recorded yet.</p>
  "]
     end
  ++ [Text "
</div>

<footer>
Rabi is an open-source control plane for quantum compute fleets. This page is a
static document rendered by the control plane from its own database — no external
services. Healthy means: zero lost jobs, a clean accounting reconciliation, and
probes passing.
</footer>
</body>
</html>"].

Definition Render (d : Data) : string := String.concat "" (render_node <$> statusHTML d).

(** [statusHandler]: the status and the body. *)
Definition statusHandler (p : probe_db) (started now : Z) : Z * string := (200, Render (Gather p started now)).

(** ** What a visitor's browser sees *)

Definition is_markup (c : ascii) : bool := Ascii.eqb c "<" || Ascii.eqb c ">" || Ascii.eqb c "'" || Ascii.eqb c dquote.

(** The characters of a text that can open, close or leave a tag or one of its
    attributes, in order. *)
Fixpoint markup (s : string) : string :=
  match s with "" => "" | String c s => if is_markup c then String c (markup s) else markup s end.

Lemma markup_app a b : markup (a +:+ b) = markup a +:+ markup b.
Proof. induction a as [|c a IH]; [done|]. change (String c a +:+ b) with (String c (a +:+ b)). cbn [markup]. rewrite IH. by destruct (is_markup c). Qed.

Lemma markup_escape_char c : markup (escape_char c) = "".
Proof. destruct c as [[] [] [] [] [] [] [] []]; vm_compute; reflexivity. Qed.

Lemma markup_escape s : markup (html_escape s) = "".
Proof. induction s as [|c s IH]; [done|]. cbn [html_escape]. by rewrite markup_app, markup_escape_char, IH. Qed.

(** The part of the page that the template alone decides. *)
Definition skeleton (l : list node) : list string := omap (fun n => match n with Text s => Some s | Action _ => None end) l.

Lemma markup_nodes l : markup (String.concat "" (render_node <$> l)) = markup (String.concat "" (quotes <$> skeleton l)).
Proof.
  induction l as [|[s|v] l IH]; [done| |]; rewrite fmap_cons, concat_cons, markup_app, IH; cbn [render_node].
  - change (skeleton (Text s :: l)) with (s :: skeleton l). by rewrite fmap_cons, concat_cons, markup_app.
  - by rewrite markup_escape.
Qed.

(** The questions the template asks. *)
Definition shape (d : Data) : bool * bool * bool * bool * bool * bool * option (bool * bool) :=
  (d.(Healthy), d.(NeverLost), d.(ProbesConsidered) =? 0, match d.(MedianCalibErr) with Some _ => true | None => false end,
   d.(ReconciliationOK), d.(ReconciliationAt) =? time_zero, (fun g => (g.(InvariantsGreen), String.eqb g.(Note) "")) <$> d.(LastGameDay_)).

Lemma skeleton_app a b : skeleton (a ++ b) = skeleton a ++ skeleton b.
Proof. apply omap_app. Qed.

Lemma skeleton_shape d d' : shape d = shape d' -> skeleton (statusHTML d) = skeleton (statusHTML d').
Proof.
  unfold shape. intros H. injection H as H1 H2 H3 H4 H5 H6 H7. unfold statusHTML. rewrite !skeleton_app.
  rewrite <- H1, <- H2, <- H3, <- H4, <- H5, <- H6. clear H1 H2 H3 H4 H5 H6.
  repeat apply (f_equal2 app); try reflexivity; try (by case_match).
  destruct d.(LastGameDay_) as [g|], d'.(LastGameDay_) as [g'|]; try done. injection H7 as H1 H2.
  rewrite !skeleton_app, <- H1, <- H2. repeat apply (f_equal2 app); try reflexivity; by case_match.
Qed.

(** No text of the database can change the page's markup: what pages with the
    same answers to the template's questions show as tags and attributes is
    the same, whatever the scenario, the target and the note of the last drill
    or any number on them say. *)
Theorem page_markup_fixed p p' started started' now now' :
  shape (Gather p started now) = shape (Gather p' started' now') ->
  markup (statusHandler p started now).2 = markup (statusHandler p' started' now').2.
Proof.
  intros H. unfold statusHandler, Render. cbn [snd]. by rewrite !markup_nodes, (skeleton_shape _ _ H).
Qed.

(** ** A page *)

Definition demo_drill (note : string) : GameDay := mkGameDay 0 0 "kill <db>" "fleet0" true 0 "ops" note.

Definition demo_page (note : string) : Data :=
  mkData 0 f0 f0 0 f0 true 0 f0 None true time_zero 0 (Some (demo_drill note)) true.

Lemma page_markup_witness :
  markup (Render (demo_page "all good")) = markup (Render (demo_page "</p><script src='x'>")) /\
  html_escape "</p><script src='x'>" = "&lt;/p&gt;&lt;script src=&#39;x&#39;&gt;".
Proof. split; [vm_compute; reflexivity|vm_compute; reflexivity]. Qed.

(** A first look at an installation without jobs, probes or drills. *)
Lemma empty_page :
  let s := Gather (mkPdb empty_db []) 0 (3 * 24 * hour) in
  s.(Healthy) = true /\ skeleton (statusHTML s) !! 1%nat = Some "<span class='badge ok'>Healthy</span>" /\
  days s.(UptimeDays) = "3" /\ minute_utc s.(GeneratedAt) = "0001-01-04 00:00 UTC".
Proof. vm_compute. split_and!; reflexivity. Qed.
