(* ===== verification/Daemon.v ===== *)
(** * The daemon's configuration and the operator's commands

    src/cmd/rabid (environment, intervals, shadow policies, authentication),
    RedactDSN of src/internal/store/redact.go, and what the commands
    rabi-chaos, rabi-shadow and rabi-load decide.  An unset environment
    variable is the empty string, as [os.Getenv] returns it; [None] stands for
    a Go panic. *)

From S2P Require Import Prelude Float64 GoLib Qasm Views Filter Policies Scheduler Phase Database JobStore Tables Chaos Lifecycle Auth Dispatch Evidence Csv.

(** ** Environment *)

Definition envOr (v fallback : string) : string := if String.eqb v "" then fallback else v.

(** The interval of the accounting audit. *)
Definition reconcile_every (v : string) : Z :=
  if String.eqb v "" then 168 * hour
  else match parse_duration v with Some d => d | None => 168 * hour end.

(** [time.NewTicker] panics on an interval that is not positive. *)
Definition new_ticker (d : Z) : option Z := if d <=? 0 then None else Some d.

(** [runReconciliation]: the audits at the given ticks. *)
Definition runReconciliation (v : string) (d : db) (ticks : list Z) : option db :=
  (fun _ => fold_left (fun d now => (ReconcileUsage d now).2) ticks d) <$> new_ticker (reconcile_every v).

Definition probe_every (v : string) : Z :=
  if String.eqb v "" then 15 * minute
  else match parse_duration v with
       | Some d => d
       | None => if String.eqb v "off" then 0 else 15 * minute
       end.

(** ** Shadow policies *)

Section Shadow.
Context (math_exp : float64 -> float64).

Fixpoint shadow_lookup (names : list string) (singletons : gmap string Z) (acc : list SchedulingPolicy)
  : result (string * policy_error) (list SchedulingPolicy) * gmap string Z :=
  match names with
  | [] => (Ok acc, singletons)
  | raw :: rest =>
      let name := trim_space raw in
      if String.eqb name "" then shadow_lookup rest singletons acc
      else match Lookup math_exp singletons name with
           | (Ok p, singletons) => shadow_lookup rest singletons (acc ++ [p])
           | (Err e, singletons) => (Err (name, e), singletons)
           end
  end.

Definition enableShadowPolicies (ps : policies) (spec : string) (singletons : gmap string Z)
  : result (string * policy_error) policies * gmap string Z :=
  let spec := trim_space spec in
  if String.eqb spec "" then (Ok ps, singletons)
  else match shadow_lookup (split spec ",") singletons [] with
       | (Ok l, singletons) => (Ok (EnableShadow ps ((fun p => (p, 0)) <$> l)), singletons)
       | (Err e, singletons) => (Err e, singletons)
       end.
End Shadow.

(** ** Authentication *)

Definition default_group_roles : gmap string Role :=
  list_to_map [("rabi-admin", RoleAdmin); ("rabi-operator", RoleOperator); ("rabi-member", RoleMember); ("rabi-viewer", RoleViewer)].

Inductive group_role_error := BadEntry (pair : string) | BadRole (message : string).

Fixpoint parse_pairs (pairs : list string) (out : gmap string Role) : result group_role_error (gmap string Role) :=
  match pairs with
  | [] => Ok out
  | entry :: rest =>
      match cut (trim_space entry) "=" with
      | Some (group, roleName) =>
          if String.eqb group "" then Err (BadEntry entry)
          else match ParseRole roleName with
               | Ok role => parse_pairs rest (<[group := role]> out)
               | Err e => Err (BadRole e)
               end
      | None => Err (BadEntry entry)
      end
  end.

Definition parseGroupRoles (spec : string) : result group_role_error (gmap string Role) :=
  if String.eqb spec "" then Ok default_group_roles else parse_pairs (split spec ",") ∅.

Record auth_env := mkAuthEnv {
  bootstrap_token : string; oidc_issuer : string; oidc_client_id : string; oidc_groups_claim : string;
  oidc_group_roles : string; oidc_default_role : string }.

Inductive auth_error := BadGroupRoles (e : group_role_error) | BadDefaultRole (e : string) | OIDCSetup (e : string) | AuthSetup (e : string).

(** [buildAuthenticator]; [discover] is the OIDC library: what the discovery of
    an issuer yields. *)
Definition buildAuthenticator (sha256 : string -> string) (discover : string -> result string (string -> string -> result string IDToken))
    (env : auth_env) : result auth_error Authenticator :=
  let? verifier :=
    if String.eqb env.(oidc_issuer) "" then Ok None
    else match parseGroupRoles env.(oidc_group_roles) with
         | Err e => Err (BadGroupRoles e)
         | Ok roles =>
             match (if String.eqb env.(oidc_default_role) "" then Ok RoleViewer else ParseRole env.(oidc_default_role)) with
             | Err e => Err (BadDefaultRole e)
             | Ok role =>
                 match NewOIDCVerifier discover
                         (mkOIDC env.(oidc_issuer) env.(oidc_client_id) env.(oidc_groups_claim) roles role) with
                 | Err e => Err (OIDCSetup e)
                 | Ok v => Ok (Some v)
                 end
             end
         end in
  match NewAuthenticator sha256 env.(bootstrap_token) verifier with Ok a => Ok a | Err e => Err (AuthSetup e) end.

(** ** RedactDSN *)

(** [(?i)] on one letter of the pattern; the long s (U+017F, two bytes) folds
    to s.  The rest of the text when the letter matches. *)
Definition fold_char (c : ascii) (s : string) : option string :=
  match s with
  | String x r =>
      if Ascii.eqb (lower x) c then Some r
      else if Ascii.eqb c "s" && Ascii.eqb x "197" then
        match r with String y r' => if Ascii.eqb y "191" then Some r' else None | EmptyString => None end
      else None
  | EmptyString => None
  end.

Fixpoint fold_word (w : string) (s : string) : option string :=
  match w with
  | EmptyString => Some s
  | String c w => match fold_char c s with Some r => fold_word w r | None => None end
  end.

(** [\s] of a regular expression: no vertical tab. *)
Definition rx_space (c : ascii) : bool := str_in (String c "") [" "; String "009" ""; String "010" ""; String "012" ""; String "013" ""].

Fixpoint skip_value (s : string) : string :=
  match s with String c r => if rx_space c then s else skip_value r | EmptyString => EmptyString end.

Definition sub_prefix (s rest : string) : string := String.substring 0 (String.length s - String.length rest) s.

(** A match of [(password=)[^\s]+] at the start: what follows the group. *)
Definition password_here (s : string) : option string :=
  match fold_word "password=" s with
  | Some (String c r) => if rx_space c then None else Some (String c r)
  | _ => None
  end.

(** [ReplaceAllString(dsn, "${1}xxxxx")]; the fuel is the length. *)
Fixpoint redact_keywords (fuel : nat) (s : string) : string :=
  match fuel, s with
  | S fuel, String c r =>
      match password_here s with
      | Some value => sub_prefix s value +:+ "xxxxx" +:+ redact_keywords fuel (skip_value value)
      | None => String c (redact_keywords fuel r)
      end
  | _, _ => EmptyString
  end.

(** What net/url makes of a DSN: its scheme, its user if any, and how it
    prints with a user (and password, when present). *)
Record url := mkURL {
  Scheme : string; User : option (string * option string); url_string : option (string * option string) -> string }.

Definition RedactDSN (parse_url : string -> option url) (dsn : string) : string :=
  if String.eqb dsn "" then ""
  else match parse_url dsn with
       | Some u =>
           if String.eqb u.(Scheme) "" then redact_keywords (String.length dsn) dsn
           else match u.(User) with
                | Some (name, Some _) => u.(url_string) (Some (name, Some "xxxxx"))
                | other => u.(url_string) other
                end
       | None => redact_keywords (String.length dsn) dsn
       end.

Example redact_examples :
  RedactDSN (fun _ => None) "host=db password=s3cret user=rabi" = "host=db password=xxxxx user=rabi" /\
  RedactDSN (fun _ => None) "PassWord=a" = "PassWord=xxxxx" /\ RedactDSN (fun _ => None) "password= a" = "password= a" /\
  RedactDSN (fun _ => None) "host=db password='two words'" = "host=db password=xxxxx words'" /\
  RedactDSN (fun _ => None) "host=db password = s3cret" = "host=db password = s3cret".
Proof. by vm_compute. Qed.

(** ** rabi-chaos sweep *)

Definition declaredShots (r : JobRecord) : float64 :=
  let spec := obj_or_nil (r.(Doc) !! "spec") in
  let wl := obj_or_nil (spec !! "workload") in
  let gm := obj_or_nil (wl !! "gateModel") in
  default f0 (as_num (gm !! "shots")).

Definition declared_map (l : list JobRecord) : gmap string float64 :=
  fold_left (fun m r => let s := declaredShots r in if fgt s f0 then <[r.(JobID) := s]> m else m) l ∅.

(** Which store the sweep opens: never migrating production. *)
Inductive opener := OpenMigrate | OpenNoMigrate.

Definition sweep_opener (target : string) : opener := if String.eqb target "fleet0" then OpenNoMigrate else OpenMigrate.

Inductive sweep_error := NoDatabase | NotConfirmed | InvariantsRed (n : nat).

(** The violations, and the database with the drill recorded. *)
Definition runSweep (d : db) (started finished : Z) (target operator note : string) (limit : nat)
  : list Violation * option sweep_error * db :=
  let l := ListJobs d "" "" limit 0 in
  let accepted := JobID <$> l in
  let violations := CheckAll d accepted (declared_map l) in
  let green := match violations with [] => true | _ => false end in
  let d := RecordGameDay d (mkGameDay started finished "invariant-sweep" target green (Z.of_nat (length violations)) operator note) in
  (violations, if green then None else Some (InvariantsRed (length violations)), d).

Definition sweep_command (dsn env_dsn target : string) (iMeanIt : bool) : option sweep_error :=
  let dsn := if String.eqb dsn "" then env_dsn else dsn in
  if String.eqb dsn "" then Some NoDatabase
  else if String.eqb target "fleet0" && negb iMeanIt then Some NotConfirmed
  else None.

(** ** rabi-shadow report *)

Inductive report_error := NoPlacements | NotPromotable (policy : string).

Definition shadow_report (intn : Z -> nat -> nat -> nat) (d : db) (policy : string) (now since : Z) (floor : float64)
    (requirePromotable : bool) : result report_error (Report * bool * list string) * option report_error :=
  let policy := if String.eqb policy "" then head (ShadowPolicies d) else Some policy in
  match policy with
  | None => (Err NoPlacements, Some NoPlacements)
  | Some policy =>
      let rep := Analyze intn (ShadowPlacementsSince d policy (now - since)) floor in
      let '(promotable, reasons) := Promotable rep in
      (Ok (rep, promotable, reasons), if requirePromotable && negb promotable then Some (NotPromotable policy) else None)
  end.

(** ** The password stays out of the log *)

Lemma fold_char_append c a s :
  Ascii.eqb (lower "p") c = false -> fold_char c (a +:+ String "p" s) = option_map (fun r => r +:+ String "p" s) (fold_char c a).
Proof.
  intros Hc. destruct a as [|x r]; cbn [fold_char].
  - change ("" +:+ String "p" s) with (String "p" s). cbn [fold_char]. rewrite Hc. by rewrite andb_false_r.
  - rewrite append_cons. cbn [fold_char]. destruct (Ascii.eqb (lower x) c); [done|].
    destruct (Ascii.eqb c "s" && Ascii.eqb x "197"); [|done]. destruct r as [|y r']; [done|]. rewrite append_cons.
    by destruct (Ascii.eqb y "191").
Qed.

Fixpoint no_p (w : string) : bool := match w with EmptyString => true | String c w => negb (Ascii.eqb (lower "p") c) && no_p w end.

Lemma fold_word_append w a s :
  no_p w = true -> fold_word w (a +:+ String "p" s) = option_map (fun r => r +:+ String "p" s) (fold_word w a).
Proof.
  revert a. induction w as [|c w IH]; intros a H; [done|]. cbn [no_p] in H. apply andb_true_iff in H as [Hc Hw].
  apply negb_true_iff in Hc. cbn [fold_word]. rewrite fold_char_append by done. destruct (fold_char c a); [cbn [option_map]; by apply IH|done].
Qed.

(** Whether a match starts in a nonempty text before ["p..."] is settled by
    that text alone. *)
Lemma password_before c a s :
  password_here (String c a +:+ String "p" s) =
    match fold_word "password=" (String c a) with
    | Some (String x r) => if rx_space x then None else Some (String x r +:+ String "p" s)
    | Some EmptyString => Some (String "p" s)
    | None => None
    end.
Proof.
  unfold password_here.
  assert (E : fold_word "password=" (String c a +:+ String "p" s) =
    option_map (fun r => r +:+ String "p" s) (fold_word "password=" (String c a))).
  { rewrite append_cons. change "password=" with (String "p" "assword="). cbn [fold_word fold_char].
    destruct (Ascii.eqb (lower c) "p"); [exact (fold_word_append "assword=" a s eq_refl)|].
    change (Ascii.eqb "p" "s" && Ascii.eqb c "197") with false. done. }
  rewrite E. destruct (fold_word "password=" (String c a)) as [[|x r]|]; done.
Qed.

Fixpoint no_space (s : string) : bool := match s with EmptyString => true | String c r => negb (rx_space c) && no_space r end.

Lemma skip_no_space s post : no_space s = true -> skip_value (s +:+ post) = skip_value post.
Proof.
  induction s as [|c s IH]; [done|]. cbn [no_space]. intros H. apply andb_true_iff in H as [Hc Hs]. apply negb_true_iff in Hc.
  rewrite append_cons. cbn [skip_value]. rewrite Hc. by apply IH.
Qed.

Lemma length_append a b : String.length (a +:+ b) = (String.length a + String.length b)%nat.
Proof. induction a as [|c a IH]; [done|]. rewrite append_cons. cbn [String.length]. by rewrite IH. Qed.

Lemma skip_value_length s : (String.length (skip_value s) <= String.length s)%nat.
Proof. induction s as [|c s IH]; cbn [skip_value]; [done|]. destruct (rx_space c); cbn [String.length]; lia. Qed.

Lemma fold_char_length c s r : fold_char c s = Some r -> (String.length r < String.length s)%nat.
Proof.
  destruct s as [|x s]; [done|]. cbn [fold_char]. destruct (Ascii.eqb _ c); [intros [= <-]; cbn [String.length]; lia|].
  destruct (_ && _); [|done]. destruct s as [|y s]; [done|]. destruct (Ascii.eqb y "191"); [|done]. intros [= <-]. cbn [String.length]. lia.
Qed.

Lemma fold_word_length w s r : fold_word w s = Some r -> (String.length r + String.length w <= String.length s)%nat.
Proof.
  revert s. induction w as [|c w IH]; intros s; cbn [fold_word]; [intros [= <-]; cbn [String.length]; lia|].
  destruct (fold_char c s) as [r'|] eqn:E; [|done]. intros H%IH. apply fold_char_length in E. cbn [String.length]. lia.
Qed.

Lemma password_here_length s v : password_here s = Some v -> (String.length v < String.length s)%nat.
Proof.
  unfold password_here. destruct (fold_word "password=" s) as [[|x r]|] eqn:E; [done| |done]. apply fold_word_length in E.
  destruct (rx_space x); [done|]. intros [= <-]. change (String.length "password=") with 9%nat in E. lia.
Qed.

(** Fuel beyond the length changes nothing. *)
Lemma redact_fuel f1 f2 s :
  (String.length s <= f1)%nat -> (String.length s <= f2)%nat -> redact_keywords f1 s = redact_keywords f2 s.
Proof.
  revert f2 s. induction f1 as [|f1 IH]; intros f2 s H1 H2; destruct s as [|c r]; cbn [String.length] in *; try lia.
  - by destruct f2.
  - by destruct f2.
  - destruct f2 as [|f2]; [lia|]. cbn [redact_keywords]. destruct (password_here (String c r)) as [v|] eqn:E.
    + apply password_here_length in E. cbn [String.length] in E. pose proof (skip_value_length v). f_equal. f_equal. apply IH; lia.
    + f_equal. apply IH; lia.
Qed.

Definition redact (s : string) : string := redact_keywords (String.length s) s.

Lemma redact_match s v :
  password_here s = Some v -> redact s = sub_prefix s v +:+ "xxxxx" +:+ redact (skip_value v).
Proof.
  intros H. pose proof (password_here_length s v H) as L. destruct s as [|c r]; [done|]. unfold redact. cbn [String.length redact_keywords].
  rewrite H. f_equal. f_equal. pose proof (skip_value_length v). cbn [String.length] in L. apply redact_fuel; lia.
Qed.

Lemma redact_step c r : password_here (String c r) = None -> redact (String c r) = String c (redact r).
Proof. intros H. unfold redact. cbn [String.length redact_keywords]. by rewrite H. Qed.

Lemma substring_app n a s : (n <= String.length a)%nat -> String.substring 0 n (a +:+ s) = String.substring 0 n a.
Proof.
  revert n. induction a as [|c a IH]; intros n H; cbn [String.length] in H.
  - assert (n = 0%nat) as -> by lia. by destruct ("" +:+ s).
  - destruct n as [|n]; [done|]. rewrite append_cons. cbn [String.substring]. rewrite IH by lia. done.
Qed.

Lemma sub_prefix_app a b s : sub_prefix (a +:+ s) (b +:+ s) = sub_prefix a b.
Proof.
  unfold sub_prefix. rewrite !length_append.
  replace (String.length a + String.length s - (String.length b + String.length s))%nat with (String.length a - String.length b)%nat by lia.
  apply substring_app. lia.
Qed.

Lemma skip_value_app r s :
  skip_value (r +:+ s) = skip_value s \/
  exists r', (String.length r' <= String.length r)%nat /\ forall s, skip_value (r +:+ s) = r' +:+ s.
Proof.
  induction r as [|c r IH]; [by left|]. rewrite append_cons. cbn [skip_value]. destruct (rx_space c) eqn:E.
  - right. exists (String c r). split; [done|]. intros s'. rewrite append_cons. cbn [skip_value]. by rewrite E.
  - destruct IH as [IH|(r' & L & IH)]; [by left|right]. exists r'. split; [cbn [String.length]; lia|]. intros s'.
    rewrite append_cons. cbn [skip_value]. by rewrite E.
Qed.

Definition secret (p post : string) : string := "password=" +:+ p +:+ post.

Lemma skip_secret p post : no_space p = true -> skip_value (secret p post) = skip_value post.
Proof. intros H. unfold secret. rewrite skip_no_space by done. by apply skip_no_space. Qed.

Lemma redact_secret pre p p' post :
  p <> "" -> p' <> "" -> no_space p = true -> no_space p' = true ->
  redact (pre +:+ secret p post) = redact (pre +:+ secret p' post).
Proof.
  intros N N' S S'. remember (String.length pre) as n eqn:En. revert pre En. induction n as [n IH] using lt_wf_ind. intros pre ->.
  destruct pre as [|c a].
  - assert (M : forall q, q <> "" -> no_space q = true -> redact (secret q post) = "password=" +:+ "xxxxx" +:+ redact (skip_value post)).
    { intros q Nq Sq. destruct q as [|x q]; [done|]. rewrite (redact_match _ (String x q +:+ post)).
      - rewrite skip_no_space by done. f_equal. unfold secret. change ("password=" +:+ String x q +:+ post) with ("password=" +:+ (String x q +:+ post)).
        change (sub_prefix ("password=" +:+ (String x q +:+ post)) ("" +:+ (String x q +:+ post)) = "password="). by rewrite sub_prefix_app.
      - cbn [no_space] in Sq. apply andb_true_iff in Sq as [Sx _]. apply negb_true_iff in Sx. unfold password_here, secret.
        change (fold_word "password=" ("password=" +:+ String x q +:+ post)) with (Some (String x q +:+ post)). rewrite append_cons. by rewrite Sx. }
    change ("" +:+ secret p post) with (secret p post). change ("" +:+ secret p' post) with (secret p' post). by rewrite !M.
  - assert (B : forall q, password_here (String c a +:+ secret q post) =
      match fold_word "password=" (String c a) with
      | Some (String x r) => if rx_space x then None else Some (String x r +:+ secret q post)
      | Some EmptyString => Some ("" +:+ secret q post)
      | None => None
      end) by (intros q; exact (password_before c a ("assword=" +:+ q +:+ post))).
    assert (Step : forall q, password_here (String c a +:+ secret q post) = None ->
      redact (String c a +:+ secret q post) = String c (redact (a +:+ secret q post))) by (intros q; apply redact_step).
    destruct (fold_word "password=" (String c a)) as [[|x r]|] eqn:F.
    + rewrite !(redact_match _ _ (B _)), !sub_prefix_app. change ("" +:+ secret p post) with (secret p post).
      change ("" +:+ secret p' post) with (secret p' post). by rewrite !skip_secret.
    + apply fold_word_length in F. cbn [String.length] in F. destruct (rx_space x) eqn:Sx.
      * rewrite !Step by apply B. f_equal. apply (IH (String.length a)); [cbn [String.length]; lia|done].
      * rewrite !(redact_match _ _ (B _)), !sub_prefix_app. do 2 f_equal.
        destruct (skip_value_app (String x r) (secret p post)) as [H|(r' & L & H)].
        -- destruct (skip_value_app (String x r) (secret p' post)) as [H'|(r' & L & H')].
           ++ by rewrite H, H', !skip_secret.
           ++ rewrite !H'. apply (IH (String.length r')); [cbn [String.length] in *; lia|done].
        -- rewrite !H. apply (IH (String.length r')); [cbn [String.length] in *; lia|done].
    + rewrite !Step by apply B. f_equal. apply (IH (String.length a)); [cbn [String.length]; lia|done].
Qed.

(** The log never depends on a keyword password: a DSN that is not a URL
    is redacted to the same text whatever non-blank text follows
    [password=], wherever it stands in the DSN. *)
Lemma RedactDSN_hides parse_url pre p p' post :
  p <> "" -> p' <> "" -> no_space p = true -> no_space p' = true ->
  (forall s u, parse_url s = Some u -> u.(Scheme) = "") ->
  RedactDSN parse_url (pre +:+ "password=" +:+ p +:+ post) = RedactDSN parse_url (pre +:+ "password=" +:+ p' +:+ post).
Proof.
  intros N N' S S' Hu. pose proof (redact_secret pre p p' post N N' S S') as R. unfold redact, secret in R.
  assert (K : forall q, RedactDSN parse_url (pre +:+ "password=" +:+ q +:+ post) = redact (pre +:+ "password=" +:+ q +:+ post)).
  { intros q. unfold RedactDSN, redact. destruct (String.eqb_spec (pre +:+ "password=" +:+ q +:+ post) "") as [E|_]; [by destruct pre|].
    destruct (parse_url _) as [u|] eqn:P; [|done]. by rewrite (Hu _ _ P). }
  rewrite !K. exact R.
Qed.

Lemma RedactDSN_hides_witness :
  RedactDSN (fun _ => None) ("host=db " +:+ "password=" +:+ "s3cret" +:+ " user=rabi") =
  RedactDSN (fun _ => None) ("host=db " +:+ "password=" +:+ "other" +:+ " user=rabi").
Proof. by apply (RedactDSN_hides (fun _ => None) "host=db " "s3cret" "other" " user=rabi"). Defined.

(** ** A sweep of a live database *)

Lemma listed_job d limit r : r ∈ ListJobs d "" "" limit 0 -> exists id, d.(jobs) !! id = Some r.
Proof.
  unfold ListJobs. intros H. apply elem_of_take in H as (i & H & _). rewrite drop_0 in H. apply list_elem_of_lookup_2 in H.
  rewrite elem_of_sort_by, list_elem_of_In, List.filter_In, <- list_elem_of_In in H. destruct H as [H _].
  unfold all_jobs in H. apply list_elem_of_fmap in H as ([id r'] & -> & H). exists id. by apply elem_of_map_to_list in H.
Qed.

Lemma noJobLost_nil d accepted :
  (forall id, id ∈ accepted -> exists r, GetJob d id = Ok r /\ Valid r.(JPhase) = true) -> noJobLost d accepted = [].
Proof.
  intros H. unfold noJobLost. apply flat_map_nil. intros id Hid. destruct (H id Hid) as (r & -> & ->). done.
Qed.

Lemma sweep_none_lost d limit : reachable d -> noJobLost d (JobID <$> ListJobs d "" "" limit 0) = [].
Proof.
  intros R%reachable_Inv. apply noJobLost_nil. intros id Hid. apply list_elem_of_fmap in Hid as (r & -> & Hr).
  apply listed_job in Hr as [id Hid]. destruct (job_of_inv d id r R Hid) as [E V]. exists r. unfold GetJob, scanJob. by rewrite E, Hid.
Qed.

(** A drill on a database that only the control plane has written, in
    whatever state, is green unless a condition was added to a finished job or
    an adapter reported more shots than were declared; and it leaves the jobs,
    tasks, events and charges as they were, with the drill on record. *)
Lemma sweep_of_reachable d started finished target operator note limit :
  reachable d ->
  let l := ListJobs d "" "" limit 0 in
  let '(violations, err, d') := runSweep d started finished target operator note limit in
  violations = terminalImmutable d (JobID <$> l) ++ usageWithinCaps d (JobID <$> l) (declared_map l) /\
  (err = None <-> violations = []) /\ same_core d d' /\
  exists g, d'.(game_days) = d.(game_days) ++ [g] /\ (g.(InvariantsGreen) = true <-> violations = []).
Proof.
  intros R. pose proof (reachable_Inv d R) as I. cbv zeta. unfold runSweep, CheckAll.
  rewrite (sweep_none_lost d limit R), (inv_no_duplicate d _ I), (inv_audit_gapless d _ I), app_nil_r. cbn [app].
  set (v := terminalImmutable _ _ ++ usageWithinCaps _ _ _). split_and!; [done|by destruct v|by repeat split|].
  eexists. split; [done|]. cbn [InvariantsGreen]. by destruct v.
Qed.

(** The sweep asks about the jobs it has just listed, so a job that has gone
    missing is not among them: its first check cannot fail, even on a database
    from which a job was deleted. *)
Lemma sweep_blind_to_loss d gone limit :
  reachable d -> let d' := set_jobs d (delete gone d.(jobs)) in noJobLost d' (JobID <$> ListJobs d' "" "" limit 0) = [].
Proof.
  intros R%reachable_Inv d'. apply noJobLost_nil. intros id Hid. apply list_elem_of_fmap in Hid as (r & -> & Hr).
  apply listed_job in Hr as [id Hid]. cbn [d' jobs set_jobs] in Hid. pose proof Hid as Hid'. apply lookup_delete_Some in Hid' as [_ Hj].
  destruct (job_of_inv d id r R Hj) as [E V]. exists r. unfold GetJob, scanJob. cbn [d' jobs set_jobs]. by rewrite E, Hid.
Qed.

Lemma sweep_of_reachable_witness :
  reachable demo_bound /\
  terminalImmutable demo_bound ["j1"] ++ usageWithinCaps demo_bound ["j1"] (declared_map (ListJobs demo_bound "" "" 5000 0)) = [].
Proof.
  split; [exact demo_bound_reachable|].
  pose proof (sweep_of_reachable demo_bound 1 2 "compose" "op" "" 5000 demo_bound_reachable) as H. cbv zeta in H.
  destruct (runSweep demo_bound 1 2 "compose" "op" "" 5000) as [[v err] d'] eqn:E. destruct H as (Hv & _).
  assert (V : (runSweep demo_bound 1 2 "compose" "op" "" 5000).1.1 = []) by (by vm_compute). rewrite E in V. cbn [fst] in V.
  rewrite V in Hv. symmetry. replace ["j1"] with (JobID <$> ListJobs demo_bound "" "" 5000 0) by (by vm_compute). exact Hv.
Defined.

(** ** The configuration of access *)

Lemma parse_pairs_spec pairs out m g r :
  parse_pairs pairs out = Ok m -> m !! g = Some r ->
  out !! g = Some r \/ exists entry name, entry ∈ pairs /\ cut (trim_space entry) "=" = Some (g, name) /\ ParseRole name = Ok r.
Proof.
  revert out. induction pairs as [|entry pairs IH]; intros out; cbn [parse_pairs]; [intros [= <-]; by left|].
  destruct (cut (trim_space entry) "=") as [[group roleName]|] eqn:C; [|done].
  destruct (String.eqb group ""); [done|]. destruct (ParseRole roleName) as [role|] eqn:P; [|done].
  intros H Hm. destruct (IH _ H Hm) as [Ho|(e & n & He & ? & ?)]; [|right; exists e, n; split; [by right|done]].
  apply lookup_insert_Some in Ho as [[<- <-]|[_ Ho]]; [right; exists entry, roleName; split; [left|done]|by left].
Qed.

Lemma group_role_bounds cfg groups :
  group_role cfg groups = cfg.(DefaultRole) \/
  exists g, g ∈ groups /\ cfg.(GroupRoles) !! str_or_empty (Some g) = Some (group_role cfg groups).
Proof.
  unfold group_role. generalize cfg.(DefaultRole). induction groups as [|x groups IH]; intros r0; cbn [fold_left]; [by left|].
  destruct (cfg.(GroupRoles) !! str_or_empty (Some x)) as [r|] eqn:E.
  - destruct (r0 <? r) eqn:L.
    + destruct (IH r) as [H|(g & Hg & H)]; [|right; exists g; split; [by right|done]].
      right. exists x. split; [left|]. by rewrite H.
    + destruct (IH r0) as [H|(g & Hg & H)]; [by left|right; exists g; split; [by right|done]].
  - destruct (IH r0) as [H|(g & Hg & H)]; [by left|right; exists g; split; [by right|done]].
Qed.

Lemma NewOIDCVerifier_ok provider issuer client claim roles dr v :
  NewOIDCVerifier provider (mkOIDC issuer client claim roles dr) = Ok v ->
  exists library, provider issuer = Ok library /\
    v = mkOIDCVerifier (mkOIDC issuer client (envOr claim "groups") roles dr) (library client).
Proof.
  unfold NewOIDCVerifier, envOr. cbn [Issuer ClientID GroupsClaim GroupRoles DefaultRole]. destruct (negb _); [|done].
  destruct (String.eqb claim ""); cbn [Issuer ClientID]; (destruct (provider issuer) as [library|]; [|done]);
    intros [= <-]; by exists library.
Qed.

(** (C25) Where a role comes from: when the daemon starts with OIDC, the role
    of a user it authenticates is the configured default, or it is granted by
    one of the user's groups through an entry "group=role" of the
    configuration, or, when no entry is configured, by one of the four groups
    that carry a role's name. *)
Theorem oidc_role_origin sha256 discover env a v raw p :
  buildAuthenticator sha256 discover env = Ok a -> a.(oidc) = Some v -> OIDCVerifier_Verify v raw = Ok p ->
  let role := p.(PRole) in
  (if String.eqb env.(oidc_default_role) "" then role = RoleViewer else ParseRole env.(oidc_default_role) = Ok role) \/
  exists library t claims g, discover env.(oidc_issuer) = Ok library /\ library env.(oidc_client_id) raw = Ok t /\
    t.(TClaims) = Ok claims /\ g ∈ arr_or_nil (claims !! envOr env.(oidc_groups_claim) "groups") /\
    if String.eqb env.(oidc_group_roles) "" then default_group_roles !! str_or_empty (Some g) = Some role
    else exists entry name, entry ∈ split env.(oidc_group_roles) "," /\
           cut (trim_space entry) "=" = Some (str_or_empty (Some g), name) /\ ParseRole name = Ok role.
Proof.
  intros H Ha Hp role. unfold buildAuthenticator in H.
  destruct (String.eqb env.(oidc_issuer) "").
  { cbn [rbind] in H. destruct (NewAuthenticator sha256 _ None) as [b|] eqn:N; [|done]. injection H as ->.
    unfold NewAuthenticator in N. destruct env.(bootstrap_token); [done|]. by injection N as <-. }
  destruct (parseGroupRoles env.(oidc_group_roles)) as [roles|] eqn:P; [|done].
  destruct (if String.eqb env.(oidc_default_role) "" then Ok RoleViewer else ParseRole env.(oidc_default_role)) as [dr|] eqn:D; [|done].
  destruct (NewOIDCVerifier _ _) as [v'|] eqn:V; [|done]. cbn [rbind] in H.
  destruct (NewAuthenticator sha256 _ _) as [b|] eqn:N; [|done]. injection H as ->.
  assert (v = v') as -> by (unfold NewAuthenticator in N; destruct env.(bootstrap_token); injection N as <-; by injection Ha).
  apply NewOIDCVerifier_ok in V as (library & Hl & ->). unfold OIDCVerifier_Verify in Hp. cbn [VVerifier VConfig] in Hp.
  destruct (library _ raw) as [t|] eqn:Ht; [|done]. destruct t.(TClaims) as [claims|] eqn:C; [|done]. injection Hp as <-.
  set (cfg := mkOIDC _ _ _ roles dr) in *. unfold role, oidc_principal. cbn [PRole].
  destruct (group_role_bounds cfg (arr_or_nil (claims !! cfg.(GroupsClaim)))) as [E|(g & Hg & E)].
  - left. rewrite E. cbn [cfg DefaultRole]. destruct (String.eqb env.(oidc_default_role) ""); [by injection D|done].
  - right. exists library, t, claims, g. split_and!; [done..|exact Hg|]. cbn [cfg GroupRoles] in E. unfold parseGroupRoles in P.
    destruct (String.eqb env.(oidc_group_roles) ""); [injection P as <-; exact E|].
    destruct (parse_pairs_spec _ _ _ _ _ P E) as [Ho|Ho]; [by rewrite lookup_empty in Ho|exact Ho].
Qed.

(** With no entry configured the group "rabi-admin" is granted the admin
    role; no value of the variable maps no group at all. *)
Lemma group_roles_never_empty spec m : parseGroupRoles spec = Ok m -> m <> ∅.
Proof.
  unfold parseGroupRoles. destruct (String.eqb_spec spec "") as [->|N]; [intros [= <-] E; by apply (f_equal (lookup "rabi-admin")) in E|].
  assert (S : exists e l, split spec "," = e :: l) by (destruct spec as [|c s]; [done|]; cbn [split]; destruct (Ascii.eqb c ","); [eauto|destruct (split s ","); eauto]).
  destruct S as (e & l & ->). cbn [parse_pairs]. destruct (cut (trim_space e) "=") as [[g n]|]; [|done].
  destruct (String.eqb g ""); [done|]. destruct (ParseRole n) as [r|]; [|done]. intros H.
  assert (G : forall pairs out, is_Some (out !! g) -> parse_pairs pairs out = Ok m -> is_Some (m !! g)).
  { induction pairs as [|e' pairs IH]; intros out Ho; cbn [parse_pairs]; [by intros [= <-]|].
    destruct (cut (trim_space e') "=") as [[g' n']|]; [|done]. destruct (String.eqb g' ""); [done|].
    destruct (ParseRole n') as [r'|]; [|done]. apply IH. destruct (decide (g' = g)) as [->|]; [rewrite lookup_insert_eq; eauto|by rewrite lookup_insert_ne]. }
  apply G in H; [|rewrite lookup_insert_eq; eauto]. intros ->. rewrite lookup_empty in H. by destruct H.
Qed.

Definition demo_env : auth_env := mkAuthEnv "" "https://idp" "rabi" "" "ops=operator, sec=admin" "".
Definition demo_token (group : string) : IDToken := mkIDToken "https://idp" "u1" (Ok (mkdoc [("groups", JArr [JStr group])])).
Definition demo_discover (issuer : string) : result string (string -> string -> result string IDToken) :=
  Ok (fun client raw => Ok (demo_token raw)).

Lemma oidc_role_origin_witness :
  exists a v p q, buildAuthenticator (fun s => s) demo_discover demo_env = Ok a /\ a.(oidc) = Some v /\
    OIDCVerifier_Verify v "sec" = Ok p /\ p.(PRole) = RoleAdmin /\
    OIDCVerifier_Verify v "rabi-admin" = Ok q /\ q.(PRole) = RoleViewer /\
    exists entry, entry ∈ split "ops=operator, sec=admin" "," /\ cut (trim_space entry) "=" = Some ("sec", "admin").
Proof.
  eexists _, _, _, _. split; [reflexivity|]. split; [reflexivity|]. split; [reflexivity|]. split; [by vm_compute|].
  split; [reflexivity|]. split; [by vm_compute|].
  destruct (oidc_role_origin (fun s => s) demo_discover demo_env _ _ "sec" _ eq_refl eq_refl eq_refl)
    as [H|(library & t & claims & g & L & T & C & Hg & entry & name & He & Hc & Hn)]; [by vm_compute in H|].
  exists " sec=admin". split; [by vm_compute; right; left|by vm_compute].
Defined.

(** ** Shadow policies and intervals *)

Definition wanted (names : list string) : list string := List.filter (fun n => negb (String.eqb n "")) (trim_space <$> names).

Lemma Lookup_name math_exp singletons name p s' :
  Lookup math_exp singletons name = (Ok p, s') -> p.(PolName) = name /\ name ∈ (factories math_exp).*1.
Proof.
  assert (F : forall q, find_factory math_exp name = Some q -> q.(PolName) = name /\ name ∈ (factories math_exp).*1).
  { intros q H. destruct (find_factory_cases _ _ _ H) as (_ & _ & E). split; [done|]. unfold find_factory in H.
    destruct (List.find _ _) as [e|] eqn:G; [|done]. apply List.find_some in G as [G1 G2]. to_prop. subst name.
    apply list_elem_of_fmap. exists e. split; [done|]. by apply list_elem_of_In. }
  unfold Lookup, NewPolicy. destruct (singletons !! name), (find_factory math_exp name) as [q|] eqn:E;
    (intros [= <- _] || done); by apply F.
Qed.

(** A misspelt candidate stops the daemon; otherwise the candidates are the
    names of the list, in order, blanks dropped. *)
Lemma enableShadowPolicies_spec math_exp ps spec singletons out s' :
  enableShadowPolicies math_exp ps spec singletons = (out, s') ->
  match out with
  | Ok ps' => ps'.(active) = ps.(active) /\
      exists l, ps'.(shadow) = ps.(shadow) ++ ((fun p => (p, 0)) <$> l) /\
        PolName <$> l = (if String.eqb (trim_space spec) "" then [] else wanted (split (trim_space spec) ","))
  | Err (name, e) => name ∈ wanted (split (trim_space spec) ",")
  end.
Proof.
  assert (G : forall names sg acc r sg', shadow_lookup math_exp names sg acc = (r, sg') ->
    match r with
    | Ok l => exists k, l = acc ++ k /\ PolName <$> k = wanted names
    | Err (name, _) => name ∈ wanted names
    end).
  { induction names as [|raw names IH]; intros sg acc r sg'; cbn [shadow_lookup].
    - intros [= <- <-]. exists []. split; [by rewrite app_nil_r|done].
    - unfold wanted. cbn [fmap list_fmap List.filter]. fold (wanted names).
      destruct (String.eqb (trim_space raw) ""); cbn [negb]; [apply IH|].
      destruct (Lookup math_exp sg (trim_space raw)) as [[p|e] sg1] eqn:L; [|intros [= <- <-]; left].
      intros H%IH. destruct r as [l|[name e]]; [|by right]. destruct H as (k & -> & Hk).
      exists (p :: k). rewrite <- app_assoc. split; [done|]. cbn [fmap list_fmap]. rewrite Hk. by rewrite (proj1 (Lookup_name _ _ _ _ _ L)). }
  unfold enableShadowPolicies. destruct (String.eqb (trim_space spec) ""); [intros [= <- <-]; split; [done|]; exists []; by rewrite app_nil_r|].
  destruct (shadow_lookup math_exp (split (trim_space spec) ",") singletons []) as [[l|[name e]] sg] eqn:E; intros [= <- <-].
  - destruct (G _ _ _ _ _ E) as (k & -> & Hk). split; [done|]. by exists k.
  - exact (G _ _ _ _ _ E).
Qed.

(** An audit interval of zero, or a negative one, panics the process. *)
Lemma reconcile_zero_panics d ticks : runReconciliation "0s" d ticks = None /\ runReconciliation "-1h" d ticks = None.
Proof. by split. Qed.
