(* ===== verification/LoadTest.v ===== *)
(** * The load and soak harness — src/internal/loadtest and src/cmd/rabi-load

    What the harness seeds, what it measures from the samples it takes, and
    its verdicts.  The live stack is the rest of this library: the seeded jobs
    are rows of the store, the synthetic targets the in-memory adapter's.
    Measurements (heap, goroutines, elapsed times, answers of the database)
    are arguments.  [None] of [humanBytes] is a Go panic. *)

From S2P Require Import Prelude Float64 GoLib Adapter Qasm Views Filter Phase Database JobStore Lifecycle Evidence.

(** ** harness.go *)

(** [NewStack]'s fleet: "t000", "t001", ... *)
Definition synth_spec (i : nat) : TargetSpec :=
  mkSpec ("t" +:+ pad 3 (itoa (Z.of_nat i))) 32 ["openqasm3"] 1000000 "" [] None false false (10 ^ 6).

Definition synth_fleet (numTargets : Z) : list TargetSpec :=
  synth_spec <$> seq 0 (Z.to_nat (if numTargets <=? 0 then 1 else numTargets)).

(** The wait for the fleet: the polls, 100 ms apart, that fall before the
    30-second deadline, each with the number of targets online. *)
Definition fleet_online (numTargets : Z) (polls : list Z) : bool :=
  existsb (fun online => (if numTargets <=? 0 then 1 else numTargets) <=? online) polls.

Definition minimal_program : string := "OPENQASM 3.0;" +:+ String newline "" +:+ "qubit[2] q;" +:+ String newline "".

(** [base64.StdEncoding.EncodeToString] of the program. *)
Definition minimal_inline : string := "T1BFTlFBU00gMy4wOwpxdWJpdFsyXSBxOwo=".

Example minimal_inline_ok : base64_decode minimal_inline = Some minimal_program.
Proof. by vm_compute. Qed.

Definition minimalDoc (name tenant : string) (shots : Z) : doc :=
  mkdoc [("apiVersion", JStr "tangle.dev/v1alpha1"); ("kind", JStr "QuantumJob");
         ("metadata", jobj [("name", JStr name); ("tenant", JStr tenant)]);
         ("spec", jobj [
            ("workload", jobj [("kind", JStr "gate-model");
               ("gateModel", jobj [("program", jobj [("format", JStr "openqasm3"); ("inline", JStr minimal_inline)]);
                                   ("shots", JNum (f_of_Z shots))])]);
            ("requirements", jobj [("qubits", JNum (f_of_Z 2))])])].

Definition seed_record (id tenant : string) (shots : Z) : JobRecord :=
  mkJobRecord id tenant "load" Pending (minimalDoc "load" tenant shots)
    (mkdoc [("phase", JStr "PENDING"); ("conditions", JArr [])]) 0 0.

Definition SeedJob (d : db) (now : Z) (id tenant : string) (shots : Z) : call JobRecord :=
  InsertJob d now (seed_record id tenant shots).

Definition PendingCount (d : db) : Z :=
  Z.of_nat (length (List.filter (fun r => String.eqb r.(JPhase) "PENDING") (all_jobs d))).

Definition NonTerminalOlderThan (d : db) (now age : Z) : Z :=
  Z.of_nat (length (List.filter (fun r => negb (str_in r.(JPhase) ["SUCCEEDED"; "FAILED"; "CANCELLED"])
                                          && (r.(CreatedAt) <? now - age)) (all_jobs d))).

(** ** storm.go *)

Definition MaxSchedulerCycleP99 : Z := 2 * second.
Definition MaxAPIReadP99 : Z := 300 * 10 ^ 6.
Definition MaxAPIWriteP99 : Z := second.

Record StormConfig := mkStormConfig {
  SJobs : Z; STargets : Z; STenantName : string; SPolicyName : string; SeedWorkers : Z; APIReaders : Z; APIWriters : Z;
  APIReads : Z; APIWrites : Z; DrainTimeout : Z }.

Definition or_int (z default : Z) : Z := if z =? 0 then default else z.

Definition storm_defaults (c : StormConfig) : StormConfig :=
  mkStormConfig (or_int c.(SJobs) 10000) (or_int c.(STargets) 100) (or_default c.(STenantName) "acme/qa") c.(SPolicyName)
    (or_int c.(SeedWorkers) 64) (or_int c.(APIReaders) 16) (or_int c.(APIWriters) 8) (or_int c.(APIReads) 2000)
    (or_int c.(APIWrites) 500) (or_int c.(DrainTimeout) (5 * minute)).

Record StormResult := mkStormResult {
  RJobs : Z; RTargets : Z; RDuration : Z; CycleCount : Z; RCycleP50 : Z; RCycleP99 : Z; RCycleMax : Z;
  APIReadP50 : Z; APIReadP99 : Z; APIWriteP50 : Z; APIWriteP99 : Z; PeakPending : Z; FinalPending : Z; Drained : bool }.

Definition over (what : string) (d max : Z) : list string :=
  if max <? d then [what +:+ " " +:+ dur_string d +:+ " > " +:+ dur_string max] else [].

Definition storm_ceiling (r : StormResult) : Z := r.(RJobs) + r.(RTargets) + 2000.

Definition StormViolations (r : StormResult) : list string :=
  over "scheduler-cycle p99" r.(RCycleP99) MaxSchedulerCycleP99
  ++ over "api-read p99" r.(APIReadP99) MaxAPIReadP99
  ++ over "api-write p99" r.(APIWriteP99) MaxAPIWriteP99
  ++ (if r.(Drained) then [] else ["queue did not drain: " +:+ itoa r.(FinalPending) +:+ " jobs still pending"])
  ++ (if storm_ceiling r <? r.(PeakPending)
      then ["queue grew unbounded: peak pending " +:+ itoa r.(PeakPending) +:+ " > ceiling " +:+ itoa (storm_ceiling r)]
      else []).

(** [Duration.Round]: to the nearest multiple, halves away from zero. *)
Definition dur_round (d m : Z) : Z :=
  if m <=? 0 then d
  else let r := Z.rem d m in
       if d <? 0 then
         let r := - r in
         if r + r <? m then d + r else if int64_min <=? d - m + r then d - m + r else int64_min
       else if r + r <? m then d - r else if d + m - r <=? int64_max then d + m - r else int64_max.

Definition storm_string (r : StormResult) : string :=
  "storm[jobs=" +:+ itoa r.(RJobs) +:+ " targets=" +:+ itoa r.(RTargets) +:+ " dur=" +:+ dur_string (dur_round r.(RDuration) (10 ^ 6))
  +:+ "]: cycle p50=" +:+ dur_string r.(RCycleP50) +:+ " p99=" +:+ dur_string r.(RCycleP99) +:+ " max=" +:+ dur_string r.(RCycleMax)
  +:+ " (" +:+ itoa r.(CycleCount) +:+ " cycles) · read p50=" +:+ dur_string r.(APIReadP50) +:+ " p99=" +:+ dur_string r.(APIReadP99)
  +:+ " · write p50=" +:+ dur_string r.(APIWriteP50) +:+ " p99=" +:+ dur_string r.(APIWriteP99)
  +:+ " · pending peak=" +:+ itoa r.(PeakPending) +:+ " final=" +:+ itoa r.(FinalPending)
  +:+ " drained=" +:+ (if r.(Drained) then "true" else "false").

(** The sampler's running maximum; failed queries are skipped. *)
Definition peak_step (old : Z) (sample : option Z) : Z :=
  match sample with Some n => if n <=? old then old else n | None => old end.
Definition peak_pending (samples : list (option Z)) : Z := fold_left peak_step samples 0.

(** The polls of the drain, each with the time it starts at. *)
Fixpoint waitForDrain (deadline : Z) (polls : list (Z * option Z)) (last : Z) : bool * Z :=
  match polls with
  | [] => (false, last)
  | (now, answer) :: rest =>
      if negb (now <? deadline) then (false, last)
      else match answer with
           | Some n => if n =? 0 then (true, 0) else waitForDrain deadline rest n
           | None => waitForDrain deadline rest last
           end
  end.

(** A reader's probes: the indices it visits from [seed], and whether each is a
    list or a get.  [ids] empty is a division by zero. *)
Fixpoint read_indices (n : nat) (len i : Z) : list Z :=
  match n with O => [] | S n => let i := (i + 1) mod len in i :: read_indices n len i end.
Definition is_list_probe (i : Z) : bool := i mod 3 =? 0.

(** [RunStorm] from what it observed: the cycle ring, the latencies of the
    probes, the samples of the queue and the polls of the drain. *)
Definition RunStorm (cfg : StormConfig) (duration : Z) (ring : cycleRing) (reads writes : list Z)
    (samples : list (option Z)) (started : Z) (polls : list (Z * option Z)) : StormResult :=
  let cfg := storm_defaults cfg in
  let '(drained, final) := waitForDrain (started + cfg.(DrainTimeout)) polls 0 in
  mkStormResult cfg.(SJobs) cfg.(STargets) duration ring.(total) (CycleP50 ring) (CycleP99 ring) (CycleMax ring)
    (Percentile reads (f_lit 1 2)) (Percentile reads (f_lit 99 100)) (Percentile writes (f_lit 1 2)) (Percentile writes (f_lit 99 100))
    (peak_pending samples) final drained.

(** ** soak.go *)

Definition MaxSoakHeapGrowthPct : float64 := f_of_Z 50.
Definition GoroutineSlack : Z := 100.
Definition DefaultStuckJobMaxAge : Z := 30 * second.
Definition DefaultSoakArrivalRate : Z := 200.

Record SoakConfig := mkSoakConfig {
  KDuration : Z; KTargets : Z; KTenant : string; KPolicy : string; ArrivalRate : Z; WarmupFraction : float64;
  StuckJobMaxAge : Z; SampleEvery : Z }.

Definition soak_defaults (c : SoakConfig) : SoakConfig :=
  mkSoakConfig (or_int c.(KDuration) (2 * minute)) (or_int c.(KTargets) 20) (or_default c.(KTenant) "acme/qa") c.(KPolicy)
    (or_int c.(ArrivalRate) DefaultSoakArrivalRate)
    (if feq c.(WarmupFraction) f0 then f_lit 35 100 else c.(WarmupFraction))
    (or_int c.(StuckJobMaxAge) DefaultStuckJobMaxAge) (or_int c.(SampleEvery) (2 * second)).

(** The pause between two submissions. *)
Definition arrival_interval (rate : Z) : Z :=
  let interval := Z.quot second rate in if interval <=? 0 then 1000 else interval.

Record SoakResult := mkSoakResult {
  KElapsed : Z; Samples : Z; JobsSubmitted : Z; HeapInuseBase : Z; HeapInuseEnd : Z; HeapGrowthPct : float64;
  GoroutinesBase : Z; GoroutinesPeak : Z; GoroutinesEnd : Z; RSSBaseKB : Z; RSSEndKB : Z;
  MaxStuck : Z; FinalStuck : Z; KFinalPending : Z }.

Definition SoakViolations (r : SoakResult) : list string :=
  (if fgt r.(HeapGrowthPct) MaxSoakHeapGrowthPct
   then ["post-warmup heap growth " +:+ fmt_f 1 r.(HeapGrowthPct) +:+ "% > " +:+ fmt_f 1 MaxSoakHeapGrowthPct +:+ "%"] else [])
  ++ (if r.(GoroutinesBase) + GoroutineSlack <? r.(GoroutinesEnd)
      then ["goroutines unbounded: end " +:+ itoa r.(GoroutinesEnd) +:+ " > base " +:+ itoa r.(GoroutinesBase)
              +:+ " + slack " +:+ itoa GoroutineSlack] else [])
  ++ (if 0 <? r.(FinalStuck) then [itoa r.(FinalStuck) +:+ " job(s) stuck non-terminal past max age"] else []).

(** [for n := b / unit; n >= unit; n /= unit]: the divisor and the exponent. *)
Fixpoint unit_of (fuel : nat) (n div exp : Z) : Z * Z :=
  match fuel with
  | O => (div, exp)
  | S fuel => if 1024 <=? n then unit_of fuel (n / 1024) ((div * 1024) mod 2 ^ 64) (exp + 1) else (div, exp)
  end.

(** A [uint64] loses ten bits per round, so seven rounds are enough. *)
Definition humanBytes (b : Z) : option string :=
  if b <? 1024 then Some (itoa b +:+ "B")
  else let '(div, exp) := unit_of 7 (b / 1024) 1024 0 in
       match String.get (Z.to_nat exp) "KMGT" with
       | Some c => Some (fmt_f 1 (fdiv (f_of_Z b) (f_of_Z div)) +:+ String c "iB")
       | None => None
       end.

Definition soak_string (r : SoakResult) : option string :=
  match humanBytes r.(HeapInuseBase), humanBytes r.(HeapInuseEnd) with
  | Some base, Some fin =>
      Some ("soak[dur=" +:+ dur_string (dur_round r.(KElapsed) second) +:+ " samples=" +:+ itoa r.(Samples)
        +:+ " submitted=" +:+ itoa r.(JobsSubmitted) +:+ "]: heap base=" +:+ base +:+ " end=" +:+ fin
        +:+ " growth=" +:+ fmt_f 1 r.(HeapGrowthPct) +:+ "% · goroutines base=" +:+ itoa r.(GoroutinesBase)
        +:+ " peak=" +:+ itoa r.(GoroutinesPeak) +:+ " end=" +:+ itoa r.(GoroutinesEnd)
        +:+ " · rss base=" +:+ itoa r.(RSSBaseKB) +:+ "KB end=" +:+ itoa r.(RSSEndKB) +:+ "KB · stuck max=" +:+ itoa r.(MaxStuck)
        +:+ " final=" +:+ itoa r.(FinalStuck))
  | _, _ => None
  end.

(** [rssKB] on the lines of /proc/self/status: the first VmRSS line decides
    once it has two fields. *)
Fixpoint rssKB (lines : list string) : Z :=
  match lines with
  | [] => 0
  | line :: rest =>
      if has_prefix line "VmRSS:" then
        match fields line with
        | _ :: kb :: _ => match parse_uint kb with
                          | Some n => if n <? 2 ^ 64 then n else 2 ^ 64 - 1
                          | None => 0
                          end
        | _ => rssKB rest
        end
      else rssKB rest
  end.

(** One tick of the sampler: the time since the start, and what it reads. *)
Record observation := mkObs { since : Z; goroutines : Z; stuck : option Z; heap : Z; rss : Z }.

Record sampler := mkSampler { peakGoro : Z; maxStuck : Z; samples : Z; baseline : option (Z * Z) }.

Definition sample_step (warmup : Z) (s : sampler) (o : observation) : sampler :=
  mkSampler (if s.(peakGoro) <? o.(goroutines) then o.(goroutines) else s.(peakGoro))
    (match o.(stuck) with Some n => if s.(maxStuck) <? n then n else s.(maxStuck) | None => s.(maxStuck) end)
    (s.(samples) + 1)
    (match s.(baseline) with
     | Some b => Some b
     | None => if warmup <=? o.(since) then Some (o.(heap), o.(rss)) else None
     end).

Definition heap_growth (base fin : Z) : float64 :=
  if (0 <? base) && (base <? fin) then fmul (fdiv (f_of_Z (fin - base)) (f_of_Z base)) (f_of_Z 100) else f0.

(** [RunSoak] from what it observed; a failed final query reads as 0. *)
Definition RunSoak (cfg : SoakConfig) (elapsed submitted startGoro : Z) (obs : list observation) (endHeap endGoro lateRSS endRSS : Z)
    (finalStuck finalPending : option Z) : SoakResult :=
  let cfg := soak_defaults cfg in
  let warmup := f_to_int64 (fmul (f_of_Z cfg.(KDuration)) cfg.(WarmupFraction)) in
  let s := fold_left (sample_step warmup) obs (mkSampler startGoro 0 0 None) in
  let '(baseHeap, baseRSS) := default (endHeap, lateRSS) s.(baseline) in
  mkSoakResult elapsed s.(samples) submitted baseHeap endHeap (heap_growth baseHeap endHeap) startGoro s.(peakGoro) endGoro
    baseRSS endRSS s.(maxStuck) (default 0 finalStuck) (default 0 finalPending).

(** ** cmd/rabi-load *)

Inductive load_failure := NoLoadDatabase | ThresholdsBreached (kind : string) (n : nat).

Definition load_database (dsn env : string) : option string :=
  let dsn := if String.eqb dsn "" then env else dsn in if String.eqb dsn "" then None else Some dsn.

(** [writeReport]'s verdict: the report's "pass", and the error of the run. *)
Definition writeReport (kind : string) (violations : list string) : bool * option load_failure :=
  match violations with
  | [] => (true, None)
  | _ => (false, Some (ThresholdsBreached kind (length violations)))
  end.

(** ** Seeded jobs can always be placed *)

(** A view of a synthetic target that is online and outside maintenance. *)
Definition synth_view (i : nat) (t : TargetView) : Prop :=
  t.(TName) = "synth." +:+ (synth_spec i).(ID) /\ t.(Modality) = "gate-model" /\ t.(TQubits) = 32 /\ t.(Formats) = ["openqasm3"] /\
  t.(MaxShots) = 1000000 /\ t.(Online) = true /\ t.(Cloud) = false /\ t.(Maintenance) = [].

(** What the storm and the soak seed directly into the store, past the
    admission checks, is a document the scheduler parses, for any tenant, and
    every online synthetic target passes the filter for it at any time: a
    backlog that does not drain is the control plane's fault. *)
Lemma seeded_jobs_placeable d now id tenant d' r i t at_ :
  SeedJob d now id tenant 1000 = (Ok r, d') -> synth_view i t ->
  r.(JPhase) = Pending /\ d'.(jobs) !! id = Some r /\
  exists j, ParseJob id tenant r.(Doc) = Ok j /\ FilterTarget j t at_ = "".
Proof.
  intros (_ & _ & E & -> & ->)%in_tx_ok%insertJobTx_ok (En & Em & Eq & Ef & Es & Eo & Ec & Ew). split; [done|]. split; [exact (lookup_insert_eq d.(jobs) id _)|].
  eexists. split; [vm_compute; reflexivity|].
  apply FilterTarget_spec. split_and!.
  - split; cbn; try done; [by rewrite Ew; intros w ?%elem_of_nil|right; rewrite Ef; left|right; lia|right; right; lia|by left].
  - split; cbn; done.
  - split; cbn; [by intros ?%elem_of_nil|by left|by left|by intros u ?%elem_of_nil].
Qed.

(** ** Verdicts *)

Lemma over_nil what d max : over what d max = [] <-> d <= max.
Proof. unfold over. destruct (Z.ltb_spec max d); split; (done || lia). Qed.

Lemma StormViolations_nil r :
  StormViolations r = [] <->
  r.(RCycleP99) <= MaxSchedulerCycleP99 /\ r.(APIReadP99) <= MaxAPIReadP99 /\ r.(APIWriteP99) <= MaxAPIWriteP99 /\
  r.(Drained) = true /\ r.(PeakPending) <= storm_ceiling r.
Proof.
  unfold StormViolations. rewrite !app_nil, !over_nil. destruct r.(Drained), (Z.ltb_spec (storm_ceiling r) r.(PeakPending));
    split; intros (? & ? & ? & ? & ?); try done; split_and!; (done || lia).
Qed.

Lemma peak_spec samples old :
  let p := fold_left peak_step samples old in
  old <= p /\ (forall n, Some n ∈ samples -> n <= p) /\ (p = old \/ Some p ∈ samples).
Proof.
  revert old. induction samples as [|x samples IH]; intros old; cbn [fold_left]; [split_and!; [lia|by intros n ?%elem_of_nil|by left]|].
  destruct (IH (peak_step old x)) as (H1 & H2 & H3). cbv zeta in *.
  assert (S : old <= peak_step old x /\ (forall n, x = Some n -> n <= peak_step old x) /\ (peak_step old x = old \/ x = Some (peak_step old x))).
  { destruct x as [n|]; cbn [peak_step]; [|split_and!; [lia|done|by left]].
    destruct (Z.leb_spec n old); (split_and!; [lia|intros ? [= <-]; lia|auto]). }
  destruct S as (S1 & S2 & S3). split_and!; [lia| |].
  - intros n [E|Hn]%elem_of_cons; [specialize (S2 n (eq_sym E)); lia|by apply H2].
  - destruct H3 as [H3|H3]; [|right; by right]. rewrite H3. destruct S3 as [->|S3]; [by left|right]. apply elem_of_cons. by left.
Qed.

(** The drain is over when a poll before the deadline finds nothing pending. *)
Lemma waitForDrain_spec deadline polls last :
  let '(drained, final) := waitForDrain deadline polls last in
  if drained then final = 0 /\ exists before now after, polls = before ++ (now, Some 0) :: after /\ now < deadline /\
                               Forall (fun p => p.1 < deadline /\ p.2 <> Some 0) before
  else exists before after, polls = before ++ after /\ Forall (fun p => p.1 < deadline /\ p.2 <> Some 0) before /\
         match after with [] => True | p :: _ => deadline <= p.1 end.
Proof.
  revert last. induction polls as [|[now answer] polls IH]; intros last; cbn [waitForDrain]; [by exists [], []|].
  destruct (Z.ltb_spec now deadline) as [L|L]; cbn [negb]; [|by exists [], ((now, answer) :: polls)].
  assert (G : forall last, answer <> Some 0 -> let '(drained, final) := waitForDrain deadline polls last in
    if drained then final = 0 /\ exists before now0 after, (now, answer) :: polls = before ++ (now0, Some 0) :: after /\ now0 < deadline /\
                                 Forall (fun p => p.1 < deadline /\ p.2 <> Some 0) before
    else exists before after, (now, answer) :: polls = before ++ after /\ Forall (fun p => p.1 < deadline /\ p.2 <> Some 0) before /\
           match after with [] => True | p :: _ => deadline <= p.1 end).
  { intros l0 N. specialize (IH l0). destruct (waitForDrain deadline polls l0) as [[|] final].
    - destruct IH as (-> & b & n0 & a & -> & Hn & Hb). split; [done|]. exists ((now, answer) :: b), n0, a.
      split_and!; [done|done|by constructor].
    - destruct IH as (b & a & -> & Hb & Ha). exists ((now, answer) :: b), a. split_and!; [done|by constructor|done]. }
  destruct answer as [n|]; [|by apply G]. destruct (Z.eqb_spec n 0) as [->|N]; [|apply G; congruence].
  split; [done|]. by exists [], now, polls.
Qed.

(** A storm passes exactly when the 99th percentiles are within their
    limits, a poll before the deadline found no pending job, and no sample
    exceeded the seeded jobs plus the targets plus 2000. *)
Lemma storm_passes cfg duration ring reads writes samples started polls :
  let cfg' := storm_defaults cfg in
  StormViolations (RunStorm cfg duration ring reads writes samples started polls) = [] <->
  CycleP99 ring <= 2 * second /\ Percentile reads (f_lit 99 100) <= 300 * 10 ^ 6 /\ Percentile writes (f_lit 99 100) <= second /\
  (exists before now after, polls = before ++ (now, Some 0) :: after /\ now < started + cfg'.(DrainTimeout) /\
     Forall (fun p => p.1 < started + cfg'.(DrainTimeout) /\ p.2 <> Some 0) before) /\
  Forall (fun s => match s with Some n => n <= cfg'.(SJobs) + cfg'.(STargets) + 2000 | None => True end) samples /\
  0 <= cfg'.(SJobs) + cfg'.(STargets) + 2000.
Proof.
  intros cfg'. rewrite StormViolations_nil. unfold RunStorm. fold cfg'.
  pose proof (waitForDrain_spec (started + cfg'.(DrainTimeout)) polls 0) as W.
  destruct (waitForDrain (started + cfg'.(DrainTimeout)) polls 0) as [drained final].
  unfold storm_ceiling. cbn [RCycleP99 APIReadP99 APIWriteP99 Drained PeakPending RJobs RTargets].
  unfold MaxSchedulerCycleP99, MaxAPIReadP99, MaxAPIWriteP99.
  destruct (peak_spec samples 0) as (P0 & P1 & P2). fold (peak_pending samples) in P0, P1, P2.
  assert (K : peak_pending samples <= cfg'.(SJobs) + cfg'.(STargets) + 2000 <->
    Forall (fun s => match s with Some n => n <= cfg'.(SJobs) + cfg'.(STargets) + 2000 | None => True end) samples /\
    0 <= cfg'.(SJobs) + cfg'.(STargets) + 2000).
  { split.
    - intros H. split; [|lia]. apply Forall_forall. intros [n|] Hn; [|done]. specialize (P1 n Hn). lia.
    - intros [H1 H2]. destruct P2 as [->|Hin]; [done|]. rewrite Forall_forall in H1. by apply (H1 (Some (peak_pending samples))). }
  rewrite K. destruct drained.
  - destruct W as [_ W]. tauto.
  - split; [intros (_ & _ & _ & ? & _); done|]. intros (_ & _ & _ & (b & n & a & E & Hn & Hb) & _). exfalso.
    destruct W as (b' & a' & E' & Hb' & Ha'). rewrite Forall_forall in Hb, Hb'.
    assert (At : polls !! length b = Some (n, Some 0)) by (rewrite E; apply list_lookup_middle; done).
    destruct (Nat.lt_ge_cases (length b) (length b')) as [L|L].
    + rewrite E', lookup_app_l in At by done. destruct (Hb' _ (list_elem_of_lookup_2 _ _ _ At)). done.
    + destruct a' as [|x a']; [rewrite app_nil_r in E'; rewrite E', lookup_ge_None_2 in At by done; done|].
      assert (Ax : polls !! length b' = Some x) by (rewrite E'; apply list_lookup_middle; done).
      destruct (Nat.eq_dec (length b') (length b)) as [Eq|Ne]; [rewrite Eq, At in Ax; injection Ax as <-; cbn [fst] in Ha'; lia|].
      rewrite E, lookup_app_l in Ax by lia. destruct (Hb _ (list_elem_of_lookup_2 _ _ _ Ax)). lia.
Qed.

(** ** Units of memory *)

Lemma unit_of_exp fuel n div exp :
  0 <= n -> n < 1024 ^ Z.of_nat fuel -> let e := (unit_of fuel n div exp).2 in exp <= e /\ forall k, 0 <= k -> (exp + k < e <-> 1024 ^ (k + 1) <= n).
Proof.
  revert n div exp. induction fuel as [|fuel IH]; intros n div exp H0 Hn; cbn [unit_of].
  - cbn [snd]. split; [lia|]. intros k Hk. pose proof (Z.pow_pos_nonneg 1024 (k + 1)). change (1024 ^ Z.of_nat 0) with 1 in Hn. lia.
  - rewrite Nat2Z.inj_succ, Z.pow_succ_r in Hn by lia. destruct (Z.leb_spec 1024 n) as [L|L].
    + destruct (IH (n / 1024) ((div * 1024) mod 2 ^ 64) (exp + 1)) as [I1 I2]; [apply Z.div_pos; lia|apply Z.div_lt_upper_bound; lia|].
      split; [lia|]. intros k Hk. destruct (Z.eq_dec k 0) as [->|Nk]; [change (1024 ^ (0 + 1)) with 1024; lia|].
      replace (exp + k) with (exp + 1 + (k - 1)) by lia. rewrite I2 by lia. replace (k - 1 + 1) with k by lia.
      rewrite Z.pow_add_r by lia. change (1024 ^ 1) with 1024. split; intros H.
      * pose proof (Z.mul_div_le n 1024). lia.
      * apply Z.div_le_lower_bound; lia.
    + cbn [snd]. split; [lia|]. intros k Hk. rewrite Z.pow_add_r by lia. change (1024 ^ 1) with 1024.
      pose proof (Z.pow_pos_nonneg 1024 k). nia.
Qed.

(** Printing a heap size is defined below 2^50 bytes and panics from
    there on, with an index past the last unit. *)
Lemma humanBytes_total b : 0 <= b < 2 ^ 64 -> humanBytes b = None <-> 2 ^ 50 <= b.
Proof.
  intros [H0 H1]. unfold humanBytes. destruct (Z.ltb_spec b 1024) as [L|L]; [split; [done|lia]|].
  destruct (unit_of_exp 7 (b / 1024) 1024 0) as [E1 E2]; [apply Z.div_pos; lia|apply Z.div_lt_upper_bound; [lia|]; cbn; lia|].
  destruct (unit_of 7 (b / 1024) 1024 0) as [div e]. cbv zeta in *. cbn [snd] in E1, E2.
  specialize (E2 3 ltac:(lia)). change (1024 ^ (3 + 1)) with (2 ^ 40) in E2.
  assert (S : 2 ^ 40 <= b / 1024 <-> 2 ^ 50 <= b).
  { split; intros H; [pose proof (Z.mul_div_le b 1024); lia|apply Z.div_le_lower_bound; lia]. }
  rewrite <- S, <- E2. destruct (Z.ltb_spec 3 e) as [G|G].
  - assert (N : String.get (Z.to_nat e) "KMGT" = None).
    { destruct (Z.to_nat e) as [|[|[|[|n]]]] eqn:En; try lia. by destruct n. }
    rewrite N. split; [lia|done].
  - assert (N : exists c, String.get (Z.to_nat e) "KMGT" = Some c).
    { destruct (Z.to_nat e) as [|[|[|[|n]]]] eqn:En; [by eexists..|lia]. }
    destruct N as [c ->]. split; [done|lia].
Qed.

Lemma humanBytes_total_witness : humanBytes (2 ^ 50) = None /\ humanBytes 1536 = Some "1.5KiB".
Proof. split; [by apply (humanBytes_total (2 ^ 50))|by vm_compute]. Defined.

Lemma seeded_jobs_placeable_witness :
  let d := (SeedJob empty_db 5 "j1" "acme/qa" 1000).2 in
  exists r, d.(jobs) !! "j1" = Some r /\ exists j, ParseJob "j1" "acme/qa" r.(Doc) = Ok j.
Proof.
  set (t := mkTargetView "synth.t000" "gate-model" "" 32 ["openqasm3"] 1000000 [] true false "" 0 [] 0 f0 [] f0).
  assert (V : synth_view 0 t) by (by split_and!).
  destruct (seeded_jobs_placeable empty_db 5 "j1" "acme/qa" _ _ 0 t 0 eq_refl V) as (_ & Hj & j & Hp & _).
  eexists. split; [exact Hj|]. by exists j.
Defined.

(** ** What the verdicts do not see *)

(** Probes that never ran, or whose client could not be made, have a
    percentile of 0 and pass. *)
Lemma storm_passes_unprobed :
  StormViolations (RunStorm (mkStormConfig 10 1 "" "" 0 0 0 0 0 0) second (newCycleRing 4) [] [] [Some 10] 0 [(0, Some 0)]) = [].
Proof. by vm_compute. Qed.

(** The guard against growth leaves out the jobs the write probes submit: 3000
    writes on 10 jobs and one target can be reported as unbounded. *)
Lemma storm_writes_not_counted :
  StormViolations (RunStorm (mkStormConfig 10 1 "" "" 0 0 0 0 3000 0) second (newCycleRing 4) [] [] [Some 3010] 0 [(0, Some 0)])
  = ["queue grew unbounded: peak pending 3010 > ceiling 2011"].
Proof. by vm_compute. Qed.

(** Jobs stuck during the run do not fail a soak, nor does a final query that
    fails. *)
Lemma soak_ignores_stuck cfg elapsed submitted g obs h g' lr r p :
  SoakViolations (RunSoak cfg elapsed submitted g obs h g' lr r None p) = SoakViolations (RunSoak cfg elapsed submitted g obs h g' lr r (Some 0) p) /\
  (forall n, SoakViolations (RunSoak cfg elapsed submitted g ((fun o => mkObs o.(since) o.(goroutines) (Some n) o.(heap) o.(rss)) <$> obs) h g' lr r (Some 0) p)
    = SoakViolations (RunSoak cfg elapsed submitted g obs h g' lr r (Some 0) p)).
Proof.
  split; [done|]. intros n. unfold RunSoak. set (w := f_to_int64 _).
  assert (B : forall l s s', s.(baseline) = s'.(baseline) ->
    (fold_left (sample_step w) ((fun o => mkObs o.(since) o.(goroutines) (Some n) o.(heap) o.(rss)) <$> l) s).(baseline) =
    (fold_left (sample_step w) l s').(baseline)).
  { induction l as [|o l IH]; intros s s' E; [done|]. cbn [fmap list_fmap fold_left]. apply IH. cbn [sample_step baseline since heap rss]. by rewrite E. }
  set (s0 := mkSampler g 0 0 None). rewrite (B obs s0 s0 eq_refl).
  by destruct (default (h, lr) (fold_left (sample_step w) obs s0).(baseline)) as [bh br].
Qed.
