(* ===== verification/Gate.v ===== *)
(** * Files of numbers: the benchmark gate and the cost export

    Reading the benchmark's summary (src/internal/benchgate/gate.go) and the
    release gate's verdict (src/cmd/rabi-bench-gate/main.go); and what a CSV
    reader sees in the cost export of src/internal/accounting/normalize.go.
    [None] stands for a Go panic.  The JSON decoder is the argument
    [unmarshal]. *)

From Stdlib Require Import DecimalString.
From S2P Require Import Prelude Float64 GoLib Csv Evidence.

(** ** LoadSummaryCSV *)

Definition atof (s : string) : float64 := default f0 (ParseFloat s).

(** [col[h] = i] for every header, the last one wins. *)
Fixpoint columns (i : nat) (header : list string) (col : gmap string nat) : gmap string nat :=
  match header with [] => col | h :: rest => columns (S i) rest (<[h := i]> col) end.

Definition atofOr (row : list string) (col : gmap string nat) (key : string) : float64 :=
  match col !! key with
  | Some i => match row !! i with Some s => atof s | None => f0 end
  | None => f0
  end.

(** [row[col[key]]]: a missing key reads column 0, a short row panics. *)
Definition cell (row : list string) (col : gmap string nat) (key : string) : option string :=
  row !! default 0%nat (col !! key).

Inductive load_error :=
  | OpenFailed
  | BadCSV (path : string) (e : csv_error)
  | NoDataRows (path : string)
  | MissingColumn (path column : string)
  | PolicyNotFound (path policy : string)
  | BadBaseline (path : string).

Definition required_columns : list string := ["policy"; "mean_fidelity"; "slo_violation_rate"; "deadline_met_rate"].

Definition row_metrics (row : list string) (col : gmap string nat) (policy : string) : option Metrics :=
  match cell row col "mean_fidelity", cell row col "slo_violation_rate", cell row col "deadline_met_rate" with
  | Some fid, Some slo, Some met =>
      Some (mkMetrics policy (atof fid) (atof slo) (atof met) (atofOr row col "mean_wait_s"))
  | _, _, _ => None
  end.

Fixpoint find_policy (rows : list (list string)) (col : gmap string nat) (path policy : string)
  : option (result load_error Metrics) :=
  match rows with
  | [] => Some (Err (PolicyNotFound path policy))
  | row :: rest =>
      match cell row col "policy" with
      | None => None
      | Some p => if String.eqb p policy then Ok <$> row_metrics row col policy else find_policy rest col path policy
      end
  end.

Definition LoadSummaryCSV (file : option string) (path policy : string) : option (result load_error Metrics) :=
  match file with
  | None => Some (Err OpenFailed)
  | Some content =>
      match ReadAll content with
      | Err e => Some (Err (BadCSV path e))
      | Ok (header :: ((_ :: _) as rows)) =>
          let col := columns 0 header ∅ in
          match List.find (fun k => negb (bool_decide (is_Some (col !! k)))) required_columns with
          | Some k => Some (Err (MissingColumn path k))
          | None => find_policy rows col path policy
          end
      | Ok _ => Some (Err (NoDataRows path))
      end
  end.

(** ** The command *)

(** [^RFC-\d+]. *)
Definition rfc_ok (rfc : string) : bool :=
  has_prefix rfc "RFC-" && match drop 4 rfc with String c _ => bool_decide (is_Some (digit c)) | EmptyString => false end.

Inductive gate_error := LoadFailed (e : load_error) | Blocked (regressions : nat).

Section Command.
Context (unmarshal : string -> option Metrics).

Definition LoadBaselineJSON (file : option string) (path : string) : result load_error Metrics :=
  match file with
  | None => Err OpenFailed
  | Some blob => match unmarshal blob with Some m => Ok m | None => Err (BadBaseline path) end
  end.

(** [RunE]: the lines printed, and the error that fails the release. *)
Definition bench_gate (baseline_file : option string) (baselinePath : string) (current_file : option string)
    (currentPath : string) (threshold : float64) (rfc : string) : option (list string * option gate_error) :=
  match LoadBaselineJSON baseline_file baselinePath with
  | Err e => Some ([], Some (LoadFailed e))
  | Ok baseline =>
      match LoadSummaryCSV current_file currentPath baseline.(MPolicy) with
      | None => None
      | Some (Err e) => Some ([], Some (LoadFailed e))
      | Some (Ok current) =>
          let regs := Check_ baseline current threshold in
          let head := "bench gate: policy " +:+ baseline.(MPolicy) +:+ ", threshold "
                        +:+ fmt_f 0 (fmul threshold (f_of_Z 100)) +:+ "%" in
          match regs with
          | [] => Some ([head; "  no headline-metric regression — OK"], None)
          | _ =>
              let out := head :: ((fun r => "  REGRESSION: " +:+ Regression_String r) <$> regs) in
              if negb (String.eqb rfc "") && rfc_ok rfc
              then Some (out ++ ["  ALLOWED by justification " +:+ rfc
                                   +:+ " — remember to move bench/baseline.json in a policy-promotion PR"], None)
              else Some (out, Some (Blocked (length regs)))
          end
      end
  end.
End Command.

(** ** Columns *)

Lemma columns_lt header i col k j n :
  (forall k j, col !! k = Some j -> (j < n)%nat) -> (i + length header <= n)%nat ->
  columns i header col !! k = Some j -> (j < n)%nat.
Proof.
  revert i col. induction header as [|h header IH]; intros i col Hc Hn; cbn [columns]; [by apply Hc|].
  cbn [length] in Hn. apply IH; [|lia]. intros k' j' [[_ <-]|[_ H]]%lookup_insert_Some; [lia|by eapply Hc].
Qed.

Lemma cell_total (header row : list string) k :
  length row = length header -> is_Some (columns 0 header ∅ !! k) -> is_Some (cell row (columns 0 header ∅) k).
Proof.
  intros Hl [j Hj]. unfold cell. rewrite Hj. cbn [default from_option id]. apply lookup_lt_is_Some_2. rewrite Hl.
  eapply (columns_lt header 0 ∅ k j); [|done|done]. intros ? ? H. by rewrite lookup_empty in H.
Qed.

Lemma required_present col :
  List.find (fun k => negb (bool_decide (is_Some (col !! k)))) required_columns = None ->
  forall k, k ∈ required_columns -> is_Some ((col : gmap string nat) !! k).
Proof.
  intros H k Hk. apply list_elem_of_In in Hk. pose proof (List.find_none _ _ H k Hk) as N. cbv beta in N. by to_prop.
Qed.

(** The row that speaks for [policy]: the first with that name. *)
Definition speaks_for (rows : list (list string)) (col : gmap string nat) (policy : string) (row : list string) : Prop :=
  exists before later, rows = before ++ row :: later /\ cell row col "policy" = Some policy /\
    Forall (fun r => cell r col "policy" <> Some policy) before.

Lemma find_policy_spec rows header path policy :
  let col := columns 0 header ∅ in
  Forall (fun r => length r = length header) rows -> (forall k, k ∈ required_columns -> is_Some (col !! k)) ->
  exists out, find_policy rows col path policy = Some out /\
    forall m, out = Ok m <-> exists row, speaks_for rows col policy row /\ row_metrics row col policy = Some m.
Proof.
  intros col Hl Hreq. induction Hl as [|row rows Hrow _ IH]; cbn [find_policy].
  - eexists. split; [done|]. intros m. split; [done|]. intros (row & (before & later & H & _) & _). by destruct before.
  - assert (C : forall k, k ∈ required_columns -> is_Some (cell row col k)) by (intros k Hk; apply cell_total; auto).
    destruct (C "policy" ltac:(left)) as [p Hp]. rewrite Hp. destruct (String.eqb_spec p policy) as [->|Hne].
    + destruct (C "mean_fidelity" ltac:(right; left)) as [a Ha]. destruct (C "slo_violation_rate" ltac:(right; right; left)) as [b Hb].
      destruct (C "deadline_met_rate" ltac:(right; right; right; left)) as [c Hc].
      assert (E : exists m, row_metrics row col policy = Some m) by (unfold row_metrics; rewrite Ha, Hb, Hc; eauto).
      destruct E as [m0 E]. rewrite E. eexists. split; [done|]. intros m. split.
      * intros [= <-]. exists row. split; [exists [], rows; by repeat split|done].
      * intros (row' & (before & later & H & Hp' & Hb') & Hm). destruct before as [|x before].
        -- injection H as -> ->. congruence.
        -- injection H as -> ->. by apply Forall_cons in Hb' as [? _].
    + destruct IH as (out & -> & Hout). exists out. split; [done|]. intros m. rewrite Hout. split.
      * intros (row' & (before & later & -> & Hp' & Hb') & Hm). exists row'. split; [|done].
        exists (row :: before), later. split_and!; [done|done|]. constructor; [congruence|done].
      * intros (row' & (before & later & H & Hp' & Hb') & Hm). exists row'. split; [|done]. destruct before as [|x before].
        -- injection H as <- ->. congruence.
        -- injection H as -> ->. apply Forall_cons in Hb' as [_ ?]. by exists before, later.
Qed.

(** A summary with the four columns and at least one row of data. *)
Definition summary (content : string) (header : list string) (rows : list (list string)) : Prop :=
  ReadAll content = Ok (header :: rows) /\ rows <> [] /\
  forall k, k ∈ required_columns -> is_Some (columns 0 header ∅ !! k).

Lemma LoadSummaryCSV_spec file path policy :
  exists out, LoadSummaryCSV file path policy = Some out /\
    forall m, out = Ok m <-> exists content header rows row, file = Some content /\ summary content header rows /\
      speaks_for rows (columns 0 header ∅) policy row /\ row_metrics row (columns 0 header ∅) policy = Some m.
Proof.
  destruct file as [content|]; [|by eexists; split; [done|]; intros m; split; [done|]; intros (? & ? & ? & ? & ? & _)].
  cbn [LoadSummaryCSV]. unfold summary. destruct (ReadAll content) as [[|header rows]|e] eqn:R.
  - eexists; split; [done|]. intros m. split; [done|]. intros (? & ? & ? & ? & [= <-] & (? & _) & _). congruence.
  - pose proof (ReadAll_lengths _ _ _ R) as L. destruct rows as [|r rows].
    { eexists; split; [done|]. intros m. split; [done|]. intros (? & ? & ? & ? & [= <-] & (? & ? & _) & _). congruence. }
    destruct (List.find _ required_columns) as [k|] eqn:F.
    + eexists; split; [done|]. intros m. split; [done|]. intros (? & ? & ? & ? & [= <-] & (E & _ & Q) & _).
      apply List.find_some in F as [Fin Fk]. assert (header = x0) as <- by congruence. apply list_elem_of_In in Fin. to_prop. by destruct Fk, (Q k Fin).
    + pose proof (required_present _ F) as Q. destruct (find_policy_spec (r :: rows) header path policy L Q) as (out & Ho & Hout).
      exists out. split; [exact Ho|]. intros m. rewrite Hout. split.
      * intros (row & H1 & H2). by exists content, header, (r :: rows), row.
      * intros (c & h & rs & row & [= <-] & (E & _ & _) & H1 & H2). assert (header = h /\ r :: rows = rs) as [<- <-] by (split; congruence).
        by exists row.
  - eexists; split; [done|]. intros m. split; [done|]. intros (? & ? & ? & ? & [= <-] & (? & _) & _). congruence.
Qed.

(** ** The verdict *)

(** What the gate compares, written out. *)
Definition no_regression (baseline current : Metrics) (threshold : float64) : Prop :=
  flt current.(MeanFidelity) (fmul baseline.(MeanFidelity) (fsub (f_of_Z 1) threshold)) = false /\
  flt current.(DeadlineMetRate) (fmul baseline.(DeadlineMetRate) (fsub (f_of_Z 1) threshold)) = false /\
  slorRose baseline.(SLOViolationRate) current.(SLOViolationRate) threshold = false.

Lemma Check_nil baseline current threshold : Check_ baseline current threshold = [] <-> no_regression baseline current threshold.
Proof.
  unfold Check_, no_regression.
  destruct (flt current.(MeanFidelity) _), (flt current.(DeadlineMetRate) _), (slorRose _ _ _); cbn [app];
    (split; [intros H; try done|intros (? & ? & ?); done]).
Qed.

(** (C23) The release gate never panics on a summary file, however malformed,
    and it lets the release pass exactly when the baseline decodes, the
    summary is a CSV file with a header, the four columns and a row for the
    baseline's policy, and either the first such row shows no regression or
    the release carries an RFC reference. *)
Theorem bench_gate_verdict unmarshal base basePath cur curPath threshold rfc :
  exists out err, bench_gate unmarshal base basePath cur curPath threshold rfc = Some (out, err) /\
    (err = None <-> exists b blob content header rows row current,
       base = Some blob /\ unmarshal blob = Some b /\ cur = Some content /\ summary content header rows /\
       speaks_for rows (columns 0 header ∅) b.(MPolicy) row /\
       row_metrics row (columns 0 header ∅) b.(MPolicy) = Some current /\
       (no_regression b current threshold \/ rfc_ok rfc = true)).
Proof.
  unfold bench_gate, LoadBaselineJSON. destruct base as [blob|]; [|eexists _, _; split; [done|]; split; [done|];
    intros (? & ? & ? & ? & ? & ? & ? & ? & _); done].
  destruct (unmarshal blob) as [b|] eqn:U; [|eexists _, _; split; [done|]; split; [done|];
    intros (? & ? & ? & ? & ? & ? & ? & [= <-] & E & _); congruence].
  destruct (LoadSummaryCSV_spec cur curPath b.(MPolicy)) as (o & -> & Ho). destruct o as [m|e].
  - destruct (proj1 (Ho m) eq_refl) as (content & header & rows & row & -> & Hs & Hr & Hm).
    assert (G : forall err, (err = @None gate_error <-> (no_regression b m threshold \/ rfc_ok rfc = true)) ->
      (err = None <-> exists b0 blob0 content0 header0 rows0 row0 current,
         Some blob = Some blob0 /\ unmarshal blob0 = Some b0 /\ Some content = Some content0 /\ summary content0 header0 rows0 /\
         speaks_for rows0 (columns 0 header0 ∅) b0.(MPolicy) row0 /\
         row_metrics row0 (columns 0 header0 ∅) b0.(MPolicy) = Some current /\
         (no_regression b0 current threshold \/ rfc_ok rfc = true))).
    { intros err ->. split; [intros H; by exists b, blob, content, header, rows, row, m|].
      intros (b0 & ? & c0 & h0 & rs0 & r0 & m0 & [= <-] & U0 & [= <-] & Hs0 & Hr0 & Hm0 & H). assert (b0 = b) as -> by congruence.
      assert (Ok m = Ok (E := load_error) m0) as [= <-]; [|done]. apply Ho. by exists content, h0, rs0, r0. }
    destruct (Check_ b m threshold) as [|r regs] eqn:C.
    + eexists _, _. split; [done|]. apply G. split; [intros _; left; by apply Check_nil|done].
    + assert (N : ~ no_regression b m threshold) by (intros H%Check_nil; congruence).
      destruct (negb (String.eqb rfc "") && rfc_ok rfc) eqn:R.
      * eexists _, _. split; [done|]. apply G. split; [intros _; right; by to_prop|done].
      * eexists _, _. split; [done|]. apply G. split; [done|]. intros [H|H]; [done|].
        rewrite H, andb_true_r in R. to_prop. by subst rfc.
  - eexists _, _. split; [done|]. split; [done|]. intros (b0 & ? & c0 & h0 & rs0 & r0 & m0 & [= <-] & U0 & -> & Hs0 & Hr0 & Hm0 & _).
    assert (b0 = b) as -> by congruence. assert (Err e = Ok m0); [|done]. apply Ho. by exists c0, h0, rs0, r0.
Qed.

(** ** What the gate does not see *)

Definition nl_ : string := String "010"%char "".

Definition demo_baseline : Metrics :=
  mkMetrics "calib-aware/v0" (f_lit 407417 1000000) f0 (f_lit 970149 1000000) (f_lit 718734 1000).

Definition demo_summary (fid slo : string) : string :=
  "policy,mean_fidelity,slo_violation_rate,deadline_met_rate,mean_wait_s" +:+ nl_
  +:+ "calib-aware/v0," +:+ fid +:+ "," +:+ slo +:+ ",0.970149,718.734" +:+ nl_.

Definition demo_gate (fid slo : string) : option (list string * option gate_error) :=
  bench_gate (fun _ => Some demo_baseline) (Some "{}") "baseline.json" (Some (demo_summary fid slo)) "summary.csv"
    (f_lit 5 100) "".

(** A mean over no placed job is written as [nan], a rate over no job as an
    empty cell.  The first passes every comparison, the second reads as 0. *)
Lemma gate_blind :
  demo_gate "0.10" "0.000000" =
    Some (["bench gate: policy calib-aware/v0, threshold 5%";
           "  REGRESSION: mean_fidelity regressed: 0.4074 -> 0.1000 (dropped more than 5%)"], Some (Blocked 1)) /\
  demo_gate "nan" "0.000000" =
    Some (["bench gate: policy calib-aware/v0, threshold 5%"; "  no headline-metric regression — OK"], None) /\
  demo_gate "0.407417" "" =
    Some (["bench gate: policy calib-aware/v0, threshold 5%"; "  no headline-metric regression — OK"], None).
Proof. by vm_compute. Qed.

(** ** The cost export, read back *)

Definition export_header : list string :=
  ["ledger_id"; "job_id"; "tenant"; "target"; "unit"; "amount"; "rate"; "cost"; "currency"; "policy_version"].

Definition record_fields (format_float : float64 -> string) (r : CostRecord) : list string :=
  [itoa r.(CLedgerID); r.(CJobID); r.(CTenant); r.(CTarget); r.(CUnit); format_float r.(CAmount);
   format_float r.(CRate); format_float r.(CCost); r.(CCurrency); r.(CVersion)].

Lemma fold_csv_lines format_float records out :
  fold_left (fun out r => out +:+ csv_line format_float r) records out =
  out +:+ csv_text (record_fields format_float <$> records).
Proof.
  revert out. induction records as [|r records IH]; intros out; cbn [fold_left fmap list_fmap csv_text foldr]; [by rewrite append_nil_r|].
  rewrite IH, append_assoc. f_equal. unfold csv_line. rewrite append_assoc. done.
Qed.

Lemma WriteCSV_text format_float records :
  WriteCSV format_float records = csv_text (export_header :: (record_fields format_float <$> records)).
Proof. unfold WriteCSV. rewrite fold_csv_lines. cbn [csv_text foldr]. rewrite append_assoc. done. Qed.

(** Digits and the sign are plain. *)
Lemma plain_uint u : plain (NilEmpty.string_of_uint u) = true.
Proof. induction u; cbn [NilEmpty.string_of_uint plain]; auto. Qed.

Lemma plain_itoa z : plain (itoa z) = true.
Proof.
  unfold itoa, nat_digits. destruct (z <? 0).
  - rewrite append_cons. cbn [plain]. apply plain_uint.
  - destruct (z =? 0); [done|apply plain_uint].
Qed.

(** A record whose texts hold no comma, quote or line break. *)
Definition record_plain (r : CostRecord) : Prop :=
  Forall (fun s => plain s = true) [r.(CJobID); r.(CTenant); r.(CTarget); r.(CUnit); r.(CCurrency); r.(CVersion)].

(** (C24) The cost export reads back: when the texts of the records hold no
    comma, quote or line break, a CSV reader recovers from the file exactly
    the header and the ten fields of every record, in order. *)
Theorem WriteCSV_roundtrip format_float records :
  (forall x, plain (format_float x) = true) -> Forall record_plain records ->
  ReadAll (WriteCSV format_float records) = Ok (export_header :: (record_fields format_float <$> records)).
Proof.
  intros Hf Hr. rewrite WriteCSV_text. apply (ReadAll_text 10). constructor; [split_and!; [done..|by repeat constructor]|].
  apply Forall_fmap. eapply Forall_impl; [exact Hr|]. intros r H. unfold record_plain in H.
  rewrite !Forall_cons in H. destruct H as (H1 & H2 & H3 & H4 & H5 & H6 & _). split_and!; [done..|].
  unfold record_fields. rewrite !Forall_cons. split_and!; auto using plain_itoa.
Qed.

Definition demo_cost (unit_ : string) : CostRecord :=
  mkCost 7 "job-1" "acme/qa" "site.q" unit_ (f_of_Z 8) (f_lit 1 2) (f_of_Z 4) "EUR" "v1".

Lemma WriteCSV_roundtrip_witness :
  Forall record_plain [demo_cost "shots"] /\
  ReadAll (WriteCSV (fun _ => "4") [demo_cost "shots"]) =
  Ok (export_header :: (record_fields (fun _ => "4") <$> [demo_cost "shots"])).
Proof.
  assert (H : Forall record_plain [demo_cost "shots"]) by (repeat constructor).
  split; [exact H|]. exact (WriteCSV_roundtrip (fun _ => "4") [demo_cost "shots"] (fun _ => eq_refl) H).
Defined.

(** The export does not quote: a unit name, which comes from the adapter's
    usage map, can end the row and forge another. *)
Lemma unit_forges_row :
  ReadAll (WriteCSV (fun _ => "4") [demo_cost ("shots,4,4,4,EUR,v1" +:+ nl_ +:+ "8,job-2,other/lab,site.q,shots")]) =
  Ok [export_header; record_fields (fun _ => "4") (demo_cost "shots");
      ["8"; "job-2"; "other/lab"; "site.q"; "shots"; "4"; "4"; "4"; "EUR"; "v1"]].
Proof. by vm_compute. Qed.
