(* ===== verification/Bench.v ===== *)
(** * The benchmark runner — src/bench/runner/main.go

    A discrete-event simulation that runs the same workload under each
    scheduling policy.  Times are float64 seconds.  [math_exp] is math.Exp;
    the three draws of math/rand are arguments of the workload generator.
    [None] stands for a Go panic (an index out of range); the event loop runs
    on fuel, which [simulate_total] shows to exist. *)

From S2P Require Import Prelude Float64 GoLib FloatRound Qasm Views Filter Policies Scheduler.

(** ** The series file *)

Record seriesMetric := mkSeriesMetric { SmName : string; SmValue : float64; SmQubits : list Z }.
Record seriesSnap := mkSeriesSnap { SsSnapshotID : string; SimOffsetS : float64; SsMetrics : list seriesMetric }.
Record seriesTarget := mkSeriesTarget {
  StName : string; StQubits : Z; StFormats : list string; StBilling : list string; StMaxShots : Z;
  StTechnology : string; TwoQubit : string; Nominal2Q : float64; StepSeconds : float64; Snapshots : list seriesSnap }.

(** [sort.Search]: the loop over [i < j]. *)
Fixpoint search (fuel : nat) (f : nat -> bool) (i j : nat) : nat :=
  match fuel with
  | O => i
  | S fuel =>
      if Nat.ltb i j then
        let h := ((i + j) / 2)%nat in
        if f h then search fuel f i h else search fuel f (S h) j
      else i
  end.

Definition Search (n : nat) (f : nat -> bool) : nat := search n f 0 n.

Definition offset_after (l : list seriesSnap) (t : float64) (i : nat) : bool :=
  match l !! i with Some s => fgt s.(SimOffsetS) t | None => false end.

(** The index may be -1 before it is clamped to 0. *)
Definition snapAt (st : seriesTarget) (t : float64) : option seriesSnap :=
  let idx := Search (length st.(Snapshots)) (offset_after st.(Snapshots) t) in
  st.(Snapshots) !! (idx - 1)%nat.

Definition simBase : Z := date_utc 2026 7 1 0 0 0 0.

(** [simBase.Add(time.Duration(x) * time.Second)]: whole seconds. *)
Definition sim_seconds (x : float64) : Z := simBase + wrap64 (f_to_int64 x * second).

Definition viewAt (st : seriesTarget) (t waitS : float64) (depth : Z) : option TargetView :=
  match snapAt st t with
  | None => None
  | Some snap =>
      Some (mkTargetView st.(StName) "gate-model" st.(StTechnology) st.(StQubits) st.(StFormats) st.(StMaxShots)
              st.(StBilling) true false snap.(SsSnapshotID) (sim_seconds snap.(SimOffsetS))
              ((fun m => mkMetric m.(SmName) m.(SmValue) m.(SmQubits)) <$> snap.(SsMetrics))
              depth waitS [] st.(Nominal2Q))
  end.

(** ** Workload *)

Record circuitInfo := mkCircuit { CName : string; Width : Z; CProfile : CircuitProfile; Source : string }.
Record benchJob := mkBenchJob {
  ID : string; Circuit : circuitInfo; BShots : Z; ArrivalS : float64; DeadlineS : float64; Floor2Q : float64;
  FloorRO : float64 }.

Definition interArrivalBurstS : float64 := f_of_Z 20.
Definition interArrivalCalmS : float64 := f_of_Z 400.
Definition burstProb : float64 := f_lit 35 100.
Definition execBaseS : float64 := f_of_Z 20.
Definition execPerShotS : float64 := f_lit 1 150.
Definition deadlineProb : float64 := f_lit 30 100.
Definition floorProb : float64 := f_lit 40 100.
Definition pendingRetryS : float64 := f_of_Z 60.
Definition drainS : float64 := f_of_Z (12 * 3600).
Definition shotChoices : list Z := [500; 1000; 2000; 4000].

(** [loadCircuits] on the base names and contents of the directory's files;
    [inr] is the file that does not profile, or the empty directory. *)
Fixpoint profile_all (files : list (string * string)) : result (string * profile_error) (list circuitInfo) :=
  match files with
  | [] => Ok []
  | (f, raw) :: rest =>
      match ProfileQASM raw with
      | Err e => Err (f, e)
      | Ok prof =>
          let? l := profile_all rest in
          Ok (mkCircuit (trim_suffix f ".qasm") prof.(PQubits) prof raw :: l)
      end
  end.

Definition by_file (a b : string * string) : bool := str_lt a.1 b.1.

Definition loadCircuits (files : list (string * string)) : result (option (string * profile_error)) (list circuitInfo) :=
  match profile_all (sort_by by_file files) with
  | Err e => Err (Some e)
  | Ok [] => Err None
  | Ok l => Ok l
  end.

Section Workload.
Context {G : Type} (Float64 ExpFloat64 : G -> float64 * G) (Intn : Z -> G -> Z * G).

Definition floor2Q_draw (r : G) : float64 * G :=
  let '(x, r) := Float64 r in (fadd (f_lit 35 10000) (fmul x (f_lit 4 1000)), r).

(** The two floors of a job that has some. *)
Definition draw_floors (r : G) : float64 * float64 * G :=
  let '(x, r) := Float64 r in
  let '(f2q, r) := if flt x (f_lit 7 10) then floor2Q_draw r else (f0, r) in
  let '(x, r) := Float64 r in
  let '(fro, r) := if flt x (f_lit 5 10) then
                     let '(y, r) := Float64 r in (fadd (f_lit 7 1000) (fmul y (f_lit 13 1000)), r)
                   else (f0, r) in
  if feq f2q f0 && feq fro f0 then let '(f2q, r) := floor2Q_draw r in (f2q, fro, r) else (f2q, fro, r).

Definition job_id (i : nat) : string := "bj-" +:+ pad 4 (itoa (Z.of_nat i)).

(** One job, drawn at time [now]; the next time and generator. *)
Definition draw_job (circuits : list circuitInfo) (i : nat) (now : float64) (r : G)
  : option (benchJob * float64 * G) :=
  let '(x, r) := Float64 r in
  let '(y, r) := ExpFloat64 r in
  let now := fadd now (fmul y (if flt x burstProb then interArrivalBurstS else interArrivalCalmS)) in
  let '(c, r) := Intn (Z.of_nat (length circuits)) r in
  let '(s, r) := Intn (Z.of_nat (length shotChoices)) r in
  match circuits !! Z.to_nat c, shotChoices !! Z.to_nat s with
  | Some circuit, Some shots =>
      let '(x, r) := Float64 r in
      let '(deadline, r) := if flt x deadlineProb then
                              let '(y, r) := Float64 r in (fadd (fadd now (f_of_Z 300)) (fmul y (f_of_Z 1800)), r)
                            else (f0, r) in
      let '(x, r) := Float64 r in
      let '(f2q, fro, r) := if flt x floorProb then draw_floors r else (f0, f0, r) in
      Some (mkBenchJob (job_id i) circuit shots now deadline f2q fro, now, r)
  | _, _ => None
  end.

Fixpoint draw_jobs (circuits : list circuitInfo) (n i : nat) (now : float64) (r : G) : option (list benchJob) :=
  match n with
  | O => Some []
  | S n =>
      match draw_job circuits i now r with
      | None => None
      | Some (j, now, r) => cons j <$> draw_jobs circuits n (S i) now r
      end
  end.

Definition generateWorkload (r : G) (circuits : list circuitInfo) (n : nat) : option (list benchJob) :=
  draw_jobs circuits n 0 f0 r.
End Workload.

Definition view (j : benchJob) : JobView :=
  mkJobView j.(ID) "bench" "gate-model" "openqasm3" j.(BShots) (j.(Circuit).(Width) mod 2 ^ 32) []
    j.(Floor2Q) j.(FloorRO) 0 "" "" (if fgt j.(DeadlineS) f0 then sim_seconds j.(DeadlineS) else time_zero)
    [] "" 0 false [] [] [] (Some j.(Circuit).(CProfile)).

(** ** Executions *)

Record execution := mkExecution {
  JobID : string; XCircuit : string; XWidth : Z; XShots : Z; XArrivalS : float64; StartS : float64; EndS : float64;
  WaitS : float64; Target : string; XSnapshotID : string; XESP : float64; XFloor2Q : float64; XFloorRO : float64;
  SLOViolate : bool; XDeadlineS : float64; DeadlineOK : bool; Unplaced : bool; PhysSeed : Z }.

Definition execDuration (shots : Z) : float64 := fadd execBaseS (fmul (f_of_Z shots) execPerShotS).

(** The loop of minMetric and minMetricExact over the metrics [sel] keeps. *)
Definition min_step (sel : string -> bool) (best : option float64) (m : seriesMetric) : option float64 :=
  if sel m.(SmName) then
    match best with
    | Some b => if flt m.(SmValue) b then Some m.(SmValue) else best
    | None => Some m.(SmValue)
    end
  else best.

Definition minMetric (s : seriesSnap) (prefix : string) : option float64 :=
  fold_left (min_step (fun n => has_prefix n prefix && has_suffix n ".error")) s.(SsMetrics) None.

Definition minMetricExact (s : seriesSnap) (name : string) : option float64 :=
  fold_left (min_step (fun n => String.eqb n name)) s.(SsMetrics) None.

(** [range] over a string: its runes; a byte that starts no well-formed
    sequence is U+FFFD. *)
Definition between (lo hi : Z) (c : ascii) : bool := (lo <=? code c) && (code c <=? hi).
Definition tail6 (c : ascii) : Z := Z.land (code c) 63.
Definition second_lo (c : ascii) : Z := if code c =? 224 then 160 else if code c =? 240 then 144 else 128.
Definition second_hi (c : ascii) : Z := if code c =? 237 then 159 else if code c =? 244 then 143 else 191.

Fixpoint runes (s : string) : list Z :=
  match s with
  | EmptyString => []
  | String a s1 =>
      if code a <? 128 then code a :: runes s1
      else match s1 with
      | String b s2 =>
          if negb (between 194 244 a && between (second_lo a) (second_hi a) b) then 65533 :: runes s1
          else if code a <? 224 then (Z.land (code a) 31 * 64 + tail6 b) :: runes s2
          else match s2 with
          | String c s3 =>
              if negb (between 128 191 c) then 65533 :: runes s1
              else if code a <? 240 then (Z.land (code a) 15 * 4096 + tail6 b * 64 + tail6 c) :: runes s3
              else match s3 with
              | String d s4 =>
                  if between 128 191 d
                  then (Z.land (code a) 7 * 262144 + tail6 b * 4096 + tail6 c * 64 + tail6 d) :: runes s4
                  else 65533 :: runes s1
              | EmptyString => 65533 :: runes s1
              end
          | EmptyString => 65533 :: runes s1
          end
      | EmptyString => [65533]
      end
  end.

Definition seed_step (h c : Z) : Z := wrap64 (Z.lxor h c * 1099511628211).

Definition physSeed (key : string) : Z :=
  Z.land (fold_left seed_step (runes key) 1469598103934665603) (2 ^ 31 - 1).

Definition violates (o : option float64) (floor : float64) : bool :=
  match o with Some v => fgt v floor | None => true end.

(** [pol] is the policy's own state. *)
Record simState := mkSim {
  pol : Z; freeAt : gmap string float64; depth : gmap string Z; results : gmap string execution }.

(** How a run of the loop ends. *)
Inductive run (A : Type) := OutOfFuel | Panic | Finished (x : A).
Arguments OutOfFuel {A}.
Arguments Panic {A}.
Arguments Finished {A} x.

Section Simulation.
Context (policy : SchedulingPolicy) (targets : list seriesTarget).

Definition byName : gmap string seriesTarget := fold_left (fun m t => <[t.(StName) := t]> m) targets ∅.

Definition free_of (s : simState) (name : string) : float64 := default f0 (s.(freeAt) !! name).
Definition depth_of (s : simState) (name : string) : Z := default 0 (s.(depth) !! name).

Definition sim_view (s : simState) (now : float64) (t : seriesTarget) : option TargetView :=
  viewAt t now (math_max f0 (fsub (free_of s t.(StName)) now)) (depth_of s t.(StName)).

Definition fleet_at (s : simState) (now : float64) : option (list TargetView) := mapM (sim_view s now) targets.

Definition sim_now (now : float64) : Z := simBase + f_to_int64 (fmul now (f_of_Z second)).

(** What a placement on [target] adds. *)
Definition place (s : simState) (j : benchJob) (now : float64) (d : Decision) (target : seriesTarget) : option simState :=
  let name := target.(StName) in
  let start := math_max now (free_of s name) in
  let fin := fadd start (execDuration j.(BShots)) in
  match snapAt target start with
  | None => None
  | Some snap =>
      let violated := (fgt j.(Floor2Q) f0 && violates (minMetric snap "gate.2q.") j.(Floor2Q))
                      || (fgt j.(FloorRO) f0 && violates (minMetricExact snap "readout.error") j.(FloorRO)) in
      let e := mkExecution j.(ID) j.(Circuit).(CName) j.(Circuit).(Width) j.(BShots) j.(ArrivalS) start fin
                 (fsub start j.(ArrivalS)) name snap.(SsSnapshotID) d.(DPredictedESP) j.(Floor2Q) j.(FloorRO) violated
                 j.(DeadlineS) (feq j.(DeadlineS) f0 || fle fin j.(DeadlineS)) false
                 (physSeed (j.(Circuit).(CName) +:+ "|" +:+ name +:+ "|" +:+ snap.(SsSnapshotID))) in
      Some (mkSim s.(pol) (<[name := fin]> s.(freeAt)) (<[name := (depth_of s name + 1) mod 2 ^ 32]> s.(depth))
              (<[j.(ID) := e]> s.(results)))
  end.

Definition tryPlace (s : simState) (j : benchJob) (now : float64) : option (bool * simState) :=
  match fleet_at s now with
  | None => None
  | Some fleet =>
      let '(d, pol') := Schedule policy s.(pol) (view j) fleet (sim_now now) in
      let s := mkSim pol' s.(freeAt) s.(depth) s.(results) in
      if String.eqb d.(DTarget) "" then Some (false, s)
      else match byName !! d.(DTarget) with
           | None => None
           | Some target => pair true <$> place s j now d target
           end
  end.

(** ** The event loop *)

Record pendingJob := mkPending { pjob : benchJob; nextTry : float64 }.
Record loopState := mkLoop { arrivalIdx : nat; pending : list pendingJob; sim : simState }.

Definition next_event (arrival : option benchJob) (ps : list pendingJob) : float64 :=
  fold_left (fun t p => if flt p.(nextTry) t then p.(nextTry) else t) ps
    (match arrival with Some j => j.(ArrivalS) | None => S754_infinity false end).

(** The pass over the pending jobs, in order; the ones kept. *)
Fixpoint place_due (now : float64) (ps : list pendingJob) (s : simState) : option (list pendingJob * simState) :=
  match ps with
  | [] => Some ([], s)
  | p :: ps =>
      if fgt p.(nextTry) now then
        match place_due now ps s with Some (still, s) => Some (p :: still, s) | None => None end
      else
        match tryPlace s p.(pjob) now with
        | None => None
        | Some (placed, s) =>
            match place_due now ps s with
            | None => None
            | Some (still, s) =>
                Some (if placed then still else mkPending p.(pjob) (fadd now pendingRetryS) :: still, s)
            end
        end
  end.

Definition is_inf (x : float64) : bool := match x with S754_infinity false => true | _ => false end.

Definition arrived (jobs : list benchJob) (now : float64) (l : loopState) : loopState :=
  match jobs !! l.(arrivalIdx) with
  | Some j => if fle j.(ArrivalS) now
              then mkLoop (S l.(arrivalIdx)) (l.(pending) ++ [mkPending j now]) l.(sim)
              else l
  | None => l
  end.

Fixpoint events (fuel : nat) (jobs : list benchJob) (horizonS : float64) (l : loopState) : run simState :=
  match fuel with
  | O => OutOfFuel
  | S fuel =>
      let now := next_event (jobs !! l.(arrivalIdx)) l.(pending) in
      if is_inf now || fgt now horizonS then Finished l.(sim)
      else
        let l := arrived jobs now l in
        match place_due now l.(pending) l.(sim) with
        | None => Panic
        | Some (still, s) => events fuel jobs horizonS (mkLoop l.(arrivalIdx) still s)
        end
  end.

Definition unplaced (horizonS : float64) (j : benchJob) : execution :=
  mkExecution j.(ID) j.(Circuit).(CName) j.(Circuit).(Width) j.(BShots) j.(ArrivalS) f0 f0 (fsub horizonS j.(ArrivalS))
    "" "" f0 j.(Floor2Q) j.(FloorRO) false j.(DeadlineS) false true 0.

(** Jobs never placed within the horizon. *)
Definition add_unplaced (horizonS : float64) (res : gmap string execution) (j : benchJob) : gmap string execution :=
  match res !! j.(ID) with Some _ => res | None => <[j.(ID) := unplaced horizonS j]> res end.

Definition sim_init (st : Z) : simState :=
  mkSim st (fold_left (fun m t => <[t.(StName) := f0]> m) targets ∅) ∅ ∅.

(** [out] is read back from the map: [None] would be a nil pointer. *)
Definition run_jobs (fuel : nat) (st : Z) (jobs : list benchJob) : run (list (option execution)) :=
  match last jobs with
  | None => Panic
  | Some j =>
      let horizonS := fadd j.(ArrivalS) drainS in
      match events fuel jobs horizonS (mkLoop 0 [] (sim_init st)) with
      | OutOfFuel => OutOfFuel
      | Panic => Panic
      | Finished s =>
          let res := fold_left (add_unplaced horizonS) jobs s.(results) in
          Finished ((fun j => res !! j.(ID)) <$> jobs)
      end
  end.
End Simulation.

Definition simulate (math_exp : float64 -> float64) (fuel : nat) (policyName : string) (jobs : list benchJob)
    (targets : list seriesTarget) : result policy_error (run (list (option execution))) :=
  let? new := NewPolicy math_exp policyName in
  Ok (run_jobs new.1 targets fuel new.2 jobs).
