(* ===== verification/BenchProps.v ===== *)
(** * The simulation ends, and its executions are right

    The event loop of the benchmark runner terminates because every round
    either takes an arrival or moves the retry time of a job forward, by an
    amount the float64 addition does not lose.  The executions it reports are
    those of feasible placements, one job at a time on each target. *)

From S2P Require Import Prelude Float64 GoLib FloatRound Qasm Views Filter Policies Scheduler Bench.

(** ** The workload and the fleet the theorems speak of *)

(** Every target has calibration data. *)
Definition calibrated (targets : list seriesTarget) : Prop := Forall (fun t => t.(Snapshots) <> []) targets.

(** Times are numbers, and stay below 2^53 seconds until the run ends. *)
Record workload_ok (jobs : list benchJob) : Prop := mkWorkload {
  wl_times : Forall (fun j => nonneg_float j.(ArrivalS) = true /\ finite_float j.(ArrivalS) = true) jobs;
  wl_shots : Forall (fun j => j.(BShots) ∈ shotChoices) jobs;
  wl_horizon : forall j, last jobs = Some j -> flt (fadd j.(ArrivalS) drainS) (f_of_Z (2 ^ 53)) = true }.

(** ** What an execution promises

    [e] is the placement of [j] on a target that the filter [f] accepted, at a
    moment [now] between the arrival and the start: it starts no earlier than
    [now], with the calibration in effect at its start. *)
Record placement_of (f : JobView -> TargetView -> Z -> string) (targets : list seriesTarget) (horizonS : float64)
    (j : benchJob) (e : execution) : Prop := mkPlacement {
  pl_job : (e.(JobID), e.(XShots), e.(XArrivalS), e.(XDeadlineS)) = (j.(ID), j.(BShots), j.(ArrivalS), j.(DeadlineS));
  pl_unplaced : e.(Unplaced) = false;
  pl_start : nonneg_float e.(StartS) = true /\ e.(WaitS) = fsub e.(StartS) j.(ArrivalS);
  pl_end : e.(EndS) = fadd e.(StartS) (execDuration j.(BShots)) /\ flt e.(EndS) e.(StartS) = false;
  pl_deadline : e.(DeadlineOK) = feq j.(DeadlineS) f0 || fle e.(EndS) j.(DeadlineS);
  pl_decision : exists now t wait depth v snap, t ∈ targets /\ t.(StName) = e.(Target) /\
    flt now j.(ArrivalS) = false /\ fgt now horizonS = false /\ flt e.(StartS) now = false /\
    viewAt t now wait depth = Some v /\ f (view j) v (sim_now now) = "" /\
    snapAt t e.(StartS) = Some snap /\ e.(XSnapshotID) = snap.(SsSnapshotID) /\
    e.(SLOViolate) = (fgt j.(Floor2Q) f0 && violates (minMetric snap "gate.2q.") j.(Floor2Q))
                     || (fgt j.(FloorRO) f0 && violates (minMetricExact snap "readout.error") j.(FloorRO)) }.

(** The machine is not shared: one of the two ends before the other starts. *)
Definition disjoint_in_time (e1 e2 : execution) : Prop :=
  flt e2.(StartS) e1.(EndS) = false \/ flt e1.(StartS) e2.(EndS) = false.

(** ** Nothing panics *)

Lemma search_range fuel f i j : (i <= j)%nat -> (i <= search fuel f i j <= j)%nat.
Proof.
  revert i j. induction fuel as [|fuel IH]; intros i j H; cbn [search]; [lia|].
  destruct (Nat.ltb_spec i j) as [L|L]; [|lia].
  assert (M : (i <= (i + j) / 2 < j)%nat).
  { split; [apply Nat.div_le_lower_bound; lia|apply Nat.Div0.div_lt_upper_bound; lia]. }
  destruct (f ((i + j) / 2)%nat).
  - pose proof (IH i ((i + j) / 2)%nat ltac:(lia)). lia.
  - pose proof (IH (S ((i + j) / 2))%nat j ltac:(lia)). lia.
Qed.

(** [sort.Search] on a monotone test: the first index where it holds. *)
Lemma search_first fuel f i j :
  (j - i <= fuel)%nat -> (i <= j)%nat -> (forall a b, (a <= b)%nat -> f a = true -> f b = true) ->
  (forall a, (a < i)%nat -> f a = false) -> (forall a, (j <= a)%nat -> f a = true) ->
  let r := search fuel f i j in (forall a, (a < r)%nat -> f a = false) /\ (forall a, (r <= a)%nat -> f a = true).
Proof.
  revert i j. induction fuel as [|fuel IH]; intros i j Hf Hij Hm Hlo Hhi; cbn [search].
  - assert (i = j) as -> by lia. done.
  - destruct (Nat.ltb_spec i j) as [L|L]; [|assert (i = j) as -> by lia; done].
    assert (M : (i <= (i + j) / 2 < j)%nat).
    { split; [apply Nat.div_le_lower_bound; lia|apply Nat.Div0.div_lt_upper_bound; lia]. }
    destruct (f ((i + j) / 2)%nat) eqn:E.
    + apply IH; try done; [lia|lia|]. intros a Ha. by apply (Hm ((i + j) / 2)%nat).
    + apply IH; try done; [lia|lia|]. intros a Ha. destruct (f a) eqn:Ea; [|done].
      rewrite <- E. symmetry. apply (Hm a); [lia|done].
Qed.

(** The snapshot in effect: the last one not after [t], or the first of all. *)
Lemma snapAt_spec st t s :
  (forall a b x y, (a <= b)%nat -> st.(Snapshots) !! a = Some x -> st.(Snapshots) !! b = Some y ->
     fgt x.(SimOffsetS) t = true -> fgt y.(SimOffsetS) t = true) ->
  snapAt st t = Some s ->
  exists k, st.(Snapshots) !! k = Some s /\
    (forall a x, (k < a)%nat -> st.(Snapshots) !! a = Some x -> fgt x.(SimOffsetS) t = true) /\
    (fgt s.(SimOffsetS) t = false \/ (k = 0%nat /\ fgt s.(SimOffsetS) t = true)).
Proof.
  intros Hm. unfold snapAt, Search. set (n := length st.(Snapshots)).
  set (f := fun i => if Nat.ltb i n then offset_after st.(Snapshots) t i else true).
  assert (Eq : forall fuel i j, (j <= n)%nat -> search fuel (offset_after st.(Snapshots) t) i j = search fuel f i j).
  { induction fuel as [|fuel IH]; intros i j Hj; cbn [search]; [done|]. destruct (Nat.ltb_spec i j) as [L|]; [|done].
    assert (M : ((i + j) / 2 < j)%nat) by (apply Nat.Div0.div_lt_upper_bound; lia).
    replace (f ((i + j) / 2)%nat) with (offset_after st.(Snapshots) t ((i + j) / 2)%nat)
      by (unfold f; destruct (Nat.ltb_spec ((i + j) / 2) n); [done|lia]).
    destruct (offset_after _ _ _); apply IH; lia. }
  rewrite Eq by lia. destruct (search_first n f 0 n) as [Lo Hi]; [lia|lia| |lia| |].
  - intros a b Hab. unfold f. destruct (Nat.ltb_spec b n) as [Lb|]; [|done]. destruct (Nat.ltb_spec a n); [|lia].
    unfold offset_after. destruct (lookup_lt_is_Some_2 st.(Snapshots) a) as [x Hx]; [lia|].
    destruct (lookup_lt_is_Some_2 st.(Snapshots) b) as [y Hy]; [lia|]. rewrite Hx, Hy. by apply (Hm a b x y).
  - intros a Ha. unfold f. by destruct (Nat.ltb_spec a n); [lia|].
  - set (r := search n f 0 n) in *. intros Hs. exists (r - 1)%nat. split; [done|]. split.
    + intros a x Ha Hx. specialize (Hi a ltac:(lia)). unfold f in Hi. apply lookup_lt_Some in Hx as La.
      destruct (Nat.ltb_spec a n); [|unfold n in *; lia]. unfold offset_after in Hi. by rewrite Hx in Hi.
    + assert (V : forall a b, f a = b -> st.(Snapshots) !! a = Some s -> fgt s.(SimOffsetS) t = b).
      { intros a b Hf Ha. unfold f in Hf. apply lookup_lt_Some in Ha as La. destruct (Nat.ltb_spec a n); [|unfold n in *; lia].
        unfold offset_after in Hf. by rewrite Ha in Hf. }
      destruct r as [|r]; [right; split; [done|]; apply (V 0%nat); [by apply Hi|done]|left].
      apply (V r); [apply Lo; lia|]. by replace (S r - 1)%nat with r in Hs by lia.
Qed.

Lemma snapAt_total st t : st.(Snapshots) <> [] -> exists s, snapAt st t = Some s.
Proof.
  intros H. unfold snapAt, Search. apply lookup_lt_is_Some_2.
  pose proof (search_range (length st.(Snapshots)) (offset_after st.(Snapshots) t) 0 (length st.(Snapshots)) ltac:(lia)).
  destruct st.(Snapshots); [done|]. cbn [length] in *. lia.
Qed.

Lemma viewAt_total st t w d : st.(Snapshots) <> [] -> exists v, viewAt st t w d = Some v.
Proof. intros H. unfold viewAt. destruct (snapAt_total st t H) as [s ->]. eauto. Qed.

Lemma viewAt_name st t w d v : viewAt st t w d = Some v -> v.(TName) = st.(StName).
Proof. unfold viewAt. destruct (snapAt st t); [|done]. by intros [= <-]. Qed.

Lemma byName_fold ts (m : gmap string seriesTarget) n t :
  fold_left (fun m t => <[t.(StName) := t]> m) ts m !! n = Some t -> (t ∈ ts /\ t.(StName) = n) \/ m !! n = Some t.
Proof.
  revert m. induction ts as [|x ts IH]; intros m; cbn [fold_left]; [auto|]. intros [[H E]|H]%IH.
  - left. split; [by right|done].
  - apply lookup_insert_Some in H as [[<- <-]|[_ H]]; [left; split; [left|done]|by right].
Qed.

Lemma byName_some ts n t : byName ts !! n = Some t -> t ∈ ts /\ t.(StName) = n.
Proof. intros [H|H]%byName_fold; [done|]. by rewrite lookup_empty in H. Qed.

Lemma byName_grow ts (m : gmap string seriesTarget) n : is_Some (m !! n) -> is_Some (fold_left (fun m t => <[t.(StName) := t]> m) ts m !! n).
Proof.
  revert m. induction ts as [|x ts IH]; intros m H; cbn [fold_left]; [done|]. apply IH.
  destruct (decide (x.(StName) = n)) as [<-|N]; [rewrite lookup_insert_eq; eauto|by rewrite lookup_insert_ne].
Qed.

Lemma byName_total ts t : t ∈ ts -> exists u, byName ts !! t.(StName) = Some u.
Proof.
  unfold byName. generalize (∅ : gmap string seriesTarget). induction ts as [|x ts IH]; intros m H; [by apply elem_of_nil in H|].
  cbn [fold_left]. apply elem_of_cons in H as [<-|H]; [|by apply IH].
  apply byName_grow. rewrite lookup_insert_eq. eauto.
Qed.

(** ** Placing *)

Section Run.
Context (policy : SchedulingPolicy) `{!PolicyLaws policy} (targets : list seriesTarget) (Hcal : calibrated targets).

Lemma fleet_at_total s now : exists fleet, fleet_at targets s now = Some fleet.
Proof.
  unfold fleet_at. assert (Hc : calibrated targets) by done. clear Hcal. unfold calibrated in Hc.
  induction Hc as [|t ts Ht _ IH]; [by exists []|].
  destruct IH as [l Hl]. cbn [mapM]. rewrite Hl.
  destruct (viewAt_total t now (math_max f0 (fsub (free_of s (StName t)) now)) (depth_of s (StName t)) Ht) as [v Hv].
  fold (sim_view s now t) in Hv. rewrite Hv. by exists (v :: l).
Qed.

Lemma fleet_at_elem s now fleet v :
  fleet_at targets s now = Some fleet -> v ∈ fleet -> exists t, t ∈ targets /\ sim_view s now t = Some v.
Proof.
  unfold fleet_at. intros H Hv. apply mapM_Some in H. apply list_elem_of_lookup in Hv as [i Hi].
  destruct (Forall2_lookup_r _ _ _ _ _ H Hi) as (t & Ht & Hs). exists t. split; [by eapply list_elem_of_lookup_2|done].
Qed.

(** The view a decision was made on, and the target it names. *)
Lemma decided s j now fleet d pol' :
  fleet_at targets s now = Some fleet ->
  Schedule policy s.(pol) (view j) fleet (sim_now now) = (d, pol') -> d.(DTarget) <> "" ->
  exists t v u, t ∈ targets /\ sim_view s now t = Some v /\ policy.(PolFilter) (view j) v (sim_now now) = "" /\
    t.(StName) = d.(DTarget) /\ byName targets !! d.(DTarget) = Some u.
Proof.
  intros Hf Hd Hne. destruct (Schedule_target policy _ _ _ _ _ _ Hd) as [[_ ?]|(v & Hv & Hok & En & _)]; [done|].
  destruct (fleet_at_elem s now fleet v Hf Hv) as (t & Ht & Hs). pose proof (viewAt_name _ _ _ _ _ Hs) as Ev.
  destruct (byName_total targets t Ht) as [u Hu]. exists t, v, u. rewrite En, Ev. done.
Qed.

Lemma tryPlace_total s j now : exists b s', tryPlace policy targets s j now = Some (b, s').
Proof.
  unfold tryPlace. destruct (fleet_at_total s now) as [fleet Hf]. rewrite Hf.
  destruct (Schedule policy s.(pol) (view j) fleet (sim_now now)) as [d pol'] eqn:Hd.
  destruct (String.eqb_spec d.(DTarget) "") as [|Hne]; [eauto|].
  destruct (decided s j now fleet d pol' Hf Hd Hne) as (t & v & u & _ & _ & _ & _ & Hu). rewrite Hu.
  apply byName_some in Hu as [Hu _]. unfold calibrated in Hcal. rewrite Forall_forall in Hcal.
  unfold place. destruct (snapAt_total u (math_max now (free_of (mkSim pol' (freeAt s) (depth s) (results s)) (StName u))) (Hcal u Hu)) as [sn Hsn].
  rewrite Hsn. eexists _, _. reflexivity.
Qed.

(** ** Rounds make progress *)

Definition limit : Z := 2 ^ (53 + 1074).

(** How far a retry time is from the horizon [h], in units of 2^-1074. *)
Definition rank (h : Z) (x : float64) : Z := if finite_float x then Z.max 0 (h + 1 - fval x) else 0.

Definition ranks (h : Z) (ps : list pendingJob) : Z := foldr (fun p n => 1 + rank h p.(nextTry) + n) 0 ps.

Lemma rank_bounds h x : 0 <= h -> 0 <= rank h x <= h + 1.
Proof. intros. unfold rank. pose proof (fval_nonneg x). destruct (finite_float x); lia. Qed.

Lemma rank_le h x y :
  nonneg_float x = true -> nonneg_float y = true -> finite_float x = true -> flt y x = false -> rank h y <= rank h x.
Proof.
  intros Nx Ny Fx H. unfold rank. rewrite Fx. destruct (finite_float y) eqn:Fy; [|lia].
  assert (~ fval y < fval x) by (intros L; apply (flt_fval y x) in L; congruence). lia.
Qed.

Lemma rank_lt h x y :
  nonneg_float x = true -> nonneg_float y = true -> finite_float x = true -> fval x <= h -> flt x y = true ->
  rank h y < rank h x.
Proof.
  intros Nx Ny Fx Hh H. unfold rank. rewrite Fx. destruct (finite_float y) eqn:Fy; [|lia].
  apply (flt_fval x y) in H; auto. lia.
Qed.

Lemma retry_forward now :
  nonneg_float now = true -> finite_float now = true -> fval now < limit ->
  nonneg_float (fadd now pendingRetryS) = true /\ flt now (fadd now pendingRetryS) = true.
Proof.
  intros N F L. split; [by apply (fadd_up now pendingRetryS)|]. by apply fadd_forward.
Qed.

Definition times_ok (ps : list pendingJob) : Prop := Forall (fun p => nonneg_float p.(nextTry) = true) ps.

Lemma ranks_nonneg h ps : 0 <= h -> 0 <= ranks h ps.
Proof. intros Hh. induction ps as [|p ps IH]; [done|]. cbn [ranks foldr]. pose proof (rank_bounds h p.(nextTry) Hh). fold (ranks h ps). lia. Qed.

Lemma place_due_total h now ps s :
  nonneg_float now = true -> finite_float now = true -> fval now <= h < limit -> times_ok ps ->
  exists still s', place_due policy targets now ps s = Some (still, s') /\ times_ok still /\ ranks h still <= ranks h ps /\
    (Exists (fun p => fgt p.(nextTry) now = false) ps -> ranks h still < ranks h ps).
Proof.
  intros N F [Hh L] T. assert (H0 : 0 <= h) by (pose proof (fval_nonneg now); lia).
  destruct (retry_forward now N F ltac:(lia)) as [Nr Lr]. pose proof (rank_lt h _ _ N Nr F Hh Lr) as Rr.
  revert s. induction ps as [|p ps IH]; intros s.
  - exists [], s. split_and!; try done. by intros ?%Exists_nil.
  - apply Forall_cons in T as [Tp T]. cbn [place_due]. destruct (fgt p.(nextTry) now) eqn:D.
    + destruct (IH T s) as (still & s' & -> & Ts & Le & Lt). exists (p :: still), s'. split; [done|].
      split; [by constructor|]. cbn [ranks foldr]. fold (ranks h still) (ranks h ps). split; [lia|].
      intros [?|E]%Exists_cons; [congruence|]. specialize (Lt E). lia.
    + destruct (tryPlace_total s p.(pjob) now) as (b & s1 & ->). destruct (IH T s1) as (still & s' & -> & Ts & Le & _).
      assert (Rp : rank h now <= rank h p.(nextTry)).
      { rewrite fgt_flt in D. destruct (not_after_finite _ now Tp N F D) as [Fp _]. by apply rank_le. }
      eexists _, s'. split; [done|]. destruct b; cbn [ranks foldr nextTry]; fold (ranks h still) (ranks h ps).
      * split; [done|]. pose proof (rank_bounds h now H0). split; [|intros _]; lia.
      * split; [by constructor|]. split; [|intros _]; lia.
Qed.

(** ** The event loop *)

Lemma next_event_from t0 ps :
  let now := fold_left (fun t p => if flt p.(nextTry) t then p.(nextTry) else t) ps t0 in
  now = t0 \/ Exists (fun p => p.(nextTry) = now) ps.
Proof.
  revert t0. induction ps as [|p ps IH]; intros t0; cbn [fold_left]; [by left|].
  destruct (IH (if flt p.(nextTry) t0 then p.(nextTry) else t0)) as [E|E]; [|right; by apply Exists_cons_tl].
  rewrite E. destruct (flt p.(nextTry) t0); [right; by apply Exists_cons_hd|by left].
Qed.

Lemma next_event_cases o ps :
  next_event o ps = S754_infinity false \/ (exists j, o = Some j /\ next_event o ps = j.(ArrivalS)) \/
  Exists (fun p => p.(nextTry) = next_event o ps) ps.
Proof.
  unfold next_event. destruct o as [j|].
  - destruct (next_event_from j.(ArrivalS) ps) as [E|E]; [right; left; by exists j|by right; right].
  - destruct (next_event_from (S754_infinity false) ps) as [E|E]; [by left|by right; right].
Qed.

Section Loop.
Context (jobs : list benchJob) (horizonS : float64) (Hw : workload_ok jobs)
  (Nh : nonneg_float horizonS = true) (Fh : finite_float horizonS = true) (Lh : fval horizonS < limit).

Lemma job_time i j : jobs !! i = Some j -> nonneg_float j.(ArrivalS) = true /\ finite_float j.(ArrivalS) = true.
Proof. destruct Hw as [W _ _]. rewrite Forall_lookup in W. apply W. Qed.

Lemma job_time_elem j : j ∈ jobs -> nonneg_float j.(ArrivalS) = true /\ finite_float j.(ArrivalS) = true.
Proof. intros [i H]%list_elem_of_lookup. by apply (job_time i). Qed.

Lemma next_event_nonneg i ps : times_ok ps -> nonneg_float (next_event (jobs !! i) ps) = true.
Proof.
  intros T. destruct (next_event_cases (jobs !! i) ps) as [-> |[(j & Ej & ->)|E]]; [done|by apply (job_time i)|].
  unfold times_ok in T. rewrite Forall_forall in T. apply Exists_exists in E as (p & Hp & <-). by apply T.
Qed.

(** What the round's time is: a number within the horizon. *)
Lemma now_ok i ps :
  times_ok ps -> fgt (next_event (jobs !! i) ps) horizonS = false ->
  nonneg_float (next_event (jobs !! i) ps) = true /\ finite_float (next_event (jobs !! i) ps) = true /\
  fval (next_event (jobs !! i) ps) <= fval horizonS.
Proof. intros T G. pose proof (next_event_nonneg i ps T). split; [done|]. by apply not_after_finite. Qed.

Definition mu (l : loopState) : Z :=
  ranks (fval horizonS) l.(pending) + (fval horizonS + 3) * Z.of_nat (length jobs - l.(arrivalIdx)).

Lemma ranks_app h a b : ranks h (a ++ b) = ranks h a + ranks h b.
Proof. unfold ranks. induction a as [|p a IH]; [done|]. cbn [app foldr]. rewrite IH. lia. Qed.

Lemma mu_nonneg l : 0 <= mu l.
Proof. unfold mu. pose proof (fval_nonneg horizonS) as F. pose proof (ranks_nonneg (fval horizonS) l.(pending) F). nia. Qed.

(** An arrival is taken, or a pending job is due. *)
Lemma arrived_cases now l :
  times_ok l.(pending) -> now = next_event (jobs !! l.(arrivalIdx)) l.(pending) -> is_inf now = false ->
  fgt now horizonS = false ->
  (exists j, jobs !! l.(arrivalIdx) = Some j /\ fle j.(ArrivalS) now = true /\
     arrived jobs now l = mkLoop (S l.(arrivalIdx)) (l.(pending) ++ [mkPending j now]) l.(sim)) \/
  (arrived jobs now l = l /\ Exists (fun p => fgt p.(nextTry) now = false) l.(pending)).
Proof.
  intros T En Hi Hg. destruct (now_ok l.(arrivalIdx) l.(pending) T ltac:(by rewrite <- En)) as (N & _). rewrite <- En in N.
  unfold arrived. destruct (jobs !! l.(arrivalIdx)) as [j|] eqn:Ej.
  - destruct (fle j.(ArrivalS) now) eqn:Ea; [left; by exists j|right]. split; [done|].
    rewrite fle_nlt in Ea by (apply nonneg_not_nan; first [done|by apply (job_time l.(arrivalIdx))]).
    destruct (next_event_cases (Some j) l.(pending)) as [E|[(j' & [= <-] & E)|E]].
    + by rewrite En, E in Hi.
    + rewrite En, E, flt_irrefl in Ea. done.
    + rewrite <- En in E. eapply Exists_impl; [exact E|]. intros p Ep. cbv beta in Ep. rewrite Ep. apply flt_irrefl.
  - right. split; [done|]. destruct (next_event_cases None l.(pending)) as [E|[(j' & ? & _)|E]]; [by rewrite En, E in Hi|done|].
    rewrite <- En in E. eapply Exists_impl; [exact E|]. intros p Ep. cbv beta in Ep. rewrite Ep. apply flt_irrefl.
Qed.

Lemma round_total now l :
  times_ok l.(pending) -> now = next_event (jobs !! l.(arrivalIdx)) l.(pending) -> is_inf now = false ->
  fgt now horizonS = false ->
  let l1 := arrived jobs now l in
  exists still s, place_due policy targets now l1.(pending) l1.(sim) = Some (still, s) /\ times_ok still /\
    mu (mkLoop l1.(arrivalIdx) still s) < mu l.
Proof.
  intros T En Hi Hg. destruct (now_ok l.(arrivalIdx) l.(pending) T ltac:(by rewrite <- En)) as (N & F & B). rewrite <- En in N, F, B.
  destruct (arrived_cases now l T En Hi Hg) as [(j & Ej & _ & ->)|[-> Due]]; cbv zeta; cbn [pending sim arrivalIdx].
  - destruct (place_due_total (fval horizonS) now (l.(pending) ++ [mkPending j now]) l.(sim) N F ltac:(done))
      as (still & s & Hp & Ts & Le & _); [apply Forall_app; split; [exact T|by constructor]|].
    exists still, s. split_and!; [done|done|]. rewrite ranks_app in Le. cbn [ranks foldr nextTry] in Le.
    pose proof (rank_bounds (fval horizonS) now (fval_nonneg _)) as R. pose proof (fval_nonneg horizonS).
    apply lookup_lt_Some in Ej. unfold mu. cbn [pending arrivalIdx].
    replace (Z.of_nat (length jobs - l.(arrivalIdx))) with (1 + Z.of_nat (length jobs - S l.(arrivalIdx))) by lia. lia.
  - destruct (place_due_total (fval horizonS) now l.(pending) l.(sim) N F ltac:(done) T) as (still & s & Hp & Ts & _ & Lt).
    exists still, s. split_and!; [done|done|]. specialize (Lt Due). unfold mu. cbn [pending arrivalIdx]. lia.
Qed.

Lemma events_total l :
  times_ok l.(pending) -> exists fuel s, events policy targets fuel jobs horizonS l = Finished s.
Proof.
  remember (Z.to_nat (mu l)) as n eqn:En. revert l En. induction n as [n IH] using lt_wf_ind. intros l -> T.
  destruct (is_inf (next_event (jobs !! l.(arrivalIdx)) l.(pending)) || fgt (next_event (jobs !! l.(arrivalIdx)) l.(pending)) horizonS) eqn:E.
  - exists 1%nat. cbn [events]. rewrite E. eauto.
  - apply orb_false_iff in E as E'. destruct E' as [Ei Eg].
    destruct (round_total _ l T eq_refl Ei Eg) as (still & s & Hp & Ts & Lt).
    pose proof (mu_nonneg (mkLoop (arrived jobs (next_event (jobs !! l.(arrivalIdx)) l.(pending)) l).(arrivalIdx) still s)).
    destruct (IH (Z.to_nat (mu (mkLoop (arrived jobs (next_event (jobs !! l.(arrivalIdx)) l.(pending)) l).(arrivalIdx) still s)))
                ltac:(lia) _ eq_refl Ts) as (fuel & s' & Hf).
    exists (S fuel), s'. cbn [events]. rewrite E, Hp. exact Hf.
Qed.

(** ** The executions are right *)

Context (Hnd : NoDup (StName <$> targets)).

Record sim_inv (s : simState) : Prop := mkSimInv {
  si_free : forall n, nonneg_float (free_of s n) = true;
  si_exec : forall id e, s.(results) !! id = Some e ->
    exists j, j ∈ jobs /\ j.(ID) = id /\ placement_of policy.(PolFilter) targets horizonS j e /\
      nonneg_float e.(EndS) = true /\ flt (free_of s e.(Target)) e.(EndS) = false;
  si_disjoint : forall id1 id2 e1 e2, id1 <> id2 -> s.(results) !! id1 = Some e1 -> s.(results) !! id2 = Some e2 ->
    e1.(Target) = e2.(Target) -> disjoint_in_time e1 e2 }.

Lemma names_inj t u : t ∈ targets -> u ∈ targets -> t.(StName) = u.(StName) -> t = u.
Proof.
  intros [a Ha]%list_elem_of_lookup [b Hb]%list_elem_of_lookup E.
  assert (a = b) as <-; [|congruence]. eapply (NoDup_lookup (StName <$> targets)); [done| |]; rewrite list_lookup_fmap.
  - by rewrite Ha.
  - by rewrite Hb, E.
Qed.

Lemma duration_ok j : j ∈ jobs ->
  nonneg_float (execDuration j.(BShots)) = true /\ finite_float (execDuration j.(BShots)) = true.
Proof.
  destruct Hw as [_ W _]. rewrite Forall_forall in W. intros H%W. unfold shotChoices in H.
  rewrite !elem_of_cons in H. destruct H as [-> |[-> |[-> |[-> |H]]]]; [by split..|by apply elem_of_nil in H].
Qed.

Lemma free_insert s s' name fin n :
  s'.(freeAt) = <[name := fin]> s.(freeAt) -> free_of s' n = if decide (name = n) then fin else free_of s n.
Proof.
  intros E. unfold free_of. rewrite E. destruct (decide (name = n)) as [<-|N]; [by rewrite lookup_insert_eq|by rewrite lookup_insert_ne].
Qed.

(** One placement keeps the invariant, whatever execution [e] it records as
    long as it starts when the target is free. *)
Lemma place_inv s s' j e :
  sim_inv s -> j ∈ jobs -> placement_of policy.(PolFilter) targets horizonS j e ->
  nonneg_float e.(EndS) = true -> flt e.(StartS) (free_of s e.(Target)) = false ->
  s'.(freeAt) = <[e.(Target) := e.(EndS)]> s.(freeAt) -> s'.(results) = <[j.(ID) := e]> s.(results) -> sim_inv s'.
Proof.
  intros [If Ie Id] Hj P Ne Hs Ef Er. pose proof (pl_start _ _ _ _ _ P) as [Ns _]. pose proof (pl_end _ _ _ _ _ P) as [_ Up].
  assert (After : forall e', e'.(Target) = e.(Target) -> nonneg_float e'.(EndS) = true ->
    flt (free_of s e'.(Target)) e'.(EndS) = false -> flt e.(StartS) e'.(EndS) = false).
  { intros e' Et Ne' Hf. rewrite Et in Hf. apply (nonneg_le_trans _ (free_of s e.(Target)) _); auto. }
  split.
  - intros n. rewrite (free_insert _ _ _ _ _ Ef). by case_decide.
  - intros id e'. rewrite Er. intros [[<- <-]|[Hne Hl]]%lookup_insert_Some.
    + exists j. split_and!; try done. rewrite (free_insert _ _ _ _ _ Ef), decide_True by done. apply flt_irrefl.
    + destruct (Ie id e' Hl) as (j' & Hj' & Eid & P' & Ne' & Hf). exists j'. split_and!; try done.
      rewrite (free_insert _ _ _ _ _ Ef). case_decide as Et; [|done].
      apply (nonneg_le_trans _ e.(StartS) _); auto.
  - intros id1 id2 e1 e2 Hne. rewrite Er. intros [[<- <-]|[H1 L1]]%lookup_insert_Some [[<- <-]|[H2 L2]]%lookup_insert_Some Et; [done| | |].
    + destruct (Ie id2 e2 L2) as (_ & _ & _ & _ & N2 & F2). right. by apply After.
    + destruct (Ie id1 e1 L1) as (_ & _ & _ & _ & N1 & F1). left. by apply After.
    + exact (Id id1 id2 e1 e2 Hne L1 L2 Et).
Qed.

Lemma tryPlace_inv s j now b s' :
  sim_inv s -> j ∈ jobs -> nonneg_float now = true -> fgt now horizonS = false -> flt now j.(ArrivalS) = false ->
  tryPlace policy targets s j now = Some (b, s') -> sim_inv s'.
Proof.
  intros I Hj Nn Hh Ha. unfold tryPlace. destruct (fleet_at targets s now) as [fleet|] eqn:Hf; [|done].
  destruct (Schedule policy s.(pol) (view j) fleet (sim_now now)) as [d pol'] eqn:Hd.
  destruct (String.eqb_spec d.(DTarget) "") as [|Hne]; [intros [= <- <-]; by destruct I|].
  destruct (decided s j now fleet d pol' Hf Hd Hne) as (t & v & u & Ht & Hv & Hok & En & Hu). rewrite Hu.
  apply byName_some in Hu as [Hu Eu]. assert (u = t) as -> by (apply names_inj; congruence).
  unfold place. set (s1 := mkSim pol' s.(freeAt) s.(depth) s.(results)).
  change (free_of s1 t.(StName)) with (free_of s t.(StName)).
  destruct (math_max_up now (free_of s t.(StName)) Nn (si_free s I _)) as (Ns & Sn & Sf).
  destruct (snapAt t (math_max now (free_of s t.(StName)))) as [snap|] eqn:Hsnap; [|done]. intros [= _ <-].
  destruct (duration_ok j Hj) as [Nd Fd]. destruct (fadd_up _ _ Ns Nd Fd) as [Nf Uf].
  match goal with |- sim_inv (mkSim _ _ _ (<[_ := ?e]> _)) => apply (place_inv s _ j e) end; try done.
  split; try done. exists now, t, (math_max f0 (fsub (free_of s t.(StName)) now)), (depth_of s t.(StName)), v, snap.
  by split_and!.
Qed.

Definition pending_ok (ps : list pendingJob) : Prop :=
  Forall (fun p => p.(pjob) ∈ jobs /\ nonneg_float p.(nextTry) = true /\ flt p.(nextTry) p.(pjob).(ArrivalS) = false) ps.

Lemma pending_times ps : pending_ok ps -> times_ok ps.
Proof. intros H. eapply Forall_impl; [exact H|]. by intros p (_ & ? & _). Qed.

Lemma place_due_inv now ps s still s' :
  nonneg_float now = true -> finite_float now = true -> fgt now horizonS = false ->
  pending_ok ps -> sim_inv s -> place_due policy targets now ps s = Some (still, s') ->
  pending_ok still /\ sim_inv s'.
Proof.
  intros Nn Fn Hh. revert s still. induction ps as [|p ps IH]; intros s still HP I H; cbn [place_due] in H; [by simplify_eq|].
  apply Forall_cons in HP as [(Hj & Np & Ha) HP]. destruct (fgt p.(nextTry) now) eqn:D.
  - destruct (place_due policy targets now ps s) as [[st s2]|] eqn:E; [|done]. simplify_eq.
    destruct (IH s st HP I E) as [? ?]. split; [|done]. by constructor.
  - destruct (job_time_elem p.(pjob) Hj) as [Nj _].
    assert (Ha' : flt now p.(pjob).(ArrivalS) = false) by (apply (nonneg_le_trans _ p.(nextTry) _); auto).
    destruct (tryPlace policy targets s p.(pjob) now) as [[b s1]|] eqn:E1; [|done].
    pose proof (tryPlace_inv _ _ _ _ _ I Hj Nn Hh Ha' E1) as I1.
    destruct (place_due policy targets now ps s1) as [[st s2]|] eqn:E; [|done]. simplify_eq.
    destruct (IH s1 st HP I1 E) as [? ?]. split; [|done]. destruct b; [done|]. constructor; [|done]. cbn [pjob nextTry].
    destruct (fadd_up now pendingRetryS Nn) as [Nr Ur]; [done..|]. split_and!; [done|done|].
    apply (nonneg_le_trans _ now _); auto.
Qed.

Lemma events_inv fuel l s :
  pending_ok l.(pending) -> sim_inv l.(sim) -> events policy targets fuel jobs horizonS l = Finished s -> sim_inv s.
Proof.
  revert l. induction fuel as [|fuel IH]; intros l HP I H; cbn [events] in H; [done|].
  set (now := next_event (jobs !! l.(arrivalIdx)) l.(pending)) in *.
  destruct (is_inf now || fgt now horizonS) eqn:E; [by simplify_eq|].
  apply orb_false_iff in E as [Ei Eg]. pose proof (pending_times _ HP) as T.
  destruct (now_ok l.(arrivalIdx) l.(pending) T Eg) as (Nn & Fn & _). fold now in Nn, Fn.
  destruct (place_due policy targets now _ _) as [[still s1]|] eqn:Ep; [|done].
  assert (G : pending_ok (arrived jobs now l).(pending) /\ (arrived jobs now l).(sim) = l.(sim)).
  { destruct (arrived_cases now l T eq_refl Ei Eg) as [(j & Ej & Ea & ->)|[-> _]]; [|done]. cbn [pending sim]. split; [|done].
    apply Forall_app. split; [exact HP|]. constructor; [|done]. cbn [pjob nextTry].
    destruct (job_time _ _ Ej) as [Nj _]. rewrite fle_nlt in Ea by (by apply nonneg_not_nan). to_prop.
    split_and!; [by eapply list_elem_of_lookup_2|done|done]. }
  destruct G as [G1 G2]. rewrite G2 in Ep. destruct (place_due_inv now _ _ still s1 Nn Fn Eg G1 I Ep) as [P1 I1].
  by apply (IH (mkLoop (arrived jobs now l).(arrivalIdx) still s1)).
Qed.

Lemma sim_init_inv st : sim_inv (sim_init targets st).
Proof.
  split; [|by intros id e H; unfold sim_init in H; cbn [results] in H; rewrite lookup_empty in H
           |by intros id1 id2 e1 e2 _ H; unfold sim_init in H; cbn [results] in H; rewrite lookup_empty in H].
  intros n. unfold free_of, sim_init. cbn [freeAt].
  assert (G : forall ts (m : gmap string float64), nonneg_float (default f0 (m !! n)) = true ->
    nonneg_float (default f0 (fold_left (fun m t => <[t.(StName) := f0]> m) ts m !! n)) = true).
  { induction ts as [|x ts IH]; intros m Hm; [done|]. cbn [fold_left]. apply IH.
    destruct (decide (x.(StName) = n)) as [<-|N]; [by rewrite lookup_insert_eq|by rewrite lookup_insert_ne]. }
  apply G. by rewrite lookup_empty.
Qed.
End Loop.
End Run.

(** ** The run *)

Lemma add_unplaced_spec h jobs res :
  let out := fold_left (add_unplaced h) jobs res in
  (forall id e, res !! id = Some e -> out !! id = Some e) /\
  (forall id e, out !! id = Some e -> res !! id = Some e \/ exists j, j ∈ jobs /\ j.(ID) = id /\ e = unplaced h j) /\
  (forall j, j ∈ jobs -> is_Some (out !! j.(ID))).
Proof.
  revert res. induction jobs as [|j jobs IH]; intros res; cbn [fold_left].
  - split_and!; [done|by left|by intros j ?%elem_of_nil].
  - destruct (IH (add_unplaced h res j)) as (G1 & G2 & G3). cbv zeta in *.
    assert (K : forall id e, res !! id = Some e -> add_unplaced h res j !! id = Some e).
    { intros id e He. unfold add_unplaced. destruct (res !! j.(ID)) eqn:Ej; [done|].
      rewrite lookup_insert_ne by congruence. done. }
    assert (N : is_Some (add_unplaced h res j !! j.(ID))).
    { unfold add_unplaced. destruct (res !! j.(ID)) eqn:Ej; [by rewrite Ej|]. rewrite lookup_insert_eq. eauto. }
    split_and!; [auto| |].
    + intros id e He. destruct (G2 id e He) as [H|(j' & Hj' & ? & ?)]; [|right; exists j'; split; [by right|done]].
      unfold add_unplaced in H. destruct (res !! j.(ID)) eqn:Ej; [by left|].
      apply lookup_insert_Some in H as [[<- <-]|[_ H]]; [right; exists j; split; [left|done]|by left].
    + intros j' [->|Hj']%elem_of_cons; [|auto]. destruct N as [e He]. exists e. auto.
Qed.

Lemma last_nonempty {A} (l : list A) : l <> [] -> exists x, last l = Some x /\ x ∈ l.
Proof. intros H. destruct (last l) as [x|] eqn:E; [exists x; split; [done|by apply last_Some_elem_of]|by apply last_None in E]. Qed.

Lemma horizon_ok jobs j : workload_ok jobs -> last jobs = Some j ->
  let h := fadd j.(ArrivalS) drainS in nonneg_float h = true /\ finite_float h = true /\ fval h < limit.
Proof.
  intros [W _ L] E h. specialize (L j E). fold h in L. rewrite Forall_forall in W.
  destruct (W j) as [N F]; [by apply last_Some_elem_of|].
  destruct (fadd_up j.(ArrivalS) drainS N) as [Nh _]; [done..|]. fold h in Nh. split; [done|].
  destruct (not_after_finite h (f_of_Z (2 ^ 53)) Nh) as [Fh _]; [done|done|by apply flt_asym|]. split; [done|].
  apply flt_fval in L; [|done..]. eapply Z.lt_le_trans; [exact L|]. by vm_compute.
Qed.

Lemma ids_inj jobs a b : NoDup (ID <$> jobs) -> a ∈ jobs -> b ∈ jobs -> a.(ID) = b.(ID) -> a = b.
Proof.
  intros Hn [i Hi]%list_elem_of_lookup [k Hk]%list_elem_of_lookup E.
  assert (i = k) as <-; [|congruence]. eapply (NoDup_lookup (ID <$> jobs)); [done| |]; rewrite list_lookup_fmap.
  - by rewrite Hi.
  - by rewrite Hk, E.
Qed.

Lemma registered_new e name : name ∈ RegisteredPolicies e -> exists p, NewPolicy e name = Ok (p, 0).
Proof.
  unfold RegisteredPolicies, sort_strings. rewrite elem_of_sort_by. unfold NewPolicy, find_factory, factories.
  cbn [fmap list_fmap fst]. rewrite !elem_of_cons.
  intros [-> |[-> |[-> |[-> |[-> |[-> |H]]]]]]; [eexists; reflexivity..|by apply elem_of_nil in H].
Qed.

Lemma events_more p targets fuel k jobs h l s :
  events p targets fuel jobs h l = Finished s -> events p targets (fuel + k) jobs h l = Finished s.
Proof.
  revert l. induction fuel as [|fuel IH]; intros l; cbn [events Nat.add]; [done|].
  destruct (is_inf _ || _); [done|]. destruct (place_due p targets _ _ _) as [[still s1]|]; [|done]. apply IH.
Qed.

(** An entry of the report comes from the loop, or fills a gap. *)
Lemma entry_of h jobs res i j e :
  NoDup (ID <$> jobs) -> jobs !! i = Some j ->
  ((fun j => fold_left (add_unplaced h) jobs res !! j.(ID)) <$> jobs) !! i = Some (Some e) ->
  res !! j.(ID) = Some e \/ e = unplaced h j.
Proof.
  intros Hids Hi. rewrite list_lookup_fmap, Hi. intros [= He].
  destruct (add_unplaced_spec h jobs res) as (_ & G2 & _). destruct (G2 _ _ He) as [H|(j' & Hj' & E & ->)]; [by left|right].
  f_equal. eapply ids_inj; eauto using list_elem_of_lookup_2.
Qed.

Section Report.
Context (math_exp : float64 -> float64) (name : string) (jobs : list benchJob) (targets : list seriesTarget)
  (Hw : workload_ok jobs) (Hnd : NoDup (StName <$> targets)).

(** The filter of the policy called [name]. *)
Definition policy_filter : JobView -> TargetView -> Z -> string :=
  if baseline name then FilterCapabilityOnly else FilterTarget.

Lemma NewPolicy_ok p st : NewPolicy math_exp name = Ok (p, st) -> PolicyLaws p /\ p.(PolFilter) = policy_filter.
Proof.
  unfold NewPolicy. destruct (find_factory math_exp name) as [q|] eqn:E; [|done]. intros [= -> _].
  by apply find_factory_cases in E as (? & ? & _).
Qed.

(** What a finished run reports, from the state its loop ends in. *)
Lemma run_report fuel out :
  simulate math_exp fuel name jobs targets = Ok (Finished out) ->
  exists p l s, PolicyLaws p /\ p.(PolFilter) = policy_filter /\ last jobs = Some l /\
    sim_inv p targets jobs (fadd l.(ArrivalS) drainS) s /\
    out = (fun j => fold_left (add_unplaced (fadd l.(ArrivalS) drainS)) jobs s.(results) !! j.(ID)) <$> jobs.
Proof.
  unfold simulate. destruct (NewPolicy math_exp name) as [[p st]|] eqn:Ep; [|done]. cbn [rbind fst snd].
  destruct (NewPolicy_ok p st Ep) as [Lp Fp]. unfold run_jobs. destruct (last jobs) as [l|] eqn:El; [|done].
  destruct (horizon_ok jobs l Hw El) as (Nh & Fh & Lh).
  destruct (events p targets fuel jobs (fadd l.(ArrivalS) drainS) (mkLoop 0 [] (sim_init targets st))) as [| |s] eqn:Ee; [done..|].
  intros [= <-]. exists p, l, s. split_and!; try done.
  apply (events_inv p targets jobs _ Hw Nh Fh Hnd fuel (mkLoop 0 [] (sim_init targets st)) s); [by constructor| |done].
  apply sim_init_inv.
Qed.


Lemma report_entry fuel out l i j e :
  NoDup (ID <$> jobs) -> last jobs = Some l -> simulate math_exp fuel name jobs targets = Ok (Finished out) ->
  jobs !! i = Some j -> out !! i = Some (Some e) ->
  e = unplaced (fadd l.(ArrivalS) drainS) j \/ placement_of policy_filter targets (fadd l.(ArrivalS) drainS) j e.
Proof.
  intros Hids El Hs Hi Ho. destruct (run_report fuel out Hs) as (p & l' & s & _ & Fp & El' & I & ->).
  assert (l' = l) as -> by congruence. destruct (entry_of _ jobs _ i j e Hids Hi Ho) as [H|]; [right|by left].
  destruct (si_exec _ _ _ _ _ I _ _ H) as (j' & Hj' & E & P & _). rewrite Fp in P.
  assert (j' = j) as -> by (eapply ids_inj; eauto using list_elem_of_lookup_2). done.
Qed.
End Report.

Lemma simulate_ends math_exp name jobs targets :
  name ∈ RegisteredPolicies math_exp -> jobs <> [] -> workload_ok jobs -> calibrated targets ->
  NoDup (StName <$> targets) ->
  exists fuel out,
    (forall more, simulate math_exp (fuel + more) name jobs targets = Ok (Finished out)) /\
    Forall2 (fun j o => exists e, o = Some e /\ e.(JobID) = j.(ID)) jobs out.
Proof.
  intros Hn Hj Hw Hcal Hnd. destruct (last_nonempty jobs Hj) as (l & El & _).
  destruct (horizon_ok jobs l Hw El) as (Nh & Fh & Lh).
  destruct (registered_new math_exp name Hn) as [p Ep]. destruct (NewPolicy_ok math_exp name p 0 Ep) as [Lp _].
  destruct (events_total p targets Hcal jobs (fadd l.(ArrivalS) drainS) Hw Nh Fh Lh (mkLoop 0 [] (sim_init targets 0)))
    as (fuel & s & Hf); [by constructor|].
  assert (R : forall more, exists out, simulate math_exp (fuel + more) name jobs targets = Ok (Finished out) /\
    out = (fun j => fold_left (add_unplaced (fadd l.(ArrivalS) drainS)) jobs s.(results) !! j.(ID)) <$> jobs).
  { intros more. unfold simulate. rewrite Ep. cbn [rbind fst snd]. unfold run_jobs. rewrite El.
    rewrite (events_more p targets fuel more _ _ _ _ Hf). eauto. }
  eexists fuel, _. split; [intros more; by destruct (R more) as (? & -> & ->)|].
  assert (I : sim_inv p targets jobs (fadd l.(ArrivalS) drainS) s).
  { apply (events_inv p targets jobs _ Hw Nh Fh Hnd fuel (mkLoop 0 [] (sim_init targets 0)) s);
      [by constructor|apply sim_init_inv|exact Hf]. }
  destruct (add_unplaced_spec (fadd l.(ArrivalS) drainS) jobs s.(results)) as (_ & G2 & G3).
  apply Forall2_fmap_r, Forall_Forall2_diag, Forall_forall. intros j Hin. destruct (G3 j Hin) as [e He]. exists e. split; [done|].
  destruct (G2 _ _ He) as [H|(j' & _ & E & ->)]; [|done].
  destruct (si_exec _ _ _ _ _ I _ _ H) as (j' & _ & Ej & P & _). pose proof (pl_job _ _ _ _ _ P). congruence.
Qed.

(** (C21) The benchmark simulation ends: for a registered policy, on a workload
    of float64 times below 2^53 seconds and targets with distinct names and at
    least one calibration snapshot each, some number of rounds suffices for the
    event loop, whatever the policy decides, without a panic, and the report
    then has one entry per job, in the workload's order; unless the workload is
    empty ([-jobs 0]), when reading its last arrival panics. *)
Theorem simulate_total math_exp name jobs targets :
  name ∈ RegisteredPolicies math_exp -> workload_ok jobs -> calibrated targets -> NoDup (StName <$> targets) ->
  match jobs with
  | [] => forall fuel, simulate math_exp fuel name jobs targets = Ok Panic
  | _ :: _ => exists fuel out,
      (forall more, simulate math_exp (fuel + more) name jobs targets = Ok (Finished out)) /\
      Forall2 (fun j o => exists e, o = Some e /\ e.(JobID) = j.(ID)) jobs out
  end.
Proof.
  intros Hn Hw Hc Hd. destruct jobs as [|j jobs]; [|by apply simulate_ends].
  intros fuel. destruct (registered_new math_exp name Hn) as [p Ep]. unfold simulate. by rewrite Ep.
Qed.

(** (C22) What the simulation reports: each entry is either the record of a job
    never placed, or a placement of that very job on a target that passes the
    policy's filter at a moment between its arrival and its start, with the
    calibration in effect at its start; and no two placements on one target
    overlap in time. *)
Theorem simulate_sound math_exp fuel name jobs targets out l :
  workload_ok jobs -> NoDup (StName <$> targets) -> NoDup (ID <$> jobs) ->
  last jobs = Some l -> simulate math_exp fuel name jobs targets = Ok (Finished out) ->
  let h := fadd l.(ArrivalS) drainS in
  (forall i j e, jobs !! i = Some j -> out !! i = Some (Some e) ->
     e = unplaced h j \/ placement_of (policy_filter name) targets h j e) /\
  (forall i k e1 e2, i <> k -> out !! i = Some (Some e1) -> out !! k = Some (Some e2) ->
     e1.(Unplaced) = false -> e2.(Unplaced) = false -> e1.(Target) = e2.(Target) -> disjoint_in_time e1 e2).
Proof.
  intros Hw Hnd Hids El Hs h. split; [intros i j e; by apply (report_entry math_exp name jobs targets Hw Hnd fuel)|].
  destruct (run_report math_exp name jobs targets Hw Hnd fuel out Hs) as (p & l' & s & _ & _ & El' & I & ->).
  assert (l' = l) as -> by congruence. fold h in I. intros i k e1 e2 Hne H1 H2 U1 U2.
  destruct (jobs !! i) as [j1|] eqn:E1; [|by rewrite list_lookup_fmap, E1 in H1].
  destruct (jobs !! k) as [j2|] eqn:E2; [|by rewrite list_lookup_fmap, E2 in H2].
  destruct (entry_of h jobs _ i j1 e1 Hids E1 H1) as [R1| ->]; [|done].
  destruct (entry_of h jobs _ k j2 e2 Hids E2 H2) as [R2| ->]; [|done].
  eapply (si_disjoint _ _ _ _ _ I j1.(ID) j2.(ID)); try done. intros E. apply Hne.
  eapply (NoDup_lookup (ID <$> jobs)); [done| |]; rewrite list_lookup_fmap; [by rewrite E1|by rewrite E2, E].
Qed.

(** ** Quality floors *)

Definition snap_values (s : seriesSnap) (sel : string -> bool) : list float64 :=
  SmValue <$> List.filter (fun m => sel m.(SmName)) s.(SsMetrics).

Definition no_nan_snaps (t : seriesTarget) : Prop :=
  Forall (fun s => Forall (fun m => is_nan m.(SmValue) = false) s.(SsMetrics)) t.(Snapshots).

(** The running minimum is below every value it has seen. *)
Lemma min_fold sel l best :
  Forall (fun m => is_nan m.(SmValue) = false) l -> (forall b, best = Some b -> is_nan b = false) ->
  let r := fold_left (min_step sel) l best in
  (forall b, r = Some b -> is_nan b = false /\ (forall c, best = Some c -> flt c b = false) /\
     forall m, m ∈ l -> sel m.(SmName) = true -> flt m.(SmValue) b = false) /\
  (r = None -> best = None /\ forall m, m ∈ l -> sel m.(SmName) = false).
Proof.
  revert best. induction l as [|m l IH]; intros best Hn Hb; cbn [fold_left].
  - split; [|by intros ->; split; [|by intros ? ?%elem_of_nil]].
    intros b E. rewrite E in *. split; [by apply Hb|]. split; [intros c [= <-]; apply flt_irrefl|by intros ? ?%elem_of_nil].
  - apply Forall_cons in Hn as [Nm Hn].
    assert (S : forall b, min_step sel best m = Some b -> is_nan b = false /\ (forall c, best = Some c -> flt c b = false) /\
      (sel m.(SmName) = true -> flt m.(SmValue) b = false)).
    { intros b. unfold min_step. destruct (sel m.(SmName)).
      - destruct best as [c|]; [|intros [= <-]; split_and!; [done|done|intros _; apply flt_irrefl]].
        destruct (flt m.(SmValue) c) eqn:E; intros [= <-]; (split; [auto|]).
        + split; [intros ? [= <-]; by apply flt_asym|intros _; apply flt_irrefl].
        + split; [intros ? [= <-]; apply flt_irrefl|done].
      - intros ->. split_and!; [auto|intros ? [= <-]; apply flt_irrefl|done]. }
    destruct (IH (min_step sel best m) Hn (fun b E => proj1 (S b E))) as [G1 G2]. cbv zeta in *. split.
    + intros b E. destruct (G1 b E) as (Nb & Gc & Gm). split; [done|].
      assert (Chain : forall x, is_nan x = false -> (forall c, min_step sel best m = Some c -> flt x c = false) ->
        (exists c, min_step sel best m = Some c) -> flt x b = false).
      { intros x Nx Hx [c Ec]. apply (flt_neg_trans x c b); auto. by apply S. }
      split.
      * intros c Ec. apply Chain; [by apply Hb|intros d Ed; by apply (S d Ed)|].
        unfold min_step. rewrite Ec. destruct (sel _); [destruct (flt _ _)|]; eauto.
      * intros m' [->|Hm']%elem_of_cons Hs; [|by apply Gm]. apply Chain; [done|intros d Ed; by apply (S d Ed)|].
        unfold min_step. rewrite Hs. destruct best as [c|]; [destruct (flt _ _)|]; eauto.
    + intros E. destruct (G2 E) as [E1 Gm]. unfold min_step in E1. destruct (sel m.(SmName)) eqn:Es.
      * destruct best; [destruct (flt _ _)|]; done.
      * split; [done|]. by intros m' [->|Hm']%elem_of_cons; [|apply Gm].
Qed.

(** A value within the floor keeps the minimum within it. *)
Lemma min_within s sel v floor :
  Forall (fun m => is_nan m.(SmValue) = false) s.(SsMetrics) ->
  v ∈ snap_values s sel -> fgt v floor = false -> is_nan floor = false ->
  violates (fold_left (min_step sel) s.(SsMetrics) None) floor = false.
Proof.
  intros Hn Hv Hf Nf. unfold snap_values in Hv. apply list_elem_of_fmap in Hv as (m & -> & Hm).
  rewrite list_elem_of_In, List.filter_In, <- list_elem_of_In in Hm. destruct Hm as [Hm Hs].
  destruct (min_fold sel s.(SsMetrics) None Hn) as [G1 G2]; [done|].
  destruct (fold_left (min_step sel) s.(SsMetrics) None) as [b|]; [|destruct (G2 eq_refl) as [_ G]; specialize (G m Hm); congruence].
  destruct (G1 b eq_refl) as (Nb & _ & G). cbn [violates]. rewrite fgt_flt in *.
  rewrite Forall_forall in Hn. apply (flt_neg_trans floor m.(SmValue) b); auto.
Qed.

Lemma view_values t now wait depth v snap sel :
  viewAt t now wait depth = Some v -> snapAt t now = Some snap -> metric_values v sel = snap_values snap sel.
Proof.
  unfold viewAt. intros H E. rewrite E in H. injection H as <-. unfold metric_values, snap_values. cbn [Metrics].
  induction snap.(SsMetrics) as [|m l IH]; [done|]. cbn [fmap list_fmap List.filter MName].
  destruct (sel m.(SmName)); [|done]. cbn [fmap list_fmap MValue]. by f_equal.
Qed.

Lemma within_snap j t now wait depth v snap :
  viewAt t now wait depth = Some v -> snapAt t now = Some snap -> no_nan_snaps t -> within_floors (view j) v (sim_now now) ->
  (fgt j.(Floor2Q) f0 && violates (minMetric snap "gate.2q.") j.(Floor2Q))
  || (fgt j.(FloorRO) f0 && violates (minMetricExact snap "readout.error") j.(FloorRO)) = false.
Proof.
  intros Hv Hs Hn [W1 W2 _]. unfold no_nan_snaps in Hn. rewrite Forall_forall in Hn.
  assert (Sn : snap ∈ t.(Snapshots)) by (unfold snapAt in Hs; by eapply list_elem_of_lookup_2).
  assert (K : forall sel floor, fgt floor f0 = true ->
    (exists x, aggregateValues (metric_values v sel) "best" = Some x /\ fgt x floor = false) ->
    violates (fold_left (min_step sel) snap.(SsMetrics) None) floor = false).
  { intros sel floor Hf (x & Hx & Hle). apply (min_within snap sel x floor); [by apply Hn| |done|by destruct floor].
    rewrite <- (view_values _ _ _ _ _ _ sel Hv Hs).
    destruct (metric_values v sel) as [|y l] eqn:El; [done|].
    destruct (aggregateValues_some (y :: l) "best") as (z & Hz & Hin); [done|]. congruence. }
  apply orb_false_iff. cbn [TwoQubitErrorMax ReadoutErrorMax view Aggregate or_default String.eqb] in W1, W2.
  split; apply andb_false_iff.
  - destruct (fgt j.(Floor2Q) f0) eqn:E; [right|by left]. apply (K is_2q_error); [done|by apply W1].
  - destruct (fgt j.(FloorRO) f0) eqn:E; [right|by left]. apply (K (fun n => String.eqb n "readout.error")); [done|by apply W2].
Qed.

(** Under the policies that check calibration, an execution violates its
    job's floors only because the calibration moved on while it queued: the
    snapshot in effect at its start is not the one its target was chosen by. *)
Lemma floors_break_by_drift math_exp fuel name jobs targets out l i j e :
  workload_ok jobs -> NoDup (StName <$> targets) -> NoDup (ID <$> jobs) -> Forall no_nan_snaps targets ->
  baseline name = false -> last jobs = Some l -> simulate math_exp fuel name jobs targets = Ok (Finished out) ->
  jobs !! i = Some j -> out !! i = Some (Some e) -> e.(SLOViolate) = true ->
  exists t now, t ∈ targets /\ t.(StName) = e.(Target) /\ flt now j.(ArrivalS) = false /\ flt e.(StartS) now = false /\
    snapAt t now <> snapAt t e.(StartS).
Proof.
  intros Hw Hnd Hids Hn Hb El Hs Hi Ho Hv.
  destruct (report_entry math_exp name jobs targets Hw Hnd fuel out l i j e Hids El Hs Hi Ho) as [-> |Hr]; [done|].
  destruct (pl_decision _ _ _ _ _ Hr) as (now & t & wait & depth & v & snap & Ht & Et & Ha & _ & Hst & Hview & Hf & Hsn & _ & Hslo).
  exists t, now. split_and!; try done. intros E. rewrite Hsn in E. rewrite Hv in Hslo. symmetry in Hslo.
  unfold policy_filter in Hf. rewrite Hb in Hf. apply FilterTarget_spec in Hf as (_ & W & _).
  rewrite Forall_forall in Hn. rewrite (within_snap j t now wait depth v snap) in Hslo; auto. done.
Qed.

(** ** Job names *)

Lemma digits_acc_rep0 n s : digits_acc (rep0 n +:+ s) 0 = digits_acc s 0.
Proof. induction n as [|n IH]; [done|]. cbn [rep0]. by rewrite append_cons. Qed.

Lemma parse_uint_digits s : s <> "" -> parse_uint s = digits_acc s 0.
Proof. by destruct s. Qed.

Lemma parse_itoa z : 0 <= z -> parse_uint (itoa z) = Some z.
Proof. intros H. destruct (itoa_cases z H) as [[-> ->]|[Hp ->]]; [done|by apply parse_nat_digits]. Qed.

Lemma parse_pad n z : 0 <= z -> parse_uint (pad n (itoa z)) = Some z.
Proof.
  intros H. pose proof (itoa_nonempty z H) as Ne. pose proof (parse_itoa z H) as P. rewrite parse_uint_digits in P by done.
  unfold pad. rewrite parse_uint_digits; [by rewrite digits_acc_rep0|].
  destruct (rep0 _) as [|c r]; [done|]. by rewrite append_cons.
Qed.

Lemma job_id_inj i k : job_id i = job_id k -> i = k.
Proof.
  unfold job_id. rewrite !append_cons. intros [= E].
  pose proof (parse_pad 4 (Z.of_nat i) ltac:(lia)) as Pi. pose proof (parse_pad 4 (Z.of_nat k) ltac:(lia)) as Pk.
  assert (Some (Z.of_nat i) = Some (Z.of_nat k)) as [= H]; [|lia]. rewrite <- Pi, <- Pk. by f_equal.
Qed.

Section Draws.
Context {G : Type} (Float64 ExpFloat64 : G -> float64 * G) (Intn : Z -> G -> Z * G)
  (Hintn : forall n r, 0 < n -> 0 <= (Intn n r).1 < n).

Lemma draw_job_ok circuits i now r : circuits <> [] ->
  exists j now' r', draw_job Float64 ExpFloat64 Intn circuits i now r = Some (j, now', r') /\
    j.(ID) = job_id i /\ j.(Circuit) ∈ circuits /\ j.(BShots) ∈ shotChoices.
Proof.
  intros Hc. unfold draw_job. destruct (Float64 r) as [x r1]. destruct (ExpFloat64 r1) as [y r2].
  pose proof (Hintn (Z.of_nat (length circuits)) r2) as C. destruct (Intn (Z.of_nat (length circuits)) r2) as [c r3].
  pose proof (Hintn (Z.of_nat (length shotChoices)) r3) as D. destruct (Intn (Z.of_nat (length shotChoices)) r3) as [d r4].
  cbn [fst] in C, D.
  destruct (lookup_lt_is_Some_2 circuits (Z.to_nat c)) as [ci Hci]; [destruct circuits; [done|cbn [length] in *; lia]|].
  destruct (lookup_lt_is_Some_2 shotChoices (Z.to_nat d)) as [sh Hsh]; [cbn [length shotChoices] in *; lia|].
  rewrite Hci, Hsh. destruct (Float64 r4) as [u r5].
  destruct (if flt u deadlineProb then _ else _) as [dl r6]. destruct (Float64 r6) as [w r7].
  destruct (if flt w floorProb then _ else _) as [[f2q fro] r8]. eexists _, _, _. split; [done|]. cbn [ID Circuit BShots].
  split_and!; [done|by eapply list_elem_of_lookup_2..].
Qed.

Lemma draw_jobs_ok circuits n i now r : circuits <> [] ->
  exists jobs, draw_jobs Float64 ExpFloat64 Intn circuits n i now r = Some jobs /\
    ID <$> jobs = job_id <$> seq i n /\
    Forall (fun j => j.(Circuit) ∈ circuits /\ j.(BShots) ∈ shotChoices) jobs.
Proof.
  intros Hc. revert i now r. induction n as [|n IH]; intros i now r; [by exists []|]. cbn [draw_jobs].
  destruct (draw_job_ok circuits i now r Hc) as (j & now' & r' & -> & Ei & Ec & Es).
  destruct (IH (S i) now' r') as (jobs & -> & Hids & Hall). exists (j :: jobs). split; [done|].
  split; [|by constructor]. cbn [fmap list_fmap seq]. by rewrite Ei, Hids.
Qed.
End Draws.

(** The workload generator: with at least one circuit, and Intn(n) within
    [0, n), it never indexes out of range; it draws exactly [n] jobs with
    distinct identifiers, each on one of the circuits and with one of the four
    shot counts. *)
Lemma generateWorkload_total {G} (Float64 ExpFloat64 : G -> float64 * G) (Intn : Z -> G -> Z * G) r circuits n :
  (forall n r, 0 < n -> 0 <= (Intn n r).1 < n) -> circuits <> [] ->
  exists jobs, generateWorkload Float64 ExpFloat64 Intn r circuits n = Some jobs /\ length jobs = n /\
    NoDup (ID <$> jobs) /\ Forall (fun j => j.(Circuit) ∈ circuits /\ j.(BShots) ∈ shotChoices) jobs.
Proof.
  intros Hi Hc. destruct (draw_jobs_ok Float64 ExpFloat64 Intn Hi circuits n 0 f0 r Hc) as (jobs & Hj & Hids & Hall).
  exists jobs. split_and!; [done| |rewrite Hids; apply NoDup_fmap_2_strong; [intros a b _ _; apply job_id_inj|apply NoDup_seq]|done].
  apply (f_equal length) in Hids. by rewrite !length_fmap, length_seq in Hids.
Qed.

(** ** Witnesses *)

Definition demo_snap (id : string) (at_s err : Z) : seriesSnap :=
  mkSeriesSnap id (f_of_Z at_s) [mkSeriesMetric "gate.2q.cx.error" (f_lit err 1000) []; mkSeriesMetric "readout.error" (f_lit 1 100) []].

Definition demo_series (name : string) : seriesTarget :=
  mkSeriesTarget name 5 ["openqasm3"] [] 10000 "superconducting" "cx" f0 (f_of_Z 100) [demo_snap "s0" 0 4; demo_snap "s1" 100 9].

Definition demo_circuit : circuitInfo := mkCircuit "bell" 2 (mkProfile 2 1 1 2) "".

(** Two jobs at 90 s and 95 s with a floor the second calibration breaks. *)
Definition demo_job (i : nat) (at_s : Z) (floor : float64) : benchJob :=
  mkBenchJob (job_id i) demo_circuit 1000 (f_of_Z at_s) f0 floor f0.

Definition demo_jobs : list benchJob := [demo_job 0 90 (f_lit 6 1000); demo_job 1 95 (f_lit 6 1000)].

Lemma demo_workload : workload_ok demo_jobs.
Proof.
  split; [by repeat constructor| |by intros j [= <-]].
  apply Forall_forall. intros j Hj. unfold demo_jobs in Hj. rewrite !elem_of_cons in Hj.
  destruct Hj as [-> |[-> |H]]; [by right; left..|by apply elem_of_nil in H].
Qed.

Definition demo_targets : list seriesTarget := [demo_series "a"].

Definition demo_out : list (option execution) :=
  match simulate (fun x => x) 10 "calib-aware/v0" demo_jobs demo_targets with Ok (Finished out) => out | _ => [] end.

Lemma demo_run : simulate (fun x => x) 10 "calib-aware/v0" demo_jobs demo_targets = Ok (Finished demo_out).
Proof. by vm_compute. Qed.

Lemma demo_calibrated : calibrated demo_targets.
Proof. by constructor. Qed.

Lemma demo_names : NoDup (StName <$> demo_targets).
Proof. apply NoDup_singleton. Qed.

Lemma demo_ids : NoDup (ID <$> demo_jobs).
Proof. apply (bool_decide_unpack _). by vm_compute. Qed.

Lemma demo_no_nan : Forall no_nan_snaps demo_targets.
Proof. repeat constructor. Qed.

Lemma simulate_total_witness :
  exists fuel out,
    (forall more, simulate (fun x => x) (fuel + more) "calib-aware/v0" demo_jobs demo_targets = Ok (Finished out)) /\
    Forall2 (fun j o => exists e, o = Some e /\ e.(JobID) = j.(ID)) demo_jobs out.
Proof.
  apply (simulate_total (fun x => x) "calib-aware/v0" demo_jobs demo_targets); [|apply demo_workload|apply demo_calibrated|apply demo_names].
  apply (bool_decide_unpack _). by vm_compute.
Defined.

(** The second job waits for the first to end. *)
Lemma simulate_sound_witness :
  exists e1 e2, demo_out = [Some e1; Some e2] /\
    placement_of FilterTarget demo_targets (fadd (f_of_Z 95) drainS) (demo_job 1 95 (f_lit 6 1000)) e2 /\
    disjoint_in_time e1 e2.
Proof.
  destruct (simulate_sound (fun x => x) 10 "calib-aware/v0" demo_jobs demo_targets demo_out (demo_job 1 95 (f_lit 6 1000))
              demo_workload demo_names demo_ids eq_refl demo_run) as [H1 H2].
  eexists _, _. split; [by vm_compute|]. split.
  - destruct (H1 1%nat (demo_job 1 95 (f_lit 6 1000)) _ eq_refl ltac:(by vm_compute)) as [H|H]; [by vm_compute in H|exact H].
  - eapply (H2 0%nat 1%nat); by vm_compute.
Defined.

Lemma floors_break_by_drift_witness :
  exists t now, t ∈ demo_targets /\ t.(StName) = "a" /\ flt now (f_of_Z 95) = false /\
    snapAt t now <> snapAt t (S754_finite false 8209686820727467 (-46)).
Proof.
  destruct (floors_break_by_drift (fun x => x) 10 "calib-aware/v0" demo_jobs demo_targets demo_out (demo_job 1 95 (f_lit 6 1000))
              1 (demo_job 1 95 (f_lit 6 1000)) _ demo_workload demo_names demo_ids demo_no_nan eq_refl eq_refl demo_run eq_refl
              ltac:(by vm_compute) ltac:(by vm_compute)) as (t & now & H1 & H2 & H3 & _ & H4).
  by exists t, now.
Defined.

(** Draws that count up: Float64 below 1 half, Intn in turn. *)
Definition demo_float (r : Z) : float64 * Z := (fdiv (f_of_Z (r mod 2)) (f_of_Z 2), r + 1).
Definition demo_intn (n r : Z) : Z * Z := (r mod n, r + 1).

Lemma generateWorkload_total_witness :
  exists jobs, generateWorkload demo_float demo_float demo_intn 0 [demo_circuit] 3 = Some jobs /\ length jobs = 3%nat /\
    NoDup (ID <$> jobs) /\ Forall (fun j => j.(Circuit) ∈ [demo_circuit] /\ j.(BShots) ∈ shotChoices) jobs.
Proof.
  apply (generateWorkload_total demo_float demo_float demo_intn 0 [demo_circuit] 3); [|done].
  intros n r H. apply Z.mod_pos_bound. lia.
Defined.
