(* ===== verification/Runner.v ===== *)
(** * The benchmark command — main of src/bench/runner/main.go

    The workload of each seed, the simulation of each policy on it ([Bench]),
    and the schedule files that are left.  The generator behind a seed, the
    JSON encoder and the file system are arguments; the run ends with the
    first failure, which log.Fatal turns into an exit with 1. *)

From S2P Require Import Prelude Float64 GoLib Fmt Qasm Views Scheduler Bench BenchProps.

(** [strings.ReplaceAll] of one byte. *)
Fixpoint replace_char (a b : ascii) (s : string) : string :=
  match s with "" => "" | String c s => String (if Ascii.eqb c a then b else c) (replace_char a b s) end.

Inductive ending := Completed | Fatal (msg : string) | Panicked | OutOfRounds.

(** The files written, by name, and the lines printed. *)
Record progress := mkProgress { schedules : gmap string string; lines : list string }.

Definition mangled (policyName : string) : string := replace_char "." "-" (replace_char "/" "-" policyName).
Definition schedule_name (policyName : string) (seed : Z) : string :=
  "schedule_" +:+ mangled policyName +:+ "_seed" +:+ itoa seed +:+ ".json".

(** [%-18s seed %d: %d jobs, %d placed]; [nil] entries would be dereferenced. *)
Definition placed_count (execs : list execution) : nat := length (List.filter (fun e => negb e.(Unplaced)) execs).
Definition run_line (policyName : string) (seed : Z) (execs : list execution) : string :=
  policyName +:+ spaces (18 - rune_count policyName) +:+ " seed " +:+ itoa seed +:+ ": " +:+ itoa (Z.of_nat (length execs))
    +:+ " jobs, " +:+ itoa (Z.of_nat (placed_count execs)) +:+ " placed".

Section Main.
Context {G : Type} (NewSource : Z -> G) (Float64 ExpFloat64 : G -> float64 * G) (Intn : Z -> G -> Z * G).
Context (math_exp : float64 -> float64) (policy_text : policy_error -> string).
(** The encoder, and the errors of creating files. *)
Context (encode : string -> Z -> list execution -> result string string) (Create : string -> option string).
Context (fuel : nat) (targets : list seriesTarget).

(** One policy on the workload of a seed.  The file exists, empty, when the
    encoding fails. *)
Definition run_policy (seed : Z) (workload : list benchJob) (policyName : string) (p : progress) : ending * progress :=
  match simulate math_exp fuel policyName workload targets with
  | Err e => (Fatal (policy_text e), p)
  | Ok OutOfFuel => (OutOfRounds, p)
  | Ok Panic => (Panicked, p)
  | Ok (Finished out) =>
      let name := schedule_name policyName seed in
      match Create name with
      | Some e => (Fatal e, p)
      | None =>
          match mapM id out with
          | None => (Panicked, mkProgress (<[name := ""]> p.(schedules)) p.(lines))
          | Some execs =>
              match encode policyName seed execs with
              | Err e => (Fatal e, mkProgress (<[name := ""]> p.(schedules)) p.(lines))
              | Ok text => (Completed, mkProgress (<[name := text]> p.(schedules)) (p.(lines) ++ [run_line policyName seed execs]))
              end
          end
      end
  end.

Fixpoint run_policies (seed : Z) (workload : list benchJob) (policies : list string) (p : progress) : ending * progress :=
  match policies with
  | [] => (Completed, p)
  | name :: rest =>
      match run_policy seed workload name p with
      | (Completed, p) => run_policies seed workload rest p
      | stopped => stopped
      end
  end.

Fixpoint run_seeds (circuits : list circuitInfo) (jobsN : nat) (policies : list string) (seeds : list Z) (p : progress) : ending * progress :=
  match seeds with
  | [] => (Completed, p)
  | seed :: rest =>
      match generateWorkload Float64 ExpFloat64 Intn (NewSource seed) circuits jobsN with
      | None => (Panicked, p)
      | Some workload =>
          match run_policies seed workload policies p with
          | (Completed, p) => run_seeds circuits jobsN policies rest p
          | stopped => stopped
          end
      end
  end.

Definition seed_range (baseSeed : Z) (seeds : nat) : list Z := (fun s => wrap64 (baseSeed + Z.of_nat s)) <$> seq 0 seeds.

(** [main] after the flags and the two inputs were read. *)
Definition bench_main (circuits : list circuitInfo) (policiesArg : string) (baseSeed : Z) (seeds jobsN : nat) (dir : gmap string string)
  : ending * progress :=
  run_seeds circuits jobsN (split policiesArg ",") (seed_range baseSeed seeds) (mkProgress dir []).
End Main.

(** ** What a completed run leaves *)

Lemma append_inj_r a b p : a +:+ p = b +:+ p -> a = b.
Proof.
  assert (L : forall x y, String.length (x +:+ y) = (String.length x + String.length y)%nat).
  { induction x as [|c x IH]; intros y; [done|]. change (String c x +:+ y) with (String c (x +:+ y)). cbn [String.length]. by rewrite IH. }
  revert b. induction a as [|c a IH]; intros [|c' b] H; [done| | |].
  - apply (f_equal String.length) in H. rewrite !L in H. cbn [String.length] in H. lia.
  - apply (f_equal String.length) in H. rewrite !L in H. cbn [String.length] in H. lia.
  - change (String c (a +:+ p) = String c' (b +:+ p)) in H. injection H as -> H. f_equal. by apply IH.
Qed.

Lemma itoa_nonneg_inj a b : 0 <= a -> 0 <= b -> itoa a = itoa b -> a = b.
Proof. intros Ha Hb H. apply (f_equal parse_uint) in H. rewrite !parse_itoa in H by done. by injection H. Qed.

(** The schedules of the registered policies never share a file. *)
Lemma schedule_name_inj e p q s t :
  p ∈ RegisteredPolicies e -> q ∈ RegisteredPolicies e -> 0 <= s -> 0 <= t -> schedule_name p s = schedule_name q t -> p = q /\ s = t.
Proof.
  unfold RegisteredPolicies, sort_strings. rewrite !elem_of_sort_by. unfold factories. cbn [fmap list_fmap fst].
  intros Hp Hq Hs Ht H. unfold schedule_name in H. apply append_inj in H.
  assert (C : forall x : string, x ∈ ["fifo/v0"; "static-best/v0"; "round-robin/v0"; "calib-aware/v0"; "pareto/v0"; "adaptive-deferral/v0"] ->
    mangled x = match x with String "f" _ => "fifo-v0" | String "s" _ => "static-best-v0" | String "r" _ => "round-robin-v0"
                | String "c" _ => "calib-aware-v0" | String "p" _ => "pareto-v0" | _ => "adaptive-deferral-v0" end).
  { intros x Hx. repeat (apply elem_of_cons in Hx as [->|Hx]; [by vm_compute|]). by apply elem_of_nil in Hx. }
  rewrite (C p Hp), (C q Hq) in H. clear C.
  repeat (apply elem_of_cons in Hp as [->|Hp]; [|]); try (by apply elem_of_nil in Hp);
    repeat (apply elem_of_cons in Hq as [->|Hq]; [|]); try (by apply elem_of_nil in Hq); try (cbn in H; discriminate H);
    (split; [done|]); do 2 apply append_inj in H; apply append_inj_r in H; by apply itoa_nonneg_inj.
Qed.

Section Complete.
Context {G : Type} (NewSource : Z -> G) (Float64 ExpFloat64 : G -> float64 * G) (Intn : Z -> G -> Z * G).
Context (math_exp : float64 -> float64) (policy_text : policy_error -> string).
Context (encode : string -> Z -> list execution -> result string string) (targets : list seriesTarget).

(** The schedule of a policy on a workload: one entry per job, in order. *)
Definition schedule_of (fuel : nat) (seed : Z) (workload : list benchJob) (pol text : string) : Prop :=
  exists out execs, simulate math_exp fuel pol workload targets = Ok (Finished out) /\ mapM id out = Some execs /\
    Forall2 (fun j e => e.(JobID) = j.(ID)) workload execs /\ encode pol seed execs = Ok text.

Abbreviation policy_run fuel := (run_policy math_exp policy_text encode (fun _ => None) fuel targets).
Abbreviation policies_run fuel := (run_policies math_exp policy_text encode (fun _ => None) fuel targets).
Abbreviation seeds_run fuel := (run_seeds NewSource Float64 ExpFloat64 Intn math_exp policy_text encode (fun _ => None) fuel targets).

Lemma run_policies_ok fuel seed workload policies p :
  0 <= seed -> Forall (fun pol => pol ∈ RegisteredPolicies math_exp) policies ->
  (forall pol, pol ∈ policies -> exists text, schedule_of fuel seed workload pol text) ->
  exists p', policies_run fuel seed workload policies p = (Completed, p') /\
    (forall pol, pol ∈ policies -> exists text, schedule_of fuel seed workload pol text /\ p'.(schedules) !! schedule_name pol seed = Some text) /\
    (forall name, (forall pol, pol ∈ policies -> name <> schedule_name pol seed) -> p'.(schedules) !! name = p.(schedules) !! name).
Proof.
  intros Hs. revert p. induction policies as [|pol policies IH]; intros p R S.
  { exists p. split_and!; [done|by intros ? ?%elem_of_nil|done]. }
  apply Forall_cons in R as [R0 R]. destruct (S pol) as (text & out & execs & E1 & E2 & E3 & E4); [left|]. cbn [run_policies].
  assert (E : policy_run fuel seed workload pol p = (Completed, mkProgress (<[schedule_name pol seed := text]> p.(schedules)) (p.(lines) ++ [run_line pol seed execs]))).
  { unfold run_policy. by rewrite E1, E2, E4. }
  rewrite E. destruct (IH (mkProgress (<[schedule_name pol seed := text]> p.(schedules)) (p.(lines) ++ [run_line pol seed execs])) R)
    as (p' & E' & H1 & H2); [intros q ?; apply S; by right|]. exists p'. split; [exact E'|]. split.
  - intros q Hq. destruct (decide (q ∈ policies)) as [Hin|Hout]; [by apply H1|].
    apply elem_of_cons in Hq as [->|?]; [|done]. exists text. split; [by exists out, execs|]. rewrite H2.
    + cbn [schedules]. apply lookup_insert_eq.
    + intros q Hq Hn. apply (schedule_name_inj math_exp) in Hn as [-> _]; try done. by eapply Forall_forall in R.
  - intros name Hn. rewrite H2 by (intros q ?; apply Hn; by right). cbn [schedules]. apply lookup_insert_ne. intros Heq. by apply (Hn pol); [left|].
Qed.

Lemma run_seeds_ok fuel circuits jobsN policies seeds p :
  Forall (fun s => 0 <= s) seeds -> Forall (fun pol => pol ∈ RegisteredPolicies math_exp) policies ->
  (forall s, s ∈ seeds -> exists workload, generateWorkload Float64 ExpFloat64 Intn (NewSource s) circuits jobsN = Some workload /\
     forall pol, pol ∈ policies -> exists text, schedule_of fuel s workload pol text) ->
  exists p', seeds_run fuel circuits jobsN policies seeds p = (Completed, p') /\
    (forall s pol, s ∈ seeds -> pol ∈ policies -> exists workload text,
       generateWorkload Float64 ExpFloat64 Intn (NewSource s) circuits jobsN = Some workload /\
       schedule_of fuel s workload pol text /\ p'.(schedules) !! schedule_name pol s = Some text) /\
    (forall name, (forall s pol, s ∈ seeds -> pol ∈ policies -> name <> schedule_name pol s) -> p'.(schedules) !! name = p.(schedules) !! name).
Proof.
  intros N R. revert p. induction seeds as [|s seeds IH]; intros p S.
  { exists p. split_and!; [done|by intros ? ? ?%elem_of_nil|done]. }
  apply Forall_cons in N as [N0 N]. destruct (S s) as (workload & W & Hp); [left|]. cbn [run_seeds]. rewrite W.
  destruct (run_policies_ok fuel s workload policies p N0 R Hp) as (p1 & E1 & A1 & A2). rewrite E1.
  destruct (IH N p1) as (p2 & E2 & B1 & B2); [intros t ?; apply S; by right|]. exists p2. split; [exact E2|]. split.
  - intros t pol Ht Hpol. destruct (decide (t ∈ seeds)) as [Hin|Hout]; [by apply B1|].
    apply elem_of_cons in Ht as [->|?]; [|done]. destruct (A1 pol Hpol) as (text & T1 & T2). exists workload, text.
    split; [done|]. split; [done|]. rewrite B2; [done|]. intros u q Hu Hq Hn.
    apply (schedule_name_inj math_exp) in Hn as [_ ->]; [done| | |done|].
      * by apply (proj1 (Forall_forall _ _) R).
      * by apply (proj1 (Forall_forall _ _) R).
      * by apply (proj1 (Forall_forall _ _) N).
  - intros name Hn. rewrite B2 by (intros t pol ?; apply Hn; by right). apply A2. intros pol. apply Hn. left.
Qed.

(** A number of rounds that is enough for each of finitely many runs. *)
Lemma common_fuel {A} (l : list A) (P : A -> nat -> Prop) :
  (forall a, a ∈ l -> exists f, forall more, P a (f + more)%nat) -> exists f, forall a, a ∈ l -> forall more, P a (f + more)%nat.
Proof.
  induction l as [|a l IH]; intros H; [by exists 0%nat; intros ? ?%elem_of_nil|].
  destruct IH as [f1 H1]; [intros b ?; apply H; by right|]. destruct (H a) as [f2 H2]; [left|]. exists (f1 + f2)%nat.
  intros b [->|Hb]%elem_of_cons more.
  - replace (f1 + f2 + more)%nat with (f2 + (f1 + more))%nat by lia. apply H2.
  - replace (f1 + f2 + more)%nat with (f1 + (f2 + more))%nat by lia. by apply H1.
Qed.

Lemma schedule_exists pol seed workload :
  (forall pol seed execs, exists text, encode pol seed execs = Ok text) ->
  pol ∈ RegisteredPolicies math_exp -> workload <> [] -> workload_ok workload -> calibrated targets -> NoDup (StName <$> targets) ->
  exists fuel, forall more, exists text, schedule_of (fuel + more) seed workload pol text.
Proof.
  intros He Hp Hn Hw Hc Hd. destruct (simulate_ends math_exp pol workload targets Hp Hn Hw Hc Hd) as (fuel & out & Hs & F).
  exists fuel. intros more. assert (M : exists execs, mapM id out = Some execs /\ Forall2 (fun j e => e.(JobID) = j.(ID)) workload execs).
  { clear - F. induction F as [|j o js os (e & -> & E) _ (execs & IH1 & IH2)]; [by exists []; split|].
    exists (e :: execs). cbn. rewrite IH1. split; [done|]. by constructor. }
  destruct M as (execs & M1 & M2). destruct (He pol seed execs) as [text T]. exists text, out, execs. by split_and!.
Qed.

(** The benchmark compares like with like: with calibration data for every
    target, policies that are registered, and workloads of times the
    simulation can handle, the command completes, and there is a file for
    every policy and seed, none overwritten by another's, that holds the
    schedule of this policy on the one workload of this seed, with an entry for
    each of its jobs in order. *)
Theorem bench_complete circuits policiesArg baseSeed seeds jobsN dir :
  (forall n r, 0 < n -> 0 <= (Intn n r).1 < n) -> circuits <> [] -> (0 < jobsN)%nat ->
  0 <= baseSeed -> baseSeed + Z.of_nat seeds <= int64_max ->
  Forall (fun pol => pol ∈ RegisteredPolicies math_exp) (split policiesArg ",") ->
  (forall pol seed execs, exists text, encode pol seed execs = Ok text) ->
  calibrated targets -> NoDup (StName <$> targets) ->
  (forall seed workload, generateWorkload Float64 ExpFloat64 Intn (NewSource seed) circuits jobsN = Some workload -> workload_ok workload) ->
  exists fuel, forall more, exists p,
    bench_main NewSource Float64 ExpFloat64 Intn math_exp policy_text encode (fun _ => None) (fuel + more) targets
      circuits policiesArg baseSeed seeds jobsN dir = (Completed, p) /\
    forall s pol, (s < seeds)%nat -> pol ∈ split policiesArg "," ->
      exists workload text, generateWorkload Float64 ExpFloat64 Intn (NewSource (baseSeed + Z.of_nat s)) circuits jobsN = Some workload /\
        length workload = jobsN /\ schedule_of (fuel + more) (baseSeed + Z.of_nat s) workload pol text /\
        p.(schedules) !! schedule_name pol (baseSeed + Z.of_nat s) = Some text.
Proof.
  intros Hi Hc Hj H0 H1 HR He Hcal Hnd Hok.
  assert (W : forall seed, exists workload, generateWorkload Float64 ExpFloat64 Intn (NewSource seed) circuits jobsN = Some workload /\ length workload = jobsN).
  { intros seed. destruct (generateWorkload_total Float64 ExpFloat64 Intn (NewSource seed) circuits jobsN Hi Hc) as (w & E & L & _). by exists w. }
  assert (R : seed_range baseSeed seeds = (fun s => baseSeed + Z.of_nat s) <$> seq 0 seeds).
  { unfold seed_range. apply list_fmap_ext. intros i s Hs%lookup_seq. apply wrap64_id. unfold int64_max, int64_min in *. lia. }
  assert (N : Forall (fun s => 0 <= s) (seed_range baseSeed seeds)).
  { rewrite R. apply Forall_fmap, Forall_forall. intros s _. cbn. lia. }
  destruct (common_fuel (list_prod (seed_range baseSeed seeds) (split policiesArg ","))
    (fun sp fuel => forall workload, generateWorkload Float64 ExpFloat64 Intn (NewSource sp.1) circuits jobsN = Some workload ->
       exists text, schedule_of fuel sp.1 workload sp.2 text)) as [fuel Hf].
  { intros [s pol] Hsp%list_elem_of_In. apply in_prod_iff in Hsp as [_ Hp]. cbn [fst snd].
    destruct (W s) as (workload & E & L). apply list_elem_of_In in Hp. apply (proj1 (Forall_forall _ _) HR) in Hp.
    destruct (schedule_exists pol s workload He Hp) as [fuel Hs]; [by intros ->; cbn in L; lia|by eapply Hok|done|done|].
    exists fuel. intros more w Ew. rewrite E in Ew. injection Ew as <-. apply Hs. }
  exists fuel. intros more. unfold bench_main.
  destruct (run_seeds_ok (fuel + more) circuits jobsN (split policiesArg ",") (seed_range baseSeed seeds) (mkProgress dir []) N HR) as (p & E & S & _).
  { intros s Hs. destruct (W s) as (workload & Ew & _). exists workload. split; [done|]. intros pol Hp.
    apply (Hf (s, pol)); [|done]. apply list_elem_of_In, in_prod; by apply list_elem_of_In. }
  exists p. split; [exact E|]. intros s pol Hs Hp.
  destruct (S (baseSeed + Z.of_nat s) pol) as (workload & text & Ew & T1 & T2); [|done|].
  { rewrite R. apply list_elem_of_fmap. exists s. split; [done|]. apply elem_of_seq. lia. }
  destruct (W (baseSeed + Z.of_nat s)) as (w' & Ew' & L). rewrite Ew in Ew'. injection Ew' as <-. by exists workload, text.
Qed.
End Complete.

(** ** A run of two seeds and two policies *)

Definition half_draw (r : Z) : float64 * Z := (f_lit 1 2, r).
Definition first_draw (_ r : Z) : Z * Z := (0, r).
Definition demo_encode (pol : string) (seed : Z) (execs : list execution) : result string string :=
  Ok (String.concat " " ((fun e => e.(JobID) +:+ "@" +:+ e.(Target)) <$> execs)).

Abbreviation demo_bench fuel :=
  (bench_main id half_draw half_draw first_draw (fun x => x) (fun _ => "unknown policy") demo_encode (fun _ => None) fuel demo_targets
     [demo_circuit] "calib-aware/v0,fifo/v0" 1000 2 2 ∅).

Example demo_files :
  (demo_bench 20).1 = Completed /\
  (demo_bench 20).2.(schedules) !! "schedule_fifo-v0_seed1001.json" = Some "bj-0000@a bj-0001@a".
Proof. vm_compute. split; reflexivity. Qed.

Lemma bench_complete_witness :
  exists fuel p, demo_bench (fuel + 0) = (Completed, p) /\
    exists text, p.(schedules) !! schedule_name "fifo/v0" 1001 = Some text.
Proof.
  destruct (bench_complete id half_draw half_draw first_draw (fun x => x) (fun _ => "unknown policy") demo_encode demo_targets
              [demo_circuit] "calib-aware/v0,fifo/v0" 1000 2 2 ∅) as [fuel H].
  - intros n r Hn. cbn. lia.
  - done.
  - lia.
  - lia.
  - by vm_compute.
  - apply (bool_decide_unpack _). by vm_compute.
  - intros pol seed execs. by eexists.
  - apply demo_calibrated.
  - apply demo_names.
  - intros seed workload E. vm_compute in E. injection E as <-.
    split; [by repeat constructor| |intros j [= <-]; by vm_compute].
    repeat constructor; by left.
  - exists fuel. destruct (H 0%nat) as (p & E & S). exists p. split; [exact E|].
    destruct (S 1%nat "fifo/v0") as (w & text & _ & _ & _ & T); [lia|by right; left|]. by exists text.
Defined.
