(* ===== verification/Login.v ===== *)
(** * The credential of a command — src/cmd/rabi/login.go and [dial] of main.go

    [rabi login] as a function of what the listener, the browser's requests,
    the identity provider and the disk answer; the stored credentials and
    their refresh; and which credential a command presents.  encoding/json,
    the OIDC and OAuth2 libraries and the random bytes are arguments. *)

From S2P Require Import Prelude Float64 GoLib Auth.

(** ** Paths and files *)

(** [path/filepath.Clean], on the parts between slashes, last one first. *)
Definition clean_part (rooted : bool) (st : list string) (p : string) : list string :=
  if String.eqb p "" || String.eqb p "." then st
  else if String.eqb p ".." then
    match st with
    | x :: st' => if String.eqb x ".." then p :: st else st'
    | [] => if rooted then [] else [p]
    end
  else p :: st.

Definition Clean (path : string) : string :=
  let rooted := has_prefix path "/" in
  let parts := rev (fold_left (clean_part rooted) (split path "/") []) in
  let out := (if rooted then "/" else "") +:+ join parts "/" in
  if String.eqb out "" then "." else out.

Definition Join (elem : list string) : string :=
  match List.filter (fun e => negb (String.eqb e "")) elem with [] => "" | l => Clean (join l "/") end.

(** The machine a command runs on: the environment it reads, its files, the
    paths that cannot be read, and how the next directory creation and the
    next write end.  A write that fails may have truncated the file. *)
Record machine := mkMachine {
  RABI_CREDENTIALS : string;
  UserHomeDir : result string string;
  files : gmap string string;
  unreadable : gmap string string;
  mkdir_fails : option string;
  write_fails : option (string * string) }.

Definition set_files (m : machine) (f : gmap string string) : machine :=
  mkMachine m.(RABI_CREDENTIALS) m.(UserHomeDir) f m.(unreadable) m.(mkdir_fails) m.(write_fails).

Inductive read_error := NotExist | ReadFailed (msg : string).

Definition ReadFile (m : machine) (path : string) : result read_error string :=
  match m.(unreadable) !! path, m.(files) !! path with
  | Some e, _ => Err (ReadFailed e)
  | None, Some data => Ok data
  | None, None => Err NotExist
  end.

Definition WriteFile (m : machine) (path data : string) : result string unit * machine :=
  match m.(write_fails) with
  | None => (Ok tt, set_files m (<[path := data]> m.(files)))
  | Some (e, remains) => (Err e, set_files m (<[path := remains]> m.(files)))
  end.

(** ** The stored credentials *)

Record storedCredentials := mkCredentials {
  CrIssuer : string; CrClientID : string; CrIDToken : string; CrRefreshToken : string; CrExpiry : Z }.

Definition credentialsPath (m : machine) : result string string :=
  if negb (String.eqb m.(RABI_CREDENTIALS) "") then Ok m.(RABI_CREDENTIALS)
  else let? home := m.(UserHomeDir) in Ok (Join [home; ".config"; "rabi"; "credentials.json"]).

(** What an OAuth2 token endpoint answers: [tok.RefreshToken] and
    [tok.Extra("id_token").(string)]. *)
Record token := mkToken { TkRefresh : string; TkID : option string }.

(** A discovered provider: the code exchange (client, redirect URL, code, PKCE
    verifier), the refresh (client, refresh token), and the verifier of ID
    tokens (client, token), which gives the subject and the expiry. *)
Record provider := mkProvider {
  Exchange : string -> string -> string -> string -> result string token;
  Refresh : string -> string -> result string token;
  Verify : string -> string -> result string (string * Z) }.

Section Login.
Context (marshal : storedCredentials -> result string string) (unmarshal : string -> result string storedCredentials).
Context (NewProvider : string -> result string provider).

Definition saveCredentials (m : machine) (c : storedCredentials) : result string unit * machine :=
  match credentialsPath m with
  | Err e => (Err e, m)
  | Ok path =>
      match m.(mkdir_fails) with
      | Some e => (Err e, m)
      | None => match marshal c with Err e => (Err e, m) | Ok data => WriteFile m path data end
      end
  end.

Definition expired_text : string := "stored login expired; run `rabi login` again".

(** The refresh of [loadLoginBearer]. *)
Definition refreshLogin (m : machine) (c : storedCredentials) : result string string * machine :=
  match NewProvider c.(CrIssuer) with
  | Err e => (Err ("refreshing login: " +:+ e), m)
  | Ok p =>
      match p.(Refresh) c.(CrClientID) c.(CrRefreshToken) with
      | Err e => (Err ("stored login expired and refresh failed (" +:+ e +:+ "); run `rabi login` again"), m)
      | Ok tok =>
          let rawID := default "" tok.(TkID) in
          if String.eqb rawID "" then (Err "refresh returned no id_token; run `rabi login` again", m)
          else match p.(Verify) c.(CrClientID) rawID with
          | Err e => (Err ("verifying refreshed id_token: " +:+ e), m)
          | Ok (_, expiry) =>
              let refresh := if String.eqb tok.(TkRefresh) "" then c.(CrRefreshToken) else tok.(TkRefresh) in
              match saveCredentials m (mkCredentials c.(CrIssuer) c.(CrClientID) rawID refresh expiry) with
              | (Err e, m') => (Err e, m')
              | (Ok _, m') => (Ok rawID, m')
              end
          end
      end
  end.

Definition loadLoginBearer (now : Z) (m : machine) : result string string * machine :=
  match credentialsPath m with
  | Err e => (Err e, m)
  | Ok path =>
      match ReadFile m path with
      | Err NotExist => (Ok "", m)
      | Err (ReadFailed e) => (Err e, m)
      | Ok data =>
          match unmarshal data with
          | Err e => (Err ("parsing " +:+ path +:+ ": " +:+ e), m)
          | Ok c =>
              if minute <? time_sub c.(CrExpiry) now then (Ok c.(CrIDToken), m)
              else if String.eqb c.(CrRefreshToken) "" then (Err expired_text, m)
              else refreshLogin m c
          end
      end
  end.

(** ** dial *)

Record flags := mkFlags { flagServer : string; flagToken : string; flagOutput : string }.

(** [grpc.NewClient]'s error for an address, if it has one. *)
Context (NewClient : string -> option string).

(** [dial]: the metadata of every call on the connection. *)
Definition dial (f : flags) (now : Z) (m : machine) : result string metadata * machine :=
  let '(bearer, m') := if String.eqb f.(flagToken) "" then loadLoginBearer now m else (Ok f.(flagToken), m) in
  match bearer with
  | Err e => (Err e, m')
  | Ok bearer =>
      if String.eqb bearer "" then (Err "no credential: set --token / RABI_TOKEN or run `rabi login`", m')
      else match NewClient f.(flagServer) with
           | Some e => (Err ("connecting to " +:+ f.(flagServer) +:+ ": " +:+ e), m')
           | None => (Ok (mkMetadata ["Bearer " +:+ bearer] []), m')
           end
  end.

(** ** rabi login *)

(** A request to the callback listener: its path and query. *)
Record request := mkRequest { RqPath : string; RqState : string; RqError : string; RqDescription : string; RqCode : string }.

Definition callback (state : string) (r : request) : option (result string string) :=
  if negb (String.eqb r.(RqPath) "/callback") then None
  else if negb (String.eqb r.(RqState) state) then Some (Err "state mismatch on callback")
  else if negb (String.eqb r.(RqError) "") then Some (Err ("idp error: " +:+ r.(RqError)))
  else Some (Ok r.(RqCode)).

(** The status code and the text of the answer in the browser. *)
Definition answer (state : string) (r : request) : Z * string :=
  if negb (String.eqb r.(RqPath) "/callback") then (404, "404 page not found")
  else if negb (String.eqb r.(RqState) state) then (400, "state mismatch")
  else if negb (String.eqb r.(RqError) "") then (400, r.(RqDescription))
  else (200, "Logged in — you can close this tab and return to rabi.").

(** What a login meets: the listener, the 16 random bytes of the state, the
    PKCE verifier, whether a browser opens, and the requests that arrive
    before the deadline, in order.  The first callback decides. *)
Record encounter := mkEncounter {
  listens : result string string;
  random16 : result string string;
  pkceVerifier : string;
  browser : bool;
  requests : list request }.

(** [conf.AuthCodeURL]: client, redirect URL, state, PKCE verifier. *)
Context (AuthCodeURL : string -> string -> string -> string -> string).

Definition randomHex (bytes : result string string) : result string string := let? b := bytes in Ok (hex b).

Definition redirect_url (addr : string) : string := "http://" +:+ addr +:+ "/callback".

(** The end of [runLogin], once a code has arrived: [None] prints nothing. *)
Definition finishLogin (m : machine) (p : provider) (issuer clientID addr verifier code : string)
  : result string string * machine :=
  match p.(Exchange) clientID (redirect_url addr) code verifier with
  | Err e => (Err ("exchanging code: " +:+ e), m)
  | Ok tok =>
      let rawID := default "" tok.(TkID) in
      if String.eqb rawID "" then (Err "idp returned no id_token", m)
      else match p.(Verify) clientID rawID with
      | Err e => (Err ("verifying id_token: " +:+ e), m)
      | Ok (subject, expiry) =>
          match saveCredentials m (mkCredentials issuer clientID rawID tok.(TkRefresh) expiry) with
          | (Err e, m') => (Err e, m')
          | (Ok _, m') =>
              let path := match credentialsPath m' with Ok p => p | Err _ => "" end in
              (Ok ("logged in as " +:+ subject +:+ " (credentials: " +:+ path +:+ ")"), m')
          end
      end
  end.

(** The lines printed, the error if any, and the machine afterwards. *)
Definition runLogin (m : machine) (e : encounter) (issuer clientID : string) (noBrowser : bool)
  : list string * option string * machine :=
  match NewProvider issuer with
  | Err err => ([], Some ("discovering issuer: " +:+ err), m)
  | Ok p =>
      match e.(listens) with
      | Err err => ([], Some ("callback listener: " +:+ err), m)
      | Ok addr =>
          match randomHex e.(random16) with
          | Err err => ([], Some err, m)
          | Ok state =>
              let url := AuthCodeURL clientID (redirect_url addr) state e.(pkceVerifier) in
              let out := if noBrowser || negb e.(browser) then ["Open this URL to log in:"; ""; "  " +:+ url; ""] else [] in
              match head (omap (callback state) e.(requests)) with
              | None => (out, Some "login timed out waiting for the browser callback", m)
              | Some (Err err) => (out, Some err, m)
              | Some (Ok code) =>
                  match finishLogin m p issuer clientID addr e.(pkceVerifier) code with
                  | (Err err, m') => (out, Some err, m')
                  | (Ok line, m') => (out ++ [line], None, m')
                  end
              end
          end
      end
  end.

(** [newLoginCmd]'s guard. *)
Definition login (m : machine) (e : encounter) (issuer clientID : string) (noBrowser : bool)
  : list string * option string * machine :=
  if String.eqb issuer "" || String.eqb clientID "" then
    ([], Some "set --issuer/--client-id (or RABI_OIDC_ISSUER/RABI_OIDC_CLIENT_ID)", m)
  else runLogin m e issuer clientID noBrowser.

(** ** What a credential is *)

Lemma saveCredentials_ok m c u m' :
  saveCredentials m c = (Ok u, m') ->
  exists path data, credentialsPath m = Ok path /\ marshal c = Ok data /\ m' = set_files m (<[path := data]> m.(files)).
Proof.
  unfold saveCredentials, WriteFile. destruct (credentialsPath m) as [path|]; [|done].
  destruct m.(mkdir_fails); [done|]. destruct (marshal c) as [data|] eqn:E; [|done].
  destruct m.(write_fails) as [[? ?]|]; [done|]. intros [= _ <-]. by exists path, data.
Qed.

Lemma stored_after_save m c path data :
  credentialsPath m = Ok path -> m.(unreadable) !! path = None -> marshal c = Ok data ->
  let m' := set_files m (<[path := data]> m.(files)) in
  credentialsPath m' = Ok path /\ ReadFile m' path = Ok data.
Proof.
  intros Hp Hu Hm. split; [exact Hp|]. unfold ReadFile, set_files. cbn [unreadable files].
  by rewrite Hu, lookup_insert_eq.
Qed.

(** A stored credential that is good for more than a minute is presented as it
    is, and nobody is asked. *)
Lemma load_stored now m path data c :
  credentialsPath m = Ok path -> ReadFile m path = Ok data -> unmarshal data = Ok c ->
  minute < time_sub c.(CrExpiry) now -> loadLoginBearer now m = (Ok c.(CrIDToken), m).
Proof.
  intros Hp Hr Hu Hx. unfold loadLoginBearer. rewrite Hp, Hr, Hu. by apply Z.ltb_lt in Hx as ->.
Qed.

(** Which credential a command presents: the one of the flag or the
    environment if there is one, and then no file is read or written; otherwise
    the token of the last login while it is good for more than a minute;
    otherwise a token that the provider stored with the login has just issued
    for its refresh token and whose signature and audience that provider
    accepts, which is then what the credentials file holds, with its expiry. *)
Lemma dial_credential f now m md m' :
  dial f now m = (Ok md, m') ->
  exists bearer, md = mkMetadata ["Bearer " +:+ bearer] [] /\ bearer <> "" /\ bearerFromContext (Some md) = bearer /\
    (if String.eqb f.(flagToken) "" then
       exists path data c, credentialsPath m = Ok path /\ ReadFile m path = Ok data /\ unmarshal data = Ok c /\
         ((minute < time_sub c.(CrExpiry) now /\ bearer = c.(CrIDToken) /\ m' = m) \/
          (time_sub c.(CrExpiry) now <= minute /\ c.(CrRefreshToken) <> "" /\
           exists p tok subject expiry data', NewProvider c.(CrIssuer) = Ok p /\
             p.(Refresh) c.(CrClientID) c.(CrRefreshToken) = Ok tok /\ tok.(TkID) = Some bearer /\
             p.(Verify) c.(CrClientID) bearer = Ok (subject, expiry) /\
             marshal (mkCredentials c.(CrIssuer) c.(CrClientID) bearer
                        (if String.eqb tok.(TkRefresh) "" then c.(CrRefreshToken) else tok.(TkRefresh)) expiry) = Ok data' /\
             m' = set_files m (<[path := data']> m.(files))))
     else bearer = f.(flagToken) /\ m' = m).
Proof.
  unfold dial. intros H.
  destruct (if String.eqb f.(flagToken) "" then _ else _) as [[bearer|] m1] eqn:B; [|done].
  destruct (String.eqb bearer "") eqn:N; [done|]. destruct (NewClient _); [done|]. injection H as <- <-. to_prop.
  exists bearer. split_and!; [done|done| |].
  { unfold bearerFromContext. cbn [authorization gateway_authorization app omap list_omap].
    rewrite cut_prefix_append. by apply String.eqb_neq in N as ->. }
  destruct (String.eqb f.(flagToken) ""); [|by injection B as <- <-].
  unfold loadLoginBearer in B. destruct (credentialsPath m) as [path|] eqn:P; [|done].
  destruct (ReadFile m path) as [data|[]] eqn:R; [|by injection B as <- <-|done].
  destruct (unmarshal data) as [c|] eqn:U; [|done]. exists path, data, c. split_and!; [done..|].
  destruct (Z.ltb_spec minute (time_sub c.(CrExpiry) now)) as [Hx|Hx]; [left; by injection B as <- <-|]. right.
  destruct (String.eqb c.(CrRefreshToken) "") eqn:Er; [done|]. to_prop. split_and!; [done|done|].
  unfold refreshLogin in B. destruct (NewProvider _) as [p|] eqn:Ep; [|done].
  destruct (p.(Refresh) _ _) as [tok|] eqn:Et; [|done]. destruct (String.eqb (default "" tok.(TkID)) "") eqn:Ei; [done|].
  destruct (p.(Verify) _ _) as [[subject expiry]|] eqn:Ev; [|done].
  destruct (saveCredentials _ _) as [[|] m2] eqn:S; [|done]. injection B as <- <-.
  apply saveCredentials_ok in S as (path' & data' & P' & M & ->). assert (path' = path) as -> by congruence.
  destruct tok.(TkID) as [raw|] eqn:Eraw; [|done]. cbn [default from_option id] in *.
  exists p, tok, subject, expiry, data'. split_and!; done.
Qed.

(** ** What a login needs and leaves *)

(** The first request to the callback path decides. *)
Lemma first_callback state reqs r :
  head (omap (callback state) reqs) = Some r ->
  exists before q after, reqs = before ++ q :: after /\ Forall (fun q => q.(RqPath) <> "/callback") before /\
    q.(RqPath) = "/callback" /\ callback state q = Some r.
Proof.
  induction reqs as [|q reqs IH]; [done|]. cbn [omap list_omap].
  destruct (callback state q) as [r'|] eqn:C.
  - intros [= ->]. exists [], q, reqs. split_and!; [done|done| |done].
    unfold callback in C. destruct (String.eqb q.(RqPath) "/callback") eqn:P; [by to_prop|done].
  - intros H. destruct (IH H) as (before & q' & after & -> & Hb & Hq & Hc).
    exists (q :: before), q', after. split_and!; [done| |done|done]. constructor; [|done].
    unfold callback in C. destruct (String.eqb q.(RqPath) "/callback") eqn:P; [|by to_prop].
    cbn [negb] in C. by repeat (destruct (negb _)).
Qed.

Lemma callback_code state q code :
  callback state q = Some (Ok code) -> q.(RqState) = state /\ q.(RqError) = "" /\ q.(RqCode) = code.
Proof.
  unfold callback. destruct (String.eqb q.(RqPath) _); [|done].
  destruct (String.eqb q.(RqState) state) eqn:S; [|done]. destruct (String.eqb q.(RqError) "") eqn:E; [|done].
  intros [= <-]. by to_prop.
Qed.

(** The provider's answers behind a change of the machine. *)
Definition granted (p : provider) (clientID addr verifier code raw subject : string) (tok : token) (expiry : Z) : Prop :=
  p.(Exchange) clientID (redirect_url addr) code verifier = Ok tok /\ tok.(TkID) = Some raw /\ raw <> "" /\
  p.(Verify) clientID raw = Ok (subject, expiry).

Lemma finishLogin_cases m p issuer clientID addr verifier code r m' :
  finishLogin m p issuer clientID addr verifier code = (r, m') ->
  (m' = m /\ (exists e, r = Err e)) \/
  exists raw subject tok expiry u, granted p clientID addr verifier code raw subject tok expiry /\
    saveCredentials m (mkCredentials issuer clientID raw tok.(TkRefresh) expiry) = (u, m') /\ (forall l, r = Ok l -> u = Ok tt).
Proof.
  unfold finishLogin. destruct (p.(Exchange) _ _ _ _) as [tok|] eqn:X; [|intros [= <- <-]; left; eauto].
  destruct (String.eqb (default "" tok.(TkID)) "") eqn:I; [intros [= <- <-]; left; eauto|].
  destruct (p.(Verify) _ _) as [[subject expiry]|] eqn:V; [|intros [= <- <-]; left; eauto]. to_prop.
  destruct tok.(TkID) as [raw|] eqn:R; [|done]. cbn [default from_option id] in *.
  destruct (saveCredentials _ _) as [[[]|e] m2] eqn:S; intros [= <- <-]; right;
    exists raw, subject, tok, expiry; eexists; (split_and!; [by split_and!|exact S|done]).
Qed.

(** A login cannot be forged from another page: [rabi login] touches no
    file unless the first request to its callback carried the random state it
    generated and no error, and the provider granted, for that request's code
    and the PKCE verifier of this login, a token that it accepts for the
    client; any other first callback ends the login with an error. *)
Lemma login_needs_state m e issuer clientID noBrowser out err m' :
  login m e issuer clientID noBrowser = (out, err, m') -> err = None \/ m' <> m ->
  exists p addr rnd before r after raw subject tok expiry,
    NewProvider issuer = Ok p /\ e.(listens) = Ok addr /\ e.(random16) = Ok rnd /\
    e.(requests) = before ++ r :: after /\ Forall (fun q => q.(RqPath) <> "/callback") before /\
    r.(RqPath) = "/callback" /\ r.(RqState) = hex rnd /\ r.(RqError) = "" /\
    granted p clientID addr e.(pkceVerifier) r.(RqCode) raw subject tok expiry.
Proof.
  unfold login, runLogin, randomHex. intros H Hd.
  assert (G : forall o x, (o, Some x, m) = (out, err, m') -> False) by (intros o x [= _ <- <-]; by destruct Hd).
  destruct (_ || _); [by apply G in H|]. destruct (NewProvider issuer) as [p|] eqn:P; [|by apply G in H].
  destruct e.(listens) as [addr|] eqn:L; [|by apply G in H]. destruct e.(random16) as [rnd|] eqn:R; [|by apply G in H].
  cbn [rbind] in H. destruct (head _) as [[code|]|] eqn:C; [|by apply G in H|by apply G in H].
  apply first_callback in C as (before & q & after & Hq & Hb & Hp & Hc). apply callback_code in Hc as (H1 & H2 & <-).
  destruct (finishLogin _ _ _ _ _ _ _) as [r m2] eqn:F. apply finishLogin_cases in F as [[-> [x ->]]|F]; [by apply G in H|].
  destruct F as (raw & subject & tok & expiry & u & Hg & _). exists p, addr, rnd, before, q, after, raw, subject, tok, expiry. done.
Qed.

(** A login lasts: after [rabi login] has ended well, every command until
    one minute before the token expires presents the token the provider
    granted, asks nobody and leaves the file as it is; if the file can be read
    and the JSON decoder reads back the credentials that were encoded. *)
Theorem login_lasts m e issuer clientID noBrowser out m' :
  (forall path, credentialsPath m = Ok path -> m.(unreadable) !! path = None) ->
  login m e issuer clientID noBrowser = (out, None, m') ->
  exists p addr code raw subject tok expiry, NewProvider issuer = Ok p /\
    granted p clientID addr e.(pkceVerifier) code raw subject tok expiry /\
    let c := mkCredentials issuer clientID raw tok.(TkRefresh) expiry in
    forall f now, (forall data, marshal c = Ok data -> unmarshal data = Ok c) ->
      f.(flagToken) = "" -> NewClient f.(flagServer) = None -> minute < time_sub expiry now ->
      dial f now m' = (Ok (mkMetadata ["Bearer " +:+ raw] []), m').
Proof.
  intros Hu H. unfold login, runLogin, randomHex in H. destruct (_ || _); [done|].
  destruct (NewProvider issuer) as [p|] eqn:P; [|done]. destruct e.(listens) as [addr|]; [|done].
  destruct e.(random16) as [rnd|]; [|done]. cbn [rbind] in H. destruct (head _) as [[code|]|]; [|done|done].
  destruct (finishLogin _ _ _ _ _ _ _) as [[line|] m2] eqn:F; [|done]. injection H as _ <-.
  apply finishLogin_cases in F as [[_ [x ?]]|(raw & subject & tok & expiry & u & Hg & S & Hl)]; [done|].
  rewrite (Hl line eq_refl) in S. apply saveCredentials_ok in S as (path & data & Hp & Hm & ->).
  exists p, addr, code, raw, subject, tok, expiry. split_and!; [done|done|]. intros c f now Hj Hf Hc Hx.
  destruct (stored_after_save m _ path data Hp (Hu _ Hp) Hm) as [Hp' Hr].
  unfold dial. rewrite Hf. cbn [String.eqb]. rewrite (load_stored now _ path data _ Hp' Hr (Hj _ Hm) Hx). cbn [c CrIDToken].
  destruct Hg as (_ & _ & Hraw & _). apply String.eqb_neq in Hraw as ->. by rewrite Hc.
Qed.
End Login.

(** ** A concrete login *)

#[global] Instance storedCredentials_eq_dec : EqDecision storedCredentials.
Proof. solve_decision. Defined.

Definition demo_saved (raw : string) : storedCredentials :=
  mkCredentials "https://idp" "rabi" raw "r1" (date_utc 2026 5 1 12 0 0 0).
Definition demo_marshal (c : storedCredentials) : result string string :=
  if decide (c = demo_saved c.(CrIDToken)) then Ok c.(CrIDToken) else Err "unsupported".
Definition demo_unmarshal (data : string) : result string storedCredentials := Ok (demo_saved data).

Definition demo_idp : provider :=
  mkProvider (fun _ _ code _ => if String.eqb code "c0de" then Ok (mkToken "r1" (Some "id.1")) else Err "invalid_grant")
    (fun _ r => if String.eqb r "r1" then Ok (mkToken "" (Some "id.2")) else Err "invalid_grant")
    (fun _ _ => Ok ("alice", date_utc 2026 5 1 12 0 0 0)).
Definition demo_discover (issuer : string) : result string provider :=
  if String.eqb issuer "https://idp" then Ok demo_idp else Err "not found".

Definition demo_machine : machine := mkMachine "" (Ok "/home/alice/") ∅ ∅ None None.
Definition demo_encounter (state code : string) : encounter :=
  mkEncounter (Ok "127.0.0.1:4711") (Ok "0123456789abcdef") "pkce" true
    [mkRequest "/favicon.ico" "" "" "" ""; mkRequest "/callback" state "" "" code].
Definition demo_state : string := hex "0123456789abcdef".
Definition demo_flags : flags := mkFlags "localhost:9090" "" "table".

Abbreviation demo_login state code :=
  (login demo_marshal demo_discover (fun _ _ _ _ => "https://idp/auth") demo_machine (demo_encounter state code) "https://idp" "rabi" false).
Abbreviation demo_dial now m := (dial demo_marshal demo_unmarshal demo_discover (fun _ => None) demo_flags now m).

Definition demo_path : string := "/home/alice/.config/rabi/credentials.json".
Definition demo_stored (raw : string) : machine := set_files demo_machine {[ demo_path := raw ]}.

Lemma demo_login_examples :
  demo_login demo_state "c0de" = (["logged in as alice (credentials: " +:+ demo_path +:+ ")"], None, demo_stored "id.1") /\
  demo_login "guess" "c0de" = ([], Some "state mismatch on callback", demo_machine) /\
  demo_dial (date_utc 2026 5 1 11 58 59 0) (demo_stored "id.1") = (Ok (mkMetadata ["Bearer id.1"] []), demo_stored "id.1") /\
  demo_dial (date_utc 2026 5 1 11 59 0 0) (demo_stored "id.1") = (Ok (mkMetadata ["Bearer id.2"] []), demo_stored "id.2") /\
  demo_dial 0 demo_machine = (Err "no credential: set --token / RABI_TOKEN or run `rabi login`", demo_machine).
Proof. vm_compute. split_and!; reflexivity. Qed.

Lemma dial_credential_witness :
  exists bearer, bearerFromContext (Some (mkMetadata ["Bearer id.2"] [])) = bearer /\ bearer <> "".
Proof.
  destruct (dial_credential demo_marshal demo_unmarshal demo_discover (fun _ => None) demo_flags
              (date_utc 2026 5 1 11 59 0 0) (demo_stored "id.1") _ _ (proj1 (proj2 (proj2 (proj2 demo_login_examples)))))
    as (bearer & _ & H & E & _).
  by exists bearer.
Defined.

Lemma login_needs_state_witness :
  exists r : request, r.(RqState) = demo_state.
Proof.
  destruct (login_needs_state demo_marshal demo_discover (fun _ _ _ _ => "https://idp/auth") demo_machine
              (demo_encounter demo_state "c0de") "https://idp" "rabi" false _ _ _ (proj1 demo_login_examples) (or_introl eq_refl))
    as (p & addr & rnd & before & r & after & raw & subject & tok & expiry & _ & _ & R & _ & _ & _ & S & _).
  exists r. injection R as <-. exact S.
Defined.

Lemma login_lasts_witness :
  exists raw, demo_dial (date_utc 2026 5 1 11 58 59 0) (demo_stored "id.1") = (Ok (mkMetadata ["Bearer " +:+ raw] []), demo_stored "id.1").
Proof.
  destruct (login_lasts demo_marshal demo_unmarshal demo_discover (fun _ => None) (fun _ _ _ _ => "https://idp/auth") demo_machine
              (demo_encounter demo_state "c0de") "https://idp" "rabi" false _ _ (fun _ _ => lookup_empty _) (proj1 demo_login_examples))
    as (p & addr & code & raw & subject & tok & expiry & P & (_ & _ & _ & V) & L).
  injection P as <-. injection V as <- <-. exists raw. apply L; [|done|done|by vm_compute].
  intros data. unfold demo_marshal. case_decide as D; [|done]. intros [= <-]. unfold demo_unmarshal. f_equal. symmetry. exact D.
Defined.
