(* ===== verification/Cli.v ===== *)
(** * The command-line client — src/cmd/rabi

    Every command as a function of its flags and arguments, the machine it
    runs on ([Login]), the network and the control plane it talks to: the
    handlers of [Api] behind the interceptor of [Auth].  The result is what is
    printed, the error that makes it exit with 1, and the next machine and
    database.  protojson, the YAML converter and what [Login] takes as
    arguments are arguments. *)

From S2P Require Import Prelude Float64 GoLib Csv Fmt Phase Database JobStore Tables Lifecycle Auth Admission Api ApiProps Views Filter Registry Operator Evidence Login.

(** ** A command *)

Inductive cli_error := Local (msg : string) | Call (e : rpc_error).

Record run_out (A : Type) := mkOut {
  stdout : string; stderr : string; outcome : result cli_error A; machine_after : machine; base : db }.
#[global] Arguments mkOut {A}.
#[global] Arguments stdout {A}.
#[global] Arguments stderr {A}.
#[global] Arguments outcome {A}.
#[global] Arguments machine_after {A}.
#[global] Arguments base {A}.

Abbreviation cli A := (machine -> db -> run_out A).

Definition cret {A} (a : A) : cli A := fun m d => mkOut "" "" (Ok a) m d.
Definition cfail {A} (e : cli_error) : cli A := fun m d => mkOut "" "" (Err e) m d.
Definition local {A} (r : result string A) : cli A := fun m d =>
  mkOut "" "" (match r with Ok a => Ok a | Err e => Err (Local e) end) m d.
Definition print (s : string) : cli unit := fun m d => mkOut s "" (Ok tt) m d.
Definition warn (s : string) : cli unit := fun m d => mkOut "" s (Ok tt) m d.

Definition cbind {A B} (c : cli A) (k : A -> cli B) : cli B := fun m d =>
  let r := c m d in
  match r.(outcome) with
  | Err e => mkOut r.(stdout) r.(stderr) (Err e) r.(machine_after) r.(base)
  | Ok a =>
      let r' := k a r.(machine_after) r.(base) in
      mkOut (r.(stdout) +:+ r'.(stdout)) (r.(stderr) +:+ r'.(stderr)) r'.(outcome) r'.(machine_after) r'.(base)
  end.

Notation "'cmd?' x := m 'in' k" := (cbind m (fun x => k))
  (at level 10, x pattern, m at level 100, k at level 200) : rabi_scope.

(** [main]: an error goes to standard error and the process exits with 1. *)
Definition main {A} (text : cli_error -> string) (c : cli A) (m : machine) (d : db) : run_out Z :=
  let r := c m d in
  match r.(outcome) with
  | Ok _ => mkOut r.(stdout) r.(stderr) (Ok 0) r.(machine_after) r.(base)
  | Err e => mkOut r.(stdout) (r.(stderr) +:+ "rabi: " +:+ text e +:+ newline) (Ok 1) r.(machine_after) r.(base)
  end.

Definition envOr (value fallback : string) : string := if String.eqb value "" then fallback else value.

(** ** Texts *)

(** [lookup]: nested string-keyed maps, ["-"] when absent. *)
Fixpoint lookup_path (cur : any) (path : list string) : any :=
  match path with
  | [] => cur
  | p :: rest =>
      match cur with
      | JObj m => match m !! p with Some v => lookup_path v rest | None => JStr "-" end
      | _ => JStr "-"
      end
  end.
Definition lookup_ (d : doc) (path : list string) : any := lookup_path (JObj d) path.

Definition orDash (s : string) : string := if String.eqb s "" then "-" else s.

(** [truncate] cuts bytes. *)
Definition truncate (s : string) (n : nat) : string :=
  if Nat.leb (String.length s) n then s else String.substring 0 (n - 1) s +:+ "…".

(** [jobDetail]: the placement's reason, or the last condition's message. *)
Definition last_message (st : doc) : string :=
  match last (arr_or_nil (st !! "conditions")) with
  | Some c => str_or_empty (obj_or_nil (Some c) !! "message")
  | None => ""
  end.

Definition jobDetail (st : doc) : string :=
  let reason := str_or_empty (obj_or_nil (st !! "placement") !! "reason") in
  if negb (String.eqb reason "") then truncate reason 80
  else if negb (String.eqb (last_message st) "") then truncate (last_message st) 80 else "".

Definition phase_order : list string :=
  ["PENDING"; "SCHEDULED"; "SUBMITTED"; "RUNNING"; "SUCCEEDED"; "FAILED"; "CANCELLED"].

Definition phaseSummary (counts : gmap string Z) : string :=
  join (omap (fun p => let n := default 0 (counts !! p) in
                       if 0 <? n then Some (p +:+ " " +:+ itoa n) else None) phase_order) " · ".

(** [t.AsTime().Format(time.DateOnly)] and [time.DateTime]; a missing
    timestamp is the Unix epoch. *)
Definition unix_epoch : Z := date_utc 1970 1 1 0 0 0 0.
Definition date_only (t : option Z) : string := String.substring 0 10 (fmt_rfc3339 (default unix_epoch t)).
Definition date_time (t : option Z) : string :=
  date_only t +:+ " " +:+ String.substring 11 8 (fmt_rfc3339 (default unix_epoch t)).

(** [tsOrNil] of api/admin.go. *)
Definition ts_of (t : option Z) : option Z := match t with Some z => ts_or_nil z | None => None end.

(** The messages a command prints whole. *)
Inductive message :=
  | MJob (j : ProtoJob) | MJobs (r : ListJobsResponse) | MTargets (l : list Target) | MUsage (l : list UsageTotal)
  | MPrincipal (p : Principal) | MToken (plain : string) (t : TokenRecord) | MTokens (l : list TokenRecord)
  | MProject (p : ProjectRecord) | MProjects (l : list ProjectRecord) | MQuotas (l : list QuotaRecord).

(** ** Rows *)

Definition jobSummaryLine (j : ProtoJob) : list string :=
  let phase := str_or_empty (j.(PbStatus) !! "phase") in
  [j.(PbJobId); fmt_v (lookup_ j.(PbQuantumJob) ["metadata"; "name"]); j.(PbTenant);
   if String.eqb phase "" then "-" else phase].

Definition job_header : list string := ["JOB_ID"; "NAME"; "TENANT"; "PHASE"].

Definition fleet_row (j : ProtoJob) : list string :=
  [rune_prefix 8 j.(PbJobId) +:+ "…"; fmt_v (lookup_ j.(PbQuantumJob) ["metadata"; "name"]); j.(PbTenant);
   str_or_empty (j.(PbStatus) !! "phase"); orDash (str_or_empty (j.(PbStatus) !! "boundTarget")); jobDetail j.(PbStatus)].

Definition target_row (t : Target) : list string :=
  [t.(TgName); fmt_v (lookup_ t.(TgCaps) ["target"; "modality"]); fmt_v (lookup_ t.(TgCaps) ["numQubits"]);
   fmt_v (lookup_ (default ∅ t.(TgState)) ["status"])].

Definition project_row (p : ProjectRecord) : list string :=
  [p.(PTenant); p.(POrg); p.(PName); itoa p.(PWeight); date_only (ts_or_nil p.(PCreatedAt));
   match ts_of p.(ArchivedAt) with Some t => "archived " +:+ date_only (Some t) | None => "active" end].

Definition token_row (t : TokenRecord) : list string :=
  [t.(TokID); t.(TokName); t.(TokProject); t.(TokRole); date_only (ts_or_nil t.(TokCreatedAt));
   match ts_of t.(LastUsedAt) with Some u => date_time (Some u) | None => "never" end;
   match ts_of t.(RevokedAt) with Some r => "revoked " +:+ date_only (Some r) | None => "active" end].

Definition quota_row (q : QuotaRecord) : list string := [q.(QTenant); q.(QUnit); format_g q.(QLimit)].
Definition usage_row (u : UsageTotal) : list string := [u.(UTarget); u.(UUnit); format_g u.(UAmount)].

(** One redraw of [watch --all]: [counts[phase]++] over the jobs shown. *)
Definition tally (jobs : list ProtoJob) : gmap string Z :=
  fold_left (fun counts j => let phase := str_or_empty (j.(PbStatus) !! "phase") in
                             <[phase := default 0 (counts !! phase) + 1]> counts) jobs ∅.

Definition fleet_header : list string := ["JOB_ID"; "NAME"; "TENANT"; "PHASE"; "TARGET"; "DETAIL"].
Definition clear_screen : string := String "027" "[H" +:+ String "027" "[2J".

Definition fleet_screen (jobs : list ProtoJob) : string :=
  clear_screen +:+ "rabi fleet — " +:+ phaseSummary (tally jobs) +:+ newline +:+ newline
    +:+ table (fleet_header :: (fleet_row <$> jobs)) +:+ newline.

(** ** Calls *)

Section Cli.
(** The control plane: what [Api]'s handlers take, and its clock. *)
Context (sha256 : string -> string) (authn : Authenticator) (schema : doc -> option string)
  (range : list string -> list string) (fleet : FleetView) (canceller : option (string -> db -> result string unit * db))
  (encode_caps : Capabilities -> result string doc) (encode_state : DeviceState -> result string doc) (registry : Registry.Registry) (server_now : Z).
(** The client: [Login]'s arguments, its clock and flags. *)
Context (marshal : storedCredentials -> result string string) (unmarshal : string -> result string storedCredentials)
  (NewProvider : string -> result string provider) (NewClient : string -> option string) (now : Z) (f : flags).
Context (protojson : bool -> message -> result string string) (JSONToYAML : string -> result string string)
  (YAMLToJSON : string -> result string string) (struct_of_json : string -> result string doc).

Definition connect : cli metadata := fun m d =>
  let '(r, m') := dial marshal unmarshal NewProvider NewClient f now m in
  mkOut "" "" (match r with Ok md => Ok md | Err e => Err (Local e) end) m' d.

(** A unary call of a client stub: the network, the interceptor, the handler. *)
Definition invoke {A} (n : network) (method : string) (handler : context -> api A) (md : metadata) : cli A := fun m d =>
  let '(r, d') := rpc n (fun d => intercept sha256 authn d server_now (Some md) method handler) d in
  mkOut "" "" (match r with Ok a => Ok a | Err e => Err (Call e) end) m d'.

(** Every command dials and then makes one call. *)
Definition remote {A} (n : network) (method : string) (handler : context -> api A) : cli A :=
  cmd? md := connect in invoke n method handler md.

Definition as_json : bool := String.eqb f.(flagOutput) "json".

Definition printProto (msg : message) : cli unit :=
  if as_json then cmd? out := local (protojson true msg) in print (out +:+ newline)
  else cmd? out := local (protojson false msg) in cmd? y := local (JSONToYAML out) in print y.

Definition print_table {A} (header : list string) (row : A -> list string) (l : list A) : cli unit :=
  print (table (header :: (row <$> l))).

(** ** jobs.go *)

(** os.ReadFile's error, with the text the system gives a missing file. *)
Definition read (path : string) : cli string := fun m d =>
  mkOut "" "" (match ReadFile m path with
               | Ok data => Ok data
               | Err NotExist => Err (Local ("open " +:+ path +:+ ": no such file or directory"))
               | Err (ReadFailed e) => Err (Local e)
               end) m d.

Definition parsing {A} (file : string) (r : result string A) : cli A :=
  local (match r with Ok a => Ok a | Err e => Err ("parsing " +:+ file +:+ ": " +:+ e) end).

Definition phase_text (j : ProtoJob) : string := fmt_v (default JNull (j.(PbStatus) !! "phase")).

(** [rabi submit]; [uuid] is the identifier the server would give the job. *)
Definition submit (n : network) (uuid : string) (stdin : result string string) (file : string) (dryRun : bool) (tenant : string)
  : cli unit :=
  cmd? raw := if String.eqb file "-" then local stdin else read file in
  cmd? asJSON := parsing file (YAMLToJSON raw) in
  cmd? doc := parsing file (struct_of_json asJSON) in
  cmd? j := remote n (jobs_svc "SubmitJob")
              (fun ctx => SubmitJob schema range ctx server_now uuid (Some doc) tenant dryRun fleet) in
  if dryRun then cmd? _ := warn ("dry run: validation passed, nothing enqueued" +:+ newline) in printProto (MJob j)
  else print (j.(PbJobId) +:+ tab +:+ phase_text j +:+ newline).

Definition get (n : network) (id : string) : cli unit :=
  cmd? j := remote n (jobs_svc "GetJob") (fun ctx => GetJob_rpc ctx id) in printProto (MJob j).

Definition list_ (n : network) (tenant phase : string) : cli unit :=
  cmd? resp := remote n (jobs_svc "ListJobs") (fun ctx => ListJobs_rpc ctx tenant phase "" 0) in
  if as_json then printProto (MJobs resp)
  else match resp.(LJobs) with
       | [] => print ("0 jobs" +:+ newline)
       | jobs => print_table job_header jobSummaryLine jobs
       end.

(** [rabi watch JOB_ID]: a header once the stream is open, then a line per
    message, each laid out by itself; the handler's error arrives with the
    first message.  [ticks] are the databases the server's polls find, and a
    stream that does not end by itself breaks with [lost]. *)
Definition watch (n : network) (ticks : list db) (lost : rpc_error) (id : string) : cli unit :=
  cmd? md := connect in
  cmd? _ := match n with
            | RequestLost e => cfail (Call (Unreachable e))
            | _ => print (table [job_header])
            end in
  cmd? r := invoke n (jobs_svc "WatchJob") (fun ctx d => (WatchJob ctx id d ticks, d)) md in
  cmd? _ := print (String.concat "" ((fun j => table [jobSummaryLine j]) <$> r.1)) in
  if r.2 then cret tt else cfail (Call lost).

(** [watchAll]: [polls] are the database each poll finds and the network's
    answer; the loop ends with the first error, or when it is interrupted
    after the last poll. *)
Fixpoint watch_polls (md : metadata) (tenant : string) (polls : list (db * network)) : cli unit :=
  match polls with
  | [] => cret tt
  | (d, n) :: rest => fun m d0 =>
      (cmd? resp := fun m _ => invoke n (jobs_svc "ListJobs") (fun ctx => ListJobs_rpc ctx tenant "" "" 500) md m d in
       cmd? _ := print (fleet_screen resp.(LJobs)) in watch_polls md tenant rest) m d0
  end.

Definition watchAll (tenant : string) (polls : list (db * network)) : cli unit :=
  cmd? md := connect in watch_polls md tenant polls.

Definition cancel (n : network) (id : string) : cli unit :=
  cmd? j := remote n (jobs_svc "CancelJob") (fun ctx => CancelJob ctx server_now id canceller) in
  print (j.(PbJobId) +:+ tab +:+ phase_text j +:+ newline).

(** ** targets.go, usage.go *)

Definition targets (n : network) (modality : string) : cli unit :=
  cmd? l := remote n (targets_svc "ListTargets") (fun _ d => (ListTargets_rpc encode_caps encode_state registry modality, d)) in
  if as_json then cmd? out := local (protojson true (MTargets l)) in print (out +:+ newline)
  else match l with
       | [] => print ("0 targets" +:+ newline)
       | _ => print_table ["NAME"; "MODALITY"; "QUBITS"; "STATUS"] target_row l
       end.

Definition usage_svc (m : string) : string := "/tangle.api.v1alpha1.UsageService/" +:+ m.

Definition usage (n : network) (tenant : string) : cli unit :=
  cmd? l := remote n (usage_svc "GetTenantUsage") (fun ctx => GetTenantUsage ctx tenant None None) in
  if as_json then printProto (MUsage l)
  else match l with
       | [] => print ("no usage recorded" +:+ newline)
       | _ => print_table ["TARGET"; "UNIT"; "AMOUNT"] usage_row l
       end.

(** The strict YAML decoder, [path.Match] and the policy file of an export. *)
Context (yaml : string -> result string Policy) (path_match : string -> string -> option bool).

Definition cost_error_text (e : cost_error) : string :=
  match e with
  | BadYaml c => "normalization policy: " +:+ c
  | MissingVersion => "normalization policy: version and currency are required"
  | BadRate => "normalization policy: rates need a unit and a non-negative rate"
  | BadGlob g => "normalization policy: bad target glob " +:+ quote g +:+ ": syntax error in pattern"
  end.

(** The entries of the response, as the command rebuilds them. *)
Definition exported (e : LedgerEntry) : LedgerEntry :=
  mkLedgerEntry e.(LID) e.(LJobID) e.(LTaskID) e.(LTenant) e.(LTarget) e.(LUnit) e.(LAmount) time_zero.

Definition usage_export (n : network) (project policyPath : string) : cli unit :=
  cmd? raw := read policyPath in
  cmd? policy := local (match ParsePolicy path_match yaml raw with Ok p => Ok p | Err e => Err (cost_error_text e) end) in
  cmd? entries := remote n (admin_svc "ExportLedger") (fun ctx => ExportLedger ctx project) in
  print (WriteCSV format_g (Normalize path_match (exported <$> entries) policy)).

(** ** admin.go *)

Definition whoami (n : network) : cli unit :=
  cmd? p := remote n (admin_svc "WhoAmI") WhoAmI in
  if as_json then printProto (MPrincipal p)
  else print ("subject:" +:+ tab +:+ p.(PSubject) +:+ newline +:+ "name:" +:+ tab +:+ p.(PDisplay) +:+ newline
           +:+ "type:" +:+ tab +:+ p.(PType) +:+ newline +:+ "role:" +:+ tab +:+ Role_String p.(PRole) +:+ newline
           +:+ "project:" +:+ tab +:+ orDash p.(PProject) +:+ newline).

Definition token_create (n : network) (idb sec : string) (name project role : string) : cli unit :=
  cmd? r := remote n (admin_svc "CreateToken") (fun ctx => CreateToken sha256 ctx server_now name project role idb sec) in
  if as_json then printProto (MToken r.1 r.2)
  else print ("token: " +:+ r.1 +:+ newline +:+ "id: " +:+ r.2.(TokID) +:+ "  project: " +:+ r.2.(TokProject) +:+ "  role: "
           +:+ r.2.(TokRole) +:+ newline +:+ newline +:+ "Store the token now — it cannot be shown again." +:+ newline).

Definition token_list (n : network) (project : string) : cli unit :=
  cmd? l := remote n (admin_svc "ListTokens") (fun _ => ListTokens_rpc project) in
  if as_json then printProto (MTokens l)
  else print_table ["ID"; "NAME"; "PROJECT"; "ROLE"; "CREATED"; "LAST USED"; "STATUS"] token_row l.

Definition token_revoke (n : network) (id : string) : cli unit :=
  cmd? found := remote n (admin_svc "RevokeToken") (fun _ => RevokeToken_rpc server_now id) in
  if negb found then cfail (Local ("token " +:+ quote id +:+ " not found"))
  else print ("token " +:+ id +:+ " revoked" +:+ newline).

(** ** tenancy.go *)

Definition project_create (n : network) (tenant : string) (weight : Z) : cli unit :=
  cmd? p := remote n (admin_svc "CreateProject") (fun _ => CreateProject server_now tenant weight) in
  if as_json then printProto (MProject p)
  else print ("project " +:+ p.(PTenant) +:+ " (org " +:+ p.(POrg) +:+ ", name " +:+ p.(PName) +:+ ", weight "
           +:+ itoa p.(PWeight) +:+ ")" +:+ newline).

Definition project_list (n : network) (includeArchived : bool) : cli unit :=
  cmd? l := remote n (admin_svc "ListProjects") (fun _ => ListProjects_rpc includeArchived) in
  if as_json then printProto (MProjects l)
  else print_table ["TENANT"; "ORG"; "PROJECT"; "WEIGHT"; "CREATED"; "STATUS"] project_row l.

Definition project_archive (n : network) (tenant : string) : cli unit :=
  cmd? found := remote n (admin_svc "ArchiveProject") (fun _ => ArchiveProject_rpc server_now tenant) in
  if negb found then cfail (Local ("project " +:+ quote tenant +:+ " not found"))
  else print ("project " +:+ tenant +:+ " archived" +:+ newline).

(** [quota set]'s limit: -1 with --remove, otherwise the number scanned. *)
Definition quota_limit (limit : option string) (remove : bool) : result string float64 :=
  if remove then Ok (f_of_Z (-1))
  else match limit with
  | None => Err "limit required unless --remove"
  | Some s =>
      match sscanf_g s with
      | Some x => if flt x f0 then Err "limit must be a non-negative number" else Ok x
      | None => Err "limit must be a non-negative number"
      end
  end.

Definition quota_set (n : network) (tenant unit_ : string) (limit : option string) (remove : bool) : cli unit :=
  cmd? l := local (quota_limit limit remove) in
  cmd? _ := remote n (admin_svc "SetQuota") (fun _ => SetQuota_rpc tenant unit_ l) in
  if remove then print ("quota " +:+ tenant +:+ "/" +:+ unit_ +:+ " removed" +:+ newline)
  else print ("quota " +:+ tenant +:+ "/" +:+ unit_ +:+ " = " +:+ format_g l +:+ newline).

Definition quota_list (n : network) (tenant : string) : cli unit :=
  cmd? l := remote n (admin_svc "ListQuotas") (fun _ => ListQuotas_rpc tenant) in
  if as_json then printProto (MQuotas l)
  else print_table ["TENANT"; "UNIT"; "LIMIT"] quota_row l.

(** ** What a successful command did *)

Lemma cbind_ok {A B} (c : cli A) (k : A -> cli B) m d b :
  (cbind c k m d).(outcome) = Ok b ->
  exists a, (c m d).(outcome) = Ok a /\ (k a (c m d).(machine_after) (c m d).(base)).(outcome) = Ok b /\
    (cbind c k m d).(stdout) = (c m d).(stdout) +:+ (k a (c m d).(machine_after) (c m d).(base)).(stdout) /\
    (cbind c k m d).(base) = (k a (c m d).(machine_after) (c m d).(base)).(base).
Proof. unfold cbind. destruct (c m d).(outcome) as [a|]; [|done]. intros H. by exists a. Qed.

Lemma local_ok {A} (r : result string A) m d a : (local r m d).(outcome) = Ok a -> r = Ok a.
Proof. unfold local. destruct r; [by intros [= ->]|done]. Qed.

(** The credential that the command presents, and the principal that it stands
    for when the server looks at it. *)
Definition presents (m : machine) (md : metadata) : Prop := (dial marshal unmarshal NewProvider NewClient f now m).1 = Ok md.

Definition caller (md : metadata) (d : db) (p : Principal) : Prop := (Authenticate sha256 authn d server_now (Some md)).1 = Ok p.

(** A call that succeeded was answered: the interceptor let it pass with the
    principal of the credential, whom the matrix allows, and the handler ran on
    its database. *)
Lemma remote_ok {A} n method (handler : context -> api A) m d a :
  let r := remote n method handler m d in
  r.(outcome) = Ok a ->
  r.(stdout) = "" /\
  exists md p tokens log, n = Delivered /\ presents m md /\ caller md d p /\
    Authorize p method = Ok tt /\
    handler (Some p) (set_audit_log (set_api_tokens d tokens) log) = (Ok a, r.(base)).
Proof.
  cbv zeta. unfold remote. intros H. destruct (cbind_ok _ _ _ _ _ H) as (md & H1 & H2 & HS & HB). rewrite HS, HB. clear HS HB H.
  unfold connect, presents in *. destruct (dial _ _ _ _ f now m) as [[md'|] m'] eqn:D; [|done]. cbn [outcome stdout base machine_after] in *.
  injection H1 as ->. unfold invoke in *. destruct (rpc n _ d) as [[a'|] d'] eqn:R; [|done]. cbn [outcome stdout base] in *. injection H2 as ->.
  split; [done|]. unfold rpc in R. destruct n; [|done|done]. destruct (intercept _ _ _ _ _ _ _) as [[a'|] d2] eqn:I; [|done]. injection R as -> ->.
  apply intercept_ok in I as (p & d0 & HA & Z & (tokens & log & -> & _) & I).
  exists md, p, tokens, (d.(audit_log) ++ log).
  split; [reflexivity|]. split; [reflexivity|]. split; [exact HA|]. split; [exact Z|exact I].
Qed.

Lemma printProto_base msg m d : (printProto msg m d).(base) = d.
Proof. unfold printProto, cbind, local, print. destruct as_json; cbn; by repeat case_match. Qed.

(** ** Submitting *)

Lemma Admit_doc dc tenant adm : Admit schema range (Some dc) tenant fleet server_now = Ok adm -> adm.(ADoc) = dc.
Proof. unfold Admit, rbind. intros H. repeat (case_match; try done). by injection H as <-. Qed.

Lemma read_ok path m d raw : (read path m d).(outcome) = Ok raw -> ReadFile m path = Ok raw.
Proof. unfold read. cbn [outcome]. destruct (ReadFile m path) as [|[]]; [by intros [= ->]|done|done]. Qed.

(** (C35) What [rabi submit] promises: when it exits with 0 the document of the
    file was admitted, in a project that the principal of the credential it
    presented may use.  Without --dry-run it has printed the identifier of a
    job that is now in the database, PENDING, with that document and in that
    project; the job did not exist before, and no other job was touched.  With
    --dry-run no job and no event was written. *)
Theorem submit_prints_job n uuid stdin file dryRun tenant m d :
  let r := submit n uuid stdin file dryRun tenant m d in
  r.(outcome) = Ok tt ->
  exists raw asJSON doc md p adm,
    (if String.eqb file "-" then stdin = Ok raw else ReadFile m file = Ok raw) /\
    YAMLToJSON raw = Ok asJSON /\ struct_of_json asJSON = Ok doc /\
    presents m md /\ caller md d p /\ Authorize p (jobs_svc "SubmitJob") = Ok tt /\
    Admit schema range (Some doc) tenant fleet server_now = Ok adm /\ CheckProject (Some p) adm.(ATenant) = Ok tt /\
    if dryRun then r.(base).(jobs) = d.(jobs) /\ r.(base).(job_events) = d.(job_events)
    else exists rec, d.(jobs) !! uuid = None /\ r.(base).(jobs) = <[uuid := rec]> d.(jobs) /\
      rec.(JobID) = uuid /\ rec.(Tenant) = adm.(ATenant) /\ rec.(JPhase) = Pending /\ rec.(Doc) = doc /\
      r.(stdout) = uuid +:+ tab +:+ Pending +:+ newline.
Proof.
  cbv zeta. unfold submit. intros H.
  destruct (cbind_ok _ _ _ _ _ H) as (raw & H1 & H2 & S1 & B1). clear H. rewrite S1, B1. clear S1 B1.
  assert (R : (if String.eqb file "-" then stdin = Ok raw else ReadFile m file = Ok raw) /\
    forall x, (if String.eqb file "-" then local stdin else read file) m d = x ->
      x.(stdout) = "" /\ x.(machine_after) = m /\ x.(base) = d).
  { destruct (String.eqb file "-"); [apply local_ok in H1|apply read_ok in H1]; (split; [exact H1|]); by intros x <-. }
  destruct R as [R F]. specialize (F _ eq_refl) as (F1 & F2 & F3). rewrite F1, F2, F3 in *. clear F1 F2 F3 H1.
  destruct (cbind_ok _ _ _ _ _ H2) as (asJSON & H1 & H3 & S1 & B1). clear H2. rewrite S1, B1. clear S1 B1.
  apply local_ok in H1. destruct (YAMLToJSON raw) as [j1|] eqn:Y; [|done]. injection H1 as ->.
  destruct (cbind_ok _ _ _ _ _ H3) as (doc & H1 & H2 & S1 & B1). clear H3. rewrite S1, B1. clear S1 B1.
  apply local_ok in H1. destruct (struct_of_json asJSON) as [j2|] eqn:J; [|done]. injection H1 as ->.
  cbn [parsing local stdout machine_after base] in *.
  destruct (cbind_ok _ _ _ _ _ H2) as (pj & H1 & _ & S1 & B1). clear H2. rewrite S1, B1. clear S1 B1.
  destruct (remote_ok _ _ _ _ _ _ H1) as (S & md & p & tokens & log & _ & HD & HP & Z & Hs). rewrite S. clear S H1.
  exists raw, asJSON, doc, md, p. destruct dryRun.
  - apply SubmitJob_dry in Hs as (adm & A & C & E). exists adm.
    do 8 (split; [first [exact R|exact Y|exact J|exact HD|exact HP|exact Z|exact A|exact C]|]).
    unfold cbind, warn. cbn [outcome base machine_after]. rewrite printProto_base, E. split; reflexivity.
  - apply SubmitJob_ok in Hs as (adm & rec & A & C & _ & _ & N & I & E1 & E2 & E3 & E4 & E5 & ->). exists adm.
    do 8 (split; [first [exact R|exact Y|exact J|exact HD|exact HP|exact Z|exact A|exact C]|]).
    apply Admit_doc in A. cbn [print base stdout]. exists rec.
    do 4 (split; [first [exact N|exact I|exact E1|exact E2]|]). split; [exact E3|]. split; [by rewrite E4|].
    unfold phase_text. cbn [jobToProto PbJobId PbStatus]. by rewrite E5, E1.
Qed.

(** ** Quotas *)

(** [rabi quota set]: without --remove the limit must scan as a number
    that is not negative, or nothing happens; when the command exits with 0
    the quota of the project and unit, and no other, is set to that number or
    removed, the project exists, and nothing else in the database that the
    control plane works on has changed. *)
Theorem quota_set_spec n tenant unit_ limit remove m d :
  let r := quota_set n tenant unit_ limit remove m d in
  match quota_limit limit remove with
  | Err e => r = mkOut "" "" (Err (Local e)) m d
  | Ok l =>
      (remove = false -> exists s, limit = Some s /\ sscanf_g s = Some l /\ flt l f0 = false) /\
      (r.(outcome) = Ok tt ->
         is_Some (d.(projects) !! tenant) /\ tenant <> "" /\ unit_ <> "" /\
         r.(base).(project_quotas) = (if remove then delete (tenant, unit_) d.(project_quotas)
                                      else <[(tenant, unit_) := l]> d.(project_quotas)) /\
         same_core d r.(base) /\ r.(base).(projects) = d.(projects) /\
         r.(stdout) = if remove then "quota " +:+ tenant +:+ "/" +:+ unit_ +:+ " removed" +:+ newline
                      else "quota " +:+ tenant +:+ "/" +:+ unit_ +:+ " = " +:+ format_g l +:+ newline)
  end.
Proof.
  cbv zeta. unfold quota_set. destruct (quota_limit limit remove) as [l|e] eqn:Q; [|done]. split.
  { intros ->. unfold quota_limit in Q. destruct limit as [s|]; [|done]. destruct (sscanf_g s) as [x|] eqn:Sc; [|done].
    destruct (flt x f0) eqn:Lt; [done|]. injection Q as ->. by exists s. }
  intros H. destruct (cbind_ok _ _ _ _ _ H) as (l' & H1 & H2 & S1 & B1). clear H. rewrite S1, B1. clear S1 B1.
  injection H1 as <-. cbn [local stdout machine_after base] in *.
  destruct (cbind_ok _ _ _ _ _ H2) as (u & H1 & H3 & S1 & B1). clear H2 H3. rewrite S1, B1. clear S1 B1.
  destruct (remote_ok _ _ _ _ _ _ H1) as (S & md & p & tokens & log & _ & _ & _ & _ & Hq). rewrite S. clear H1 S.
  destruct (remote _ _ _ m d) as [so se ou ma ba]. cbn [base machine_after stdout] in *.
  unfold SetQuota_rpc in Hq. destruct (String.eqb tenant "" || String.eqb unit_ "") eqn:N; [done|]. to_prop.
  apply abind_ok in Hq as (pr & d1 & G & Hq). apply acall_ok in G, Hq. unfold GetProject in G.
  change (projects (set_audit_log (set_api_tokens d tokens) log)) with (projects d) in G.
  destruct (d.(projects) !! tenant) as [pr'|] eqn:P; [|done]. injection G as -> <-. destruct u.
  assert (R : flt l f0 = remove).
  { unfold quota_limit in Q. destruct remove; [by injection Q as <-|]. destruct limit as [s|]; [|done].
    destruct (sscanf_g s) as [x|]; [|done]. destruct (flt x f0) eqn:Lt; [done|]. by injection Q as <-. }
  unfold SetQuota in Hq. rewrite R in Hq. destruct remove.
  - injection Hq as <-. split_and!; [by eexists|done..].
  - change (projects (set_audit_log (set_api_tokens d tokens) log)) with (projects d) in Hq. rewrite P in Hq.
    injection Hq as <-. split_and!; [by eexists|done..].
Qed.

(** ** The cost export *)

Lemma price_exported p e : price path_match p (exported e) = price path_match p e.
Proof. by destruct e. Qed.

Lemma ExportLedger_ok p project d l d' :
  ExportLedger (Some p) project d = (Ok l, d') ->
  d' = d /\ exists t, export_tenant (Some p) project = Ok t /\ l = LedgerEntries d t.
Proof.
  intros H. apply abind_ok in H as (t & d1 & H1 & H2). apply alift_ok in H1 as [H1 ->]. injection H2 as <- <-.
  split; [done|]. by exists t.
Qed.

(** (C36) The export is the ledger, priced: when [rabi usage export] exits with
    0 it has printed the canonical CSV of exactly the ledger rows of the
    tenant asked for, or, when the credential it presented is scoped to a
    project, of that project, under the policy of the file, whatever of the
    rows the network messages leave out; and it has changed no ledger row.  So
    the same rows and the same policy file give the same bytes. *)
Theorem usage_export_is_ledger n project policyPath m d :
  let r := usage_export n project policyPath m d in
  r.(outcome) = Ok tt ->
  exists raw policy md p tenant, ReadFile m policyPath = Ok raw /\ ParsePolicy path_match yaml raw = Ok policy /\
    presents m md /\ caller md d p /\ Authorize p (admin_svc "ExportLedger") = Ok tt /\
    r.(stdout) = WriteCSV format_g (Normalize path_match (LedgerEntries d tenant) policy) /\
    r.(base).(usage_ledger) = d.(usage_ledger) /\
    (if String.eqb p.(PProject) "" then tenant = project
     else tenant = p.(PProject) /\ (project = "" \/ project = tenant) /\
          Forall (fun e => e.(LTenant) = p.(PProject)) (LedgerEntries d tenant)).
Proof.
  cbv zeta. unfold usage_export. intros H.
  destruct (cbind_ok _ _ _ _ _ H) as (raw & H1 & H2 & S1 & B1). clear H. rewrite S1, B1. clear S1 B1. apply read_ok in H1.
  destruct (cbind_ok _ _ _ _ _ H2) as (policy & H3 & H4 & S1 & B1). clear H2. rewrite S1, B1. clear S1 B1. apply local_ok in H3.
  destruct (ParsePolicy path_match yaml raw) as [policy'|] eqn:P; [|done]. injection H3 as ->.
  destruct (cbind_ok _ _ _ _ _ H4) as (l & H5 & H6 & S1 & B1). clear H4 H6. rewrite S1, B1. clear S1 B1.
  destruct (remote_ok _ _ _ _ _ _ H5) as (S & md & p & tokens & log & _ & HD & HP & Z & E). rewrite S. clear S H5.
  cbn [read local base machine_after stdout print] in *. apply ExportLedger_ok in E as (-> & t & T & ->).
  exists raw, policy, md, p, t. do 5 (split; [first [exact H1|exact P|exact HD|exact HP|exact Z]|]). split; [|split; [reflexivity|]].
  - change (LedgerEntries (set_audit_log (set_api_tokens d tokens) log) t) with (LedgerEntries d t). clear.
    repeat change ("" +:+ ?x) with x. unfold Normalize. do 2 f_equal. rewrite <- list_fmap_compose. apply list_fmap_ext. intros i e _. apply price_exported.
  - destruct (String.eqb p.(PProject) "") eqn:S.
    + unfold export_tenant in T. cbn [FromContext] in T. rewrite S in T. by injection T as ->.
    + apply String.eqb_neq in S. pose proof (export_tenant_scoped p project t S T) as ->. split; [done|]. split.
      * unfold export_tenant in T. cbn [FromContext] in T. apply String.eqb_neq in S. rewrite S in T.
        destruct (String.eqb project "") eqn:Q; [left; by to_prop|]. destruct (CheckProject (Some p) project); [|done].
        injection T as ->. by right.
      * apply Forall_forall. intros e He. unfold LedgerEntries in He. rewrite elem_of_sort_by, list_elem_of_In, List.filter_In in He.
        destruct He as [_ He]. clear - S He. apply orb_true_iff in He as [He|He]; by to_prop.
Qed.

(** ** The live view *)

Definition shown_phase (j : ProtoJob) : string := str_or_empty (j.(PbStatus) !! "phase").

Fixpoint occurrences (p : string) (ps : list string) : Z :=
  match ps with [] => 0 | q :: rest => (if String.eqb q p then 1 else 0) + occurrences p rest end.

(** One more of a phase. *)
Definition bump (counts : gmap string Z) (p : string) : gmap string Z := <[p := default 0 (counts !! p) + 1]> counts.

Lemma fold_bump ps counts p :
  default 0 (fold_left bump ps counts !! p) = default 0 (counts !! p) + occurrences p ps.
Proof.
  revert counts. induction ps as [|q ps IH]; intros counts; [simpl; lia|]. cbn [fold_left occurrences]. rewrite IH. unfold bump.
  destruct (String.eqb_spec q p) as [->|Hne]; [rewrite lookup_insert_eq|rewrite lookup_insert_ne by done];
    cbn [default from_option id]; lia.
Qed.

Lemma tally_spec jobs p : default 0 (tally jobs !! p) = occurrences p (shown_phase <$> jobs).
Proof.
  unfold tally. replace (fold_left _ jobs ∅) with (fold_left bump (shown_phase <$> jobs) ∅).
  - by rewrite fold_bump, lookup_empty.
  - generalize (∅ : gmap string Z). induction jobs as [|j jobs IH]; intros counts; [done|]. cbn [fmap list_fmap fold_left]. by rewrite IH.
Qed.

Lemma occurrences_total ps :
  Forall (fun p => p ∈ phase_order) ps ->
  foldr (fun p n => occurrences p ps + n) 0 phase_order = Z.of_nat (length ps).
Proof.
  induction 1 as [|q ps Hq H IH]; [done|]. cbn [length foldr phase_order occurrences] in *. unfold phase_order in Hq.
  repeat (apply elem_of_cons in Hq as [->|Hq]; [cbn; lia|]). by apply elem_of_nil in Hq.
Qed.

(** A redraw of [rabi watch --all] counts every job it shows: each phase
    has in the summary the number of rows with that phase, and the numbers of
    the summary add up to the number of rows, which is at most 500: of a
    larger fleet only the newest jobs are there. *)
Theorem live_view_counts ctx tenant t d resp d' :
  effectiveTenant ctx tenant = Ok t ->
  ListJobs_rpc ctx tenant "" "" 500 d = (Ok resp, d') ->
  resp.(LJobs) = jobToProto <$> take 500 (matching d t "") /\
  (forall p, default 0 (tally resp.(LJobs) !! p) = occurrences p (shown_phase <$> resp.(LJobs))) /\
  (Forall (fun j => shown_phase j ∈ phase_order) resp.(LJobs) ->
     foldr (fun p n => default 0 (tally resp.(LJobs) !! p) + n) 0 phase_order
       = Z.min 500 (Z.of_nat (length (matching d t "")))).
Proof.
  intros Ht H. pose proof (ListJobs_rpc_run ctx tenant t "" "" 0 500 d eq_refl Ht) as R.
  rewrite H in R. cbn [fst] in R. injection R as ->. cbn [LJobs]. change (Z.to_nat (page_size 500)) with 500%nat.
  change (skipn (Z.to_nat 0) ?l) with l. split_and!; [done|intros p; apply tally_spec|]. intros F.
  assert (E : forall l, foldr (fun p n => default 0 (tally (jobToProto <$> take 500 (matching d t "")) !! p) + n) 0 l =
                        foldr (fun p n => occurrences p (shown_phase <$> (jobToProto <$> take 500 (matching d t ""))) + n) 0 l).
  { induction l as [|p l IH]; [done|]. cbn [foldr]. by rewrite IH, tally_spec. }
  rewrite E, occurrences_total, !length_fmap, length_take; [lia|]. by apply Forall_fmap.
Qed.
End Cli.

(** ** A session with the client *)

Definition cli_flags : flags := mkFlags "localhost:9090" "boot" "table".
Definition cli_files : machine :=
  set_files demo_machine (list_to_map [("job.yaml", "job"); ("policy.yaml", "policy")]).

Definition demo_project : db := (EnsureProject empty_db 5 "acme/chem").2.

Definition cost_policy (_ : string) : result string Policy :=
  Ok (mkCostPolicy "2026-1" "EUR" [mkRate "shots" "" (f_lit 1 2)]).

Definition demo_ledger : db :=
  set_usage_ledger demo_project [mkLedgerEntry 1 "j1" "t1" "acme/chem" "sim/aer" "shots" (f_of_Z 100) 7].

Definition demo_submit (n : network) : run_out unit :=
  submit demo_sha256 demo_auth demo_schema (fun l => l) (mkFleetView [] []) 10
    demo_marshal demo_unmarshal demo_discover (fun _ => None) 10 cli_flags
    (fun _ _ => Ok "{}") (fun s => Ok s) (fun s => Ok s) (fun _ => Ok demo_document) n "j-77" (Err "closed") "job.yaml" false ""
    cli_files demo_project.

Definition demo_quota_set (limit : option string) (remove : bool) : run_out unit :=
  quota_set demo_sha256 demo_auth 10 demo_marshal demo_unmarshal demo_discover (fun _ => None) 10 cli_flags
    Delivered "acme/chem" "shots" limit remove cli_files demo_project.

Definition demo_export : run_out unit :=
  usage_export demo_sha256 demo_auth 10 demo_marshal demo_unmarshal demo_discover (fun _ => None) 10 cli_flags
    cost_policy (fun _ _ => Some true) Delivered "" "policy.yaml" cli_files demo_ledger.

Example demo_cli :
  (demo_submit Delivered).(outcome) = Ok tt /\
  (demo_submit Delivered).(stdout) = "j-77" +:+ tab +:+ "PENDING" +:+ newline /\
  (demo_submit (ReplyLost "deadline exceeded")).(outcome) = Err (Call (Unreachable "deadline exceeded")) /\
  (demo_quota_set (Some "1000") false).(stdout) = "quota acme/chem/shots = 1000" +:+ newline /\
  demo_export.(outcome) = Ok tt.
Proof. vm_compute. split_and!; reflexivity. Qed.

Lemma submit_prints_job_witness :
  exists rec, (demo_submit Delivered).(base).(jobs) = <["j-77" := rec]> demo_project.(jobs) /\ rec.(JPhase) = Pending.
Proof.
  destruct (submit_prints_job demo_sha256 demo_auth demo_schema (fun l => l) (mkFleetView [] []) 10
    demo_marshal demo_unmarshal demo_discover (fun _ => None) 10 cli_flags
    (fun _ _ => Ok "{}") (fun s => Ok s) (fun s => Ok s) (fun _ => Ok demo_document) Delivered "j-77" (Err "closed") "job.yaml" false ""
    cli_files demo_project (proj1 demo_cli)) as (_ & _ & _ & _ & _ & adm & _ & _ & _ & _ & _ & _ & _ & _ & rec & _ & H & _ & _ & P & _).
  exists rec. exact (conj H P).
Defined.

Lemma quota_set_spec_witness :
  (demo_quota_set (Some "1000") false).(base).(project_quotas) !! ("acme/chem", "shots") = Some (f_of_Z 1000).
Proof.
  pose proof (quota_set_spec demo_sha256 demo_auth 10 demo_marshal demo_unmarshal demo_discover (fun _ => None) 10 cli_flags
    Delivered "acme/chem" "shots" (Some "1000") false cli_files demo_project) as H.
  assert (Q : quota_limit (Some "1000") false = Ok (f_of_Z 1000)) by (vm_compute; reflexivity).
  cbv zeta in H. rewrite Q in H. destruct H as [_ H].
  destruct (H ltac:(vm_compute; reflexivity)) as (_ & _ & _ & E & _). unfold demo_quota_set. rewrite E. apply lookup_insert_eq.
Defined.

Lemma usage_export_is_ledger_witness :
  exists policy tenant, demo_export.(stdout) = WriteCSV format_g (Normalize (fun _ _ => Some true) (LedgerEntries demo_ledger tenant) policy).
Proof.
  destruct (usage_export_is_ledger demo_sha256 demo_auth 10 demo_marshal demo_unmarshal demo_discover (fun _ => None) 10 cli_flags
    cost_policy (fun _ _ => Some true) Delivered "" "policy.yaml" cli_files demo_ledger
    ltac:(vm_compute; reflexivity)) as (raw & policy & md & p & t & _ & _ & _ & _ & _ & S & _).
  exists policy, t. exact S.
Defined.

(** A live view of a database with one job more than it can show. *)
Lemma live_view_counts_witness :
  exists resp d', ListJobs_rpc (Some demo_member) "" "" "" 500 demo_bound = (Ok resp, d') /\
    forall p, default 0 (tally resp.(LJobs) !! p) = occurrences p (shown_phase <$> resp.(LJobs)).
Proof.
  destruct (ListJobs_rpc (Some demo_member) "" "" "" 500 demo_bound) as [[resp|e] d'] eqn:E; [|discriminate E].
  exists resp, d'. split; [reflexivity|].
  exact (proj1 (proj2 (live_view_counts (Some demo_member) "" "acme/chem" demo_bound resp d' eq_refl E))).
Defined.

Lemma table_aligned_witness :
  exists widths, length widths = 3%nat /\
    table [job_header; ["j-77"; "bell"; "acme/chem"; "PENDING"]] =
    String.concat "" ((fun r => write_line widths r +:+ newline) <$> [job_header; ["j-77"; "bell"; "acme/chem"; "PENDING"]]).
Proof.
  destruct (table_aligned [job_header; ["j-77"; "bell"; "acme/chem"; "PENDING"]] 4) as (widths & L & _ & T);
    [discriminate|lia|by repeat constructor|].
  exists widths. split; [exact L|exact T].
Defined.

(** ** What the client lets through *)

(** A limit that is not a number is not below zero: [quota set] stores it, and
    admission, which asks whether the sum is above the limit, never refuses. *)
Lemma quota_nan_unlimited :
  (demo_quota_set (Some "nan") false).(outcome) = Ok tt /\
  (demo_quota_set (Some "nan") false).(base).(project_quotas) !! ("acme/chem", "shots") = Some S754_nan /\
  forall d tenant u req, d.(project_quotas) !! (tenant, u) = Some S754_nan -> check_quotas d tenant [(u, req)] = Ok tt.
Proof.
  split; [vm_compute; reflexivity|]. split; [vm_compute; reflexivity|]. intros d tenant u req H. cbn [check_quotas].
  rewrite H, fgt_flt, flt_nan_l by done. done.
Qed.

(** The scan stops at the first character that is not part of a number and the
    rest of the argument is dropped. *)
Lemma quota_reads_prefix :
  (demo_quota_set (Some "1,000") false).(base).(project_quotas) !! ("acme/chem", "shots") = Some (f_of_Z 1) /\
  (demo_quota_set (Some "10k") false).(base).(project_quotas) !! ("acme/chem", "shots") = Some (f_of_Z 10) /\
  (demo_quota_set (Some "-1") false).(outcome) = Err (Local "limit must be a non-negative number").
Proof. split; [|split]; vm_compute; reflexivity. Qed.

(** A submission whose reply is lost exits with 1 and leaves the job. *)
Lemma submit_reply_lost :
  (main (fun _ => "unreachable") (fun _ _ => demo_submit (ReplyLost "deadline exceeded")) cli_files demo_project).(outcome) = Ok 1 /\
  is_Some ((demo_submit (ReplyLost "deadline exceeded")).(base).(jobs) !! "j-77").
Proof. split; [vm_compute; reflexivity|]. vm_compute. by eexists. Qed.

(** A detail is cut at a byte: the last character may lose its end. *)
Lemma truncate_splits_rune :
  truncate "abéd" 4 = "ab" +:+ String "195" "…" /\ rune_count (truncate "abéd" 4) = 4%nat.
Proof. vm_compute. split; reflexivity. Qed.
