(* ===== verification/DeepCopy.v ===== *)
(** * Copies of custom resources — src/operator/api/v1alpha1/types.go

    The hand-written deep copies, over an explicit heap: what the copy shares
    with its original is a question about addresses.  The deep copies of the
    Kubernetes types they are made of are arguments, with the laws of
    [CopyLaws]; the same laws are then proved of the copies of this file. *)

From S2P Require Import Prelude.
From stdpp Require Import fin_maps fin_sets.

(** ** The heap *)

Section DeepCopy.
(** The Kubernetes types, and what their own cells hold. *)
Context {Lib TypeMeta ObjectMeta ListMeta RawExtension Time : Type}.

Record QuantumJobStatus := mkStatus {
  JobID : string; Phase : string; BoundTarget : string; PlacementReason : string; Message : string; SyncedAt : Time }.

Record QuantumJob := mkJob { JType : TypeMeta; JMeta : ObjectMeta; JSpec : RawExtension; JStatus : QuantumJobStatus }.

(** A cell of a Kubernetes value, or the array of a list of resources. *)
Inductive memory_cell := LibCell (b : Lib) | ItemsCell (items : list QuantumJob).

Abbreviation heap := (gmap nat memory_cell).

(** [Items] is nil or the address of its array. *)
Record QuantumJobList := mkList { LType : TypeMeta; LMeta : ListMeta; Items : option nat }.

(** What a deep copy is about: the addresses a value reaches, and deep
    equality of two values in their heaps. *)
Class Copyable (A : Type) := {
  deep_copy : heap -> A -> A * heap;
  cells : heap -> A -> gset nat;
  same : heap -> A -> heap -> A -> Prop }.

(** The laws: a value reads its own cells only; a copy leaves the heap as it
    was and lives in new cells, deeply equal. *)
Class CopyLaws (A : Type) `{Copyable A} : Prop := {
  cells_frame h h' a : (forall x, x ∈ cells h a -> h !! x = h' !! x) -> cells h' a = cells h a;
  same_frame h h' a g b : (forall x, x ∈ cells h a -> h !! x = h' !! x) -> same g b h a -> same g b h' a;
  same_frame_l h h' a g b : (forall x, x ∈ cells h a -> h !! x = h' !! x) -> same h a g b -> same h' a g b;
  deep_copy_law h a a' h' : cells h a ⊆ dom h -> deep_copy h a = (a', h') ->
    h ⊆ h' /\ cells h' a' ## dom h /\ cells h' a' ⊆ dom h' /\ same h a h' a' }.

Context `{!Copyable ObjectMeta, !Copyable ListMeta, !Copyable RawExtension, !Copyable Time}.

(** ** types.go *)

(** [out] takes the copied fields; the rest of the status is texts. *)
Definition QuantumJob_DeepCopyInto (h : heap) (job : QuantumJob) : QuantumJob * heap :=
  let '(meta, h) := deep_copy h job.(JMeta) in
  let '(spec, h) := deep_copy h job.(JSpec) in
  let st := job.(JStatus) in
  let '(synced, h) := deep_copy h st.(SyncedAt) in
  (mkJob job.(JType) meta spec
     (mkStatus st.(JobID) st.(Phase) st.(BoundTarget) st.(PlacementReason) st.(Message) synced), h).

(** [DeepCopy]: nil is copied to nil. *)
Definition QuantumJob_DeepCopy (h : heap) (job : option QuantumJob) : option QuantumJob * heap :=
  match job with
  | None => (None, h)
  | Some job => let '(out, h) := QuantumJob_DeepCopyInto h job in (Some out, h)
  end.

(** The loop over the items from the [i]-th on: each copy is stored in the new
    array at [a]. *)
Fixpoint copy_items (h : heap) (a i : nat) (items : list QuantumJob) : heap :=
  match items with
  | [] => h
  | job :: rest =>
      let '(out, h) := QuantumJob_DeepCopyInto h job in
      let h := match h !! a with Some (ItemsCell l) => <[a := ItemsCell (<[i := out]> l)]> h | _ => h end in
      copy_items h a (S i) rest
  end.

(** [zero] is the job [make] fills the new array with. *)
Definition QuantumJobList_DeepCopyInto (zero : QuantumJob) (h : heap) (l : QuantumJobList) : QuantumJobList * heap :=
  let '(meta, h) := deep_copy h l.(LMeta) in
  match l.(Items) with
  | Some src =>
      let items := match h !! src with Some (ItemsCell items) => items | _ => [] end in
      let a := fresh (dom h) in
      let h := <[a := ItemsCell (replicate (length items) zero)]> h in
      (mkList l.(LType) meta (Some a), copy_items h a 0 items)
  | None => (mkList l.(LType) meta None, h)
  end.

Definition QuantumJobList_DeepCopy (zero : QuantumJob) (h : heap) (l : option QuantumJobList) : option QuantumJobList * heap :=
  match l with
  | None => (None, h)
  | Some l => let '(out, h) := QuantumJobList_DeepCopyInto zero h l in (Some out, h)
  end.

(** ** A copy shares nothing *)

#[export] Instance QuantumJob_copyable : Copyable QuantumJob := {
  deep_copy := QuantumJob_DeepCopyInto;
  cells h j := cells h j.(JMeta) ∪ cells h j.(JSpec) ∪ cells h j.(JStatus).(SyncedAt);
  same h j h' j' :=
    j.(JType) = j'.(JType) /\ same h j.(JMeta) h' j'.(JMeta) /\ same h j.(JSpec) h' j'.(JSpec) /\
    same h j.(JStatus).(SyncedAt) h' j'.(JStatus).(SyncedAt) /\
    let t (st : QuantumJobStatus) := (st.(JobID), st.(Phase), st.(BoundTarget), st.(PlacementReason), st.(Message)) in
    t j.(JStatus) = t j'.(JStatus) }.

Section Laws.
Context `{!CopyLaws ObjectMeta, !CopyLaws ListMeta, !CopyLaws RawExtension, !CopyLaws Time}.

Lemma agree_sub {A} `{CopyLaws A} (h h' : heap) (a : A) :
  h ⊆ h' -> cells h a ⊆ dom h -> forall x, x ∈ cells h a -> h !! x = h' !! x.
Proof.
  intros S D x Hx. apply D, elem_of_dom in Hx as [c Hc]. rewrite Hc. symmetry. by eapply lookup_weaken.
Qed.

Lemma cells_sub {A} `{CopyLaws A} (h h' : heap) (a : A) : h ⊆ h' -> cells h a ⊆ dom h -> cells h' a = cells h a.
Proof. intros S D. apply cells_frame. by apply agree_sub. Qed.

Lemma same_sub {A} `{CopyLaws A} (h h' g g' : heap) (a b : A) :
  h ⊆ h' -> cells h a ⊆ dom h -> g ⊆ g' -> cells g b ⊆ dom g -> same h a g b -> same h' a g' b.
Proof.
  intros S D S' D' E. eapply same_frame; [by apply agree_sub|]. eapply same_frame_l; [by apply agree_sub|exact E].
Qed.

(** In a larger heap an old value is what it was. *)
Lemma same_before {A} `{CopyLaws A} (h h' g : heap) (a b : A) :
  h ⊆ h' -> cells h a ⊆ dom h -> same h' a g b -> same h a g b.
Proof.
  intros S D. apply same_frame_l. intros x. rewrite (cells_sub h h') by done. intros Hx. symmetry. by eapply agree_sub.
Qed.

#[export] Instance QuantumJob_laws : CopyLaws QuantumJob.
Proof.
  split.
  - intros h h' j F. cbn in *. rewrite (cells_frame h h' j.(JMeta)), (cells_frame h h' j.(JSpec)),
      (cells_frame h h' j.(JStatus).(SyncedAt)); [done|..]; intros x Hx; apply F; set_solver.
  - intros h h' j g b F (E & E1 & E2 & E3 & E4). cbn in *.
    split_and!; [exact E|..|exact E4]; (eapply same_frame; [|eassumption]); intros x Hx; apply F; set_solver.
  - intros h h' j g b F (E & E1 & E2 & E3 & E4). cbn in *.
    split_and!; [exact E|..|exact E4]; (eapply same_frame_l; [|eassumption]); intros x Hx; apply F; set_solver.
  - intros h j j' h' D. cbn [deep_copy QuantumJob_copyable cells] in *. unfold QuantumJob_DeepCopyInto.
    destruct (deep_copy h j.(JMeta)) as [m h1] eqn:C1. apply deep_copy_law in C1 as (S1 & N1 & I1 & E1); [|set_solver].
    destruct (deep_copy h1 j.(JSpec)) as [sp h2] eqn:C2.
    assert (D1 : dom h ⊆ dom h1) by by apply subseteq_dom.
    pose proof (cells_sub h h1 j.(JSpec) S1 ltac:(set_solver)) as F2.
    apply deep_copy_law in C2 as (S2 & N2 & I2 & E2); [|rewrite F2; clear F2; set_solver].
    destruct (deep_copy h2 j.(JStatus).(SyncedAt)) as [sy h3] eqn:C3.
    assert (D2 : dom h1 ⊆ dom h2) by by apply subseteq_dom.
    assert (S12 : h ⊆ h2) by by transitivity h1.
    pose proof (cells_sub h h2 j.(JStatus).(SyncedAt) S12 ltac:(set_solver)) as F3.
    apply deep_copy_law in C3 as (S3 & N3 & I3 & E3); [|rewrite F3; clear F2 F3; set_solver].
    assert (D3 : dom h2 ⊆ dom h3) by by apply subseteq_dom.
    intros [= <- <-]. pose proof (cells_sub h2 h3 sp S3 I2) as G2. pose proof (cells_sub h1 h3 m ltac:(by transitivity h2) I1) as G1.
    cbn [cells same QuantumJob_copyable JMeta JSpec JStatus SyncedAt JType] in *. rewrite G1, G2. clear F2 F3 G1 G2.
    split; [by transitivity h2|]. split; [set_solver|]. split; [set_solver|]. split; [done|].
    split; [apply (same_sub h h h1 h3); [done|set_solver|by transitivity h2|done|done]|].
    split.
    + apply (same_before h h1); [done|set_solver|]. apply (same_sub h1 h1 h2 h3); try done. rewrite (cells_sub h h1) by (try done; set_solver). set_solver.
    + split; [|done]. apply (same_before h h2); [done|set_solver|done].
Qed.

(** *** Lists *)

Definition items_of (h : heap) (l : QuantumJobList) : list QuantumJob :=
  match l.(Items) with
  | Some a => match h !! a with Some (ItemsCell items) => items | _ => [] end
  | None => []
  end.

#[export] Instance QuantumJobList_copyable (zero : QuantumJob) : Copyable QuantumJobList := {
  deep_copy := QuantumJobList_DeepCopyInto zero;
  cells h l := cells h l.(LMeta) ∪ match l.(Items) with Some a => {[a]} ∪ ⋃ (cells h <$> items_of h l) | None => ∅ end;
  same h l h' l' :=
    l.(LType) = l'.(LType) /\ same h l.(LMeta) h' l'.(LMeta) /\
    (is_Some l.(Items) <-> is_Some l'.(Items)) /\ Forall2 (fun j j' => same h j h' j') (items_of h l) (items_of h' l') }.

(** A copied item: equal to the original, in cells that are neither old nor the
    array's. *)
Definition copied (h0 : heap) (a : nat) (h : heap) (j out : QuantumJob) : Prop :=
  same h0 j h out /\ cells h out ## dom h0 /\ (a ∉ cells h out) /\ cells h out ⊆ dom h.

(** The heap [h'] keeps what [h] had outside the array. *)
Definition keeps (a : nat) (h h' : heap) : Prop := forall x, x <> a -> is_Some (h !! x) -> h' !! x = h !! x.

Lemma copied_keeps h0 a h h' j out : keeps a h h' -> copied h0 a h j out -> copied h0 a h' j out.
Proof.
  intros K (E & N & NA & I).
  assert (F : forall x, x ∈ cells h out -> h !! x = h' !! x).
  { intros x Hx. symmetry. apply K; [by intros ->|]. by apply elem_of_dom, I. }
  unfold copied. rewrite (cells_frame h h' out F). split_and!; [by eapply same_frame|done|done|].
  intros x Hx. apply elem_of_dom. rewrite <- (F x Hx). by apply elem_of_dom, I.
Qed.

Lemma copy_items_spec zero h0 a rest : forall copies h,
  h0 ⊆ h -> a ∉ dom h0 -> h !! a = Some (ItemsCell (copies ++ replicate (length rest) zero)) ->
  (forall j, j ∈ rest -> cells h0 j ⊆ dom h0) ->
  let h' := copy_items h a (length copies) rest in
  h0 ⊆ h' /\ keeps a h h' /\ exists outs, h' !! a = Some (ItemsCell (copies ++ outs)) /\ Forall2 (copied h0 a h') rest outs.
Proof.
  induction rest as [|job rest IH]; intros copies h S NA A W; cbn [copy_items].
  { cbv zeta. split; [done|]. split; [done|]. by exists []. }
  destruct (QuantumJob_DeepCopyInto h job) as [out h1] eqn:C.
  assert (Wj : cells h0 job ⊆ dom h0) by (apply W; left). pose proof (cells_sub h0 h job S Wj) as CE.
  assert (D0 : dom h0 ⊆ dom h) by by apply subseteq_dom.
  destruct (deep_copy_law h job out h1) as (S1 & N1 & I1 & E1); [rewrite CE; clear - Wj D0; set_solver|exact C|]. clear C CE.
  assert (A1 : h1 !! a = Some (ItemsCell (copies ++ replicate (length (job :: rest)) zero))) by by eapply lookup_weaken.
  rewrite A1. cbn [length replicate]. rewrite insert_app_r_alt, Nat.sub_diag by lia. cbn [insert list_insert].
  set (h2 := <[a := _]> h1).
  assert (K2 : keeps a h h2).
  { intros x Nx [c Hc]. unfold h2. rewrite lookup_insert_ne by done. rewrite Hc. by eapply lookup_weaken. }
  assert (aH : a ∈ dom h) by (apply elem_of_dom; rewrite A; eauto).
  specialize (IH (copies ++ [out]) h2). rewrite length_app in IH. cbn [length] in IH. rewrite Nat.add_1_r in IH.
  destruct IH as (S' & K' & outs & A' & F').
  - apply map_subseteq_spec. intros x c Hx. unfold h2. rewrite lookup_insert_ne by (intros <-; apply NA, elem_of_dom; rewrite Hx; eauto).
    eapply lookup_weaken; [|exact S1]. by eapply lookup_weaken.
  - done.
  - unfold h2. rewrite lookup_insert_eq. by rewrite <- app_assoc.
  - intros j Hj. apply W. by right.
  - cbv zeta. split; [exact S'|]. split.
    { intros x Nx Hx. rewrite K'; [by apply K2|done|]. rewrite K2 by done. exact Hx. }
    exists (out :: outs). split; [rewrite A'; by rewrite <- app_assoc|]. constructor; [|exact F'].
    apply (copied_keeps h0 a h2); [exact K'|].
    apply (copied_keeps h0 a h1).
    { intros x Nx Hx. unfold h2. by rewrite lookup_insert_ne. }
    split_and!; [|set_solver|set_solver|exact I1]. by apply (same_before h0 h).
Qed.

(** What the loop copied, as one set of cells. *)
Lemma copied_cells h0 a h items outs :
  Forall2 (copied h0 a h) items outs ->
  ⋃ (cells h <$> outs) ## dom h0 /\ ⋃ (cells h <$> outs) ⊆ dom h /\ Forall2 (fun j j' => same h0 j h j') items outs.
Proof.
  induction 1 as [|j out items outs (E & N & _ & I) _ (IN & II & IE)]; cbn [fmap list_fmap union_list foldr].
  - split_and!; [set_solver|set_solver|constructor].
  - split_and!; [apply disjoint_union_l; split; [exact N|exact IN]|apply union_subseteq; split; [exact I|exact II]|by constructor].
Qed.

(** The copy of a list of resources is deeply equal to it, leaves the heap as
    it was, and reaches new cells only: the array, and every item's. *)
Lemma QuantumJobList_deep_copy zero h l l' h' :
  let _ := QuantumJobList_copyable zero in
  cells h l ⊆ dom h -> deep_copy h l = (l', h') ->
  h ⊆ h' /\ cells h' l' ## dom h /\ cells h' l' ⊆ dom h' /\ same h l h' l'.
Proof.
  cbv zeta. cbn [deep_copy cells same QuantumJobList_copyable]. unfold QuantumJobList_DeepCopyInto. intros D.
  destruct (deep_copy h l.(LMeta)) as [m h1] eqn:C. apply deep_copy_law in C as (S1 & N1 & I1 & E1); [|clear - D; set_solver].
  unfold items_of in *. destruct l.(Items) as [src|] eqn:IT.
  2:{ intros [= <- <-]. cbn [LMeta Items LType]. split_and!; [done|clear - N1; set_solver|clear - I1; set_solver|done|done|done|constructor]. }
  assert (Hs : is_Some (h !! src)) by (apply elem_of_dom, D; clear; set_solver). destruct Hs as [c Hc].
  rewrite (lookup_weaken _ _ _ _ Hc S1). rewrite Hc in *. set (items := match c with ItemsCell items => items | _ => [] end) in *.
  assert (D1 : dom h ⊆ dom h1) by by apply subseteq_dom.
  pose proof (is_fresh (dom h1)) as FA. set (a := fresh (dom h1)) in *. set (h2 := <[a := _]> h1).
  intros [= <- <-]. cbn [LMeta Items LType].
  destruct (copy_items_spec zero h a items [] h2) as (S' & K' & outs & A' & F').
  - apply map_subseteq_spec. intros x y Hx. unfold h2. rewrite lookup_insert_ne; [by eapply lookup_weaken|].
    intros <-. apply FA, D1, elem_of_dom. by exists y.
  - intros Ha. by apply FA, D1.
  - apply lookup_insert_eq.
  - intros j Hj x Hx. apply D. apply elem_of_union_r, elem_of_union_r, elem_of_union_list. exists (cells h j).
    split; [by apply list_elem_of_fmap_2|exact Hx].
  - cbn [length app] in *. rewrite A'. destruct (copied_cells _ _ _ _ _ F') as (NU & IU & EU).
    set (h3 := copy_items h2 a 0 items) in *.
    assert (FM : forall x, x ∈ cells h1 m -> h1 !! x = h3 !! x).
    { intros x Hx%I1. assert (x <> a) by (intros ->; by apply FA). apply elem_of_dom in Hx.
      rewrite K'; [by unfold h2; rewrite lookup_insert_ne|done|by unfold h2; rewrite lookup_insert_ne]. }
    rewrite (cells_frame h1 h3 m FM).
    assert (AH : a ∉ dom h) by (intros Ha; by apply FA, D1).
    assert (A3 : a ∈ dom h3) by (apply elem_of_dom; rewrite A'; eauto).
    assert (M3 : cells h1 m ⊆ dom h3).
    { intros x Hx. apply elem_of_dom. rewrite <- (FM x Hx). by apply elem_of_dom, I1. }
    split; [exact S'|]. split; [clear - N1 NU AH; set_solver|]. split; [clear - M3 IU A3; set_solver|].
    split; [done|]. split; [by eapply same_frame|]. split; [split; eauto|exact EU].
Qed.

(** Whoever writes through the copy of a list leaves the original deeply equal
    to what was copied, and the other way round. *)
Lemma deep_copy_independent zero h l l' h' x c :
  let _ := QuantumJobList_copyable zero in
  cells h l ⊆ dom h -> deep_copy h l = (l', h') ->
  (x ∈ cells h' l' -> x ∉ cells h l) /\ (x ∈ cells h l -> x ∉ cells h' l') /\
  (x ∈ cells h' l' -> forall y, y ∈ cells h l -> <[x := c]> h' !! y = h !! y).
Proof.
  intros _cp D E. destruct (QuantumJobList_deep_copy zero h l l' h' D E) as (S & N & _ & _).
  assert (X : x ∈ cells h' l' -> x ∉ cells h l) by (intros H1 H2; apply (N x); [exact H1|by apply D]).
  split_and!; [exact X|intros H1 H2; by apply X|]. intros H1 y Hy.
  rewrite lookup_insert_ne by (intros <-; by apply X). apply D, elem_of_dom in Hy as [v Hv]. rewrite Hv. by eapply lookup_weaken.
Qed.
End Laws.
End DeepCopy.

(** ** Values behind one address

    A Kubernetes type as a pointer to a map of texts, nil or not: the laws
    hold of the copy that allocates. *)

Abbreviation pointed := (option nat).
Abbreviation demo_cell := (memory_cell (Lib := gmap string string) (TypeMeta := unit) (ObjectMeta := pointed) (RawExtension := pointed) (Time := pointed)).

#[local] Instance pointed_copyable :
  Copyable (Lib := gmap string string) (TypeMeta := unit) (ObjectMeta := pointed) (RawExtension := pointed) (Time := pointed) pointed := {
  deep_copy h p := match p with
                   | Some a => let b := fresh (dom h) in (Some b, match h !! a with Some c => <[b := c]> h | None => h end)
                   | None => (None, h)
                   end;
  cells h p := match p with Some a => {[a]} | None => ∅ end;
  same h p h' p' := match p, p' with Some a, Some a' => h !! a = h' !! a' | None, None => True | _, _ => False end }.

#[local] Instance pointed_laws : CopyLaws pointed.
Proof.
  split; cbn [deep_copy cells same pointed_copyable].
  - done.
  - intros h h' [a|] g [b|] F; try done. intros ->. apply F. set_solver.
  - intros h h' [a|] g [b|] F; try done. intros <-. symmetry. apply F. set_solver.
  - intros h [a|] p' h' D.
    + assert (Ha : is_Some (h !! a)) by (apply elem_of_dom; set_solver). destruct Ha as [c Hc]. rewrite Hc.
      pose proof (is_fresh (dom h)) as N. set (b := fresh (dom h)) in *. intros [= <- <-].
      split; [by apply insert_subseteq, not_elem_of_dom|]. split; [set_solver|]. split; [rewrite dom_insert; set_solver|].
      by rewrite lookup_insert_eq.
    + intros [= <- <-]. split_and!; [done|set_solver|set_solver|done].
Qed.

Definition demo_resource (a : nat) : QuantumJob (TypeMeta := unit) (ObjectMeta := pointed) (RawExtension := pointed) (Time := pointed) := mkJob tt (Some a) None (mkStatus "" "" "" "" "" None).
Definition demo_cells : gmap nat demo_cell :=
  {[1%nat := LibCell {["team" := "chem"]}; 2%nat := ItemsCell [demo_resource 1]]}.

(** A list of one resource: its array and its metadata are copied, and a write
    to the copy's does not show in the original. *)
Example demo_list_copy :
  let r := QuantumJobList_DeepCopyInto (demo_resource 0) demo_cells (mkList tt (None : pointed) (Some 2%nat)) in
  items_of r.2 r.1 = [demo_resource 4] /\ items_of r.2 (mkList tt (None : pointed) (Some 2%nat)) = [demo_resource 1] /\
  r.2 !! 4%nat = demo_cells !! 1%nat.
Proof. by vm_compute. Qed.
