(* ===== verification/OperatorMain.v ===== *)
(** * The operator's process — src/operator/main.go

    What the process reads from its environment, the order in which it sets
    its parts up, and the credential it puts on every call.  client-go and
    controller-runtime are arguments: the errors of their calls. *)

From S2P Require Import Prelude Float64 GoLib Phase Database JobStore Tables Auth Daemon Operator Boot.

(** ** types.go: the scheme *)

Record GroupVersion := mkGroupVersion { GVGroup : string; GVVersion : string }.
Definition GroupVersion_v1alpha1 : GroupVersion := mkGroupVersion "tangle.dev" "v1alpha1".

(** The kinds a scheme knows, by group, version and name. *)
Abbreviation scheme := (list (GroupVersion * string)).

(** [AddToScheme]; [AddToGroupVersion] adds the types of watches and options,
    [meta_kinds]. *)
Definition AddToScheme (meta_kinds : list string) (s : scheme) : result string scheme :=
  Ok (s ++ ((fun k => (GroupVersion_v1alpha1, k)) <$> ["QuantumJob"; "QuantumJobList"] ++ meta_kinds)).

(** ** reconciler.go: the client *)

Record RabiClient := mkRabiClient { RcAddr : string; Token : string }.

Definition DialRabi (dial : string -> option string) (addr token : string) : result string RabiClient :=
  match dial addr with
  | Some e => Err ("dialing rabi at " +:+ addr +:+ ": " +:+ e)
  | None => Ok (mkRabiClient addr token)
  end.

(** [RabiClient.ctx]: what a call carries. *)
Definition outgoing (c : RabiClient) : option metadata := Some (mkMetadata ["Bearer " +:+ c.(Token)] []).

(** ** main.go *)

Record operator_env := mkOperatorEnv {
  RABI_TOKEN : string; RABI_API_ADDR : string; METRICS_ADDR : string; HEALTH_ADDR : string }.

Record cluster := mkCluster {
  client_scheme : scheme -> result string scheme;
  meta_kinds : list string;
  rest_config : option string;
  new_manager : option string;
  dial_rabi : string -> option string;
  setup_controller : option string;
  add_healthz : option string;
  manager_run : option string }.

Inductive op_event :=
| SchemeReady (s : scheme) | ManagerCreated (metrics health : string) | Dialled (c : RabiClient)
| ReconcilerSet | HealthzSet | ManagerStarted | OpExited (code : Z).

(** An error that is logged and ends the process. *)
Definition fatal {A} (title : string) (r : result string A) : steps op_event A :=
  match r with Ok a => sret a | Err _ => step? _ := emit (OpExited 1) in sfail title end.

Definition operator_main (e : operator_env) (c : cluster) : steps op_event unit :=
  step? _ := fatal "RABI_TOKEN must be set (API token or bootstrap token)"
               (if String.eqb e.(RABI_TOKEN) "" then Err "" else Ok tt) in
  let rabiAddr := envOr e.(RABI_API_ADDR) "localhost:9090" in
  step? s := fatal "adding client-go scheme" (c.(client_scheme) []) in
  step? s := fatal "adding tangle.dev scheme" (AddToScheme c.(meta_kinds) s) in
  step? _ := emit (SchemeReady s) in
  step? _ := fatal "unable to get kubeconfig" (Store.to_result c.(rest_config)) in
  step? _ := fatal "creating manager" (Store.to_result c.(new_manager)) in
  step? _ := emit (ManagerCreated (envOr e.(METRICS_ADDR) ":8082") (envOr e.(HEALTH_ADDR) ":8083")) in
  step? rabi := fatal "dialing rabi" (DialRabi c.(dial_rabi) rabiAddr e.(RABI_TOKEN)) in
  step? _ := emit (Dialled rabi) in
  step? _ := fatal "setting up reconciler" (Store.to_result c.(setup_controller)) in
  step? _ := emit ReconcilerSet in
  step? _ := fatal "adding healthz" (Store.to_result c.(add_healthz)) in
  step? _ := emit HealthzSet in
  step? _ := emit ManagerStarted in
  fatal "manager exited" (Store.to_result c.(manager_run)).

(** ** What it promises *)

Definition client_of (e : operator_env) : RabiClient :=
  mkRabiClient (envOr e.(RABI_API_ADDR) "localhost:9090") e.(RABI_TOKEN).

(** The parts in order, when nothing fails. *)
Definition operator_order (e : operator_env) (s : scheme) : list op_event :=
  [SchemeReady s; ManagerCreated (envOr e.(METRICS_ADDR) ":8082") (envOr e.(HEALTH_ADDR) ":8083");
   Dialled (client_of e); ReconcilerSet; HealthzSet; ManagerStarted].

(** The process either runs its manager, with every part before it in order,
    the custom resource in the scheme and a token to present, or exits with 1
    after a prefix of those parts. *)
Lemma operator_start e c :
  let r := operator_main e c in
  exists s k, r.1 = take k (operator_order e s) ++ (match r.2 with Ok _ => [] | Err _ => [OpExited 1] end) /\
    (ManagerStarted ∈ r.1 -> e.(RABI_TOKEN) <> "" /\ (GroupVersion_v1alpha1, "QuantumJob") ∈ s /\ k = 6%nat) /\
    (r.2 = Ok tt -> ManagerStarted ∈ r.1 /\ c.(manager_run) = None).
Proof.
  unfold operator_main. destruct (String.eqb_spec e.(RABI_TOKEN) "") as [T|T]; cbv zeta.
  { exists [], 0%nat. split_and!; [done|by intros H; repeat (apply elem_of_cons in H as [H|H]; [discriminate H|]); apply elem_of_nil in H|done]. }
  destruct (c.(client_scheme) []) as [s0|m].
  2:{ exists [], 0%nat. split_and!; [done|by intros H; repeat (apply elem_of_cons in H as [H|H]; [discriminate H|]); apply elem_of_nil in H|done]. }
  eexists (s0 ++ _). unfold AddToScheme, DialRabi.
  assert (I : (GroupVersion_v1alpha1, "QuantumJob") ∈ s0 ++ ((fun k => (GroupVersion_v1alpha1, k)) <$> ["QuantumJob"; "QuantumJobList"] ++ c.(meta_kinds))).
  { apply elem_of_app. right. left. }
  destruct c.(rest_config) as [m|]; [exists 1%nat|destruct c.(new_manager) as [m|]; [exists 1%nat|
    destruct (c.(dial_rabi) _) as [m|]; [exists 2%nat|destruct c.(setup_controller) as [m|]; [exists 3%nat|
    destruct c.(add_healthz) as [m|]; [exists 4%nat|destruct c.(manager_run) as [m|]; [exists 6%nat|exists 6%nat]]]]]].
  all: (split; [reflexivity|]); split; try done.
  all: try (by intros H; exfalso; cbn in H; repeat (apply elem_of_cons in H as [H|H]; [discriminate H|]); apply elem_of_nil in H).
  intros _. split; [|done]. cbn. by rewrite !elem_of_cons; auto 10.
Qed.

(** With the bootstrap token the control plane knows the operator as its
    administrator, on every call it makes. *)
Lemma operator_bootstrap sha256 a d now c :
  c.(Token) <> "" -> a.(bootstrapHash) = Some (sha256 c.(Token)) ->
  Authenticate sha256 a d now (outgoing c) = (Ok (mkPrincipal PrincipalBootstrap "bootstrap" "bootstrap" RoleAdmin ""), d).
Proof.
  intros N B. unfold Authenticate, bearerFromContext, outgoing.
  cbn [authorization gateway_authorization app omap list_omap].
  rewrite cut_prefix_append. apply String.eqb_neq in N. rewrite N. cbn [head default from_option].
  unfold default, head, from_option, id. cbn. rewrite N, B. by rewrite bool_decide_eq_true_2.
Qed.

(** A process that cannot reach the cluster after it dialled. *)
Example demo_operator :
  (operator_main (mkOperatorEnv "secret" "" "" "") (mkCluster Ok [] None None (fun _ => None) (Some "no match") None None)).2
  = Err "setting up reconciler".
Proof. reflexivity. Qed.
