(* ===== verification/Gateway.v ===== *)
(** * The REST gateway — src/gen/go/tangle/api/v1alpha1/jobs.pb.gw.go

    The handlers that turn an HTTP request into an RPC over the server's own
    gRPC listener, the patterns they are registered under, and the rules of
    src/api-config.yaml that they were generated from.  The multiplexer is an
    interface, the class [ServeMux] with its laws; the rest of grpc-gateway's
    runtime (body, form and query decoding, the annotation of the context) is
    an argument, [runtime]. *)

From S2P Require Import Prelude Float64 GoLib Phase Database JobStore Tables Lifecycle Auth Admission Api ApiProps Views Filter Registry Operator.

(** ** Messages *)

Record SubmitJobRequest := mkSubmitJobRequest { SrTenant : string; SrQuantumJob : option doc; SrDryRun : bool }.
Record JobRef := mkJobRef { RefJobId : string }.
Record ListJobsRequest := mkListJobsRequest { LrTenant : string; LrPhaseFilter : string; LrPageSize : Z; LrPageToken : string }.
Record TargetRef := mkTargetRef { RefName : string }.
Record ListTargetsRequest := mkListTargetsRequest { ModalityFilter : string }.
Record TenantUsageRequest := mkTenantUsageRequest { UrTenant : string; UrFrom : option Z; UrTo : option Z }.

(** What a response carries. *)
Inductive payload :=
| PJob (j : ProtoJob) | PJobs (r : ListJobsResponse) | PTargets (l : list Target) | PTarget (t : Target)
| PUsage (l : list UsageTotal).

(** A stream a client holds: what [Header] reports and what is then received. *)
Record watch_stream := mkStream { header : option rpc_error; received : result status (list ProtoJob * bool) }.

(** ** Patterns *)

(** [runtime.NewPattern]: its version, the operations, two numbers each, the
    pool of texts they refer to, and the verb after a colon. *)
Record Pattern := mkPattern { PatVersion : Z; PatOps : list Z; PatPool : list string; PatVerb : string }.

Definition pattern_JobsService_SubmitJob_0 : Pattern := mkPattern 1 [2; 0; 2; 1] ["v1alpha1"; "jobs"] "".
Definition pattern_JobsService_GetJob_0 : Pattern :=
  mkPattern 1 [2; 0; 2; 1; 1; 0; 4; 1; 5; 2] ["v1alpha1"; "jobs"; "job_id"] "".
Definition pattern_JobsService_ListJobs_0 : Pattern := mkPattern 1 [2; 0; 2; 1] ["v1alpha1"; "jobs"] "".
Definition pattern_JobsService_WatchJob_0 : Pattern :=
  mkPattern 1 [2; 0; 2; 1; 1; 0; 4; 1; 5; 2; 2; 3] ["v1alpha1"; "jobs"; "job_id"; "watch"] "".
Definition pattern_JobsService_CancelJob_0 : Pattern :=
  mkPattern 1 [2; 0; 2; 1; 1; 0; 4; 1; 5; 2; 2; 3] ["v1alpha1"; "jobs"; "job_id"; "cancel"] "".
Definition pattern_TargetsService_ListTargets_0 : Pattern := mkPattern 1 [2; 0; 2; 1] ["v1alpha1"; "targets"] "".
Definition pattern_TargetsService_GetTarget_0 : Pattern :=
  mkPattern 1 [2; 0; 2; 1; 1; 0; 3; 0; 4; 2; 5; 2] ["v1alpha1"; "targets"; "name"] "".
Definition pattern_UsageService_GetTenantUsage_0 : Pattern := mkPattern 1 [2; 0; 2; 1] ["v1alpha1"; "usage"] "".

(** ** Requests and the runtime *)

(** The method as the multiplexer takes it, the segments of the path, the
    values of the Authorization header (no Grpc-Metadata header among the
    others), the query and the body. *)
Record http_request := mkRequest {
  Verb : string; Path : list string; Authorization : list string; Query : string; Body : string }.

(** [Decode] of a JSON body; [AtEOF] is [io.EOF], an empty body. *)
Inductive decoded (A : Type) := Decoded (a : A) | AtEOF | Malformed (e : string).
#[global] Arguments Decoded {A} a.
#[global] Arguments AtEOF {A}.
#[global] Arguments Malformed {A} e.

Record runtime (Form : Type) := mkRuntime {
  Decode : string -> decoded SubmitJobRequest;
  ParseForm : http_request -> result string Form;
  PopulateListJobs : Form -> result string ListJobsRequest;
  PopulateListTargets : Form -> result string ListTargetsRequest;
  PopulateTenantUsage : Form -> result string TenantUsageRequest;
  String_ : string -> result string string;
  AnnotateContext : http_request -> string -> string -> result status metadata;
  AnnotateIncomingContext : http_request -> string -> string -> result status metadata }.
#[global] Arguments Decode {Form}.
#[global] Arguments ParseForm {Form}.
#[global] Arguments PopulateListJobs {Form}.
#[global] Arguments PopulateListTargets {Form}.
#[global] Arguments PopulateTenantUsage {Form}.
#[global] Arguments String_ {Form}.
#[global] Arguments AnnotateContext {Form}.
#[global] Arguments AnnotateIncomingContext {Form}.

Abbreviation params := (gmap string string).

(** A call of a client stub. *)
Abbreviation stub A := (db -> result rpc_error A * db).

Definition invalid {A} (m : string) : stub A := fun d => (Err (Remote (mkStatus InvalidArgument m)), d).

(** ** Clients *)

Record JobsServiceClient := mkJobsClient {
  c_SubmitJob : metadata -> SubmitJobRequest -> stub ProtoJob;
  c_GetJob : metadata -> JobRef -> stub ProtoJob;
  c_ListJobs : metadata -> ListJobsRequest -> stub ListJobsResponse;
  c_WatchJob : metadata -> JobRef -> stub watch_stream;
  c_CancelJob : metadata -> JobRef -> stub ProtoJob }.
Record TargetsServiceClient := mkTargetsClient {
  c_ListTargets : metadata -> ListTargetsRequest -> stub (list Target);
  c_GetTarget : metadata -> TargetRef -> stub Target }.
Record UsageServiceClient := mkUsageClient {
  c_GetTenantUsage : metadata -> TenantUsageRequest -> stub (list UsageTotal) }.

(** ** request_… *)

Section Requests.
Context {Form : Type} (rt : runtime Form).

(** The path parameter of a request with one. *)
Definition path_param (name : string) (pathParams : params) : result string string :=
  match pathParams !! name with
  | None => Err ("missing parameter " +:+ name)
  | Some val =>
      match rt.(String_) val with
      | Err e => Err ("type mismatch, parameter: " +:+ name +:+ ", error: " +:+ e)
      | Ok v => Ok v
      end
  end.

(** The query of a request whose fields it fills. *)
Definition query {A} (populate : Form -> result string A) (req : http_request) : result string A :=
  let? form := rt.(ParseForm) req in populate form.

(** The rest of a request function: the call, or the message of its refusal. *)
Definition checked_call {A B} (protoReq : result string A) (call : A -> stub B) : stub B :=
  match protoReq with Ok r => call r | Err e => invalid e end.

(** The body; an empty one leaves the request as it was made. *)
Definition body (req : http_request) : result string SubmitJobRequest :=
  match rt.(Decode) req.(Body) with
  | Decoded r => Ok r
  | AtEOF => Ok (mkSubmitJobRequest "" None false)
  | Malformed e => Err e
  end.

Definition request_JobsService_SubmitJob_0 (client : JobsServiceClient) (md : metadata) (req : http_request) (pathParams : params) : stub ProtoJob :=
  checked_call (body req) (client.(c_SubmitJob) md).

Definition request_JobsService_GetJob_0 (client : JobsServiceClient) (md : metadata) (req : http_request) (pathParams : params) : stub ProtoJob :=
  checked_call (path_param "job_id" pathParams) (fun v => client.(c_GetJob) md (mkJobRef v)).

Definition request_JobsService_ListJobs_0 (client : JobsServiceClient) (md : metadata) (req : http_request) (pathParams : params) : stub ListJobsResponse :=
  checked_call (query rt.(PopulateListJobs) req) (client.(c_ListJobs) md).

(** A stream whose header reports an error is not handed on. *)
Definition request_JobsService_WatchJob_0 (client : JobsServiceClient) (md : metadata) (req : http_request) (pathParams : params) : stub watch_stream :=
  checked_call (path_param "job_id" pathParams) (fun v d =>
    match client.(c_WatchJob) md (mkJobRef v) d with
    | (Err e, d') => (Err e, d')
    | (Ok stream, d') => match stream.(header) with Some e => (Err e, d') | None => (Ok stream, d') end
    end).

Definition request_JobsService_CancelJob_0 (client : JobsServiceClient) (md : metadata) (req : http_request) (pathParams : params) : stub ProtoJob :=
  checked_call (path_param "job_id" pathParams) (fun v => client.(c_CancelJob) md (mkJobRef v)).

Definition request_TargetsService_ListTargets_0 (client : TargetsServiceClient) (md : metadata) (req : http_request) (pathParams : params) : stub (list Target) :=
  checked_call (query rt.(PopulateListTargets) req) (client.(c_ListTargets) md).

Definition request_TargetsService_GetTarget_0 (client : TargetsServiceClient) (md : metadata) (req : http_request) (pathParams : params) : stub Target :=
  checked_call (path_param "name" pathParams) (fun v => client.(c_GetTarget) md (mkTargetRef v)).

Definition request_UsageService_GetTenantUsage_0 (client : UsageServiceClient) (md : metadata) (req : http_request) (pathParams : params) : stub (list UsageTotal) :=
  checked_call (query rt.(PopulateTenantUsage) req) (client.(c_GetTenantUsage) md).

(** ** Register…HandlerClient *)

(** What the HTTP client gets: a message, a stream, an error's status, or no
    handler at all. *)
Inductive http_reply :=
| Forwarded (p : payload) | Streamed (r : result status (list ProtoJob * bool)) | HTTPError (e : rpc_error) | NoHandler.

Record registration := mkRegistration {
  RVerb : string; RPattern : Pattern; RHandler : http_request -> params -> db -> http_reply * db }.

(** The handler of every registration: annotate the context, make the request,
    forward the answer. *)
Definition handling {A} (rpcMethodName pathPattern : string)
    (request : metadata -> http_request -> params -> stub A) (forward : A -> http_reply)
    (req : http_request) (pathParams : params) (d : db) : http_reply * db :=
  match rt.(AnnotateContext) req rpcMethodName pathPattern with
  | Err st => (HTTPError (Remote st), d)
  | Ok annotatedContext =>
      match request annotatedContext req pathParams d with
      | (Err e, d') => (HTTPError e, d')
      | (Ok resp, d') => (forward resp, d')
      end
  end.

Definition ForwardResponseStream (s : watch_stream) : http_reply := Streamed s.(received).

Definition RegisterJobsServiceHandlerClient (client : JobsServiceClient) : list registration :=
  [mkRegistration "POST" pattern_JobsService_SubmitJob_0
     (handling "/tangle.api.v1alpha1.JobsService/SubmitJob" "/v1alpha1/jobs"
        (request_JobsService_SubmitJob_0 client) (fun j => Forwarded (PJob j)));
   mkRegistration "GET" pattern_JobsService_GetJob_0
     (handling "/tangle.api.v1alpha1.JobsService/GetJob" "/v1alpha1/jobs/{job_id}"
        (request_JobsService_GetJob_0 client) (fun j => Forwarded (PJob j)));
   mkRegistration "GET" pattern_JobsService_ListJobs_0
     (handling "/tangle.api.v1alpha1.JobsService/ListJobs" "/v1alpha1/jobs"
        (request_JobsService_ListJobs_0 client) (fun r => Forwarded (PJobs r)));
   mkRegistration "GET" pattern_JobsService_WatchJob_0
     (handling "/tangle.api.v1alpha1.JobsService/WatchJob" "/v1alpha1/jobs/{job_id}/watch"
        (request_JobsService_WatchJob_0 client) ForwardResponseStream);
   mkRegistration "POST" pattern_JobsService_CancelJob_0
     (handling "/tangle.api.v1alpha1.JobsService/CancelJob" "/v1alpha1/jobs/{job_id}/cancel"
        (request_JobsService_CancelJob_0 client) (fun j => Forwarded (PJob j)))].

Definition RegisterTargetsServiceHandlerClient (client : TargetsServiceClient) : list registration :=
  [mkRegistration "GET" pattern_TargetsService_ListTargets_0
     (handling "/tangle.api.v1alpha1.TargetsService/ListTargets" "/v1alpha1/targets"
        (request_TargetsService_ListTargets_0 client) (fun l => Forwarded (PTargets l)));
   mkRegistration "GET" pattern_TargetsService_GetTarget_0
     (handling "/tangle.api.v1alpha1.TargetsService/GetTarget" "/v1alpha1/targets/{name=*/**}"
        (request_TargetsService_GetTarget_0 client) (fun t => Forwarded (PTarget t)))].

Definition RegisterUsageServiceHandlerClient (client : UsageServiceClient) : list registration :=
  [mkRegistration "GET" pattern_UsageService_GetTenantUsage_0
     (handling "/tangle.api.v1alpha1.UsageService/GetTenantUsage" "/v1alpha1/usage"
        (request_UsageService_GetTenantUsage_0 client) (fun l => Forwarded (PUsage l)))].
End Requests.

(** ** In process: local_request_… and Register…HandlerServer

    The program registers the handlers over its own listener instead; these
    call the servers directly, past every interceptor. *)

Record JobsServiceServer := mkJobsServer {
  s_SubmitJob : context -> SubmitJobRequest -> api ProtoJob;
  s_GetJob : context -> JobRef -> api ProtoJob;
  s_ListJobs : context -> ListJobsRequest -> api ListJobsResponse;
  s_CancelJob : context -> JobRef -> api ProtoJob }.
Record TargetsServiceServer := mkTargetsServer {
  s_ListTargets : context -> ListTargetsRequest -> api (list Target);
  s_GetTarget : context -> TargetRef -> api Target }.
Record UsageServiceServer := mkUsageServer {
  s_GetTenantUsage : context -> TenantUsageRequest -> api (list UsageTotal) }.

Section Local.
Context {Form : Type} (rt : runtime Form).

Definition rmap {A B} (f : A -> B) (r : result string A) : result string B := let? a := r in Ok (f a).

(** A context no interceptor has seen carries no principal. *)
Definition served {A B} (protoReq : result string A) (method : context -> A -> api B) : api B :=
  match protoReq with Ok r => method None r | Err e => afail InvalidArgument e end.

Definition local_request_JobsService_SubmitJob_0 (server : JobsServiceServer) (req : http_request) (pathParams : params) : api ProtoJob :=
  served (body rt req) server.(s_SubmitJob).
Definition local_request_JobsService_GetJob_0 (server : JobsServiceServer) (req : http_request) (pathParams : params) : api ProtoJob :=
  served (rmap mkJobRef (path_param rt "job_id" pathParams)) server.(s_GetJob).
Definition local_request_JobsService_ListJobs_0 (server : JobsServiceServer) (req : http_request) (pathParams : params) : api ListJobsResponse :=
  served (query rt rt.(PopulateListJobs) req) server.(s_ListJobs).
Definition local_request_JobsService_CancelJob_0 (server : JobsServiceServer) (req : http_request) (pathParams : params) : api ProtoJob :=
  served (rmap mkJobRef (path_param rt "job_id" pathParams)) server.(s_CancelJob).
Definition local_request_TargetsService_ListTargets_0 (server : TargetsServiceServer) (req : http_request) (pathParams : params) : api (list Target) :=
  served (query rt rt.(PopulateListTargets) req) server.(s_ListTargets).
Definition local_request_TargetsService_GetTarget_0 (server : TargetsServiceServer) (req : http_request) (pathParams : params) : api Target :=
  served (rmap mkTargetRef (path_param rt "name" pathParams)) server.(s_GetTarget).
Definition local_request_UsageService_GetTenantUsage_0 (server : UsageServiceServer) (req : http_request) (pathParams : params) : api (list UsageTotal) :=
  served (query rt rt.(PopulateTenantUsage) req) server.(s_GetTenantUsage).

Definition handling_local {A} (rpcMethodName pathPattern : string) (request : http_request -> params -> api A) (forward : A -> http_reply)
    (req : http_request) (pathParams : params) (d : db) : http_reply * db :=
  match rt.(AnnotateIncomingContext) req rpcMethodName pathPattern with
  | Err st => (HTTPError (Remote st), d)
  | Ok _ =>
      match request req pathParams d with
      | (Err st, d') => (HTTPError (Remote st), d')
      | (Ok resp, d') => (forward resp, d')
      end
  end.

Definition RegisterJobsServiceHandlerServer (server : JobsServiceServer) : list registration :=
  [mkRegistration "POST" pattern_JobsService_SubmitJob_0
     (handling_local "/tangle.api.v1alpha1.JobsService/SubmitJob" "/v1alpha1/jobs"
        (local_request_JobsService_SubmitJob_0 server) (fun j => Forwarded (PJob j)));
   mkRegistration "GET" pattern_JobsService_GetJob_0
     (handling_local "/tangle.api.v1alpha1.JobsService/GetJob" "/v1alpha1/jobs/{job_id}"
        (local_request_JobsService_GetJob_0 server) (fun j => Forwarded (PJob j)));
   mkRegistration "GET" pattern_JobsService_ListJobs_0
     (handling_local "/tangle.api.v1alpha1.JobsService/ListJobs" "/v1alpha1/jobs"
        (local_request_JobsService_ListJobs_0 server) (fun r => Forwarded (PJobs r)));
   mkRegistration "GET" pattern_JobsService_WatchJob_0
     (fun _ _ d => (HTTPError (Remote (mkStatus Unimplemented
        "streaming calls are not yet supported in the in-process transport")), d));
   mkRegistration "POST" pattern_JobsService_CancelJob_0
     (handling_local "/tangle.api.v1alpha1.JobsService/CancelJob" "/v1alpha1/jobs/{job_id}/cancel"
        (local_request_JobsService_CancelJob_0 server) (fun j => Forwarded (PJob j)))].
Definition RegisterTargetsServiceHandlerServer (server : TargetsServiceServer) : list registration :=
  [mkRegistration "GET" pattern_TargetsService_ListTargets_0
     (handling_local "/tangle.api.v1alpha1.TargetsService/ListTargets" "/v1alpha1/targets"
        (local_request_TargetsService_ListTargets_0 server) (fun l => Forwarded (PTargets l)));
   mkRegistration "GET" pattern_TargetsService_GetTarget_0
     (handling_local "/tangle.api.v1alpha1.TargetsService/GetTarget" "/v1alpha1/targets/{name=*/**}"
        (local_request_TargetsService_GetTarget_0 server) (fun t => Forwarded (PTarget t)))].
Definition RegisterUsageServiceHandlerServer (server : UsageServiceServer) : list registration :=
  [mkRegistration "GET" pattern_UsageService_GetTenantUsage_0
     (handling_local "/tangle.api.v1alpha1.UsageService/GetTenantUsage" "/v1alpha1/usage"
        (local_request_UsageService_GetTenantUsage_0 server) (fun l => Forwarded (PUsage l)))].
End Local.

(** ** The multiplexer *)

(** [runtime.ServeMux]: which of the registered methods and patterns takes a
    request, and what its path binds. *)
Class ServeMux := {
  pattern_match : Pattern -> list string -> option params;
  dispatch : list (string * Pattern) -> string -> list string -> option (nat * params) }.

(** [httpMux]'s handler for everything else: [gwMux] over what was registered. *)
Definition ServeHTTP `{ServeMux} (regs : list registration) (req : http_request) (d : db) : http_reply * db :=
  match dispatch ((fun r => (r.(RVerb), r.(RPattern))) <$> regs) req.(Verb) req.(Path) with
  | Some (i, pathParams) =>
      match regs !! i with Some r => r.(RHandler) req pathParams d | None => (NoHandler, d) end
  | None => (NoHandler, d)
  end.

(** ** api-config.yaml *)

(** A path template: literal segments, variables of one segment, and at its
    end a variable [{v=*/**}] of all that is left, at least one segment. *)
Inductive template := TEnd | TLit (s : string) (t : template) | TVar (v : string) (t : template) | TDeep (v : string).

Fixpoint template_match (t : template) (path : list string) : option params :=
  match t, path with
  | TEnd, [] => Some ∅
  | TLit s t, x :: rest => if String.eqb s x then template_match t rest else None
  | TVar v t, x :: rest => <[v := x]> <$> template_match t rest
  | TDeep v, x :: rest => Some {[v := join path "/"]}
  | _, _ => None
  end.

(** The methods with a rule, by their full name. *)
Inductive rest_rpc := RSubmitJob | RGetJob | RListJobs | RWatchJob | RCancelJob | RListTargets | RGetTarget | RGetTenantUsage.

Definition Selector (m : rest_rpc) : string :=
  match m with
  | RSubmitJob => jobs_svc "SubmitJob" | RGetJob => jobs_svc "GetJob" | RListJobs => jobs_svc "ListJobs"
  | RWatchJob => jobs_svc "WatchJob" | RCancelJob => jobs_svc "CancelJob"
  | RListTargets => targets_svc "ListTargets" | RGetTarget => targets_svc "GetTarget"
  | RGetTenantUsage => "/tangle.api.v1alpha1.UsageService/GetTenantUsage"
  end.

Record rule := mkRule { RuleMethod : rest_rpc; RuleVerb : string; RuleTemplate : template }.

Definition jobs_path (t : template) : template := TLit "v1alpha1" (TLit "jobs" t).
Definition targets_path (t : template) : template := TLit "v1alpha1" (TLit "targets" t).

Definition api_config : list rule :=
  [mkRule RSubmitJob "POST" (jobs_path TEnd);
   mkRule RGetJob "GET" (jobs_path (TVar "job_id" TEnd));
   mkRule RListJobs "GET" (jobs_path TEnd);
   mkRule RWatchJob "GET" (jobs_path (TVar "job_id" (TLit "watch" TEnd)));
   mkRule RCancelJob "POST" (jobs_path (TVar "job_id" (TLit "cancel" TEnd)));
   mkRule RListTargets "GET" (targets_path TEnd);
   mkRule RGetTarget "GET" (targets_path (TDeep "name"));
   mkRule RGetTenantUsage "GET" (TLit "v1alpha1" (TLit "usage" TEnd))].

(** The rule a request falls under, and what its path binds. *)
Definition config_find (verb : string) (path : list string) : option (rule * params) :=
  head (omap (fun r => if String.eqb r.(RuleVerb) verb then pair r <$> template_match r.(RuleTemplate) path else None) api_config).

(** The text of a template, as the handlers annotate it. *)
Fixpoint template_text (t : template) : string :=
  match t with
  | TEnd => ""
  | TLit s t => "/" +:+ s +:+ template_text t
  | TVar v t => "/{" +:+ v +:+ "}" +:+ template_text t
  | TDeep v => "/{" +:+ v +:+ "=*/**}"
  end.

(** ** What the multiplexer promises *)

(** How a template is written in operations: 2 a literal of the pool, 1 any
    segment, 3 all that is left, 4 the concatenation of the last ones and 5
    the binding of the result to a name of the pool. *)
Definition pool_at (pool : list string) (i : Z) (s : string) : Prop := 0 <= i /\ pool !! Z.to_nat i = Some s.

Inductive encodes (pool : list string) : list Z -> template -> Prop :=
| enc_end : encodes pool [] TEnd
| enc_lit i s ops t : pool_at pool i s -> encodes pool ops t -> encodes pool (2 :: i :: ops) (TLit s t)
| enc_var i v ops t : pool_at pool i v -> encodes pool ops t ->
    encodes pool (1 :: 0 :: 4 :: 1 :: 5 :: i :: ops) (TVar v t)
| enc_deep i v : pool_at pool i v -> encodes pool [1; 0; 3; 0; 4; 2; 5; i] (TDeep v).

(** The laws: a pattern matches what the template it encodes matches, on paths
    without empty segments; a method and pattern that were registered take a
    request they match, and some such pair takes every request one matches. *)
Class ServeMuxLaws `{ServeMux} : Prop := {
  pattern_match_law p t path : p.(PatVersion) = 1 -> p.(PatVerb) = "" -> encodes p.(PatPool) p.(PatOps) t ->
    Forall (fun s => s <> "") path -> pattern_match p path = template_match t path;
  dispatch_sound regs verb path i ps : dispatch regs verb path = Some (i, ps) ->
    exists p, regs !! i = Some (verb, p) /\ pattern_match p path = Some ps;
  dispatch_complete regs verb path p : dispatch regs verb path = None -> (verb, p) ∈ regs -> pattern_match p path = None }.

(** The laws of the rest of the runtime: a text is its own value, and the
    annotated context carries the Authorization header, under its name and
    possibly once more with the gateway's prefix. *)
Class RuntimeLaws {Form} (rt : runtime Form) : Prop := {
  String_law s : rt.(String_) s = Ok s;
  AnnotateContext_law req method text md : rt.(AnnotateContext) req method text = Ok md ->
    md.(authorization) = req.(Authorization) /\ forall v, v ∈ md.(gateway_authorization) -> v ∈ req.(Authorization) }.

(** ** Over the server's own listener *)

Section Loopback.
(** The control plane, as in [Cli]; the databases a watch polls; whether a
    refused watch is refused with its header; the loopback connection. *)
Context (sha256 : string -> string) (authn : Authenticator) (schema : doc -> option string)
  (range : list string -> list string) (fleet : FleetView) (canceller : option (string -> db -> result string unit * db))
  (encode_caps : Capabilities -> result string doc) (encode_state : DeviceState -> result string doc) (registry : Registry.Registry)
  (now : Z) (uuid : string) (ticks : list db) (early : bool) (n : network).

(** A method of the services on its request message. *)
Inductive rest_call :=
| CSubmitJob (r : SubmitJobRequest) | CGetJob (r : JobRef) | CListJobs (r : ListJobsRequest) | CWatchJob (r : JobRef)
| CCancelJob (r : JobRef) | CListTargets (r : ListTargetsRequest) | CGetTarget (r : TargetRef)
| CGetTenantUsage (r : TenantUsageRequest).

Definition jobsService : JobsServiceServer :=
  mkJobsServer
    (fun ctx r => SubmitJob schema range ctx now uuid r.(SrQuantumJob) r.(SrTenant) r.(SrDryRun) fleet)
    (fun ctx r => GetJob_rpc ctx r.(RefJobId))
    (fun ctx r => ListJobs_rpc ctx r.(LrTenant) r.(LrPhaseFilter) r.(LrPageToken) r.(LrPageSize))
    (fun ctx r => CancelJob ctx now r.(RefJobId) canceller).
Definition targetsService : TargetsServiceServer :=
  mkTargetsServer
    (fun _ r d => (ListTargets_rpc encode_caps encode_state registry r.(ModalityFilter), d))
    (fun _ r d => (GetTarget_rpc encode_caps encode_state registry r.(RefName), d)).
Definition usageService : UsageServiceServer :=
  mkUsageServer (fun ctx r => GetTenantUsage ctx r.(UrTenant) r.(UrFrom) r.(UrTo)).

Definition watching (ctx : context) (r : JobRef) : api (list ProtoJob * bool) := fun d => (WatchJob ctx r.(RefJobId) d ticks, d).

(** A call over the connection: the interceptor around the method. *)
Definition handle {A} (md : metadata) (method : string) (handler : context -> api A) : stub A :=
  rpc n (fun d => intercept sha256 authn d now (Some md) method handler).

Definition open_watch (md : metadata) (r : JobRef) : stub watch_stream := fun d =>
  match handle md (jobs_svc "WatchJob") (fun ctx => watching ctx r) d with
  | (Ok s, d') => (Ok (mkStream None (Ok s)), d')
  | (Err (Remote st), d') => (Ok (mkStream (if early then Some (Remote st) else None) (Err st)), d')
  | (Err e, d') => (Err e, d')
  end.

Definition NewJobsServiceClient : JobsServiceClient :=
  mkJobsClient
    (fun md r => handle md (jobs_svc "SubmitJob") (fun ctx => jobsService.(s_SubmitJob) ctx r))
    (fun md r => handle md (jobs_svc "GetJob") (fun ctx => jobsService.(s_GetJob) ctx r))
    (fun md r => handle md (jobs_svc "ListJobs") (fun ctx => jobsService.(s_ListJobs) ctx r))
    open_watch
    (fun md r => handle md (jobs_svc "CancelJob") (fun ctx => jobsService.(s_CancelJob) ctx r)).
Definition NewTargetsServiceClient : TargetsServiceClient :=
  mkTargetsClient
    (fun md r => handle md (targets_svc "ListTargets") (fun ctx => targetsService.(s_ListTargets) ctx r))
    (fun md r => handle md (targets_svc "GetTarget") (fun ctx => targetsService.(s_GetTarget) ctx r)).
Definition NewUsageServiceClient : UsageServiceClient :=
  mkUsageClient
    (fun md r => handle md "/tangle.api.v1alpha1.UsageService/GetTenantUsage" (fun ctx => usageService.(s_GetTenantUsage) ctx r)).

Context {Form : Type} (rt : runtime Form).

(** What [Run] registers, in its order. *)
Definition gwMux : list registration :=
  RegisterJobsServiceHandlerClient rt NewJobsServiceClient
  ++ RegisterTargetsServiceHandlerClient rt NewTargetsServiceClient
  ++ RegisterUsageServiceHandlerClient rt NewUsageServiceClient.

(** *** The specification: a REST call is the RPC of its rule *)

(** The request message: the variables of the path, and the rest from the body
    or the query. *)
Definition rest_request (m : rest_rpc) (req : http_request) (ps : params) : result string rest_call :=
  let id := default "" (ps !! "job_id") in
  match m with
  | RSubmitJob => rmap CSubmitJob (body rt req)
  | RGetJob => Ok (CGetJob (mkJobRef id))
  | RListJobs => rmap CListJobs (query rt rt.(PopulateListJobs) req)
  | RWatchJob => Ok (CWatchJob (mkJobRef id))
  | RCancelJob => Ok (CCancelJob (mkJobRef id))
  | RListTargets => rmap CListTargets (query rt rt.(PopulateListTargets) req)
  | RGetTarget => Ok (CGetTarget (mkTargetRef (default "" (ps !! "name"))))
  | RGetTenantUsage => rmap CGetTenantUsage (query rt rt.(PopulateTenantUsage) req)
  end.

Definition answered {A} (f : A -> http_reply) (m : api A) : api http_reply := do? a := m in aret (f a).

Definition perform (c : rest_call) (ctx : context) : api http_reply :=
  match c with
  | CSubmitJob r => answered (fun j => Forwarded (PJob j)) (jobsService.(s_SubmitJob) ctx r)
  | CGetJob r => answered (fun j => Forwarded (PJob j)) (jobsService.(s_GetJob) ctx r)
  | CListJobs r => answered (fun l => Forwarded (PJobs l)) (jobsService.(s_ListJobs) ctx r)
  | CWatchJob r => answered (fun s => Streamed (Ok s)) (watching ctx r)
  | CCancelJob r => answered (fun j => Forwarded (PJob j)) (jobsService.(s_CancelJob) ctx r)
  | CListTargets r => answered (fun l => Forwarded (PTargets l)) (targetsService.(s_ListTargets) ctx r)
  | CGetTarget r => answered (fun t => Forwarded (PTarget t)) (targetsService.(s_GetTarget) ctx r)
  | CGetTenantUsage r => answered (fun l => Forwarded (PUsage l)) (usageService.(s_GetTenantUsage) ctx r)
  end.

(** A refusal is the reply's status, or the end of a stream that has begun. *)
Definition refusal (m : rest_rpc) (e : rpc_error) : http_reply :=
  match m, e with
  | RWatchJob, Remote st => if early then HTTPError e else Streamed (Err st)
  | _, _ => HTTPError e
  end.

Definition rest_spec (req : http_request) (d : db) : http_reply * db :=
  match config_find req.(Verb) req.(Path) with
  | None => (NoHandler, d)
  | Some (r, ps) =>
      let method := Selector r.(RuleMethod) in
      match rt.(AnnotateContext) req method (template_text r.(RuleTemplate)) with
      | Err st => (HTTPError (Remote st), d)
      | Ok _ =>
          match rest_request r.(RuleMethod) req ps with
          | Err m => (HTTPError (Remote (mkStatus InvalidArgument m)), d)
          | Ok c =>
              match handle (mkMetadata req.(Authorization) []) method (perform c) d with
              | (Ok reply, d') => (reply, d')
              | (Err e, d') => (refusal r.(RuleMethod) e, d')
              end
          end
      end
  end.

(** ** Routing *)

(** What is registered, method and pattern, in the order of the rules. *)
Definition registered : list (string * Pattern) := (fun r => (r.(RVerb), r.(RPattern))) <$> gwMux.

Lemma registered_rules :
  Forall2 (fun vp r => vp.1 = r.(RuleVerb) /\ vp.2.(PatVersion) = 1 /\ vp.2.(PatVerb) = "" /\
    encodes vp.2.(PatPool) vp.2.(PatOps) r.(RuleTemplate)) registered api_config.
Proof.
  repeat (constructor; [split_and!; [done..|repeat (constructor; try (split; [done|reflexivity]))]|]). constructor.
Qed.

(** At most one rule applies to a request. *)
Lemma config_find_unique r path ps :
  r ∈ api_config -> template_match r.(RuleTemplate) path = Some ps -> config_find r.(RuleVerb) path = Some (r, ps).
Proof.
  assert (L : forall s t x rest q, template_match (TLit s t) (x :: rest) = Some q -> x = s /\ template_match t rest = Some q).
  { intros s t x rest q. cbn [template_match]. destruct (String.eqb_spec s x) as [->|]; [done|done]. }
  assert (V : forall v t x rest q, template_match (TVar v t) (x :: rest) = Some q ->
    exists q', template_match t rest = Some q' /\ q = <[v := x]> q').
  { intros v t x rest q M. cbn [template_match] in M. apply fmap_Some in M as (q' & M & ->). by exists q'. }
  intros Hr. repeat (apply elem_of_cons in Hr as [->|Hr]); [..|by apply elem_of_nil in Hr].
  all: unfold jobs_path, targets_path; cbn [RuleTemplate RuleVerb]; intros M.
  all: repeat match goal with
       | M : template_match (TLit _ _) ?p = Some _ |- _ => destruct p as [|? p]; [done|apply L in M as [-> M]]
       | M : template_match (TVar _ _) ?p = Some _ |- _ =>
           destruct p as [|? p]; [done|apply V in M as (? & M & ->)]
       | M : template_match TEnd ?p = Some _ |- _ => destruct p; [injection M as <-|done]
       | M : template_match (TDeep _) ?p = Some _ |- _ => destruct p; [done|injection M as <-]
       end; reflexivity.
Qed.

Lemma config_find_sound verb path r ps :
  config_find verb path = Some (r, ps) ->
  r ∈ api_config /\ r.(RuleVerb) = verb /\ template_match r.(RuleTemplate) path = Some ps.
Proof.
  unfold config_find. intros H%head_Some_elem_of. apply list_elem_of_omap in H as (r' & Hr & H).
  destruct (String.eqb_spec r'.(RuleVerb) verb) as [V|]; [|done]. apply fmap_Some in H as (q & M & [= -> ->]). done.
Qed.

Section Laws.
Context `{ServeMuxLaws} `{!RuntimeLaws rt}.

(** The multiplexer takes each request to the registration of its rule. *)
Lemma dispatch_config verb path :
  Forall (fun s => s <> "") path ->
  match dispatch registered verb path with
  | None => config_find verb path = None
  | Some (i, ps) => exists r, api_config !! i = Some r /\ config_find verb path = Some (r, ps)
  end.
Proof.
  intros NE. pose proof registered_rules as F. destruct (dispatch registered verb path) as [[i ps]|] eqn:D.
  - apply dispatch_sound in D as (p & Hp & M). destruct (Forall2_lookup_l _ _ _ _ _ F Hp) as (r & Hr & V & V1 & V2 & E).
    cbn [fst snd] in *. rewrite (pattern_match_law _ _ _ V1 V2 E NE) in M. exists r. split; [done|]. rewrite V.
    apply config_find_unique; [by eapply list_elem_of_lookup_2|done].
  - destruct (config_find verb path) as [[r ps]|] eqn:C; [|done]. apply config_find_sound in C as (Hr & V & M).
    apply list_elem_of_lookup in Hr as [i Hr]. destruct (Forall2_lookup_r _ _ _ _ _ F Hr) as ([v p] & Hp & Vp & V1 & V2 & E).
    cbn [fst snd] in *. pose proof (dispatch_complete _ _ _ p D) as N. rewrite (pattern_match_law _ _ _ V1 V2 E NE), M in N.
    discriminate N. apply list_elem_of_lookup. exists i. by rewrite Hp, Vp, V.
Qed.

(** *** Credentials *)

Lemma bearer_annotated req method text md :
  rt.(AnnotateContext) req method text = Ok md ->
  bearerFromContext (Some md) = bearerFromContext (Some (mkMetadata req.(Authorization) [])).
Proof.
  intros [EA G]%AnnotateContext_law. unfold bearerFromContext. cbn [authorization gateway_authorization]. rewrite EA, app_nil_r, omap_app.
  set (f := fun v => _). destruct (omap f req.(Authorization)) as [|x l] eqn:O; [|done]. cbn [app].
  destruct (omap f md.(gateway_authorization)) as [|y l'] eqn:O'; [done|].
  assert (Y : y ∈ omap f md.(gateway_authorization)) by (rewrite O'; left). apply list_elem_of_omap in Y as (v & Hv & E).
  assert (Z : y ∈ omap f req.(Authorization)) by (apply list_elem_of_omap; exists v; auto). rewrite O in Z. by apply elem_of_nil in Z.
Qed.

Lemma handle_annotated {A} req method text md rpc_method (h : context -> api A) d :
  rt.(AnnotateContext) req method text = Ok md ->
  handle md rpc_method h d = handle (mkMetadata req.(Authorization) []) rpc_method h d.
Proof.
  intros E%bearer_annotated. unfold handle, rpc, intercept. by rewrite (check_bearer sha256 authn d now _ _ rpc_method E).
Qed.

(** Forwarding after the call is answering in it. *)
Lemma handle_answer {A} md method (f : A -> http_reply) (h : context -> api A) d :
  handle md method (fun ctx => answered f (h ctx)) d =
  match handle md method h d with (Ok a, d') => (Ok (f a), d') | (Err e, d') => (Err e, d') end.
Proof.
  unfold handle, rpc, intercept, answered, abind, aret. destruct (check sha256 authn d now (Some md) method) as [[ctx|st] d1]; cbn.
  - destruct (h ctx d1) as [[a|st] d2]; by destruct n.
  - by destruct n.
Qed.

(** *** One registration *)

Lemma path_param_bound v (ps : params) : is_Some (ps !! v) -> path_param rt v ps = Ok (default "" (ps !! v)).
Proof. intros [x E]. unfold path_param. by rewrite E, String_law. Qed.

(** A handler whose request is read first and then called over the connection. *)
Lemma handling_spec {A B} method text request (protoReq : result string B) (h : B -> context -> api A) f req ps d :
  (forall md, request md req ps = checked_call protoReq (fun r => handle md method (h r))) ->
  handling rt method text request f req ps d =
  match rt.(AnnotateContext) req method text with
  | Err st => (HTTPError (Remote st), d)
  | Ok _ =>
      match protoReq with
      | Err m => (HTTPError (Remote (mkStatus InvalidArgument m)), d)
      | Ok r =>
          match handle (mkMetadata req.(Authorization) []) method (fun ctx => answered f (h r ctx)) d with
          | (Ok reply, d') => (reply, d')
          | (Err e, d') => (HTTPError e, d')
          end
      end
  end.
Proof.
  intros R. unfold handling. destruct (rt.(AnnotateContext) req method text) as [md|] eqn:E; [|done].
  rewrite R. unfold checked_call. destruct protoReq as [r|m]; [|done].
  rewrite (handle_annotated _ _ _ _ _ _ _ E), handle_answer. by destruct (handle _ _ _ d) as [[a|e] d'].
Qed.

(** The watch: an error comes instead of the stream or at its end. *)
Lemma watch_spec text req ps d :
  is_Some (ps !! "job_id") ->
  handling rt (jobs_svc "WatchJob") text (request_JobsService_WatchJob_0 rt NewJobsServiceClient) ForwardResponseStream req ps d =
  match rt.(AnnotateContext) req (jobs_svc "WatchJob") text with
  | Err st => (HTTPError (Remote st), d)
  | Ok _ =>
      match handle (mkMetadata req.(Authorization) []) (jobs_svc "WatchJob")
              (perform (CWatchJob (mkJobRef (default "" (ps !! "job_id"))))) d with
      | (Ok reply, d') => (reply, d')
      | (Err e, d') => (refusal RWatchJob e, d')
      end
  end.
Proof.
  intros B. unfold handling. destruct (rt.(AnnotateContext) req _ text) as [md|] eqn:E; [|done].
  unfold request_JobsService_WatchJob_0, checked_call. rewrite (path_param_bound _ _ B). cbn [c_WatchJob NewJobsServiceClient].
  unfold open_watch. rewrite (handle_annotated _ _ _ _ _ _ _ E).
  change (perform (CWatchJob ?r)) with (fun ctx => answered (fun s => Streamed (Ok s)) (watching ctx r)). rewrite handle_answer.
  destruct (handle _ _ _ d) as [[a|[st|m]] d']; [done| |done]. cbn [header refusal]. by destruct early.
Qed.

Fixpoint template_vars (t : template) : list string :=
  match t with TEnd => [] | TLit _ t => template_vars t | TVar v t => v :: template_vars t | TDeep v => [v] end.

Lemma template_binds t path ps v : template_match t path = Some ps -> v ∈ template_vars t -> is_Some (ps !! v).
Proof.
  revert path ps. induction t as [|s t IH|w t IH|w]; intros [|x rest] ps; cbn [template_match template_vars]; try done.
  - by intros _ ?%elem_of_nil.
  - destruct (String.eqb s x); [apply IH|done].
  - intros (q & M & ->)%fmap_Some. intros [->|Hv]%elem_of_cons; [rewrite lookup_insert_eq; eauto|].
    apply lookup_insert_is_Some. destruct (decide (w = v)); [by left|right; split; [done|by eapply IH]].
  - intros [= <-] ->%list_elem_of_singleton. rewrite lookup_singleton_eq. eauto.
Qed.

(** A registration of a unary method: [protoReq] is its request, [server] its
    method. *)
Ltac gateway_case protoReq server :=
  etrans; [apply (handling_spec _ _ _ protoReq (fun r ctx => server ctx r)); intros md; try reflexivity;
    match goal with B : forall v, _ -> is_Some _ |- ?f _ _ _ _ _ _ = _ =>
      unfold f; by rewrite (path_param_bound _ _ (B _ ltac:(left))) end|];
  destruct (rt.(AnnotateContext) _ _ _); [|done]; by destruct protoReq.

(** (C16) The REST API is the RPC API behind the rules of api-config.yaml: a
    request whose path has no empty segment runs the method of the one rule
    that applies to it, on the message the path, the query and the body make,
    under the credential of its Authorization header, and gets that call's
    answer and database; without such a rule nothing runs. *)
Theorem gateway_is_rpc req d :
  Forall (fun s => s <> "") req.(Path) -> ServeHTTP gwMux req d = rest_spec req d.
Proof.
  intros NE. unfold ServeHTTP, rest_spec. fold registered. pose proof (dispatch_config req.(Verb) _ NE) as D.
  destruct (dispatch registered _ _) as [[i ps]|]; [|by rewrite D]. destruct D as (r & Hr & C). rewrite C.
  apply config_find_sound in C as (_ & _ & M). pose proof (fun v => template_binds _ _ _ v M) as B.
  destruct i as [|[|[|[|[|[|[|[|i]]]]]]]]; [injection Hr as <-..|done]; cbn [gwMux RegisterJobsServiceHandlerClient
    RegisterTargetsServiceHandlerClient RegisterUsageServiceHandlerClient app lookup list_lookup RHandler RuleMethod RuleTemplate rest_request] in *.
  - gateway_case (body rt req) jobsService.(s_SubmitJob).
  - gateway_case (Ok (E := string) (mkJobRef (default "" (ps !! "job_id")))) jobsService.(s_GetJob).
  - gateway_case (query rt rt.(PopulateListJobs) req) jobsService.(s_ListJobs).
  - apply watch_spec, B. left.
  - gateway_case (Ok (E := string) (mkJobRef (default "" (ps !! "job_id")))) jobsService.(s_CancelJob).
  - gateway_case (query rt rt.(PopulateListTargets) req) targetsService.(s_ListTargets).
  - gateway_case (Ok (E := string) (mkTargetRef (default "" (ps !! "name")))) targetsService.(s_GetTarget).
  - gateway_case (query rt rt.(PopulateTenantUsage) req) usageService.(s_GetTenantUsage).
Qed.

(** ** What a REST call can change *)

(** The bearer of the request's own Authorization header. *)
Definition bearer_of (req : http_request) : string := bearerFromContext (Some (mkMetadata req.(Authorization) [])).

(** The principal that bearer stands for. *)
Definition caller (req : http_request) (d : db) (p : Principal) : Prop :=
  (Authenticate sha256 authn d now (Some (mkMetadata req.(Authorization) []))).1 = Ok p.

Lemma handle_state {A} md method (h : context -> api A) d :
  exists d0, touched sha256 (bearerFromContext (Some md)) d now d0 /\
    ((handle md method h d).2 = d0 \/
     exists p, (Authenticate sha256 authn d now (Some md)).1 = Ok p /\ Authorize p method = Ok tt /\
       (handle md method h d).2 = (h (Some p) d0).2).
Proof.
  assert (T : exists d0, touched sha256 (bearerFromContext (Some md)) d now d0 /\
    ((intercept sha256 authn d now (Some md) method h).2 = d0 \/
     exists p, (Authenticate sha256 authn d now (Some md)).1 = Ok p /\ Authorize p method = Ok tt /\
       (intercept sha256 authn d now (Some md) method h).2 = (h (Some p) d0).2)).
  { unfold intercept. destruct (check sha256 authn d now (Some md) method) as [[ctx|st] d1] eqn:C; exists d1;
      apply check_frame in C as [T P]; (split; [exact T|]); [right|by left].
    destruct (P ctx eq_refl) as (p & -> & HA & Z). exists p. split; [exact HA|]. split; [exact Z|reflexivity]. }
  unfold handle, rpc. destruct n; [|exists d; split; [apply touched_refl|by left]|exact T].
  destruct T as (d0 & T & E). exists d0. split; [exact T|]. revert E. by destruct (intercept _ _ _ _ _ _ _) as [[a|st] d'].
Qed.

Lemma loadJob_reads ctx id d : (loadJob ctx id d).2 = d.
Proof.
  unfold loadJob, afail, alift, abind, aret. destruct (String.eqb id ""); [done|]. destruct (GetJob d id) as [rec|[]]; [|done..].
  by destruct (CheckProject ctx _).
Qed.
Lemma GetJob_reads ctx id d : (GetJob_rpc ctx id d).2 = d.
Proof. unfold GetJob_rpc, abind. pose proof (loadJob_reads ctx id d). by destruct (loadJob ctx id d) as [[]]. Qed.
Lemma ListJobs_reads ctx t f k sz d : (ListJobs_rpc ctx t f k sz d).2 = d.
Proof. unfold ListJobs_rpc, abind, alift, aread, aret. by destruct (page_offset k), (effectiveTenant ctx t). Qed.
Lemma GetTenantUsage_reads ctx t a b d : (GetTenantUsage ctx t a b d).2 = d.
Proof. unfold GetTenantUsage, abind, alift, aread, afail. by destruct (String.eqb t ""), (CheckProject ctx t). Qed.

Lemma handling_changes {A B C} method text (request : metadata -> http_request -> params -> stub A) (protoReq : result string B) (h : B -> context -> api C) f req ps d :
  (forall md, (request md req ps d).2 = (checked_call protoReq (fun r => handle md method (h r)) d).2) ->
  let d' := (handling rt method text request f req ps d).2 in
  exists d0, touched sha256 (bearer_of req) d now d0 /\
    (d' = d0 \/ exists p r, protoReq = Ok r /\ caller req d p /\ Authorize p method = Ok tt /\ d' = (h r (Some p) d0).2).
Proof.
  intros R. cbv zeta. unfold handling. destruct (rt.(AnnotateContext) req method text) as [md|] eqn:AC;
    [|exists d; split; [apply touched_refl|by left]].
  apply bearer_annotated in AC. specialize (R md). unfold checked_call in R. destruct protoReq as [r|m].
  - destruct (handle_state md method (h r) d) as (d0 & T & E). rewrite AC in T. rewrite (Authenticate_bearer _ _ _ _ _ _ AC) in E.
    exists d0. split; [exact T|]. rewrite <- R in E.
    destruct E as [E|(p & P & Z & E)]; [left|right; exists p, r; split; [done|split; [exact P|split; [exact Z|]]]];
      revert E; by destruct (request md req ps d) as [[a|e] d1].
  - exists d. split; [apply touched_refl|]. left. revert R. by destruct (request md req ps d) as [[a|e] d1].
Qed.

(** A registration whose request is [protoReq] and whose method is [server]. *)
Ltac changes_case protoReq server :=
  match goal with |- context [handling rt ?m ?t ?k ?f ?req ?ps ?d] =>
    destruct (handling_changes m t k protoReq server f req ps d) as (d0 & T & [E|(q & r & P & Q & Z & E)]);
      [intros md; cbn [checked_call]; try reflexivity
      |exists d0; split; [exact T|by left]
      |exists d0; split; [exact T|rewrite E]]
  end.

(** (C17) What a request to the REST gateway can change, whatever its method,
    path, query and body: the last use of the token its Authorization header
    presents and one entry of the audit log, unless it is a POST by a caller
    whom that header authenticates and the matrix allows to submit or to
    cancel; then the database is the one that RPC leaves, called with that
    principal, on the job document of the body or on one job. *)
Theorem rest_changes req d :
  let d' := (ServeHTTP gwMux req d).2 in
  exists d0, touched sha256 (bearer_of req) d now d0 /\
    (d' = d0 \/
     req.(Verb) = "POST" /\ exists p, caller req d p /\
       ((Authorize p (jobs_svc "SubmitJob") = Ok tt /\ exists r, body rt req = Ok r /\ d' = (jobsService.(s_SubmitJob) (Some p) r d0).2) \/
        (Authorize p (jobs_svc "CancelJob") = Ok tt /\ exists id, d' = (jobsService.(s_CancelJob) (Some p) (mkJobRef id) d0).2))).
Proof.
  cbv zeta. unfold ServeHTTP. fold registered. destruct (dispatch registered _ _) as [[i ps]|] eqn:D;
    [|exists d; split; [apply touched_refl|by left]].
  apply dispatch_sound in D as (p & Hp & _). unfold registered in Hp. rewrite list_lookup_fmap in Hp.
  destruct (gwMux !! i) as [r|] eqn:Hr; [|done]. injection Hp as V _. rewrite <- V. clear V.
  destruct i as [|[|[|[|[|[|[|[|i]]]]]]]]; [injection Hr as <-..|done]; cbn [RHandler RVerb].
  - changes_case (body rt req) (fun r ctx => jobsService.(s_SubmitJob) ctx r).
    right. split; [reflexivity|]. exists q. split; [exact Q|]. left. split; [exact Z|]. exists r. split; [exact P|reflexivity].
  - changes_case (path_param rt "job_id" ps) (fun v ctx => jobsService.(s_GetJob) ctx (mkJobRef v)). left. apply GetJob_reads.
  - changes_case (query rt rt.(PopulateListJobs) req) (fun r ctx => jobsService.(s_ListJobs) ctx r). left. apply ListJobs_reads.
  - changes_case (path_param rt "job_id" ps) (fun v ctx => watching ctx (mkJobRef v)); [|by left].
    unfold request_JobsService_WatchJob_0, checked_call. destruct (path_param rt _ ps) as [v|]; [|done].
    cbn [c_WatchJob NewJobsServiceClient]. unfold open_watch. destruct (handle _ _ _ d) as [[a|[st|m]] d']; [done| |done].
    cbn [header]. by destruct early.
  - changes_case (path_param rt "job_id" ps) (fun v ctx => jobsService.(s_CancelJob) ctx (mkJobRef v)).
    right. split; [reflexivity|]. exists q. split; [exact Q|]. right. split; [exact Z|]. exists r. reflexivity.
  - changes_case (query rt rt.(PopulateListTargets) req) (fun r ctx => targetsService.(s_ListTargets) ctx r). by left.
  - changes_case (path_param rt "name" ps) (fun v ctx => targetsService.(s_GetTarget) ctx (mkTargetRef v)). by left.
  - changes_case (query rt rt.(PopulateTenantUsage) req) (fun r ctx => usageService.(s_GetTenantUsage) ctx r). left. apply GetTenantUsage_reads.
Qed.
End Laws.

(** *** In process *)

(** Registered in process the handlers would see no principal: nobody could
    submit or cancel, and the fleet would be listed to anyone. *)
Lemma in_process_unauthenticated req ps d :
  (exists st, local_request_JobsService_SubmitJob_0 rt jobsService req ps d = (Err st, d)) /\
  (exists st, local_request_JobsService_CancelJob_0 rt jobsService req ps d = (Err st, d)) /\
  (forall r, query rt rt.(PopulateListTargets) req = Ok r ->
     local_request_TargetsService_ListTargets_0 rt targetsService req ps d =
     (ListTargets_rpc encode_caps encode_state registry r.(ModalityFilter), d)).
Proof.
  split_and!.
  - unfold local_request_JobsService_SubmitJob_0, served. destruct (body rt req) as [r|e]; [|by eexists].
    cbn [s_SubmitJob jobsService]. unfold SubmitJob. destruct r.(SrQuantumJob) as [dc|]; [|by eexists].
    destruct (Admit _ _ _ _ _ _) as [adm|e]; [|by eexists]. by eexists.
  - unfold local_request_JobsService_CancelJob_0, served. destruct (rmap _ _) as [r|e]; [|by eexists].
    cbn [s_CancelJob jobsService]. unfold CancelJob, abind, loadJob. destruct (String.eqb _ ""); [by eexists|].
    destruct (GetJob d _) as [rec|[]]; by eexists.
  - intros r Q. unfold local_request_TargetsService_ListTargets_0, served. by rewrite Q.
Qed.
End Loopback.

(** ** A multiplexer and a runtime *)

(** The template of a pattern's operations. *)
Fixpoint decode (pool : list string) (ops : list Z) : option template :=
  match ops with
  | [] => Some TEnd
  | 2 :: i :: rest => match pool !! Z.to_nat i with Some s => TLit s <$> decode pool rest | None => None end
  | 1 :: 0 :: 4 :: 1 :: 5 :: i :: rest => match pool !! Z.to_nat i with Some v => TVar v <$> decode pool rest | None => None end
  | [1; 0; 3; 0; 4; 2; 5; i] => TDeep <$> pool !! Z.to_nat i
  | _ => None
  end.

Lemma decode_encodes pool ops t : encodes pool ops t -> decode pool ops = Some t.
Proof. induction 1 as [|i s ops t P _ IH|i v ops t P _ IH|i v P]; cbn [decode]; [done|destruct P as [_ P]; rewrite P..]; [by rewrite IH..|done]. Qed.

Definition demo_match (p : Pattern) (path : list string) : option params :=
  match decode p.(PatPool) p.(PatOps) with Some t => template_match t path | None => None end.

(** The pattern registered last is tried first. *)
Fixpoint demo_dispatch (regs : list (string * Pattern)) (verb : string) (path : list string) : option (nat * params) :=
  match regs with
  | [] => None
  | (v, p) :: rest =>
      match demo_dispatch rest verb path with
      | Some (i, ps) => Some (S i, ps)
      | None => if String.eqb v verb then pair 0%nat <$> demo_match p path else None
      end
  end.

#[local] Instance demo_mux : ServeMux := { pattern_match := demo_match; dispatch := demo_dispatch }.

#[local] Instance demo_mux_laws : ServeMuxLaws.
Proof.
  constructor; cbn [pattern_match dispatch demo_mux].
  - intros p t path _ _ E%decode_encodes _. unfold demo_match. by rewrite E.
  - induction regs as [|[v p] regs IH]; intros verb path i ps; cbn [demo_dispatch]; [done|].
    destruct (demo_dispatch regs verb path) as [[j qs]|] eqn:D; [intros [= <- <-]; exact (IH _ _ _ _ D)|].
    destruct (String.eqb_spec v verb) as [->|]; [|done]. intros (qs & M & [= -> ->])%fmap_Some. by exists p.
  - induction regs as [|[v p] regs IH]; intros verb path q; cbn [demo_dispatch]; [by intros _ ?%elem_of_nil|].
    destruct (demo_dispatch regs verb path) as [[j qs]|] eqn:D; [done|]. intros N [[= <- <-]|Hq]%elem_of_cons; [|by apply (IH verb path)].
    rewrite String.eqb_refl in N. by destruct (demo_match q path).
Qed.

Definition demo_gateway_runtime : runtime string :=
  mkRuntime string (fun s => if String.eqb s "" then AtEOF else Malformed "bad json") (fun r => Ok r.(Query))
    (fun q => Ok (mkListJobsRequest q "" 0 "")) (fun q => Ok (mkListTargetsRequest q)) (fun q => Ok (mkTenantUsageRequest q None None))
    Ok (fun r _ _ => Ok (mkMetadata r.(Authorization) r.(Authorization))) (fun r _ _ => Ok (mkMetadata r.(Authorization) r.(Authorization))).

#[local] Instance demo_runtime_laws : RuntimeLaws demo_gateway_runtime.
Proof. constructor; [done|]. by intros req method text md [= <-]. Qed.

(** The demonstration's control plane and network. *)
Definition demo_rest {A} (f : (string -> string) -> Authenticator -> (doc -> option string) -> (list string -> list string) ->
    FleetView -> option (string -> db -> result string unit * db) -> (Capabilities -> result string doc) ->
    (DeviceState -> result string doc) -> Registry.Registry -> Z -> string -> list db -> bool -> network -> A) : A :=
  f demo_sha256 demo_auth (fun _ => None) id (mkFleetView [] []) None (fun _ => Err "caps") (fun _ => Err "state") demo_registry
    9 "j9" [] false Delivered.

Definition demo_cancel : http_request := mkRequest "POST" ["v1alpha1"; "jobs"; "j1"; "cancel"] ["Bearer boot"] "" "{}".

Lemma gateway_is_rpc_witness :
  Forall (fun s => s <> "") demo_cancel.(Path) /\
  ServeHTTP (demo_rest (@gwMux) _ demo_gateway_runtime) demo_cancel demo_bound = demo_rest (@rest_spec) _ demo_gateway_runtime demo_cancel demo_bound.
Proof.
  assert (NE : Forall (fun s => s <> "") demo_cancel.(Path)) by (repeat constructor; discriminate). split; [exact NE|].
  unfold demo_rest. apply gateway_is_rpc; [exact _..|exact NE].
Defined.

(** The cancelled job, and a request without a rule. *)
Example demo_cancelled :
  (fun r => (match r.1 with Forwarded (PJob j) => j.(PbJobId) | _ => "" end, JPhase <$> r.2.(jobs) !! "j1"))
    (ServeHTTP (demo_rest (@gwMux) _ demo_gateway_runtime) demo_cancel demo_bound) = ("j1", Some Cancelled).
Proof. vm_compute. reflexivity. Qed.
Example demo_no_rule :
  (ServeHTTP (demo_rest (@gwMux) _ demo_gateway_runtime) (mkRequest "POST" ["v1alpha1"; "tokens"] ["Bearer boot"] "" "{}") demo_bound).1 = NoHandler.
Proof. vm_compute. reflexivity. Qed.

Lemma rest_changes_witness :
  (demo_bound.(jobs) !! "j1") <> ((ServeHTTP (demo_rest (@gwMux) _ demo_gateway_runtime) demo_cancel demo_bound).2.(jobs) !! "j1") /\
  exists p, (Authenticate demo_sha256 demo_auth demo_bound 9 (Some (mkMetadata ["Bearer boot"] []))).1 = Ok p /\
    Authorize p (jobs_svc "CancelJob") = Ok tt.
Proof.
  assert (N : (demo_bound.(jobs) !! "j1") <> ((ServeHTTP (demo_rest (@gwMux) _ demo_gateway_runtime) demo_cancel demo_bound).2.(jobs) !! "j1"))
    by (vm_compute; discriminate).
  split; [exact N|].
  destruct (rest_changes demo_sha256 demo_auth (fun _ => None) id (mkFleetView [] []) None (fun _ => Err "caps") (fun _ => Err "state")
    demo_registry 9 "j9" [] false Delivered demo_gateway_runtime demo_cancel demo_bound)
    as (d0 & (tokens & log & -> & _) & [E|(_ & p & Q & [(_ & r & P & _)|(Z & _)])]).
  - exfalso. apply N. unfold demo_rest. rewrite E. reflexivity.
  - discriminate P.
  - exists p. exact (conj Q Z).
Defined.
