(* ===== verification/LoadGen.v ===== *)
(** * The load generators — harness.go, storm.go and soak.go of
    src/internal/loadtest, and the two commands of src/cmd/rabi-load

    The goroutines that seed the backlog and probe the API, interleaved with
    each other and with everything the stack does meanwhile; the submitter of
    the soak; booting and closing the stack; and the commands around them,
    whose measurements and verdicts are in [LoadTest]. *)

From S2P Require Import Prelude Float64 GoLib Phase Database JobStore Tables Lifecycle Scheduler Auth Dispatch Registry Evidence LoadTest Boot.

(** ** seedJobs *)

Module Seed.

(** A seeding goroutine waits on the channel, inserts the job of an index, or
    has returned. *)
Inductive worker := Waiting | Inserting (i : nat) | Returned.

#[global] Instance worker_eq_dec : EqDecision worker.
Proof. solve_decision. Defined.

(** The closed channel, the goroutines, the slots of [ids] that were written,
    [seedErr], and the database. *)
Record seeding := mkSeeding {
  queue : list nat; workers : list worker; ids : gmap nat string; seedErr : option string; base : db }.

Definition seeding_init (jobs_ seeders : nat) (d : db) : seeding :=
  mkSeeding (seq 0 jobs_) (replicate seeders Waiting) ∅ None d.

Section Seed.
Context (tenant : string).

(** One step of one goroutine.  A failed insert may have been committed all
    the same. *)
Inductive seeder_step (s : seeding) : seeding -> Prop :=
| take_index k i q :
    s.(workers) !! k = Some Waiting -> s.(queue) = i :: q ->
    seeder_step s (mkSeeding q (<[k := Inserting i]> s.(workers)) s.(ids) s.(seedErr) s.(base))
| queue_drained k :
    s.(workers) !! k = Some Waiting -> s.(queue) = [] ->
    seeder_step s (mkSeeding [] (<[k := Returned]> s.(workers)) s.(ids) s.(seedErr) s.(base))
| seeded k i now id r d :
    s.(workers) !! k = Some (Inserting i) -> SeedJob s.(base) now id tenant 1000 = (Ok r, d) ->
    seeder_step s (mkSeeding s.(queue) (<[k := Waiting]> s.(workers)) (<[i := id]> s.(ids)) s.(seedErr) d)
| seed_failed k i e d :
    s.(workers) !! k = Some (Inserting i) ->
    d = s.(base) \/ (exists now id r, SeedJob s.(base) now id tenant 1000 = (Ok r, d)) ->
    seeder_step s (mkSeeding s.(queue) (<[k := Returned]> s.(workers)) s.(ids) (Some e) d).

(** Meanwhile the dispatcher and everybody else work on the same store. *)
Definition others (s s' : seeding) : Prop :=
  exists d, store_step s.(base) d /\ s' = mkSeeding s.(queue) s.(workers) s.(ids) s.(seedErr) d.

Definition seeding_step (s s' : seeding) : Prop := seeder_step s s' \/ others s s'.
End Seed.

Definition held (w : worker) : option nat := match w with Inserting i => Some i | _ => None end.

(** [wg.Wait()] returns. *)
Definition seeded_all (s : seeding) : Prop := forall k w, s.(workers) !! k = Some w -> w = Returned.
End Seed.

(** ** runProbes *)

Module Probes.

(** A probing goroutine is about to add to the shared counter, is in a call,
    or has returned; [at_] is its index into the seeded identifiers. *)
Inductive prober := Adding (at_ : Z) | Calling (at_ : Z) | Done.

#[global] Instance prober_eq_dec : EqDecision prober.
Proof. solve_decision. Defined.

(** The counter, the goroutines, and the probes whose latency was recorded. *)
Record probing := mkProbing { counter : Z; probers : list prober; recorded : list Z }.

Section Probes.
(** The number of probes asked for, and of seeded identifiers. *)
Context (total len : Z).

Inductive prober_step (s : probing) : probing -> Prop :=
| begin_probe k i :
    s.(probers) !! k = Some (Adding i) -> s.(counter) + 1 <= total ->
    prober_step s (mkProbing (s.(counter) + 1) (<[k := Calling ((i + 1) mod len)]> s.(probers)) s.(recorded))
| no_more_probes k i :
    s.(probers) !! k = Some (Adding i) -> total < s.(counter) + 1 ->
    prober_step s (mkProbing (s.(counter) + 1) (<[k := Done]> s.(probers)) s.(recorded))
| end_probe k i :
    s.(probers) !! k = Some (Calling i) ->
    prober_step s (mkProbing s.(counter) (<[k := Adding i]> s.(probers)) (s.(recorded) ++ [i])).
End Probes.

(** Reader [r] starts from the index [r * 997]; a writer has no index. *)
Definition readers_init (n : nat) : probing := mkProbing 0 ((fun r => Adding (Z.of_nat r * 997)) <$> seq 0 n) [].

(** What a reader asks the API for. *)
Inductive read_call := ListPage (size : Z) | GetOne (id : string).
Definition read_probe (ids : gmap nat string) (i : Z) : read_call :=
  if is_list_probe i then ListPage 50 else GetOne (default "" (ids !! Z.to_nat i)).

Definition probes_ended (s : probing) : Prop := forall k w, s.(probers) !! k = Some w -> w = Done.
End Probes.

(** ** What the seeding leaves *)

Module SeedProps.
Import Seed.

Section Seed.
Context (tenant : string) (n : nat).

(** The job of an index is in the store, with the document and the tenant of
    the run. *)
Definition stored (d : db) (id : string) : Prop :=
  exists r, d.(jobs) !! id = Some r /\ r.(JobID) = id /\ r.(Tenant) = tenant /\ r.(Doc) = minimalDoc "load" tenant 1000.

Record Inv (s : seeding) : Prop := {
  q_nodup : NoDup s.(queue);
  q_fresh i : i ∈ s.(queue) -> (i < n)%nat /\ s.(ids) !! i = None;
  w_fresh k i : s.(workers) !! k = Some (Inserting i) -> (i < n)%nat /\ s.(ids) !! i = None /\ i ∉ s.(queue);
  w_unique k k' i : s.(workers) !! k = Some (Inserting i) -> s.(workers) !! k' = Some (Inserting i) -> k = k';
  covered i : (i < n)%nat -> i ∈ s.(queue) \/ (exists k, s.(workers) !! k = Some (Inserting i)) \/ is_Some (s.(ids) !! i) \/ s.(seedErr) <> None;
  id_stored i id : s.(ids) !! i = Some id -> stored s.(base) id;
  id_inj i j id : s.(ids) !! i = Some id -> s.(ids) !! j = Some id -> i = j;
  drained k : s.(seedErr) = None -> s.(workers) !! k = Some Returned -> s.(queue) = [] }.

Lemma seeding_Inv_init seeders d : Inv (seeding_init n seeders d).
Proof.
  split; cbn [seeding_init queue workers ids seedErr base]; try (intros *; rewrite lookup_empty; done).
  - apply NoDup_seq.
  - intros i ?%elem_of_seq. split; [lia|apply lookup_empty].
  - by intros k i [? _]%lookup_replicate.
  - by intros k k' i [? _]%lookup_replicate.
  - intros i Hi. left. apply elem_of_seq. lia.
  - by intros k _ [? _]%lookup_replicate.
Qed.

Lemma SeedJob_stored d now id r d' :
  SeedJob d now id tenant 1000 = (Ok r, d') -> d.(jobs) !! id = None /\ stored d' id /\ store_step d d'.
Proof.
  intros H. pose proof (step_insert d now (seed_record id tenant 1000) eq_refl) as St. unfold SeedJob in H. rewrite H in St.
  apply in_tx_ok, insertJobTx_ok in H as (_ & _ & E & -> & ->).
  split; [exact E|]. split; [|exact St]. eexists. split; [exact (lookup_insert_eq d.(jobs) id _)|done].
Qed.

Lemma stored_evolves d d' id : store_step d d' -> stored d id -> stored d' id.
Proof.
  intros St (r & H & E1 & E2 & E3). destruct (run_job d d' id r) as (r' & H' & F1 & F2 & F3 & _); [by apply rtc_once|done|].
  exists r'. by rewrite F1, F2, F3.
Qed.

Lemma seed_step_store s s' : seeding_step tenant s s' -> s'.(base) = s.(base) \/ store_step s.(base) s'.(base).
Proof.
  intros [St|(d & St & ->)]; [|by right]. destruct St as [k i q _ _|k _ _|k i now id r d _ H|k i e d _ [->|(now & id & r & H)]]; cbn [base]; auto.
  - right. apply (SeedJob_stored _ _ _ _ _ H).
  - right. apply (SeedJob_stored _ _ _ _ _ H).
Qed.

(** What a goroutine does after a step of goroutine [k]: what [k] now does, or
    what it did. *)
Ltac at_worker H := apply list_lookup_insert_Some in H as [(<- & H & _)|[? H]]; [try discriminate H|].

(** Goroutine [k] waits, takes the next index, or returns. *)
Lemma Inv_take s k i q :
  Inv s -> s.(workers) !! k = Some Waiting -> s.(queue) = i :: q ->
  Inv (mkSeeding q (<[k := Inserting i]> s.(workers)) s.(ids) s.(seedErr) s.(base)).
Proof.
  intros [I1 I2 I3 I4 I5 I6 I7 I8] Hk Hq. rewrite Hq in *. apply NoDup_cons in I1 as [Ni Nq].
  split; cbn [queue workers ids seedErr base]; try done.
  - intros j Hj. apply I2. by right.
  - intros k' j H. at_worker H; [injection H as <-; split_and!; [apply I2; left..|done]|].
    destruct (I3 _ _ H) as (? & ? & Hj). split_and!; [done..|]. intros ?. apply Hj. by right.
  - intros k1 k2 j H1 H2. at_worker H1; at_worker H2; [done| | |by eapply I4].
    + injection H1 as <-. destruct (I3 _ _ H2) as (_ & _ & Hj). destruct Hj. left.
    + injection H2 as <-. destruct (I3 _ _ H1) as (_ & _ & Hj). destruct Hj. left.
  - intros j Hj. destruct (I5 j Hj) as [Hq'|[[k' Hw]|?]]; [|right; left; exists k'|by auto].
    + apply elem_of_cons in Hq' as [->|?]; [|by auto]. right. left. exists k. apply list_lookup_insert_eq. by eapply lookup_lt_Some.
    + rewrite list_lookup_insert_ne; [done|]. intros ->. by rewrite Hk in Hw.
  - intros k' He H. at_worker H. by specialize (I8 _ He H).
Qed.

Lemma Inv_drained s k :
  Inv s -> s.(workers) !! k = Some Waiting -> s.(queue) = [] ->
  Inv (mkSeeding [] (<[k := Returned]> s.(workers)) s.(ids) s.(seedErr) s.(base)).
Proof.
  intros [I1 I2 I3 I4 I5 I6 I7 I8] Hk Hq. rewrite Hq in *. split; cbn [queue workers ids seedErr base]; try done.
  - intros k' j H. at_worker H. by eapply I3.
  - intros k1 k2 j H1 H2. at_worker H1; at_worker H2. by eapply I4.
  - intros j Hj. destruct (I5 j Hj) as [?|[[k' Hw]|?]]; [by auto|right; left; exists k'|by auto].
    rewrite list_lookup_insert_ne; [done|]. intros ->. by rewrite Hk in Hw.
Qed.

(** Goroutine [k] gives its index up, for a slot it has written or an error. *)
Lemma Inv_release s k i w ids' err' d :
  Inv s -> s.(workers) !! k = Some (Inserting i) -> held w = None ->
  (forall j, j <> i -> ids' !! j = s.(ids) !! j) -> (is_Some (ids' !! i) \/ err' <> None) -> (s.(seedErr) <> None -> err' <> None) ->
  (err' = None -> w <> Returned) ->
  (forall id, stored s.(base) id -> stored d id) -> (forall id, ids' !! i = Some id -> stored d id) ->
  (forall j id, ids' !! i = Some id -> s.(ids) !! j = Some id -> False) ->
  Inv (mkSeeding s.(queue) (<[k := w]> s.(workers)) ids' err' d).
Proof.
  intros [I1 I2 I3 I4 I5 I6 I7 I8] Hk Hw Hne Hi He Hr Hd Hs Hf. destruct (I3 _ _ Hk) as (Ln & Fi & Nq).
  split; cbn [queue workers ids seedErr base]; try done.
  - intros j Hj. destruct (I2 j Hj) as [? E]. rewrite Hne; [done|]. by intros ->.
  - intros k' j H. at_worker H; [by subst w|]. destruct (I3 _ _ H) as (? & E & ?). rewrite Hne; [done|].
    intros ->. by rewrite (I4 _ _ _ Hk H) in *.
  - intros k1 k2 j H1 H2. at_worker H1; [by subst w|]. at_worker H2; [by subst w|]. by eapply I4.
  - intros j Hj. destruct (decide (j = i)) as [->|Nj]; [by destruct Hi; auto|]. rewrite Hne by done.
    destruct (I5 j Hj) as [?|[[k' Hw']|[?|?]]]; [by auto|right; left; exists k'|by auto|by auto].
    rewrite list_lookup_insert_ne; [done|]. intros ->. rewrite Hk in Hw'. by injection Hw' as ->.
  - intros j id H. destruct (decide (j = i)) as [->|Nj]; [by apply Hs|]. rewrite Hne in H by done. by eapply Hd, I6.
  - intros j1 j2 id H1 H2. destruct (decide (j1 = i)) as [->|N1], (decide (j2 = i)) as [->|N2]; [done| | |].
    + rewrite Hne in H2 by done. by destruct (Hf _ _ H1 H2).
    + rewrite Hne in H1 by done. by destruct (Hf _ _ H2 H1).
    + rewrite Hne in H1, H2 by done. by eapply I7.
  - intros k' E H. at_worker H; [by destruct (Hr E)|]. apply (I8 k'); [|done].
    destruct (s.(seedErr)) eqn:Es; [|done]. by destruct He.
Qed.

Lemma seeding_Inv_step s s' : Inv s -> seeding_step tenant s s' -> Inv s'.
Proof.
  intros I [St|(d & St & ->)].
  - destruct St as [k i q Hk Hq|k Hk Hq|k i now id r d Hk H|k i e d Hk H].
    + by apply Inv_take.
    + by apply Inv_drained.
    + apply SeedJob_stored in H as (N & S & St). apply (Inv_release s k i); try done.
      * intros j Hj. by apply lookup_insert_ne.
      * left. rewrite lookup_insert_eq. by eexists.
      * intros id' ?. by eapply stored_evolves.
      * intros id' E. rewrite lookup_insert_eq in E. by injection E as <-.
      * intros j id' E Hj. rewrite lookup_insert_eq in E. injection E as <-. destruct (id_stored _ I _ _ Hj) as (r' & Hr & _). by rewrite N in Hr.
    + destruct (w_fresh _ I _ _ Hk) as (_ & Fi & _). apply (Inv_release s k i); rewrite ?Fi; try done; [by right|].
      intros id'. destruct H as [->|(now & id & r & H)]; [done|]. apply stored_evolves. by apply SeedJob_stored in H as (_ & _ & ?).
  - destruct I. split; cbn [queue workers ids seedErr base]; try done. intros i id ?. by eapply stored_evolves, id_stored0.
Qed.

Lemma seeding_Inv_run s s' : rtc (seeding_step tenant) s s' -> Inv s -> Inv s'.
Proof. induction 1 as [|s s1 s2 St _ IH]; [done|]. intros I. by eapply IH, seeding_Inv_step. Qed.

(** However the goroutines interleave with each other and with the rest of the
    stack: when the last of them has returned and no error was kept, every
    index has a job of its own in the store, under the identifier its slot
    holds, so the backlog the run starts from has exactly the jobs asked for. *)
Theorem seeding_complete seeders d s :
  (0 < seeders)%nat -> rtc (seeding_step tenant) (seeding_init n seeders d) s -> seeded_all s -> s.(seedErr) = None ->
  (forall i, (i < n)%nat -> exists id, s.(ids) !! i = Some id /\ stored s.(base) id) /\
  (forall i j id, s.(ids) !! i = Some id -> s.(ids) !! j = Some id -> i = j).
Proof.
  intros Hk R A E. pose proof (seeding_Inv_run _ _ R (seeding_Inv_init seeders d)) as I. split; [|apply I]. intros i Hi.
  assert (W : exists k, s.(workers) !! k = Some Returned).
  { assert (L : length s.(workers) = seeders).
    { transitivity (length (seeding_init n seeders d).(workers)); [|apply length_replicate].
      clear - R. induction R as [|s s1 s2 St _ IH]; [done|]. rewrite IH. clear IH.
      destruct St as [[]|(? & _ & ->)]; cbn [workers]; by rewrite ?length_insert. }
    destruct (lookup_lt_is_Some_2 s.(workers) 0%nat) as [w Hw]; [lia|]. exists 0%nat. by rewrite Hw, (A _ _ Hw). }
  destruct W as [k Hw]. pose proof (drained _ I k E Hw) as Q.
  destruct (covered _ I i Hi) as [H|[[k' H]|[[id H]|H]]]; [rewrite Q in H; by apply elem_of_nil in H|by apply A in H| |done].
  exists id. split; [done|]. by apply (id_stored _ I i).
Qed.
End Seed.
End SeedProps.

(** ** The seeding ends *)

(** What is known of a sum after one element of a list was replaced. *)
Lemma sum_insert {A} (f : A -> nat) l k x y :
  l !! k = Some x -> (sum_list_with f (<[k := y]> l) + f x = sum_list_with f l + f y)%nat.
Proof.
  intros H. rewrite <- (take_drop_middle l k x H) at 2. rewrite insert_take_drop by (by eapply lookup_lt_Some).
  rewrite !sum_list_with_app. cbn [sum_list_with]. lia.
Qed.

Module SeedEnds.
Import Seed.

Definition left_to_do (w : worker) : nat := match w with Waiting => 1 | Inserting _ => 2 | Returned => 0 end.
Definition weight (s : seeding) : nat := 3 * length s.(queue) + sum_list_with left_to_do s.(workers).

(** Every step of a goroutine brings the end nearer, the rest of the stack
    does not push it away, and a goroutine that has not returned is never
    stuck: a run of [n] jobs and [k] goroutines takes at most [3n + k] of
    their steps. *)
Lemma seeding_ends tenant s :
  (forall s', seeder_step tenant s s' -> (weight s' < weight s)%nat) /\
  (forall s', others s s' -> weight s' = weight s) /\
  (~ seeded_all s -> exists s', seeder_step tenant s s') /\
  (forall n k d, weight (seeding_init n k d) = (3 * n + k)%nat).
Proof.
  split_and!.
  - intros s' [k i q Hk Hq|k Hk Hq|k i now id r d Hk _|k i e d Hk _]; unfold weight; cbn [queue workers]; rewrite ?Hq; cbn [length];
      pose proof (fun w => sum_insert left_to_do _ _ _ w Hk) as S; cbn [left_to_do] in S;
      [specialize (S (Inserting i))|specialize (S Returned)|specialize (S Waiting)|specialize (S Returned)]; cbn [left_to_do] in S; lia.
  - intros s' (d & _ & ->). done.
  - intros H. destruct (decide (Forall (fun w => w = Returned) s.(workers))) as [F|F].
    { destruct H. intros k w Hw. by eapply Forall_lookup_1 in F. }
    apply not_Forall_Exists in F; [|apply _]. apply Exists_exists in F as (w & Hw & Nw).
    apply list_elem_of_lookup in Hw as [k Hk]. destruct w as [|i|]; [| |by destruct Nw].
    + destruct s.(queue) as [|i q] eqn:Q; eexists; [by eapply queue_drained|by eapply take_index].
    + eexists. apply (seed_failed _ _ k i "" s.(base)); [done|by left].
  - intros n k d. unfold weight, seeding_init. cbn [queue workers]. rewrite length_seq.
    assert (W : sum_list_with left_to_do (replicate k Waiting) = k) by (induction k as [|k IH]; [done|]; cbn; lia). lia.
Qed.
End SeedEnds.

(** ** How many probes are made *)

Module ProbeProps.
Import Probes.

Definition calling (w : prober) : nat := match w with Calling _ => 1 | _ => 0 end.
Definition returned (w : prober) : nat := match w with Done => 1 | _ => 0 end.

Definition made (s : probing) : nat := length s.(recorded) + sum_list_with calling s.(probers).
Definition ended (s : probing) : nat := sum_list_with returned s.(probers).

Section Probes.
Context (total len : Z).

Record Inv (s : probing) : Prop := {
  counted : s.(counter) = Z.of_nat (made s) + Z.of_nat (ended s);
  within : Z.of_nat (made s) <= Z.max 0 total;
  exact_once_ended : (0 < ended s)%nat -> Z.of_nat (made s) = Z.max 0 total;
  recorded_in i : i ∈ s.(recorded) -> 0 < len -> 0 <= i < len;
  calling_in k i : s.(probers) !! k = Some (Calling i) -> 0 < len -> 0 <= i < len }.

Lemma probing_Inv_init n : Inv (readers_init n).
Proof.
  assert (S : forall f l, f (Adding 0) = 0%nat -> (forall i, f (Adding i) = f (Adding 0)) -> sum_list_with f ((fun r : nat => Adding (Z.of_nat r * 997)) <$> l) = 0%nat).
  { intros f l H0 H. induction l as [|x l IH]; [done|]. cbn [fmap list_fmap sum_list_with]. rewrite H, H0. exact IH. }
  split; unfold made, ended; cbn [readers_init recorded probers counter length]; rewrite ?S by done; try lia.
  - by intros i ?%elem_of_nil.
  - intros k i H. apply list_lookup_fmap_Some in H as (? & ? & _). done.
Qed.

Lemma probing_Inv_step s s' : Inv s -> prober_step total len s s' -> Inv s'.
Proof.
  intros [I1 I2 I3 I4 I5] St. unfold made, ended in *.
  destruct St as [k i Hk Hc|k i Hk Hc|k i Hk];
    pose proof (fun w => sum_insert calling _ _ _ w Hk) as C; pose proof (fun w => sum_insert returned _ _ _ w Hk) as R.
  - specialize (C (Calling ((i + 1) mod len))). specialize (R (Calling ((i + 1) mod len))). cbn [calling returned] in *.
    split; unfold made, ended; cbn [recorded probers counter]; [lia|lia|lia|exact I4|].
    intros k' j H Hl. apply list_lookup_insert_Some in H as [(<- & [= <-] & _)|[_ H]]; [apply Z.mod_pos_bound, Hl|by eapply I5].
  - specialize (C Done). specialize (R Done). cbn [calling returned] in *.
    split; unfold made, ended; cbn [recorded probers counter]; [lia|lia|lia|exact I4|].
    intros k' j H Hl. apply list_lookup_insert_Some in H as [(_ & ? & _)|[_ H]]; [done|by eapply I5].
  - specialize (C (Adding i)). specialize (R (Adding i)). cbn [calling returned] in *.
    split; unfold made, ended; cbn [recorded probers counter]; rewrite ?length_app; cbn [length]; [lia|lia|lia| |].
    + intros j [Hj|Hj%list_elem_of_singleton]%elem_of_app Hl; [by apply I4|subst j; by eapply I5].
    + intros k' j H Hl. apply list_lookup_insert_Some in H as [(_ & ? & _)|[_ H]]; [done|by eapply I5].
Qed.

(** The shared counter hands out every probe once: when all the goroutines have
    returned, exactly the probes asked for have been made and timed, whatever
    the number of goroutines and their order, each at an index of a seeded
    job. *)
Theorem probes_exact n s :
  (0 < n)%nat -> rtc (prober_step total len) (readers_init n) s -> probes_ended s ->
  length s.(recorded) = Z.to_nat total /\ (0 < len -> Forall (fun i => 0 <= i < len) s.(recorded)).
Proof.
  intros Hn R A. assert (I : Inv s /\ length s.(probers) = n).
  { assert (L : length (readers_init n).(probers) = n) by (cbn; by rewrite length_fmap, length_seq).
    pose proof (probing_Inv_init n) as I. revert L I. clear - R. induction R as [|s s1 s2 St _ IH]; [done|]. intros L I.
    apply IH; [|by eapply probing_Inv_step]. by destruct St; cbn [probers]; rewrite ?length_insert. }
  destruct I as [[I1 I2 I3 I4 I5] L]. split; [|intros Hl; apply Forall_forall; eauto].
  assert (Z0 : forall l : list prober, (forall k w, l !! k = Some w -> w = Done) -> sum_list_with calling l = 0%nat /\ sum_list_with returned l = length l).
  { induction l as [|w l IH]; intros H; [done|]. rewrite (H 0%nat w eq_refl) in *. cbn [sum_list_with calling returned length].
    destruct IH as [-> ->]; [|done]. intros k w' Hw. by apply (H (S k)). }
  destruct (Z0 _ A) as [C E]. unfold made, ended in *. rewrite C, E, L in *. specialize (I3 Hn). lia.
Qed.

Definition steps_left (w : prober) : nat := match w with Adding _ => 1 | Calling _ => 2 | Done => 0 end.
Definition weight (s : probing) : nat := 3 * Z.to_nat (total - s.(counter)) + sum_list_with steps_left s.(probers).

(** The probing ends: every step brings the end nearer, and a goroutine that
    has not returned can always take one. *)
Lemma probing_ends s :
  (forall s', prober_step total len s s' -> (weight s' < weight s)%nat) /\
  (~ probes_ended s -> exists s', prober_step total len s s').
Proof.
  split.
  - intros s' [k i Hk Hc|k i Hk Hc|k i Hk]; unfold weight; cbn [counter probers];
      pose proof (fun w => sum_insert steps_left _ _ _ w Hk) as S;
      [specialize (S (Calling ((i + 1) mod len)))|specialize (S Done)|specialize (S (Adding i))]; cbn [steps_left] in S; lia.
  - intros H. destruct (decide (Forall (fun w => w = Done) s.(probers))) as [F|F].
    { destruct H. intros k w Hw. by eapply Forall_lookup_1 in F. }
    apply not_Forall_Exists in F; [|apply _]. apply Exists_exists in F as (w & Hw & Nw).
    apply list_elem_of_lookup in Hw as [k Hk]. destruct w as [i|i|]; [| |by destruct Nw].
    + destruct (Z.le_gt_cases (s.(counter) + 1) total); eexists; [by eapply begin_probe|by eapply no_more_probes].
    + eexists. by eapply end_probe.
Qed.
End Probes.
End ProbeProps.

(** ** The stack under load *)

Module Stack.

(** What [NewStack] starts and stops; cancelling the context ends the
    registry's loops, the dispatcher and the server. *)
Inductive stack_event :=
  | FleetServing (addr : string) | FleetStopped | ContextMade | ContextCancelled | RegistryStarted | DispatcherStarted | ServerStarted.

Definition harnessToken : string := "loadtest-bootstrap-token".

(** What booting meets: the listener of the synthetic fleet, the gRPC client,
    exp and SHA-256, the compiler of the admission schema, the API's listener,
    the number of targets online at each poll before the deadline; and the
    texts of two errors. *)
Record surroundings := mkSurroundings {
  serve_fleet : result string string;
  grpc_client : string -> option string;
  math_exp : float64 -> float64;
  sha256 : string -> string;
  schema_error : option string;
  listen : string -> result string string;
  polls : list Z;
  spec_text : spec_error -> string;
  policy_text : policy_error -> string }.

Definition told {E A} (text : E -> string) (r : result E A) : result string A :=
  match r with Ok a => Ok a | Err e => Err (text e) end.

Definition stack_config : Server.Config := Server.mkConfig "127.0.0.1:0" "127.0.0.1:0" true true true true true.

(** [Close]. *)
Definition Close : steps stack_event unit := step? _ := emit ContextCancelled in emit FleetStopped.

(** What [NewStack] puts between the fleet and the wait for it. *)
Definition boot_stack (w : surroundings) (policy addr : string) : steps stack_event string :=
  step? _ := attempt "registry" (told w.(spec_text) (NewFromSpec w.(grpc_client) ("synth=" +:+ addr))) in
  step? _ := emit RegistryStarted in
  step? _ := attempt "dispatcher" (told w.(policy_text) (Dispatch.New w.(math_exp) ∅ policy).1) in
  step? _ := emit DispatcherStarted in
  step? _ := attempt "validator" (Store.to_result w.(schema_error)) in
  step? _ := attempt "authenticator" (NewAuthenticator w.(sha256) harnessToken None) in
  step? api := attempt "api server" (Server.Server_New w.(listen) stack_config) in
  step? _ := emit ServerStarted in sret api.

(** [NewStack]: the address of the API. *)
Definition NewStack (w : surroundings) (numTargets : Z) (policy : string) : steps stack_event string :=
  step? addr := attempt "serve fake fleet" w.(serve_fleet) in
  step? _ := emit (FleetServing addr) in
  step? _ := emit ContextMade in
  step? api := on_error ContextCancelled (on_error FleetStopped (boot_stack w policy addr)) in
  if fleet_online numTargets w.(polls) then sret api
  else step? _ := Close in
       sfail ("only some of " +:+ itoa (if numTargets <=? 0 then 1 else numTargets) +:+ " synthetic targets came online within 30s").

(** Whether the fleet and the context are live after a trace. *)
Definition live (s : bool * bool) (e : stack_event) : bool * bool :=
  match e with
  | FleetServing _ => (true, s.2) | FleetStopped => (false, s.2)
  | ContextMade => (s.1, true) | ContextCancelled => (s.1, false)
  | _ => s
  end.
Definition live_after (t : list stack_event) : bool * bool := fold_left live t (false, false).

Lemma boot_trace w policy addr s :
  fold_left live (boot_stack w policy addr).1 s = s /\ (is_ok (boot_stack w policy addr).2 = true -> ServerStarted ∈ (boot_stack w policy addr).1).
Proof.
  assert (E : s = (s.1, s.2)) by by destruct s. unfold boot_stack.
  destruct (NewFromSpec _ _) as [reg|]; [|done]. destruct ((Dispatch.New _ _ _).1) as [ps|]; [|done].
  destruct w.(schema_error); [done|]. destruct (NewAuthenticator _ _ _) as [a|]; [|done].
  destruct (Server.Server_New _ _) as [api|]; [|done]. split; [done|]. intros _. do 2 right. left.
Qed.

(** A stack that does not come up leaves nothing running, one that does runs
    until it is closed, and closing it stops both. *)
Lemma stack_released w n policy :
  let r := NewStack w n policy in
  live_after r.1 = (match r.2 with Ok _ => (true, true) | Err _ => (false, false) end) /\
  live_after (r.1 ++ Close.1) = (false, false) /\ (is_ok r.2 = true -> ServerStarted ∈ r.1 /\ fleet_online n w.(polls) = true).
Proof.
  unfold NewStack. destruct w.(serve_fleet) as [addr|]; [|done]. cbn [attempt sbind emit sret fst snd app].
  destruct (boot_trace w policy addr (true, true)) as [B1 B2]. unfold on_error, live_after.
  destruct (boot_stack w policy addr) as [t [api|e]]; cbn [fst snd sbind] in *.
  - destruct (fleet_online n w.(polls)); cbn [sret Close sbind emit sfail fst snd app];
      rewrite ?app_nil_r; cbn [fold_left live fst snd]; rewrite ?fold_left_app, ?B1; [|done].
    split_and!; [done|done|]. intros H. split; [|done]. do 2 right. by apply B2.
  - cbn [fold_left live fst snd app]. rewrite <- !app_assoc, !fold_left_app, B1. done.
Qed.
End Stack.

(** ** The submitter of the soak *)

(** One tick after another: the time, the identifier drawn, and whether the
    database answers; [counter] counts what was accepted. *)
Fixpoint submitter (tenant : string) (ticks : list (Z * string * bool)) (submitted : Z) (d : db) : Z * db :=
  match ticks with
  | [] => (submitted, d)
  | (now, id, answers) :: rest =>
      if answers : bool then
        match SeedJob d now id tenant 1000 with
        | (Ok _, d') => submitter tenant rest (submitted + 1) d'
        | (Err _, d') => submitter tenant rest submitted d'
        end
      else submitter tenant rest submitted d
  end.

Lemma SeedJob_size d now id tenant shots r d' :
  SeedJob d now id tenant shots = (r, d') -> size d'.(jobs) = (if is_ok r then S (size d.(jobs)) else size d.(jobs)).
Proof.
  unfold SeedJob, InsertJob, in_tx. destruct (insertJobTx _ _ d) as [[rec' d1]|e] eqn:E; intros [= <- <-]; [|done].
  apply insertJobTx_ok in E as (_ & _ & E & _ & ->). exact (map_size_insert_None _ _ _ E).
Qed.

(** What a soak reports as submitted is what it put into the store. *)
Lemma submitter_counts tenant ticks n d :
  let '(n', d') := submitter tenant ticks n d in Z.of_nat (size d'.(jobs)) = Z.of_nat (size d.(jobs)) + (n' - n) /\ n <= n'.
Proof.
  revert n d. induction ticks as [|[[now id] []] ticks IH]; intros n d; cbn [submitter]; [lia| |apply IH].
  destruct (SeedJob d now id tenant 1000) as [r d1] eqn:E. apply SeedJob_size in E. destruct r; cbn [is_ok] in E.
  - specialize (IH (n + 1) d1). destruct (submitter tenant ticks (n + 1) d1). lia.
  - specialize (IH n d1). destruct (submitter tenant ticks n d1). lia.
Qed.

(** ** The commands *)

Module Command.
Import Stack.

Inductive load_event :=
  | StoreOpened (pool : nat) | StoreClosed | StackBooted (api : string) | StackClosed
  | Summary (line : string) | ReportWritten (path : string) | ReportPrinted (pass : bool).

(** What a run observes: the error of the seeding if there was one, or what
    [RunStorm] and [RunSoak] measure. *)
Record storm_seen := mkStormSeen {
  seed_error : option string; took : Z; ring : cycleRing; reads : list Z; writes : list Z; depth : list (option Z);
  drain_started : Z; drain : list (Z * option Z) }.
Record soak_seen := mkSoakSeen {
  interrupted : option string; elapsed : Z; submitted : Z; start_goroutines : Z; obs : list observation; end_heap : Z;
  end_goroutines : Z; late_rss : Z; end_rss : Z; final_stuck : option Z; final_pending : option Z }.

Definition storm_result (cfg : StormConfig) (o : storm_seen) : result string StormResult :=
  match o.(seed_error) with
  | Some e => Err ("seeding backlog: " +:+ e)
  | None => Ok (RunStorm cfg o.(took) o.(ring) o.(reads) o.(writes) o.(depth) o.(drain_started) o.(drain))
  end.

Definition soak_result (cfg : SoakConfig) (o : soak_seen) : result string SoakResult :=
  match o.(interrupted) with
  | Some e => Err e
  | None => Ok (RunSoak cfg o.(elapsed) o.(submitted) o.(start_goroutines) o.(obs) o.(end_heap) o.(end_goroutines) o.(late_rss)
                 o.(end_rss) o.(final_stuck) o.(final_pending))
  end.

(** [openStore]. *)
Definition openStore (database : string -> result string nat) (dsn env : string) : result string nat :=
  match load_database dsn env with
  | None => Err "no database: pass --db or set LOAD_DATABASE_URL (must be a throwaway load DB, never production)"
  | Some url => database url
  end.

(** [writeReport]: the file if one is asked for, standard output, the verdict. *)
Definition write_report (kind out : string) (write : option string) (violations : list string) : steps load_event unit :=
  step? _ := (if String.eqb out "" then sret tt
              else match write with Some e => sfail ("write report: " +:+ e) | None => emit (ReportWritten out) end) in
  step? _ := emit (ReportPrinted (writeReport kind violations).1) in
  match (writeReport kind violations).2 with
  | Some (ThresholdsBreached k n) => sfail (k +:+ " FAILED: " +:+ itoa (Z.of_nat n) +:+ " threshold breach(es)")
  | _ => sret tt
  end.

(** A command: its store, its stack, its run and its report; both are closed on
    every way out. *)
Definition load_command (store : result string nat) (stack : result string string) (run : steps load_event unit) : steps load_event unit :=
  step? pool := match store with Ok p => sret p | Err e => sfail e end in
  step? _ := emit (StoreOpened pool) in
  deferred StoreClosed (
    step? api := match stack with Ok a => sret a | Err e => sfail e end in
    step? _ := emit (StackBooted api) in
    deferred StackClosed run).

Section Command.
Context (database : string -> result string nat) (w : surroundings).

(** [rabi-load storm] and [rabi-load soak]; a summary that cannot be printed is
    the panic of [humanBytes]. *)
Definition storm_command (dsn env out : string) (jobs_ targets : Z) (o : storm_seen) (write : option string) : steps load_event unit :=
  load_command (openStore database dsn env) (NewStack w targets "").2 (
    step? res := match storm_result (mkStormConfig jobs_ targets "" "" 0 0 0 0 0 0) o with Ok r => sret r | Err e => sfail e end in
    step? _ := emit (Summary (storm_string res)) in
    write_report "storm" out write (StormViolations res)).

Definition soak_command (dsn env out : string) (seconds targets rate : Z) (o : soak_seen) (write : option string) : steps load_event unit :=
  load_command (openStore database dsn env) (NewStack w targets "").2 (
    step? res := match soak_result (mkSoakConfig (seconds * second) targets "" "" rate f0 0 0) o with Ok r => sret r | Err e => sfail e end in
    step? _ := match soak_string res with Some s => emit (Summary s) | None => sfail "index out of range" end in
    write_report "soak" out write (SoakViolations res)).

Lemma write_report_ok kind out write v :
  (write_report kind out write v).2 = Ok tt <-> (out = "" \/ write = None) /\ v = [].
Proof.
  unfold write_report, writeReport. destruct (String.eqb_spec out "") as [->|N]; [|destruct write as [e|]];
    destruct v; cbn; split; try done; try (intros [[?|?] ?]; done); intros _; split; auto.
Qed.

Lemma load_command_ok store stack run :
  ((load_command store stack run).2 = Ok tt <-> is_ok store = true /\ is_ok stack = true /\ run.2 = Ok tt) /\
  (load_command store stack run).1 =
    match store, stack with
    | Err _, _ => []
    | Ok p, Err _ => [StoreOpened p; StoreClosed]
    | Ok p, Ok a => StoreOpened p :: StackBooted a :: run.1 ++ [StackClosed; StoreClosed]
    end.
Proof.
  destruct store as [p|]; [|by split; [split; [done|intros (? & _)]|]].
  destruct stack as [a|]; [|by split; [split; [done|intros (_ & ? & _)]|]].
  split; [cbn; split; [done|by intros (_ & _ & ?)]|]. cbn. by rewrite <- app_assoc.
Qed.

(** Whatever happened, the stack and then the store are closed if they were
    opened. *)
Lemma load_command_closes store stack run :
  let t := (load_command store stack run).1 in
  (forall p, StoreOpened p ∈ t -> exists t', t = t' ++ [StoreClosed]) /\
  (forall a, StackBooted a ∈ t -> exists t', t = t' ++ [StackClosed; StoreClosed]).
Proof.
  cbv zeta. rewrite (proj2 (load_command_ok store stack run)). destruct store as [p|]; [|by split; intros ? ?%elem_of_nil].
  destruct stack as [a|]; [|split; [intros _ _; by exists [StoreOpened p]|]].
  - assert (E : StoreOpened p :: StackBooted a :: run.1 ++ [StackClosed; StoreClosed] =
                (StoreOpened p :: StackBooted a :: run.1 ++ [StackClosed]) ++ [StoreClosed]) by (cbn; by rewrite <- app_assoc).
    split; intros ? _; [rewrite E; by eexists|]. by exists (StoreOpened p :: StackBooted a :: run.1).
  - intros a H. do 2 (apply elem_of_cons in H as [H|H]; [discriminate H|]). by apply elem_of_nil in H.
Qed.

(** The exit of [rabi-load storm]: 0 exactly when the database was named and
    opened, the stack came up, every job was seeded, the report was written
    where it was asked for, and no threshold was breached. *)
Theorem storm_verdict dsn env out jobs_ targets o write :
  (storm_command dsn env out jobs_ targets o write).2 = Ok tt <->
  is_ok (openStore database dsn env) = true /\ is_ok (NewStack w targets "").2 = true /\ o.(seed_error) = None /\
  (out = "" \/ write = None) /\
  StormViolations (RunStorm (mkStormConfig jobs_ targets "" "" 0 0 0 0 0 0) o.(took) o.(ring) o.(reads) o.(writes) o.(depth)
                     o.(drain_started) o.(drain)) = [].
Proof.
  unfold storm_command. rewrite (proj1 (load_command_ok _ _ _)).
  unfold storm_result. destruct o.(seed_error) as [e|]; cbn [sbind sfail sret emit fst snd].
  - split; [by intros (_ & _ & ?)|by intros (_ & _ & ? & _)].
  - rewrite write_report_ok. split; [intros (? & ? & ? & ?)|intros (? & ? & _ & ? & ?)]; by split_and!.
Qed.

(** And of [rabi-load soak], which also has to print its heap sizes. *)
Theorem soak_verdict dsn env out seconds targets rate o write :
  let res := RunSoak (mkSoakConfig (seconds * second) targets "" "" rate f0 0 0) o.(elapsed) o.(submitted) o.(start_goroutines) o.(obs)
               o.(end_heap) o.(end_goroutines) o.(late_rss) o.(end_rss) o.(final_stuck) o.(final_pending) in
  (soak_command dsn env out seconds targets rate o write).2 = Ok tt <->
  is_ok (openStore database dsn env) = true /\ is_ok (NewStack w targets "").2 = true /\ o.(interrupted) = None /\
  is_Some (soak_string res) /\ (out = "" \/ write = None) /\ SoakViolations res = [].
Proof.
  cbv zeta. unfold soak_command. rewrite (proj1 (load_command_ok _ _ _)).
  unfold soak_result. destruct o.(interrupted) as [e|]; cbn [sbind sfail sret emit fst snd].
  - split; [by intros (_ & _ & ?)|by intros (_ & _ & ? & _)].
  - destruct (soak_string _) as [line|]; cbn [sbind sfail sret emit fst snd].
    + rewrite write_report_ok. split; [intros (? & ? & ? & ?)|intros (? & ? & _ & _ & ? & ?)]; split_and!; try done; by eexists.
    + split; [by intros (_ & _ & ?)|by intros (_ & _ & _ & [? ?] & _)].
Qed.
End Command.
End Command.

(** ** Runs *)

Module Runs.
Import Seed Stack Command.

(** One goroutine seeds one job. *)
Lemma seeding_complete_witness :
  exists s, rtc (seeding_step "acme/qa") (seeding_init 1 1 empty_db) s /\ exists id, s.(ids) !! 0%nat = Some id /\ SeedProps.stored "acme/qa" s.(base) id.
Proof.
  set (s0 := seeding_init 1 1 empty_db). set (d := (SeedJob empty_db 5 "j1" "acme/qa" 1000).2).
  set (s1 := mkSeeding [] [Inserting 0] ∅ None empty_db). set (s2 := mkSeeding [] [Waiting] (<[0%nat := "j1"]> ∅) None d).
  set (s3 := mkSeeding [] [Returned] (<[0%nat := "j1"]> ∅) None d).
  assert (R : rtc (seeding_step "acme/qa") s0 s3).
  { eapply rtc_l; [left; exact (take_index _ s0 0 0 [] eq_refl eq_refl)|].
    eapply rtc_l; [left; exact (seeded _ s1 0 0 5 "j1" _ d eq_refl eq_refl)|].
    eapply rtc_l; [left; exact (queue_drained _ s2 0 eq_refl eq_refl)|apply rtc_refl]. }
  exists s3. split; [exact R|].
  assert (A : seeded_all s3) by (intros [|[|k]] x H; [by injection H as <-|done|done]).
  destruct (SeedProps.seeding_complete "acme/qa" 1 1 empty_db s3 (Nat.lt_0_1) R A eq_refl) as [H _].
  exact (H 0%nat Nat.lt_0_1).
Defined.

Definition demo_surroundings (polls : list Z) : surroundings :=
  mkSurroundings (Ok "127.0.0.1:1") (fun _ => None) (fun x => x) (fun x => x) None (fun a => Ok a) polls (fun _ => "spec") (fun _ => "policy").

Definition demo_storm (polls : list Z) : steps load_event unit :=
  storm_command (fun _ => Ok 2%nat) (demo_surroundings polls) "" "postgres://load" "out.json" 10 2
    (mkStormSeen None second (newCycleRing 4) [10 ^ 6] [10 ^ 6] [Some 10] 0 [(0, Some 0)]) None.

Example demo_storms :
  (demo_storm [0; 2]).2 = Ok tt /\
  (demo_storm [0; 1]).2 = Err "only some of 2 synthetic targets came online within 30s" /\
  (demo_storm [0; 1]).1 = [StoreOpened 2; StoreClosed] /\
  last (demo_storm [0; 2]).1 = Some StoreClosed.
Proof. vm_compute. split_and!; reflexivity. Qed.
End Runs.
