(* ===== verification/Certify.v ===== *)
(** * The certification command — src/cmd/rabi-conformance/main.go

    What [rabi-conformance run] asks, signs, writes and answers around a run of
    the suite ([Conformance]): the target, the key, the report and its
    artifacts.  ed25519, PEM, X.509 and JSON are arguments, and so is the order
    in which Go walks the map of the artifacts. *)

From S2P Require Import Prelude Float64 GoLib Csv Fmt Auth Prog Adapter AdapterProps Conformance FakeConforms.

Section Certify.
Context {Key Pub : Type} (public : Key -> Pub)
  (ed25519_sign : Key -> string -> string) (ed25519_verify : Pub -> string -> string -> bool)
  (marshal : Report -> option string).

(** ** The signing key *)

(** What a PKCS#8 block holds. *)
Inductive parsed_key := Ed25519 (k : Key) | OtherKey.

Context (GenerateKey : result string Key) (ReadFile : string -> result string string)
  (pem_decode : string -> option string) (ParsePKCS8 : string -> result string parsed_key).

Definition loadOrGenerateKey (path : string) : result string (Key * bool) :=
  if String.eqb path "" then let? key := GenerateKey in Ok (key, true)
  else
    let? raw := ReadFile path in
    match pem_decode raw with
    | None => Err (path +:+ ": not PEM")
    | Some block =>
        match ParsePKCS8 block with
        | Err e => Err (path +:+ ": " +:+ e)
        | Ok OtherKey => Err (path +:+ ": not an ed25519 key")
        | Ok (Ed25519 key) => Ok (key, false)
        end
    end.

(** ** The artifacts *)

(** The output directory by file name, the error of making it, and how a
    write of a file fails, with what it then holds. *)
Context (MkdirAll : option string) (WriteFile : string -> option (string * string))
  (range : list (string * string) -> list (string * string))
  (MarshalPKIX : Pub -> result string string) (pem_encode : string -> string).

Fixpoint write_files (l : list (string * string)) (dir : gmap string string) : result string unit * gmap string string :=
  match l with
  | [] => (Ok tt, dir)
  | (name, data) :: rest =>
      match WriteFile name with
      | Some (e, remains) => (Err e, <[name := remains]> dir)
      | None => write_files rest (<[name := data]> dir)
      end
  end.

Definition writeArtifacts (report : Report) (key : Key) (generated : bool) (dir : gmap string string)
  : result string unit * gmap string string :=
  match MkdirAll with
  | Some e => (Err e, dir)
  | None =>
      match CanonicalJSON marshal report, Sign marshal ed25519_sign report key with
      | Some doc, Some sig =>
          let files := [("report.json", doc); ("report.md", Markdown report); ("report.sig", sig)] in
          if generated then
            match MarshalPKIX (public key) with
            | Err e => (Err e, dir)
            | Ok der => write_files (range (files ++ [("report.pub", pem_encode der)])) dir
            end
          else write_files (range files) dir
      | _, _ => (Err "json", dir)
      end
  end.

(** ** run *)

Record run_flags := mkRunFlags {
  target : string; target_id : string; out_dir : string; key_path : string; notes : list string; task_timeout : Z }.

(** The client of the adapter's address, its list of targets and their
    capabilities; the clock; and the suite's run, [None] when it panics. *)
Context (tx : texts) (NewClient : string -> option string) (listed : result status (list string))
  (capabilities : string -> result status Capabilities) (nanos now : Z) (version : string)
  (run : Suite -> option (list CategoryResult)).

Definition firstTargetID (addr : string) : result string string :=
  match NewClient addr with
  | Some e => Err e
  | None =>
      match listed with
      | Err e => Err ("ListTargets: " +:+ error_text tx e)
      | Ok [] => Err "adapter lists no targets"
      | Ok (id :: _) => Ok id
      end
  end.

Definition dial_suite (addr id : string) (timeout : Z) : result string Suite :=
  match NewClient addr with
  | Some e => Err e
  | None => let? su := Dial tx (capabilities id) id nanos in Ok (mkSuite su.(TargetID) su.(Caps) su.(KeyPrefix) timeout)
  end.

(** [%-28s]. *)
Definition pad_right (n : nat) (s : string) : string := s +:+ spaces (n - rune_count s).

Definition category_line (c : CategoryResult) : string :=
  "  " +:+ pad_right 28 c.(CName) +:+ " " +:+ (if c.(CPassed) then "pass" else "FAIL").

Definition certifying_line (f : run_flags) (id : string) : string :=
  "certifying " +:+ f.(target) +:+ " target " +:+ quote id +:+ " (harness " +:+ version +:+ ", spec " +:+ SpecVersion +:+ ")".

(** Why the command exits with 1: something went wrong on the way, or the
    adapter does not conform. *)
Inductive run_error := Broke (msg : string) | Nonconformant.

Definition error_line (f : run_flags) (e : run_error) : string :=
  match e with Broke m => m | Nonconformant => "conformance FAILED (report in " +:+ f.(out_dir) +:+ ")" end.

Definition report_for (f : run_flags) (su : Suite) (cats : list CategoryResult) : Report :=
  BuildReport version f.(target) su cats now f.(notes).

(** The lines printed, the error and the directory; [None] is a panic of the
    suite, which leaves no report. *)
Definition certify (f : run_flags) (dir : gmap string string) : option (list string * option run_error * gmap string string) :=
  match (if String.eqb f.(target_id) "" then firstTargetID f.(target) else Ok f.(target_id)) with
  | Err e => Some ([], Some (Broke e), dir)
  | Ok id =>
      match dial_suite f.(target) id f.(task_timeout) with
      | Err e => Some ([], Some (Broke e), dir)
      | Ok su =>
          match run su with
          | None => None
          | Some cats =>
              let report := report_for f su cats in
              match loadOrGenerateKey f.(key_path) with
              | Err e => Some ([certifying_line f id], Some (Broke e), dir)
              | Ok (key, generated) =>
                  match writeArtifacts report key generated dir with
                  | (Err e, dir') => Some ([certifying_line f id], Some (Broke e), dir')
                  | (Ok _, dir') =>
                      let out := certifying_line f id :: (category_line <$> report.(Categories)) in
                      if report.(RPassed) then Some (out ++ ["PASSED (report in " +:+ f.(out_dir) +:+ ")"], None, dir')
                      else Some (out, Some Nonconformant, dir')
                  end
              end
          end
      end
  end.

(** ** What a certificate is worth *)

Lemma write_files_ok l dir u dir' :
  write_files l dir = (Ok u, dir') -> NoDup l.*1 ->
  (forall name data, (name, data) ∈ l -> dir' !! name = Some data) /\
  (forall name, name ∉ l.*1 -> dir' !! name = dir !! name).
Proof.
  revert dir. induction l as [|[name data] l IH]; intros dir; cbn [write_files].
  { intros [= _ <-] _. split; [by intros ? ? ?%elem_of_nil|done]. }
  destruct (WriteFile name) as [[e remains]|]; [done|]. intros H N. rewrite fmap_cons in N. cbn [fst] in N.
  apply NoDup_cons in N as [Hn N]. destruct (IH _ H N) as [H1 H2]. split.
  - intros n x [[= -> ->]|Hx]%elem_of_cons; [|by apply H1]. rewrite H2 by done. apply lookup_insert_eq.
  - intros n Hx. rewrite fmap_cons in Hx. cbn [fst] in Hx. apply not_elem_of_cons in Hx as [Hne Hx].
    rewrite H2 by done. by apply lookup_insert_ne.
Qed.

Hypothesis ed25519_law : forall key doc, ed25519_verify (public key) doc (ed25519_sign key doc) = true.
Hypothesis range_law : forall l, range l ≡ₚ l.

(** Artifacts written without an error: the report, what it says in prose, and
    a signature of these very bytes that the public key accepts. *)
Definition signed (report : Report) (key : Key) (dir : gmap string string) : Prop :=
  exists doc sig, CanonicalJSON marshal report = Some doc /\ dir !! "report.json" = Some doc /\
    dir !! "report.md" = Some (Markdown report) /\ dir !! "report.sig" = Some sig /\
    ed25519_verify (public key) doc sig = true /\ Verify marshal ed25519_verify report (public key) sig = true.

Lemma written_signed report key doc l dir u dir' :
  CanonicalJSON marshal report = Some doc -> NoDup l.*1 -> write_files (range l) dir = (Ok u, dir') ->
  [("report.json", doc); ("report.md", Markdown report); ("report.sig", ed25519_sign key doc)] ⊆ l ->
  signed report key dir' /\ (forall name data, (name, data) ∈ l -> dir' !! name = Some data).
Proof.
  intros C N W Hs. assert (N' : NoDup (range l).*1) by by rewrite range_law.
  destruct (write_files_ok _ _ _ _ W N') as [H _].
  assert (H' : forall name data, (name, data) ∈ l -> dir' !! name = Some data) by (intros n x Hx; apply H; by rewrite range_law).
  split; [|done]. exists doc, (ed25519_sign key doc). split_and!; [done| | | |apply ed25519_law|].
  - apply H', Hs. left.
  - apply H', Hs. right. left.
  - apply H', Hs. do 2 right. left.
  - unfold Verify. rewrite C. apply ed25519_law.
Qed.

Lemma writeArtifacts_ok report key generated dir u dir' :
  writeArtifacts report key generated dir = (Ok u, dir') ->
  signed report key dir' /\
  (if generated then exists der, MarshalPKIX (public key) = Ok der /\ dir' !! "report.pub" = Some (pem_encode der)
   else dir' !! "report.pub" = dir !! "report.pub").
Proof.
  unfold writeArtifacts. destruct MkdirAll; [done|]. destruct (CanonicalJSON marshal report) as [doc|] eqn:C; [|done].
  unfold Sign. rewrite C. set (files := [_; _; _]).
  assert (F : NoDup files.*1) by (cbn; by apply (bool_decide_unpack _)).
  destruct generated.
  - destruct (MarshalPKIX (public key)) as [der|] eqn:M; [|done]. intros W.
    destruct (written_signed report key doc (files ++ [("report.pub", pem_encode der)]) dir u dir' C) as [S P]; [|done| |].
    + cbn. by apply (bool_decide_unpack _).
    + intros x Hx. apply elem_of_app. by left.
    + split; [done|]. exists der. split; [done|]. apply P. apply elem_of_app. right. left.
  - intros W. destruct (written_signed report key doc files dir u dir' C F W) as [S _]; [done|]. split; [done|].
    assert (N' : NoDup (range files).*1) by by rewrite range_law.
    apply (write_files_ok _ _ _ _ W N'). rewrite range_law. cbn. by apply (bool_decide_unpack _).
Qed.

Lemma forallb_passed cats : Passed cats = true <-> Forall (fun c => c.(CPassed) = true) cats.
Proof. unfold Passed. rewrite forallb_forall, Forall_forall. by setoid_rewrite list_elem_of_In. Qed.

(** What [rabi-conformance run] leaves: when it exits with 0 every
    category of the run passed, and when it exits because the adapter does not
    conform one did not; in both cases the directory holds the report on that
    run, its prose, and a signature of the report's very bytes that the public
    half of the signing key accepts, with that half beside it if the key was
    generated. *)
Lemma certify_signed f dir out err dir' :
  certify f dir = Some (out, err, dir') -> err = None \/ err = Some Nonconformant ->
  exists su cats key generated, run su = Some cats /\ loadOrGenerateKey f.(key_path) = Ok (key, generated) /\
    signed (report_for f su cats) key dir' /\
    (if generated then exists der, MarshalPKIX (public key) = Ok der /\ dir' !! "report.pub" = Some (pem_encode der)
     else dir' !! "report.pub" = dir !! "report.pub") /\
    (err = None <-> Forall (fun c => c.(CPassed) = true) cats).
Proof.
  unfold certify. intros H Herr. destruct (if String.eqb f.(target_id) "" then _ else _) as [id|]; [|injection H as <- <- <-; by destruct Herr].
  destruct (dial_suite _ _ _) as [su|]; [|injection H as <- <- <-; by destruct Herr].
  destruct (run su) as [cats|] eqn:R; [|done].
  destruct (loadOrGenerateKey _) as [[key generated]|] eqn:K; [|injection H as <- <- <-; by destruct Herr].
  destruct (writeArtifacts _ _ _ _) as [[u|e] d'] eqn:W; [|injection H as <- <- <-; by destruct Herr].
  apply writeArtifacts_ok in W as [S P]. exists su, cats, key, generated. split; [done|]. split; [done|].
  rewrite <- forallb_passed. unfold report_for, BuildReport in H. cbn [RPassed Categories] in H.
  destruct (Passed cats); injection H as <- <- <-; (split; [exact S|]; split; [exact P|]; by split).
Qed.

(** The end of a certification of the in-memory adapter, whatever it does in
    between (up to the reads of [FakeConforms]): with a key and a disk that work the command ends, and it exits
    with 0 exactly when the target keeps to its shot limit and its sessions
    are not broken. *)
Lemma certify_fake slack lat spec rounds t0 f dir key generated :
  let sp := with_defaults spec in
  let fake := fake_service slack lat (undisturbed slack) in
  fixture slack lat sp -> (3 <= rounds)%nat -> 0 <= t0 ->
  (forall su, exists s', @suite_runs _ fake (categories tx rounds su) (mkServer (start [spec] t0) None) (run su) s') ->
  NewClient f.(target) = None -> listed = Ok [sp.(ID)] -> capabilities = GetCapabilities (Adapter.New [spec]) ->
  f.(target_id) = "" -> f.(task_timeout) = 0 -> loadOrGenerateKey f.(key_path) = Ok (key, generated) ->
  (forall r d, exists d', writeArtifacts r key generated d = (Ok tt, d')) ->
  exists out err dir', certify f dir = Some (out, err, dir') /\ (err = None \/ err = Some Nonconformant) /\
    (err = None <-> sp.(IgnoreMaxShots) = false /\ sp.(BrokenSessions) = false).
Proof.
  intros sp fake F Hr H0 HR HN HL HC Hid Ht HK HW.
  assert (Hcap : exists caps, GetCapabilities (Adapter.New [spec]) sp.(ID) = Ok caps).
  { unfold GetCapabilities, Adapter.spec. change (Adapter.New [spec]).(targets) with ({[sp.(ID) := sp]} : gmap string TargetSpec).
    rewrite lookup_singleton_eq. by eexists. }
  destruct Hcap as [caps Hcap].
  assert (HD : dial_suite f.(target) sp.(ID) f.(task_timeout) = Dial tx (capabilities sp.(ID)) sp.(ID) nanos).
  { unfold dial_suite, Dial. by rewrite HN, HC, Hcap, Ht. }
  unfold certify, firstTargetID. rewrite Hid, HN, HL. cbn [String.eqb]. rewrite HD.
  destruct (Dial tx (capabilities sp.(ID)) sp.(ID) nanos) as [su|] eqn:D; [|by unfold Dial in D; rewrite HC, Hcap in D].
  rewrite HC in D. destruct (fake_certified slack lat spec tx rounds nanos t0 su F Hr H0 D) as [C _].
  destruct (HR su) as [s' R]. destruct (C _ _ R) as (cats & -> & _ & P). rewrite HK.
  destruct (HW (report_for f su cats) dir) as [dir' ->].
  assert (V : (report_for f su cats).(RPassed) = negb sp.(IgnoreMaxShots) && negb sp.(BrokenSessions)).
  { unfold report_for, BuildReport, Passed. cbn [RPassed].
    assert (G : forall l, forallb CPassed l = forallb id (CPassed <$> l)) by (induction l as [|c l IH]; cbn; [done|by rewrite IH]).
    change (with_defaults spec) with sp in P. rewrite G, P.
    generalize sp.(IgnoreMaxShots), sp.(BrokenSessions). by intros [] []. }
  rewrite V. destruct (negb sp.(IgnoreMaxShots) && negb sp.(BrokenSessions)) eqn:E.
  - eexists _, None, dir'. split; [reflexivity|]. split; [by left|]. split; [intros _; by to_prop|done].
  - eexists _, (Some Nonconformant), dir'. split; [reflexivity|]. split; [by right|]. split; [done|].
    intros [A B]. by rewrite A, B in E.
Qed.

(** With a key of one's own the directory keeps the public half of an earlier
    run, which need not be the one that accepts the new signature. *)
Lemma stale_public_key report key dir u dir' old :
  writeArtifacts report key false dir = (Ok u, dir') -> dir !! "report.pub" = Some old -> dir' !! "report.pub" = Some old.
Proof. intros W <-. by apply writeArtifacts_ok in W as [_ P]. Qed.
End Certify.

(** ** A certificate *)

(** Keys are numbers, a signature names the key and the text. *)
Definition demo_sign (k : Z) (doc : string) : string := itoa k +:+ ":" +:+ doc.
Definition demo_verify (p : Z) (doc sig : string) : bool := String.eqb sig (demo_sign p doc).
Definition demo_report_json (r : Report) : option string := Some (if r.(RPassed) then "passed" else "failed").
Definition demo_run_flags : run_flags := mkRunFlags "localhost:50051" "" "conformance-report" "" [] 0.

(** A run of one category, which passes or not. *)
Definition demo_outcome (ok : bool) (_ : Suite) : option (list CategoryResult) :=
  Some [mkCategory "cat1-capability-honesty" ok (if ok then [] else ["shots above the declared maximum"]) []].

Definition demo_certify (ok : bool) : option (list string * option run_error * gmap string string) :=
  certify (Key := Z) (fun k => k) demo_sign demo_report_json (Ok 7) (fun _ => Err "no such file") (fun _ => None) (fun _ => Err "no key")
    None (fun _ => None) (fun l => rev l) (fun p => Ok (itoa p)) (fun der => "-----" +:+ der +:+ "-----")
    demo_texts (fun _ => None) (Ok ["q"]) (GetCapabilities (Adapter.New [selftest_spec false])) 7 0 "dev" (demo_outcome ok)
    demo_run_flags ∅.

Definition certified_files (r : option (list string * option run_error * gmap string string))
  : option (list string * option run_error * list (option string)) :=
  match r with
  | Some (out, err, dir) => Some (out, err, (fun n => dir !! n) <$> ["report.json"; "report.sig"; "report.pub"])
  | None => None
  end.

Example demo_certified :
  certified_files (demo_certify true) =
    Some (["certifying localhost:50051 target " +:+ quote "q" +:+ " (harness dev, spec v0.2)";
           "  cat1-capability-honesty      pass"; "PASSED (report in conformance-report)"], None,
          [Some "passed"; Some "7:passed"; Some "-----7-----"]) /\
  certified_files (demo_certify false) =
    Some (["certifying localhost:50051 target " +:+ quote "q" +:+ " (harness dev, spec v0.2)";
           "  cat1-capability-honesty      FAIL"], Some Nonconformant,
          [Some "failed"; Some "7:failed"; Some "-----7-----"]).
Proof. vm_compute. split; reflexivity. Qed.

Lemma certify_signed_witness :
  exists out dir', demo_certify true = Some (out, None, dir') /\
    exists doc sig, dir' !! "report.json" = Some doc /\ dir' !! "report.sig" = Some sig /\ demo_verify 7 doc sig = true.
Proof.
  assert (E : exists out dir', demo_certify true = Some (out, None, dir')) by
    (destruct (demo_certify true) as [[[out err] d]|] eqn:D; pose proof (proj1 demo_certified) as H; rewrite D in H;
      [injection H as _ -> _; by exists out, d|discriminate H]).
  destruct E as (out & dir' & E). exists out, dir'. split; [exact E|].
  destruct (certify_signed (Key := Z) (fun k => k) demo_sign demo_verify demo_report_json (Ok 7) (fun _ => Err "no such file") (fun _ => None)
    (fun _ => Err "no key") None (fun _ => None) (fun l => rev l) (fun p => Ok (itoa p)) (fun der => "-----" +:+ der +:+ "-----")
    demo_texts (fun _ => None) (Ok ["q"]) (GetCapabilities (Adapter.New [selftest_spec false])) 7 0 "dev" (demo_outcome true)
    (fun k doc => String.eqb_refl _) (fun l => Permutation_sym (Permutation_rev l))
    demo_run_flags ∅ out None dir' E (or_introl eq_refl)) as (su & cats & key & generated & _ & K & (doc & sig & _ & D & _ & S & V & _) & _).
  injection K as <- <-. exists doc, sig. exact (conj D (conj S V)).
Defined.
